(* ===== verification/_CoqProject ===== *)
-Q . S2P
Prelude.v
Ids.v
GoTime.v
Clock.v
Float64.v
Json.v
JsonText.v
RawText.v
Action.v
DurationText.v
Cel.v
Validate.v
Canon.v
Db.v
Registry.v
Deliveries.v
Messages.v
Wire.v
Executor.v
Scheduler.v
System.v
Api.v
Client.v
Tabwriter.v
Cli.v
Sound.v
Answers.v
Idle.v
Open.v
Loop.v
Settings.v
Daemon.v
Lifecycle.v
Restart.v
Boot.v
Lives.v
Ensure.v
Commands.v
