(* ===== verification/Prelude.v ===== *)
(** * Sonata: a verification library

    Sonata is a local event bus and job runner.  A daemon keeps, in one SQLite
    database, messages (immutable, grouped in queues), actions (versioned
    definitions of a program to run for the messages of some queues) and
    deliveries (the processing state of one message for one action).  Request
    handlers append messages and manage actions; a scheduler goroutine selects
    deliveries, decides by CEL filters whether they run, hands them to worker
    goroutines that run subprocesses, and records the outcomes, whose standard
    output becomes new messages.

    ** The parts, and where they are modelled

    - Prelude: results and the error sentinels (store.ErrNotFound,
      store.ErrNotDead, workflow.ErrInvalidAction, api.ErrInvalid), strings as
      bytes with SQLite's BINARY order, decimal and hexadecimal printing,
      integer and list lemmas, shared tactics.
    - Ids: internal/store/id.go.  [NewID] over the process state [idState];
      the class [IdSource] is the interface the store is proved against, with
      [id_stream] (NewID on a stream of clock readings and random bytes) as
      its instance.
    - GoTime: the text of time.RFC3339Nano and its parsing, and how the order
      of such texts relates to the order of instants.
    - Clock: the fake clock of internal/scheduler/clock.go.
    - Float64: rounding of binary64 for JSON numbers and the retry jitter.
    - Json, JsonText: encoding/json: parsing, validity, printing, decoding into
      structs with Go's case-folding field match and duplicate and null rules;
      what is printed parses to what was printed.
    - RawText: json.RawMessage: compacting, what the compacted text decodes to,
      and decoders of structs, slices and pointers that keep the text of a raw
      field.
    - Action, Validate, Cel: internal/workflow.  Definitions and their
      decoding; Validate with its regular expressions matched by derivatives;
      compilation, evaluation and the program cache around cel-go, which is the
      class [CelLib] (no law is assumed of it; [toy_cel] is an instance).
    - Canon, DurationText: normalize, Canonical and ParseJSON of
      internal/workflow/action.go: the canonical text of a definition, with the
      printing of arbitrary JSON numbers through float64 and of durations.
    - Db: the tables of the migrations and the transaction discipline of
      internal/store/store.go as a state monad over a [world]: the database,
      the identifier generator and the faults the database is still going to
      report.
    - Registry, Deliveries, Messages: internal/store/actions.go, deliveries.go
      and messages.go, one definition per method, each UPDATE as a row
      predicate and a row function.
    - Wire: the types of internal/api/types.go as codecs, from the list of their
      tagged fields; [Lawful] is the interface through which Api, Client and Cli
      use them.
    - Executor: internal/executor/executor.go, over the behaviour of one
      process.
    - Scheduler: internal/scheduler/scheduler.go and reap.go, one function per
      method over the state [sched]; the workers in flight are its list
      [s_running].
    - System: the loop of Run, interleaved with handlers and workers, as the
      step relation [step], abstracting from what wakes the loop.
    - Loop: Run itself with its program points, the wake-up channel, the timer,
      the control channel and drain, as the step relation [run_loop].
    - Api: internal/api.  [ServeHTTP] routes a body to a handler, [handle]
      decodes it and maps errors to status codes, one function per endpoint
      over the store and the scheduler, and [respond] writes the answer.
    - Client: internal/api/client.go, each method over a transport; [serving] is
      the transport that ends in [ServeHTTP].
    - Tabwriter: text/tabwriter as the listings use it.
    - Cli: internal/cli, each command over the client, with its exit codes and
      what it prints.
    - Commands: the command tree of internal/cli (root.go and the new...Cmd):
      flags, arguments, and the way from what cobra finds to the exit code.
    - Sound: the invariant of the store, [world_sound], and that everything the
      daemon does to it keeps it, as the relation [daemon_op].
    - Answers: over a store with that invariant, what cannot go wrong.
    - Idle: the requests in flight of internal/api/server.go and the two probes
      by which daemon.go decides that it is idle, as the relation [serve_step]
      over the system.
    - Open: internal/store/store.go: Open, the data source names of its handles,
      Close, and migrate over the embedded scripts, on a database file that may
      fail at any round trip.
    - Settings: internal/config, and what Spawn passes to the daemon; viper is
      a parameter with the contract [env_wins].
    - Daemon: the protocol between the processes of one machine (Run,
      EnsureRunning and Stop of internal/daemon) on the daemon lock, the start
      lock and the socket file, as the relations [move] and [loose_move].
    - Restart: many lives of the daemon over one database, each starting with
      ReapOrphans and ending anywhere, as the relation [lifetime].
    - Lifecycle: the decisions of one process: the pid in the lock file, the
      polls of AcquireWait and Stop, the down command, the idle tracker.
    - Boot: Run of internal/daemon/daemon.go, call by call with its deferred
      calls, over what they answer.
    - Lives: whole processes, Run with what it serves, over the database, as the
      relation [process].
    - Ensure: EnsureRunning and Spawn of internal/daemon (ensure.go, spawn.go),
      the child's command line and environment, and what it makes of them.

    How they interact: Commands runs Cli, Cli calls Client, whose requests
    [serving] hands to Api; Api writes through Registry, Messages and Deliveries
    and tells the Scheduler; System and Loop interleave all of it, Idle adds the
    requests in flight, Boot and Ensure bring the process up and down, Lives puts
    them together, and Restart chains the lives.

    ** What the theorems show

    - System and Loop.  Along every interleaving the busy counter that keeps the
      daemon alive is exact up to work not yet announced, no delivery is executed
      twice at once, running deliveries are claimed, launches respect the
      concurrency limit ([sys_invariant], [step_launches]); every delivery
      follows its life cycle and none is lost ([life_cycle]); no wake-up is lost
      ([no_lost_wakeup]); the dispatch of the code is a path of the loop
      ([dispatch_runs]); a stop waits for what is in flight ([drain_complete]).
      Across crashes and restarts no delivery is lost and each one's outputs are
      emitted at most once, when it is done ([outputs_once]), for processes as Run
      makes them ([process_lifetime], [outputs_once_processes]).
    - Sound, Answers and Idle.  The store stays well typed as long as the daemon
      lives ([store_typed]); on such a store, with a database that answers, no
      request meets an internal error ([never_internal]) and no result is lost:
      it is stored with its outputs, or as a failure ([outcome_stored]); the daemon does not stop with work it was told of
      ([idle_decision]), which hangs on the order of its probes
      ([probes_swapped]).
    - Api.  Every request is a path of the system ([request_refines]); sending,
      applying, disabling and replaying do what they answer, from the bytes of
      the request ([send_outcome], [apply_canonical], [disable_settles],
      [replay_status]).
    - Wire, Client and Cli.  What is written is read (the instances of
      [Lawful]; [compact_reads] for raw JSON); a call of the client is a call of
      the handler ([client_calls]); a message goes from standard input into the
      store and its identifier back ([send_command]); the listings print
      aligned tables ([tables_align], by [tabwriter_rows]); the exit code says
      what happened ([exit_contract], [status_exit],
      [bad_arguments_operational]), and the tree is well formed
      ([tree_well_formed]).
    - Scheduler.  A dispatch terminates ([dispatch_terminates]), decides
      correctly ([vet_decision_correct]) and leaves disabled actions alone
      ([dispatch_spares_disabled]); outcomes are stored whole
      ([apply_outcome]); an execution reads its message as stored
      ([envelope_reads]) and its outputs carry their lineage
      ([buildOutputs_lineage], [parseNDJSON_lines]); crash recovery ([ReapOrphans_resets]); the retry
      delay ([backoff_bounds]) and where its guard and its conversion fail
      ([backoff_shift_wraps], [backoff_overflows]).  Two theorems exhibit busy loops
      ([armTimer_spins], [dispatch_spins_on_failing_write]).
    - Store.  Guarded transitions succeed exactly in their source state
      ([ClaimDelivery_exclusive], [FailDelivery_outcome],
      [ReplayDelivery_outcome], [CancelDeliveries_exact]); appends and
      completions are atomic and fan out exactly to the subscribers
      ([AppendMessage_fanout], [CompleteDelivery_outbox]), and appends do not
      fail ([AppendMessage_total]); selection, retry times and paging
      ([NextEligible_oldest], [NextRetryAt_earliest], [ListMessages_pages]);
      the registry refines a map from names to version histories
      ([ApplyAction_refines], [SetActionEnabled_refines],
      [GetAction_history]).
    - Open.  Each migration runs once and in order, however often a start is cut
      short ([migrate_once]); [Open_handles] is what stays open.
    - Workflow.  Validation is equivalent to a declarative specification
      ([Validate_correct]); the canonical text of a definition decodes to it
      ([Canonical_round_trip]); the cache is transparent ([Cache_transparent]);
      correlation keys ([correlationKey_numbers]).
    - Daemon.  The daemon lock makes the socket its holder's
      ([lock_owns_socket]); as long as EnsureRunning spawns every daemon there is
      one at a time and every client reaches it ([one_live_daemon]); a
      foreground daemon can lose its socket to a start, and stays wedged
      ([wedged_stays], [race_run]); the daemon idles out exactly when it should
      ([idle_exact]); down finds and stops the right process ([down_outcome]);
      waiting for a lock ends ([AcquireWait_polls]); the daemon runs under its
      parent's configuration ([Env_round_trip]), but for an idle timeout of zero
      ([zero_does_not_disable]).  Run keeps the order of its resources
      ([Run_disciplined]), is a path of the protocol ([Run_refines]) and serves
      only after recovery ([Run_serves]); EnsureRunning meets its
      specification, field by field an equivalence with what its calls answered
      ([EnsureRunning_outcome], by [ensure_spec]).
    - Identifiers are strictly increasing whatever the clock does
      ([NewID_strictly_increasing]); the executor's buffers and outcomes
      ([cappedBuffer_exact], [tailBuffer_exact], [Execute_outcome]).

    ** Conventions and bounds

    Instants are nanoseconds since 1970 (Z), in the range Go formats with a
    four-digit year where a theorem needs the text.  Identifier timestamps and
    the shift of the backoff are wrapped to their widths where they can
    overflow, and the jittered delay is converted to an int64 as amd64 does it; counters of rows are unbounded.  The loops of dispatch and
    cancelSuperseded run on fuel: more fuel than there are pending or failed
    rows is enough ([dispatch_terminates]).  The JSON parser's fuel is
    twice the length of its input plus two, which is enough
    ([parse_fuel_enough]), and its nesting limit is encoding/json's.
    Reads and writes may fail at any database round trip: a theorem whose
    conclusion speaks of success or of [w_faults] covers those failures.

    ** What is not modelled

    SQLite itself beyond its constraints, ordering and atomicity; cel-go; viper
    beyond the contract above; cobra and pflag beyond what they hand to a command;
    fork, exec and signals beyond the calls made, and the instants at which
    WaitReady and Stop poll; the YAML library behind ParseYAML, a parameter; what
    net/http adds to the bytes of requests and answers; of the commands, the texts
    of their errors and helps and what goes to standard error; escaped text in
    tables; the real clock of the scheduler, whose instants are arguments here,
    and the constructors that only allocate (scheduler.New, api.NewServer,
    api.NewClient).

    ** Plan

    Next: the whole path of a message, from a command to the output of an
    execution; errors of the commands by their texts. *)
From Stdlib Require Export ZArith Lia Ascii String.
From stdpp Require Export base numbers list strings gmap sorting.

#[global] Open Scope Z_scope.
#[global] Open Scope stdpp_scope.


(** ** Results and errors

    A Go function returning [(T, error)] is a function into [result T].  The
    sentinel errors of the code are the constructors of [sentinel]; a wrapped
    error ([fmt.Errorf "...: %w"]) keeps the sentinel it wraps, so that
    [errors.Is] is a comparison of [err_is]. *)
Inductive sentinel :=
| ErrNotFound       (** store.ErrNotFound *)
| ErrNotDead        (** store.ErrNotDead *)
| ErrInvalidAction  (** workflow.ErrInvalidAction *)
| ErrInvalid        (** api.ErrInvalid *)
| ErrOther.         (** any error that wraps none of the sentinels *)

#[global] Instance sentinel_eq_dec : EqDecision sentinel.
Proof. solve_decision. Defined.

Record err := mkErr { err_is : sentinel; err_msg : string }.

Inductive result (A : Type) :=
| Ok (a : A)
| Err (e : err).
Arguments Ok {A} _.
Arguments Err {A} _.

Definition rbind {A B} (m : result A) (k : A -> result B) : result B :=
  match m with
  | Ok a => k a
  | Err e => Err e
  end.

Definition is_ok {A} (m : result A) : bool :=
  match m with
  | Ok _ => true
  | Err _ => false
  end.

(** [fmt.Errorf (pre ++ ": %w") e]: the text is prefixed, the sentinel kept. *)
Definition wrapf (pre : string) (e : err) : err :=
  mkErr (err_is e) (pre +:+ ": " +:+ err_msg e).

(** [errors.New msg] or [fmt.Errorf] without a sentinel. *)
Definition errorf (msg : string) : err := mkErr ErrOther msg.

Declare Scope sonata_scope.
Delimit Scope sonata_scope with sonata.
Notation "x <-! m ;; k" := (rbind m (fun x => k))
  (at level 100, m at next level, right associativity) : sonata_scope.
#[global] Open Scope sonata_scope.

Lemma rbind_ok {A B} (m : result A) (k : A -> result B) b :
  rbind m k = Ok b <-> exists a, m = Ok a /\ k a = Ok b.
Proof.
  destruct m as [a|e]; simpl; split.
  - eauto.
  - by intros (? & [= ->] & ?).
  - done.
  - by intros (? & ? & ?).
Qed.

(** Sequences of checks: each guard passes, then the rest. *)
Lemma rbind_unit_ok {B} (m : result unit) (k : result B) b :
  rbind m (fun _ => k) = Ok b <-> m = Ok tt /\ k = Ok b.
Proof. rewrite rbind_ok. split; [intros ([] & ? & ?); auto | intros []; eauto]. Qed.

Lemma guard_ok {B} (c : bool) (e : err) (k : result B) b :
  (if c then Err e else k) = Ok b <-> c = false /\ k = Ok b.
Proof. destruct c; split; [done|by intros []|done|by intros []]. Qed.

(** Every error of [m] wraps the sentinel [k]. *)
Definition errs_are {A} (k : sentinel) (m : result A) : Prop :=
  forall e, m = Err e -> err_is e = k.

Lemma errs_are_ok {A} k (a : A) : errs_are k (Ok a).
Proof. done. Qed.
Lemma errs_are_err {A} k msg : errs_are (A := A) k (Err (mkErr k msg)).
Proof. by intros ? [= <-]. Qed.
Lemma errs_are_bind {A B} k (m : result A) (f : A -> result B) :
  errs_are k m -> (forall a, errs_are k (f a)) -> errs_are k (rbind m f).
Proof. intros Hm Hf. destruct m; simpl; [apply Hf|]. intros ? [= <-]. by apply Hm. Qed.
Lemma errs_are_if {A} k (b : bool) (m1 m2 : result A) :
  errs_are k m1 -> errs_are k m2 -> errs_are k (if b then m1 else m2).
Proof. by destruct b. Qed.

Create HintDb errs.
#[export] Hint Resolve errs_are_ok errs_are_err errs_are_bind errs_are_if : errs.

(** ** Related lists *)

Lemma Forall2_In_l {A B} {R : A -> B -> Prop} {l l' x} :
  List.Forall2 R l l' -> In x l -> exists y, In y l' /\ R x y.
Proof.
  induction 1 as [|a b l l' Hab Hf IH]; intros Hin; [done|]. simpl in *.
  destruct Hin as [->|Hin]; [eauto|]. destruct (IH Hin) as (y & ? & ?). eauto.
Qed.

Lemma Forall2_In_r {A B} {R : A -> B -> Prop} {l l' y} :
  List.Forall2 R l l' -> In y l' -> exists x, In x l /\ R x y.
Proof.
  induction 1 as [|a b l l' Hab Hf IH]; intros Hin; [done|]. simpl in *.
  destruct Hin as [->|Hin]; [eauto|]. destruct (IH Hin) as (x & ? & ?). eauto.
Qed.

(** ** Tactics of the development *)

(** Splits on the scrutinee of some [match] of the goal or a hypothesis. *)
Ltac case_one :=
  match goal with
  | |- context [match ?x with _ => _ end] =>
      lazymatch x with context [match _ with _ => _ end] => fail | _ => destruct x eqn:? end
  | H : context [match ?x with _ => _ end] |- _ =>
      lazymatch x with context [match _ with _ => _ end] => fail | _ => destruct x eqn:? end
  end.

(** Repeats [case_one] and closes what congruence closes. *)
Ltac case_all := repeat (case_one; simplify_eq/=; try done).

(** Turns boolean comparisons of hypotheses and goal into propositions. *)
Ltac bool_to_prop :=
  repeat match goal with
  | H : (_ <? _)%Z = true |- _ => apply Z.ltb_lt in H
  | H : (_ <? _)%Z = false |- _ => apply Z.ltb_ge in H
  | H : (_ <=? _)%Z = true |- _ => apply Z.leb_le in H
  | H : (_ <=? _)%Z = false |- _ => apply Z.leb_gt in H
  | H : (_ =? _)%Z = true |- _ => apply Z.eqb_eq in H
  | H : (_ =? _)%Z = false |- _ => apply Z.eqb_neq in H
  | H : (_ && _)%bool = true |- _ => apply andb_true_iff in H as [? ?]
  | H : (_ || _)%bool = false |- _ => apply orb_false_iff in H as [? ?]
  | H : negb _ = true |- _ => apply negb_true_iff in H
  | H : negb _ = false |- _ => apply negb_false_iff in H
  | H : bool_decide _ = true |- _ => apply bool_decide_eq_true in H
  | H : bool_decide _ = false |- _ => apply bool_decide_eq_false in H
  end.

(** Integer goals with divisions and remainders by constants. *)
Ltac zdiv := Z.div_mod_to_equations; lia.

(** ** Byte order on strings

    Go compares strings and SQLite compares TEXT (BINARY collation) byte by
    byte, a proper prefix first: that is [String.compare]. *)
Definition str_lt (a b : string) : Prop := String.compare a b = Lt.
Definition str_le (a b : string) : Prop := String.compare a b <> Gt.

#[global] Instance str_lt_dec a b : Decision (str_lt a b).
Proof. unfold str_lt. solve_decision. Defined.
#[global] Instance str_le_dec : RelDecision str_le.
Proof. intros a b. unfold str_le. apply _. Defined.

Lemma ascii_compare_refl c : Ascii.compare c c = Eq.
Proof. apply N.compare_refl. Qed.

Lemma str_compare_refl a : String.compare a a = Eq.
Proof. induction a; simpl; [done|]. by rewrite ascii_compare_refl. Qed.

Lemma str_compare_eq a b : String.compare a b = Eq <-> a = b.
Proof.
  split; [apply String.compare_eq_iff | intros ->; apply str_compare_refl].
Qed.

Lemma str_lt_irrefl a : ~ str_lt a a.
Proof. unfold str_lt. by rewrite str_compare_refl. Qed.

Lemma str_lt_ne a b : str_lt a b -> a <> b.
Proof. intros H ->. by apply str_lt_irrefl in H. Qed.

Lemma str_lt_cons c1 c2 a b :
  str_lt (String c1 a) (String c2 b) <->
  (N_of_ascii c1 < N_of_ascii c2)%N \/ (c1 = c2 /\ str_lt a b).
Proof.
  unfold str_lt; simpl. destruct (Ascii.compare c1 c2) eqn:E.
  - apply Ascii.compare_eq_iff in E as ->. split; [by right|].
    intros [H|[_ H]]; [lia | done].
  - unfold Ascii.compare in E. apply N.compare_lt_iff in E. split; [by left|done].
  - unfold Ascii.compare in E. apply N.compare_gt_iff in E. split; [done|].
    intros [H|[-> H]]; lia.
Qed.

Lemma str_lt_trans a b c : str_lt a b -> str_lt b c -> str_lt a c.
Proof.
  revert b c; induction a as [|x a IH]; intros [|y b] [|z c]; try done.
  rewrite !str_lt_cons. intros [H1|[-> H1]] [H2|[-> H2]]; try (left; lia).
  right; eauto.
Qed.

Lemma str_lt_or_eq_or_gt a b : str_lt a b \/ a = b \/ str_lt b a.
Proof.
  unfold str_lt. rewrite (String.compare_antisym b a).
  destruct (String.compare a b) eqn:E; simpl; auto.
  apply String.compare_eq_iff in E; auto.
Qed.

Lemma str_le_lteq a b : str_le a b <-> str_lt a b \/ a = b.
Proof.
  unfold str_le, str_lt. rewrite <- str_compare_eq.
  destruct (String.compare a b); intuition congruence.
Qed.

Lemma str_nle_lt a b : ~ str_le a b <-> str_lt b a.
Proof.
  unfold str_le, str_lt. rewrite (String.compare_antisym b a).
  destruct (String.compare a b); simpl; intuition congruence.
Qed.

#[global] Instance str_le_total : Total str_le.
Proof.
  intros a b. rewrite !str_le_lteq.
  destruct (str_lt_or_eq_or_gt a b) as [H|[->|H]]; auto.
Qed.

#[global] Instance str_le_preorder : PreOrder str_le.
Proof.
  split.
  - intros a. rewrite str_le_lteq. by right.
  - intros a b c. rewrite !str_le_lteq.
    intros [H1| ->] [H2| ->]; eauto using str_lt_trans.
Qed.

#[global] Instance str_le_antisymm : AntiSymm (=) str_le.
Proof.
  intros a b. rewrite !str_le_lteq. intros [H1| ->] [H2|H2]; auto.
  exfalso. by eapply str_lt_irrefl, str_lt_trans.
Qed.

(** Appending computes in the lemmas of this file, and stays folded after it. *)
#[local] Arguments String.append : simpl nomatch.

Lemma str_app_cons c a b : String c a +:+ b = String c (a +:+ b).
Proof. done. Qed.

Lemma str_app_nil_l a : "" +:+ a = a.
Proof. done. Qed.

Lemma str_app_assoc a b c : (a +:+ b) +:+ c = a +:+ b +:+ c.
Proof. induction a as [|x a IH]; simpl; [done|]. by rewrite IH. Qed.

Lemma str_app_nil_r a : a +:+ "" = a.
Proof. induction a as [|x a IH]; simpl; [done|]. by rewrite IH. Qed.

Lemma str_length_app a b :
  String.length (a +:+ b) = (String.length a + String.length b)%nat.
Proof. induction a; simpl; [done|]. by rewrite IHa. Qed.

(** A common prefix does not matter. *)
Lemma str_lt_app_same p a b : str_lt (p +:+ a) (p +:+ b) <-> str_lt a b.
Proof.
  induction p as [|c p IH]; simpl; [done|]. rewrite str_lt_cons, IH.
  split; [|by right]. intros [H|[_ H]]; [lia | done].
Qed.

(** Between prefixes of equal length, a strict order decides. *)
Lemma str_lt_app_l p q a b :
  String.length p = String.length q ->
  str_lt p q -> str_lt (p +:+ a) (q +:+ b).
Proof.
  revert q; induction p as [|c p IH]; intros [|d q]; simpl; try done.
  intros [= Hl]. rewrite !str_lt_cons. intros [H|[-> H]]; eauto.
Qed.

(** ** Fixed-width numerals *)

(** The [k]-th digit, for bases up to 16 (lower case). *)
Definition digit (k : Z) : ascii :=
  ascii_of_N (Z.to_N (if k <? 10 then 48 + k else 87 + k)).

(** [pad b w n]: the last [w] digits of [n] in base [b]. *)
Fixpoint pad (b : Z) (w : nat) (n : Z) : string :=
  match w with
  | O => ""
  | S w => pad b w (n / b) +:+ String (digit (n mod b)) ""
  end.

Lemma digit_lt i j : 0 <= i < j -> j < 16 ->
  (N_of_ascii (digit i) < N_of_ascii (digit j))%N.
Proof.
  intros Hi Hj. unfold digit.
  destruct (Z.ltb_spec i 10), (Z.ltb_spec j 10); rewrite !N_ascii_embedding; lia.
Qed.

Lemma pad_length b w n : String.length (pad b w n) = w.
Proof.
  revert n; induction w; intros n; simpl; [done|].
  rewrite str_length_app, IHw. simpl. lia.
Qed.

Lemma pad_lt b w m n :
  0 < b <= 16 -> 0 <= m < n -> n < b ^ Z.of_nat w ->
  str_lt (pad b w m) (pad b w n).
Proof.
  intros Hb. revert m n; induction w as [|w IH]; intros m n Hm Hn.
  { simpl in Hn. lia. }
  assert (n / b < b ^ Z.of_nat w).
  { apply Z.div_lt_upper_bound; [lia|]. rewrite Nat2Z.inj_succ, Z.pow_succ_r in Hn by lia. lia. }
  simpl. assert (m / b <= n / b) as Hq by (apply Z.div_le_mono; lia).
  destruct (decide (m / b = n / b)) as [He|Hne].
  - rewrite He, str_lt_app_same, str_lt_cons. left.
    pose proof (Z.div_mod m b ltac:(lia)). pose proof (Z.div_mod n b ltac:(lia)).
    pose proof (Z.mod_pos_bound m b ltac:(lia)). pose proof (Z.mod_pos_bound n b ltac:(lia)).
    apply digit_lt; nia.
  - apply str_lt_app_l; [by rewrite !pad_length|].
    apply IH; [|done]. split; [apply Z.div_pos; lia | lia].
Qed.

Lemma pad_inj b w m n :
  0 < b <= 16 -> 0 <= m < b ^ Z.of_nat w -> 0 <= n < b ^ Z.of_nat w ->
  pad b w m = pad b w n -> m = n.
Proof.
  intros Hb Hm Hn He. destruct (Z.lt_trichotomy m n) as [H|[H|H]]; [|done|];
    exfalso; eapply str_lt_ne; [|exact He| |symmetry; exact He]; apply pad_lt; lia.
Qed.

(** Splitting a numeral at a digit boundary. *)
Lemma pad_split b w1 w2 n :
  0 < b -> pad b (w1 + w2) n = pad b w1 (n / b ^ Z.of_nat w2) +:+ pad b w2 n.
Proof.
  intros Hb. revert n; induction w2 as [|w2 IH]; intros n.
  - rewrite Nat.add_0_r, Z.pow_0_r, Z.div_1_r. simpl. by rewrite str_app_nil_r.
  - rewrite Nat.add_succ_r. simpl. rewrite IH, str_app_assoc.
    rewrite Nat2Z.inj_succ, Z.pow_succ_r by lia.
    assert (0 < b ^ Z.of_nat w2) by (apply Z.pow_pos_nonneg; lia).
    by rewrite <- Z.div_div by lia.
Qed.

Lemma pad_mod b w n :
  0 < b -> pad b w (n mod b ^ Z.of_nat w) = pad b w n.
Proof.
  intros Hb. revert n; induction w as [|w IH]; intros n; [done|]. simpl.
  rewrite Nat2Z.inj_succ, Z.pow_succ_r by lia.
  assert (0 < b ^ Z.of_nat w) by (apply Z.pow_pos_nonneg; lia).
  rewrite Z.rem_mul_r by lia. f_equal.
  - rewrite Z.mul_comm, Z.div_add by lia.
    rewrite (Z.div_small (n mod b)) by (apply Z.mod_pos_bound; lia). by rewrite Z.add_0_l.
  - do 2 f_equal. rewrite Z.mul_comm, Z.mod_add, Z.mod_mod by lia. done.
Qed.

(** ** Decimal numerals ([strconv.Itoa], the verb [%d]) *)

(** Number of digits of [n >= 0]; [fuel] bounds the divisions by ten. *)
Fixpoint ndigits (fuel : nat) (n : Z) : nat :=
  match fuel with
  | O => 1
  | S fuel => if n <? 10 then 1%nat else S (ndigits fuel (n / 10))
  end.

(** [log2 n + 1] divisions always suffice, see [dec_digits_enough]. *)
Definition dec_digits (n : Z) : nat := ndigits (Z.to_nat (Z.log2 n + 1)) n.

Definition dec (n : Z) : string :=
  if n <? 0 then "-" +:+ pad 10 (dec_digits (- n)) (- n) else pad 10 (dec_digits n) n.

Lemma ndigits_enough fuel n :
  0 <= n < 2 ^ Z.of_nat fuel -> n < 10 ^ Z.of_nat (ndigits fuel n).
Proof.
  revert n; induction fuel as [|fuel IH]; intros n Hn; simpl in *; [lia|].
  destruct (Z.ltb_spec n 10); [simpl; lia|].
  rewrite Nat2Z.inj_succ, Z.pow_succ_r in * by lia.
  assert (n / 10 < 10 ^ Z.of_nat (ndigits fuel (n / 10))).
  { apply IH. split; [apply Z.div_pos; lia|]. apply Z.div_lt_upper_bound; lia. }
  pose proof (Z.div_mod n 10 ltac:(lia)). pose proof (Z.mod_pos_bound n 10 ltac:(lia)). lia.
Qed.

Lemma dec_digits_enough n : 0 <= n -> n < 10 ^ Z.of_nat (dec_digits n).
Proof.
  intros Hn. apply ndigits_enough. split; [done|].
  pose proof (Z.log2_nonneg n). rewrite Z2Nat.id by lia.
  destruct (decide (n = 0)) as [->|]; [reflexivity|].
  apply Z.log2_spec; lia.
Qed.

Lemma dec_inj m n : dec m = dec n -> 0 <= m -> 0 <= n -> m = n.
Proof.
  unfold dec. intros He Hm Hn. destruct (Z.ltb_spec m 0); [lia|]. destruct (Z.ltb_spec n 0); [lia|].
  pose proof (f_equal String.length He) as Hl. rewrite !pad_length in Hl.
  pose proof (dec_digits_enough m Hm). pose proof (dec_digits_enough n Hn). rewrite Hl in *.
  by eapply (pad_inj 10 (dec_digits n)).
Qed.

Example dec_examples : dec 0 = "0" /\ dec 1709 = "1709" /\ dec (-12) = "-12" /\ dec 100 = "100".
Proof. repeat split. Qed.

(** ** Reading numerals *)

Definition is_digit (c : ascii) : bool :=
  ((48 <=? N_of_ascii c) && (N_of_ascii c <=? 57))%N.

Definition digit_val (c : ascii) : Z := Z.of_N (N_of_ascii c) - 48.

(** Exactly [w] decimal digits. *)
Fixpoint read_num (w : nat) (acc : Z) (s : string) : option (Z * string) :=
  match w with
  | O => Some (acc, s)
  | S w =>
      match s with
      | String c r => if is_digit c then read_num w (acc * 10 + digit_val c) r else None
      | EmptyString => None
      end
  end.

Lemma digit_10 d : 0 <= d < 10 -> is_digit (digit d) = true /\ digit_val (digit d) = d.
Proof.
  intros H. unfold is_digit, digit_val, digit. destruct (Z.ltb_spec d 10); [|lia].
  rewrite !N_ascii_embedding by lia. rewrite andb_true_iff, !N.leb_le. lia.
Qed.

Lemma ndigits_least fuel n : 0 < n -> 10 ^ (Z.of_nat (ndigits fuel n) - 1) <= n.
Proof.
  revert n; induction fuel as [|fuel IH]; intros n Hn; simpl; [lia|].
  destruct (Z.ltb_spec n 10); [simpl; lia|].
  specialize (IH (n / 10) ltac:(apply Z.div_str_pos; lia)).
  assert (ndigits fuel (n / 10) <> 0%nat) as Hz by (destruct fuel; simpl; [done|by destruct (_ <? _)]).
  replace (Z.of_nat (S (ndigits fuel (n / 10))) - 1) with (Z.succ (Z.of_nat (ndigits fuel (n / 10)) - 1)) by lia.
  rewrite Z.pow_succ_r by lia. pose proof (Z.div_mod n 10 ltac:(lia)). pose proof (Z.mod_pos_bound n 10 ltac:(lia)). lia.
Qed.

Lemma pad_cons b w n : 0 < b ->
  pad b (S w) n = String (digit (n / b ^ Z.of_nat w mod b)) (pad b w n).
Proof. intros Hb. by rewrite (pad_split b 1 w). Qed.

(** The leading digit of a numeral is not zero, but for zero itself. *)
Lemma dec_digits_first n : 0 <= n ->
  n = 0 \/ exists w, dec_digits n = S w /\ n / 10 ^ Z.of_nat w mod 10 <> 0.
Proof.
  intros Hn. destruct (decide (n = 0)) as [->|Hz]; [by left|right].
  pose proof (dec_digits_enough n Hn) as Hu. pose proof (ndigits_least (Z.to_nat (Z.log2 n + 1)) n ltac:(lia)) as Hl.
  fold (dec_digits n) in Hl. destruct (dec_digits n) as [|w] eqn:E; [simpl in Hu; lia|]. exists w. split; [done|].
  replace (Z.of_nat (S w) - 1) with (Z.of_nat w) in Hl by lia. rewrite Nat2Z.inj_succ, Z.pow_succ_r in Hu by lia.
  assert (0 < 10 ^ Z.of_nat w) by (apply Z.pow_pos_nonneg; lia).
  assert (1 <= n / 10 ^ Z.of_nat w < 10).
  { split; [apply Z.div_le_lower_bound; lia|]. apply Z.div_lt_upper_bound; lia. }
  rewrite Z.mod_small; lia.
Qed.

Lemma read_num_pad w n acc r :
  0 <= n < 10 ^ Z.of_nat w ->
  read_num w acc (pad 10 w n +:+ r) = Some (acc * 10 ^ Z.of_nat w + n, r).
Proof.
  revert n acc; induction w as [|w IH]; intros n acc Hn.
  { simpl in *. do 2 f_equal. lia. }
  rewrite pad_cons by lia. cbn [read_num]. rewrite str_app_cons. cbn [read_num].
  rewrite Nat2Z.inj_succ, Z.pow_succ_r in * by lia.
  assert (0 < 10 ^ Z.of_nat w) by (apply Z.pow_pos_nonneg; lia).
  assert (0 <= n / 10 ^ Z.of_nat w < 10).
  { split; [apply Z.div_pos; lia|]. apply Z.div_lt_upper_bound; lia. }
  rewrite (Z.mod_small (n / _)) by lia. destruct (digit_10 (n / 10 ^ Z.of_nat w)) as [-> ->]; [done|].
  rewrite <- (pad_mod 10 w n), IH by (try apply Z.mod_pos_bound; lia).
  do 2 f_equal. pose proof (Z.div_mod n (10 ^ Z.of_nat w) ltac:(lia)). lia.
Qed.

(** ** The package strings *)

Fixpoint has_prefix (p s : string) : bool :=
  match p, s with
  | EmptyString, _ => true
  | String a p, String b s => Ascii.eqb a b && has_prefix p s
  | _, EmptyString => false
  end.

Fixpoint str_drop (n : nat) (s : string) : string :=
  match n, s with
  | S n, String _ r => str_drop n r
  | _, _ => s
  end.

Definition trim_prefix (p s : string) : string :=
  if has_prefix p s then str_drop (String.length p) s else s.

Fixpoint rev_onto (s acc : string) : string :=
  match s with
  | EmptyString => acc
  | String c r => rev_onto r (String c acc)
  end.

Definition byte_is (n : Z) (c : ascii) : bool := Z.of_N (N_of_ascii c) =? n.

(** unicode.IsSpace below U+0080. *)
Definition ascii_space (c : ascii) : bool :=
  let n := Z.of_N (N_of_ascii c) in ((9 <=? n) && (n <=? 13)) || (n =? 32).

(** unicode.IsSpace on two- and three-byte runes: U+0085, U+00A0, U+1680,
    U+2000 to U+200A, U+2028, U+2029, U+202F, U+205F, U+3000. *)
Definition space2 (a b : ascii) : bool := byte_is 0xC2 a && (byte_is 0x85 b || byte_is 0xA0 b).
Definition space3 (a b c : ascii) : bool :=
  (byte_is 0xE1 a && byte_is 0x9A b && byte_is 0x80 c) ||
  (byte_is 0xE2 a && byte_is 0x80 b &&
    (let n := Z.of_N (N_of_ascii c) in
     ((0x80 <=? n) && (n <=? 0x8A)) || (n =? 0xA8) || (n =? 0xA9) || (n =? 0xAF))) ||
  (byte_is 0xE2 a && byte_is 0x81 b && byte_is 0x9F c) ||
  (byte_is 0xE3 a && byte_is 0x80 b && byte_is 0x80 c).

Fixpoint trim_left (s : string) : string :=
  match s with
  | EmptyString => ""
  | String a r =>
      if ascii_space a then trim_left r
      else match r with
           | String b r1 =>
               if space2 a b then trim_left r1
               else match r1 with
                    | String c r2 => if space3 a b c then trim_left r2 else s
                    | EmptyString => s
                    end
           | EmptyString => s
           end
  end.

(** [trim_left] on a reversed text: the bytes of a rune come last byte first. *)
Fixpoint trim_left_rev (s : string) : string :=
  match s with
  | EmptyString => ""
  | String a r =>
      if ascii_space a then trim_left_rev r
      else match r with
           | String b r1 =>
               if space2 b a then trim_left_rev r1
               else match r1 with
                    | String c r2 => if space3 c b a then trim_left_rev r2 else s
                    | EmptyString => s
                    end
           | EmptyString => s
           end
  end.

(** strings.TrimSpace and bytes.TrimSpace. *)
Definition trim_space (s : string) : string :=
  rev_onto (trim_left_rev (rev_onto (trim_left s) "")) "".

(** Every byte of a class. *)
Fixpoint all_bytes (cls : ascii -> bool) (s : string) : bool :=
  match s with
  | EmptyString => true
  | String c r => cls c && all_bytes cls r
  end.

Lemma rev_onto_spec s acc : rev_onto s acc = rev_onto s "" +:+ acc.
Proof.
  revert acc; induction s as [|c s IH]; intros acc; [done|]. cbn [rev_onto].
  by rewrite IH, (IH (String c "")), str_app_assoc.
Qed.

Lemma rev_onto_app s t acc : rev_onto (s +:+ t) acc = rev_onto t (rev_onto s acc).
Proof. revert acc; induction s as [|c s IH]; intros acc; [done|]. rewrite str_app_cons. apply IH. Qed.

Lemma rev_onto_inv s acc t : rev_onto (rev_onto s acc) t = rev_onto acc (s +:+ t).
Proof. revert acc; induction s as [|c s IH]; intros acc; [done|]. cbn [rev_onto]. rewrite IH. reflexivity. Qed.

Lemma all_bytes_rev cls s acc : all_bytes cls (rev_onto s acc) = all_bytes cls s && all_bytes cls acc.
Proof. revert acc; induction s as [|c s IH]; intros acc; [done|]. cbn [rev_onto all_bytes]. rewrite IH. simpl. destruct (cls c); simpl; [by destruct (all_bytes cls s)|by rewrite andb_false_r]. Qed.

(** strings.Split and bytes.Split at a single byte. *)
Fixpoint split_on (sep : ascii) (s : string) : list string :=
  match s with
  | EmptyString => [""]
  | String c r =>
      if Ascii.eqb c sep then "" :: split_on sep r
      else match split_on sep r with
           | l :: ls => String c l :: ls
           | [] => [String c ""]
           end
  end.

(** strings.Join. *)
Fixpoint join (sep : string) (l : list string) : string :=
  match l with
  | [] => ""
  | [x] => x
  | x :: l => x +:+ sep +:+ join sep l
  end.

Lemma split_on_nonempty sep s : split_on sep s <> [].
Proof. destruct s as [|c s]; simpl; [done|]. repeat case_match; done. Qed.

(** Splitting and joining at the same byte. *)
Lemma join_split sep s : join (String sep "") (split_on sep s) = s.
Proof.
  induction s as [|c s IH]; [done|]. simpl.
  pose proof (split_on_nonempty sep s) as Hn.
  destruct (Ascii.eqb_spec c sep) as [->|]; destruct (split_on sep s) as [|l ls]; try done.
  - simpl in *. by rewrite IH.
  - destruct ls; simpl in *; by rewrite <- IH.
Qed.

#[global] Arguments String.append : simpl never.
#[global] Arguments pad : simpl never.
