(* ===== verification/Ids.v ===== *)
(** Identifiers: internal/store/id.go.

    [NewID] builds a UUIDv7 from the wall clock, eight random bytes and the
    process-wide [idState] (last millisecond used, 12-bit counter).  The clock
    reading and the random bytes are arguments; the mutex makes every call one
    atomic transition of the state.  The class [IdSource] is what the store
    relies on; [id_stream] is its implementation by [NewID]. *)
From S2P Require Import Prelude.

(** Conversion to an unsigned [w]-bit integer. *)
Definition uint (w : Z) (x : Z) : Z := x mod 2 ^ w.

Record idState := mkIdState {
  id_ms : Z;    (** last timestamp used, milliseconds *)
  id_seq : Z    (** uint16: 12-bit rand_a counter *)
}.

(** A reading of the environment by one call of [NewID]: [time.Now().UnixMilli()]
    and the bytes [rand.Read] put in [b[8:16]]. *)
Record id_input := mkIdInput { in_now : Z; in_rand : Z * Z * Z * Z * Z * Z * Z * Z }.

(** [uint16(b[8])<<3 | uint16(b[9])>>5]. *)
Definition seed_seq (b8 b9 : Z) : Z :=
  Z.lor (uint 16 (Z.shiftl b8 3)) (Z.shiftr b9 5).

(** The critical section of [NewID]. *)
Definition next_idState (now b8 b9 : Z) (st : idState) : idState :=
  if now <=? id_ms st then
    let seq := uint 16 (id_seq st + 1) in
    if 0x0fff <? seq then mkIdState (id_ms st + 1) 0 else mkIdState (id_ms st) seq
  else mkIdState now (seed_seq b8 b9).

(** [binary.BigEndian.PutUint64]: byte [i] (from the left) of a uint64. *)
Definition be_byte (v : Z) (i : Z) : Z := Z.land (Z.shiftr v (8 * (7 - i))) 255.

(** The verb [%x] on a byte slice: two lower-case digits per byte. *)
Definition hex_bytes (l : list Z) : string :=
  foldr (fun b acc => pad 16 2 b +:+ acc) "" l.

(** The sixteen bytes, from the state after the critical section. *)
Definition id_bytes (st : idState) (r : Z * Z * Z * Z * Z * Z * Z * Z) : list Z :=
  let '(b8, b9, b10, b11, b12, b13, b14, b15) := r in
  let v := uint 64 (Z.shiftl (uint 64 (id_ms st)) 16) in
  [be_byte v 0; be_byte v 1; be_byte v 2; be_byte v 3; be_byte v 4; be_byte v 5;
   Z.lor 0x70 (uint 8 (Z.shiftr (id_seq st) 8));
   uint 8 (id_seq st);
   Z.lor (Z.land b8 0x3f) 0x80; b9; b10; b11; b12; b13; b14; b15].

(** [fmt.Sprintf("%x-%x-%x-%x-%x", b[0:4], b[4:6], b[6:8], b[8:10], b[10:16])]. *)
Definition format_id (b : list Z) : string :=
  hex_bytes (take 4 b) +:+ "-" +:+ hex_bytes (take 2 (drop 4 b)) +:+ "-" +:+
  hex_bytes (take 2 (drop 6 b)) +:+ "-" +:+ hex_bytes (take 2 (drop 8 b)) +:+ "-" +:+
  hex_bytes (take 6 (drop 10 b)).

Definition NewID (inp : id_input) (st : idState) : string * idState :=
  let '(b8, b9, b10, b11, b12, b13, b14, b15) := in_rand inp in
  let st' := next_idState (in_now inp) b8 b9 st in
  (format_id (id_bytes st' (in_rand inp)), st').

(** ** Well-formedness *)

Definition byte_ok (b : Z) : Prop := 0 <= b < 256.

Definition input_ok (i : id_input) : Prop :=
  let '(b8, b9, b10, b11, b12, b13, b14, b15) := in_rand i in
  Forall byte_ok [b8; b9; b10; b11; b12; b13; b14; b15].

(** The counter stays in its twelve bits. *)
Definition idState_ok (st : idState) : Prop := 0 <= id_ms st /\ 0 <= id_seq st <= 0x0fff.

Lemma seed_seq_bound b8 b9 : byte_ok b8 -> byte_ok b9 -> 0 <= seed_seq b8 b9 < 2048.
Proof.
  unfold byte_ok, seed_seq, uint. intros H8 H9.
  rewrite Z.shiftl_mul_pow2, Z.shiftr_div_pow2 by lia.
  rewrite Z.mod_small by lia.
  assert (0 <= b9 / 2 ^ 5 < 2 ^ 3) by (split; [apply Z.div_pos|apply Z.div_lt_upper_bound]; lia).
  assert (Z.land (b8 * 2 ^ 3) (b9 / 2 ^ 5) = 0) as Hz.
  { apply Z.bits_inj'. intros i Hi. rewrite Z.land_spec, Z.bits_0.
    destruct (Z.ltb_spec i 3) as [Hl|Hl].
    - rewrite Z.mul_pow2_bits_low by lia. done.
    - rewrite <- (Z.mod_small (b9 / 2 ^ 5) (2 ^ 3)) by lia.
      rewrite Z.mod_pow2_bits_high by lia. apply andb_false_r. }
  pose proof (Z.add_lor_land (b8 * 2 ^ 3) (b9 / 2 ^ 5)). lia.
Qed.

Lemma next_idState_ok now b8 b9 st :
  byte_ok b8 -> byte_ok b9 -> idState_ok st -> idState_ok (next_idState now b8 b9 st).
Proof.
  intros H8 H9 [Hms Hseq]. unfold next_idState, idState_ok, uint in *.
  destruct (Z.leb_spec now (id_ms st)).
  - rewrite Z.mod_small by lia. destruct (Z.ltb_spec 0x0fff (id_seq st + 1)); simpl; lia.
  - simpl. pose proof (seed_seq_bound b8 b9 H8 H9). lia.
Qed.

(** The pair (millisecond, counter) read as one number. *)
Definition id_rank (st : idState) : Z := id_ms st * 2 ^ 12 + id_seq st.

Lemma next_idState_increases now b8 b9 st :
  byte_ok b8 -> byte_ok b9 -> idState_ok st ->
  id_rank st < id_rank (next_idState now b8 b9 st).
Proof.
  intros H8 H9 [Hms Hseq]. unfold next_idState, id_rank, uint in *.
  destruct (Z.leb_spec now (id_ms st)).
  - rewrite Z.mod_small by lia. destruct (Z.ltb_spec 0x0fff (id_seq st + 1)); simpl; lia.
  - simpl. pose proof (seed_seq_bound b8 b9 H8 H9). lia.
Qed.

(** ** The text of an identifier *)

(** The last three groups carry the version, the counter and random bits. *)
Definition id_prefix (st : idState) : string :=
  pad 16 8 (id_ms st / 2 ^ 16) +:+ "-" +:+ pad 16 4 (id_ms st) +:+ "-7" +:+ pad 16 3 (id_seq st).

Definition id_suffix (r : Z * Z * Z * Z * Z * Z * Z * Z) : string :=
  let '(b8, b9, b10, b11, b12, b13, b14, b15) := r in
  "-" +:+ hex_bytes [Z.lor (Z.land b8 0x3f) 0x80; b9] +:+ "-" +:+
  hex_bytes [b10; b11; b12; b13; b14; b15].

Lemma be_byte_pad v k i :
  0 <= i <= 7 -> k = 8 * (7 - i) -> pad 16 2 (be_byte v i) = pad 16 2 (v / 2 ^ k).
Proof.
  intros Hi ->. unfold be_byte. change 255 with (Z.ones 8).
  rewrite Z.land_ones, Z.shiftr_div_pow2 by lia. by apply (pad_mod 16 2).
Qed.

Lemma pad16_bytes w n :
  pad 16 (w + 2) n = pad 16 w (n / 2 ^ 8) +:+ pad 16 2 n.
Proof. by rewrite pad_split by lia. Qed.

Lemma version_counter_hex s :
  0 <= s <= 0x0fff ->
  pad 16 2 (Z.lor 0x70 (uint 8 (Z.shiftr s 8))) +:+ pad 16 2 (uint 8 s) = "7" +:+ pad 16 3 s.
Proof.
  intros Hs. unfold uint. rewrite Z.shiftr_div_pow2 by lia.
  assert (0 <= s / 2 ^ 8 < 16) by zdiv. rewrite (Z.mod_small (s / 2 ^ 8)) by lia.
  replace (pad 16 2 (s mod 2 ^ 8)) with (pad 16 2 s) by (symmetry; by apply (pad_mod 16 2)).
  rewrite (pad_split 16 1 2) by lia.
  replace (16 ^ Z.of_nat 2) with (2 ^ 8) by reflexivity.
  rewrite <- str_app_assoc. f_equal.
  generalize dependent (s / 2 ^ 8). intros q Hq.
  assert (q = 0 \/ q = 1 \/ q = 2 \/ q = 3 \/ q = 4 \/ q = 5 \/ q = 6 \/ q = 7 \/ q = 8 \/ q = 9
    \/ q = 10 \/ q = 11 \/ q = 12 \/ q = 13 \/ q = 14 \/ q = 15) as Hc by lia.
  repeat destruct Hc as [->|Hc]; try subst q; reflexivity.
Qed.

Lemma format_id_split st r :
  0 <= id_ms st < 2 ^ 48 -> 0 <= id_seq st <= 0x0fff ->
  format_id (id_bytes st r) = id_prefix st +:+ id_suffix r.
Proof.
  intros Hms Hseq. destruct r as [[[[[[[b8 b9] b10] b11] b12] b13] b14] b15].
  unfold format_id, id_bytes, id_prefix, id_suffix, hex_bytes. cbn [take drop foldr].
  rewrite !str_app_nil_r.
  assert (uint 64 (Z.shiftl (uint 64 (id_ms st)) 16) = id_ms st * 2 ^ 16) as ->.
  { unfold uint. rewrite (Z.mod_small (id_ms st)), Z.shiftl_mul_pow2 by lia.
    apply Z.mod_small. lia. }
  set (v := id_ms st * 2 ^ 16).
  rewrite (be_byte_pad v 56), (be_byte_pad v 48), (be_byte_pad v 40), (be_byte_pad v 32),
    (be_byte_pad v 24), (be_byte_pad v 16) by lia.
  change 8%nat with (6 + 2)%nat. change 4%nat with (2 + 2)%nat.
  rewrite !(pad16_bytes _ (id_ms st)), !(pad16_bytes 6).
  change 6%nat with (4 + 2)%nat. rewrite !(pad16_bytes 4).
  change 4%nat with (2 + 2)%nat. rewrite !(pad16_bytes 2).
  rewrite !Z.div_div, <- !Z.pow_add_r by lia.
  assert (forall k, 16 <= k -> v / 2 ^ k = id_ms st / 2 ^ (k - 16)) as Hv.
  { intros k Hk. unfold v. replace (2 ^ k) with (2 ^ (k - 16) * 2 ^ 16)
      by (rewrite <- Z.pow_add_r by lia; f_equal; lia).
    apply Z.div_mul_cancel_r; lia. }
  rewrite !Hv by lia. rewrite Z.sub_diag, Z.pow_0_r, Z.div_1_r.
  change ("-7" +:+ pad 16 3 (id_seq st)) with ("-" +:+ ("7" +:+ pad 16 3 (id_seq st))).
  rewrite <- version_counter_hex by done.
  rewrite !str_app_assoc. reflexivity.
Qed.

Lemma id_prefix_length st : String.length (id_prefix st) = 18%nat.
Proof. unfold id_prefix. rewrite !str_length_app, !pad_length. reflexivity. Qed.

Lemma id_prefix_lt st st' :
  idState_ok st -> idState_ok st' -> id_ms st' < 2 ^ 48 ->
  id_rank st < id_rank st' -> str_lt (id_prefix st) (id_prefix st').
Proof.
  intros [H1 H2] [H3 H4] H5 Hr. unfold id_rank in Hr.
  assert (id_ms st / 2 ^ 16 <= id_ms st' / 2 ^ 16) by zdiv.
  unfold id_prefix.
  destruct (decide (id_ms st / 2 ^ 16 = id_ms st' / 2 ^ 16)) as [He|].
  - rewrite He, !str_lt_app_same.
    rewrite <- (pad_mod 16 4 (id_ms st)), <- (pad_mod 16 4 (id_ms st')) by lia.
    change (16 ^ Z.of_nat 4) with (2 ^ 16).
    destruct (decide (id_ms st = id_ms st')) as [Hm|Hm].
    + rewrite Hm, !str_lt_app_same. apply pad_lt; simpl; lia.
    + apply str_lt_app_l; [by rewrite !pad_length|].
      apply pad_lt; [lia| |simpl]; zdiv.
  - apply str_lt_app_l; [by rewrite !pad_length|].
    apply pad_lt; [lia| |simpl]; zdiv.
Qed.

#[global] Arguments format_id : simpl never.
#[global] Arguments id_bytes : simpl never.
#[global] Arguments id_prefix : simpl never.
#[global] Arguments id_suffix : simpl never.

Lemma NewID_text inp st :
  input_ok inp -> idState_ok st -> id_ms (snd (NewID inp st)) < 2 ^ 48 ->
  fst (NewID inp st) = id_prefix (snd (NewID inp st)) +:+ id_suffix (in_rand inp).
Proof.
  unfold input_ok, NewID. destruct (in_rand inp) as [[[[[[[b8 b9] b10] b11] b12] b13] b14] b15] eqn:E.
  intros Hin Hst Hlt. simpl in *. apply Forall_cons in Hin as [H8 Hin]. apply Forall_cons in Hin as [H9 _].
  destruct (next_idState_ok (in_now inp) b8 b9 st H8 H9 Hst). by apply format_id_split.
Qed.

Lemma NewID_state inp st :
  input_ok inp -> idState_ok st ->
  idState_ok (snd (NewID inp st)) /\ id_rank st < id_rank (snd (NewID inp st)).
Proof.
  unfold input_ok, NewID. destruct (in_rand inp) as [[[[[[[b8 b9] b10] b11] b12] b13] b14] b15].
  intros Hin Hst. apply Forall_cons in Hin as [H8 Hin]. apply Forall_cons in Hin as [H9 _]. simpl.
  eauto using next_idState_ok, next_idState_increases.
Qed.

Lemma id_rank_ms st st' :
  idState_ok st -> idState_ok st' -> id_rank st <= id_rank st' -> id_ms st <= id_ms st'.
Proof. unfold idState_ok, id_rank. lia. Qed.

(** ** What the store asks of an identifier source

    [new_id] draws the next identifier.  [id_below g t]: every identifier [g]
    will still issue is greater than [t].  The laws hold while the timestamp
    fits its 48 bits ([id_live], until the year 10889). *)
Class IdSource (G : Type) := {
  new_id : G -> string * G;
  id_wf : G -> Prop;
  id_live : G -> Prop;
  id_below : G -> string -> Prop;
  new_id_wf g : id_wf g -> id_wf (snd (new_id g));
  new_id_live g : id_wf g -> id_live (snd (new_id g)) -> id_live g;
  new_id_above g t : id_wf g -> id_live (snd (new_id g)) ->
    id_below g t -> str_lt t (fst (new_id g));
  new_id_below g : id_wf g -> id_live (snd (new_id g)) ->
    id_below (snd (new_id g)) (fst (new_id g));
  id_below_mono g t : id_wf g -> id_below g t -> id_below (snd (new_id g)) t
}.

(** The process-wide generator with the environment readings still to come. *)
Record id_stream := mkIdStream {
  s_state : idState;
  s_env : nat -> id_input;
  s_pos : nat
}.

Definition stream_new_id (g : id_stream) : string * id_stream :=
  let '(s, st) := NewID (s_env g (s_pos g)) (s_state g) in
  (s, mkIdStream st (s_env g) (S (s_pos g))).

Definition stream_wf (g : id_stream) : Prop :=
  idState_ok (s_state g) /\ forall n, input_ok (s_env g n).

Definition stream_below (g : id_stream) (t : string) : Prop :=
  forall st r, idState_ok st -> id_ms st < 2 ^ 48 -> id_rank (s_state g) < id_rank st ->
    str_lt t (id_prefix st +:+ id_suffix r).

#[export, program] Instance id_stream_source : IdSource id_stream := {|
  new_id := stream_new_id;
  id_wf := stream_wf;
  id_live g := id_ms (s_state g) < 2 ^ 48;
  id_below := stream_below
|}.
Next Obligation.
  intros g [Hst Hin]. unfold stream_new_id.
  pose proof (NewID_state (s_env g (s_pos g)) (s_state g) (Hin _) Hst) as [Hok _].
  destruct (NewID _ _). by split.
Qed.
Next Obligation.
  intros g [Hst Hin]. unfold stream_new_id.
  pose proof (NewID_state (s_env g (s_pos g)) (s_state g) (Hin _) Hst) as [Hok Hr].
  destruct (NewID _ _) as [s st]. simpl in *.
  pose proof (id_rank_ms (s_state g) st Hst Hok). lia.
Qed.
Next Obligation.
  intros g t [Hst Hin]. unfold stream_new_id.
  pose proof (NewID_state (s_env g (s_pos g)) (s_state g) (Hin _) Hst) as [Hok Hr].
  pose proof (NewID_text (s_env g (s_pos g)) (s_state g) (Hin _) Hst) as Ht.
  destruct (NewID _ _) as [s st]. simpl in *. intros Hl Hb. rewrite Ht by done. by apply Hb.
Qed.
Next Obligation.
  intros g [Hst Hin]. unfold stream_new_id, stream_below.
  pose proof (NewID_state (s_env g (s_pos g)) (s_state g) (Hin _) Hst) as [Hok Hr].
  pose proof (NewID_text (s_env g (s_pos g)) (s_state g) (Hin _) Hst) as Ht.
  destruct (NewID _ _) as [s st]. simpl in *. intros Hl st' r Hok' Hl' Hr'. rewrite Ht by done.
  apply str_lt_app_l; [by rewrite !id_prefix_length|]. by apply id_prefix_lt.
Qed.
Next Obligation.
  intros g t [Hst Hin] Hb. unfold stream_new_id, stream_below in *.
  pose proof (NewID_state (s_env g (s_pos g)) (s_state g) (Hin _) Hst) as [Hok Hr].
  destruct (NewID _ _) as [s st]. simpl in *. intros st' r Hok' Hl' Hr'. apply Hb; [done..|lia].
Qed.

(** Successive identifiers of a source. *)
Fixpoint draw {G} `{IdSource G} (n : nat) (g : G) : list string * G :=
  match n with
  | O => ([], g)
  | S n => let '(s, g1) := new_id g in let '(l, g2) := draw n g1 in (s :: l, g2)
  end.

Lemma draw_wf {G} `{IdSource G} n g :
  id_wf g -> id_wf (snd (draw n g)) /\ (id_live (snd (draw n g)) -> id_live g).
Proof.
  revert g; induction n as [|n IH]; intros g Hg; simpl; [done|].
  pose proof (new_id_wf g Hg) as Hw. pose proof (new_id_live g Hg) as Hl.
  destruct (new_id g) as [s g1]. simpl in *. specialize (IH g1 Hw).
  destruct (draw n g1) as [l g2]. simpl in *. destruct IH as [? ?]. split; auto.
Qed.

Lemma draw_sorted {G} `{IdSource G} n g :
  id_wf g -> id_live (snd (draw n g)) ->
  Sorted.StronglySorted str_lt (fst (draw n g)) /\
  (forall t, id_below g t -> Forall (str_lt t) (fst (draw n g))).
Proof.
  revert g; induction n as [|n IH]; intros g Hg; simpl; [by repeat constructor|].
  pose proof (new_id_wf g Hg) as Hw. pose proof (new_id_above g) as Ha.
  pose proof (new_id_below g Hg) as Hb. pose proof (id_below_mono g) as Hm.
  destruct (new_id g) as [s g1]. simpl in *. specialize (IH g1 Hw).
  pose proof (draw_wf n g1 Hw) as [_ Hlive].
  destruct (draw n g1) as [l g2]. simpl in *. intros Hl.
  destruct (IH Hl) as [Hs Hall]. split.
  - constructor; [done|]. apply Hall; auto.
  - intros t Ht. constructor; [by apply Ha; auto|]. apply Hall. by apply Hm.
Qed.

(** ** The shape of an identifier *)

Inductive id_class := CHex | CDash | CSeven | CVariant.

Definition is_hex (c : ascii) : bool :=
  let n := N_of_ascii c in
  ((48 <=? n) && (n <=? 57) || (97 <=? n) && (n <=? 102))%N.

Definition in_class (k : id_class) (c : ascii) : bool :=
  match k with
  | CHex => is_hex c
  | CDash => Ascii.eqb c "-"
  | CSeven => Ascii.eqb c "7"
  | CVariant => existsb (Ascii.eqb c) ["8"; "9"; "a"; "b"]%char
  end.

Fixpoint has_shape (k : list id_class) (s : string) : bool :=
  match k, s with
  | [], EmptyString => true
  | c :: k, String x s => in_class c x && has_shape k s
  | _, _ => false
  end.

(** RFC 9562 text of a version 7, variant 10 UUID. *)
Definition uuid7_shape : list id_class :=
  replicate 8 CHex ++ [CDash] ++ replicate 4 CHex ++ [CDash] ++ [CSeven] ++ replicate 3 CHex ++
  [CDash] ++ [CVariant] ++ replicate 3 CHex ++ [CDash] ++ replicate 12 CHex.

Lemma has_shape_app k1 k2 a b :
  has_shape k1 a = true -> has_shape k2 b = true -> has_shape (k1 ++ k2) (a +:+ b) = true.
Proof.
  revert a; induction k1 as [|c k1 IH]; intros [|x a]; simpl; try done.
  intros [Hc Ha]%andb_true_iff Hb. rewrite Hc. simpl. by apply IH.
Qed.

Lemma pad_shape w n : has_shape (replicate w CHex) (pad 16 w n) = true.
Proof.
  revert n; induction w as [|w IH]; intros n; [done|].
  replace (S w) with (w + 1)%nat by lia. rewrite replicate_add, (pad_split 16 w 1) by lia.
  apply has_shape_app; [apply IH|]. simpl. rewrite andb_true_r.
  pose proof (Z.mod_pos_bound n 16 ltac:(lia)) as Hm. generalize dependent (n mod 16). intros q Hq.
  assert (q = 0 \/ q = 1 \/ q = 2 \/ q = 3 \/ q = 4 \/ q = 5 \/ q = 6 \/ q = 7 \/ q = 8 \/ q = 9
    \/ q = 10 \/ q = 11 \/ q = 12 \/ q = 13 \/ q = 14 \/ q = 15) as Hc by lia.
  repeat destruct Hc as [->|Hc]; try subst q; reflexivity.
Qed.

Lemma variant_byte_shape b :
  has_shape [CVariant; CHex] (pad 16 2 (Z.lor (Z.land b 0x3f) 0x80)) = true.
Proof.
  change 0x3f with (Z.ones 6). rewrite Z.land_ones by lia.
  pose proof (Z.mod_pos_bound b (2 ^ 6) ltac:(lia)) as Hm. generalize dependent (b mod 2 ^ 6). intros q Hq.
  assert (forallb (fun q => has_shape [CVariant; CHex] (pad 16 2 (Z.lor q 0x80))) (seqZ 0 64) = true) as Hall
    by (vm_compute; reflexivity).
  rewrite forallb_forall in Hall. apply Hall. apply list_elem_of_In, elem_of_seqZ. lia.
Qed.

Ltac shape_step :=
  first [apply pad_shape | apply variant_byte_shape | reflexivity
    | apply has_shape_app; [shape_step|] ].

Lemma id_text_shape st r : has_shape uuid7_shape (id_prefix st +:+ id_suffix r) = true.
Proof.
  destruct r as [[[[[[[b8 b9] b10] b11] b12] b13] b14] b15].
  unfold id_prefix, id_suffix, hex_bytes. cbn [foldr].
  rewrite !str_app_assoc, !str_app_nil_l, !str_app_nil_r.
  change uuid7_shape with (replicate 8 CHex ++ [CDash] ++ replicate 4 CHex ++ [CDash; CSeven] ++
    replicate 3 CHex ++ [CDash] ++ [CVariant; CHex] ++ replicate 2 CHex ++ [CDash] ++
    replicate 2 CHex ++ replicate 2 CHex ++ replicate 2 CHex ++ replicate 2 CHex ++
    replicate 2 CHex ++ replicate 2 CHex).
  repeat shape_step.
Qed.

(** ** Properties *)

(** C33.  However the clock moves (stands still, jumps back), successive
    identifiers of one process are strictly increasing as strings, so
    [ORDER BY id] is creation order, as long as the timestamp fits 48 bits. *)
Theorem NewID_strictly_increasing (n : nat) (g : id_stream) :
  idState_ok (s_state g) -> (forall i, input_ok (s_env g i)) ->
  id_ms (s_state (snd (draw n g))) < 2 ^ 48 ->
  Sorted.StronglySorted str_lt (fst (draw n g)).
Proof. intros Hs Hi Hl. by apply draw_sorted. Qed.

(** A clock that runs backwards, and stands still. *)
Definition demo_env (n : nat) : id_input :=
  mkIdInput (1700000000000 - Z.of_nat (n / 2)) (255, 255, 1, 2, 3, 4, 5, 6).

Lemma NewID_strictly_increasing_witness :
  Sorted.StronglySorted str_lt (fst (draw 5 (mkIdStream (mkIdState 0 0) demo_env 0))).
Proof.
  apply (NewID_strictly_increasing 5 (mkIdStream (mkIdState 0 0) demo_env 0)).
  - split; simpl; lia.
  - intros i. unfold input_ok, demo_env, byte_ok; simpl. repeat constructor; lia.
  - vm_compute. reflexivity.
Defined.

(** Every identifier is the 36-character text of an RFC 9562
    version 7, variant 10 UUID. *)
Theorem NewID_is_uuid7 (inp : id_input) (st : idState) :
  input_ok inp -> idState_ok st -> id_ms (snd (NewID inp st)) < 2 ^ 48 ->
  has_shape uuid7_shape (fst (NewID inp st)) = true /\ String.length (fst (NewID inp st)) = 36%nat.
Proof.
  intros Hi Hs Hl. rewrite NewID_text by done. split; [apply id_text_shape|].
  rewrite str_length_app, id_prefix_length.
  destruct (in_rand inp) as [[[[[[[b8 b9] b10] b11] b12] b13] b14] b15].
  unfold id_suffix, hex_bytes. cbn [foldr]. by rewrite !str_length_app, !pad_length.
Qed.

Lemma NewID_is_uuid7_witness :
  has_shape uuid7_shape (fst (NewID (demo_env 0) (mkIdState 0 0))) = true /\
  String.length (fst (NewID (demo_env 0) (mkIdState 0 0))) = 36%nat.
Proof.
  apply (NewID_is_uuid7 (demo_env 0) (mkIdState 0 0)).
  - unfold input_ok, demo_env, byte_ok; simpl. repeat constructor; lia.
  - split; simpl; lia.
  - vm_compute. reflexivity.
Defined.

(** A generator for the examples of the other files. *)
Definition demo_gen : id_stream := mkIdStream (mkIdState 0 0) demo_env 0.
