(* ===== verification/GoTime.v ===== *)
(** Time as the program stores it: [t.UTC().Format(time.RFC3339Nano)] and
    [time.Parse] of it.

    An instant is a number of nanoseconds since the Unix epoch.  The layout
    [2006-01-02T15:04:05.999999999Z07:00] drops the trailing zeros of the
    fraction and the whole fraction when it is zero, so the text has no fixed
    width: the store compares such texts as strings ([not_before <= ?],
    [MIN(not_before)]), and the lemmas of this file say exactly how that
    order relates to the order of instants. *)
From S2P Require Import Prelude.

Definition time := Z.

(** Durations are signed 64-bit nanoseconds. *)
Definition Second : Z := 1000000000.
Definition Minute : Z := 60 * Second.
Definition Hour : Z := 60 * Minute.
Definition Millisecond : Z := 1000000.

(** ** Civil dates *)

Record civil := mkCivil { cy : Z; cm : Z; cd : Z }.

Definition leap (y : Z) : bool :=
  ((y mod 4 =? 0) && negb (y mod 100 =? 0)) || (y mod 400 =? 0).

Definition month_days (y m : Z) : Z :=
  if m =? 2 then (if leap y then 29 else 28)
  else if (m =? 4) || (m =? 6) || (m =? 9) || (m =? 11) then 30 else 31.

(** Years are counted from March, so the leap day is the last of its year; an
    era of 400 such years has 146097 days: centuries of 36524 days (the last
    one has one more), cycles of 1461, years of 365. *)
Definition era_yoe (doe : Z) : Z :=
  let c := Z.min 3 (doe / 36524) in
  let r := doe - c * 36524 in
  let q := r / 1461 in
  100 * c + 4 * q + Z.min 3 ((r - q * 1461) / 365).

(** First day of a year of the era. *)
Definition year_start (yoe : Z) : Z := 365 * yoe + yoe / 4 - yoe / 100 + yoe / 400.

(** Month (from March) and day of month of a day of the year, and back. *)
Definition doy_month (doy : Z) : Z := (5 * doy + 2) / 153.
Definition doy_day (doy : Z) : Z := doy - (153 * doy_month doy + 2) / 5 + 1.
Definition doy_of (mp d : Z) : Z := (153 * mp + 2) / 5 + d - 1.

(** Civil date of a year that starts in March. *)
Definition march_civil (y mp d : Z) : civil :=
  if mp <? 10 then mkCivil y (mp + 3) d else mkCivil (y + 1) (mp - 9) d.

(** The March-based year of a day count from 0000-03-01. *)
Definition march_year (z : Z) : Z := z / 146097 * 400 + era_yoe (z mod 146097).

(** Civil date of a day count from 1970-01-01, and back. *)
Definition civil_of_days (d : Z) : civil :=
  let z := d + 719468 in
  let doy := z - year_start (march_year z) in
  march_civil (march_year z) (doy_month doy) (doy_day doy).

Definition days_of_civil (c : civil) : Z :=
  let y := if cm c <=? 2 then cy c - 1 else cy c in
  let mp := if cm c <=? 2 then cm c + 9 else cm c - 3 in
  year_start y + doy_of mp (cd c) - 719468.

(** Dates in one number: comparing it is comparing year, month, day. *)
Definition civil_key (c : civil) : Z := (cy c * 100 + cm c) * 100 + cd c.

Definition civil_ok (c : civil) : bool :=
  (1 <=? cm c) && (cm c <=? 12) && (1 <=? cd c) && (cd c <=? month_days (cy c) (cm c)).

Lemma era_yoe_spec doe :
  0 <= doe < 146097 ->
  0 <= era_yoe doe < 400 /\ year_start (era_yoe doe) <= doe < year_start (era_yoe doe + 1).
Proof.
  intros H. unfold era_yoe, year_start.
  set (c := Z.min 3 (doe / 36524)). set (r := doe - c * 36524).
  set (q := r / 1461). set (y := Z.min 3 ((r - q * 1461) / 365)).
  assert (0 <= c <= 3 /\ 0 <= r <= 36524 /\ (r = 36524 -> c = 3)) as (Hc & Hr & Hrc)
    by (unfold r, c; zdiv).
  assert (0 <= q <= 24 /\ 0 <= r - q * 1461 <= 1460) as [Hq Hr2] by (unfold q; zdiv).
  assert (0 <= y <= 3 /\ 0 <= r - q * 1461 - y * 365 <= 365 /\
    (r - q * 1461 - y * 365 = 365 -> y = 3)) as (Hy & Hd & Hyd) by (unfold y; zdiv).
  clearbody c q y. subst r. generalize dependent doe; intros doe H Hr Hrc Hr2 Hd Hyd.
  assert ((100 * c + 4 * q + y) / 4 = 25 * c + q) as -> by zdiv.
  assert ((100 * c + 4 * q + y) / 100 = c) as -> by zdiv.
  assert ((100 * c + 4 * q + y) / 400 = 0) as -> by zdiv.
  split; [lia|]. split; [lia|].
  zdiv.
Qed.

Lemma year_start_mono y1 y2 : y1 <= y2 -> year_start y1 <= year_start y2.
Proof. unfold year_start. intros. zdiv. Qed.

Lemma year_start_era y k : year_start (k * 400 + y) = k * 146097 + year_start y.
Proof. unfold year_start. zdiv. Qed.

Lemma march_year_spec z : year_start (march_year z) <= z < year_start (march_year z + 1).
Proof.
  unfold march_year. rewrite <- Z.add_assoc, !year_start_era.
  pose proof (era_yoe_spec (z mod 146097) ltac:(apply Z.mod_pos_bound; lia)).
  pose proof (Z.div_mod z 146097). lia.
Qed.

(** A March-based year has 366 days when the February that ends it has 29. *)
Lemma year_length y :
  year_start (y + 1) - year_start y = if leap (y + 1) then 366 else 365.
Proof.
  unfold year_start, leap.
  destruct (Z.eqb_spec ((y + 1) mod 4) 0), (Z.eqb_spec ((y + 1) mod 100) 0),
    (Z.eqb_spec ((y + 1) mod 400) 0); simpl; zdiv.
Qed.

Definition doy_ok (doy : Z) : bool :=
  (0 <=? doy_month doy) && (doy_month doy <? 12) && (1 <=? doy_day doy) &&
  (doy_of (doy_month doy) (doy_day doy) =? doy) &&
  (doy_month doy * 100 + doy_day doy <? doy_month (doy + 1) * 100 + doy_day (doy + 1)) &&
  (if doy_month doy =? 11 then doy_day doy <=? (if doy =? 365 then 29 else 28)
   else doy_day doy <=? month_days 1 (if doy_month doy <? 10 then doy_month doy + 3 else doy_month doy - 9)).

Lemma doy_checked doy : 0 <= doy < 366 -> doy_ok doy = true.
Proof.
  intros H. assert (forallb doy_ok (seqZ 0 366) = true) as Hall by (vm_compute; reflexivity).
  rewrite forallb_forall in Hall. apply Hall, list_elem_of_In, elem_of_seqZ. lia.
Qed.

Tactic Notation "doy_facts" constr(doy) constr(H) :=
  let Hd := fresh in
  pose proof (doy_checked doy H) as Hd; unfold doy_ok in Hd; bool_to_prop.

Lemma doy_key_mono d1 d2 :
  0 <= d1 < d2 -> d2 < 366 ->
  doy_month d1 * 100 + doy_day d1 < doy_month d2 * 100 + doy_day d2.
Proof.
  intros H1 H2. revert H2. pattern d2. apply (Z.lt_ind _ ltac:(solve_proper) d1); [|intros d2' H IH|lia].
  - intros Hd. doy_facts d1 (conj (proj1 H1) (Z.lt_trans _ _ _ (Z.lt_succ_diag_r d1) Hd)).
    rewrite <- Z.add_1_r. done.
  - intros Hd. assert (0 <= d2' < 366) as Hd2 by lia. doy_facts d2' Hd2. rewrite <- Z.add_1_r in *. specialize (IH ltac:(lia)). lia.
Qed.

(** The date of a day count is a date, and the count can be read back. *)
Lemma civil_of_days_ok d : civil_ok (civil_of_days d) = true.
Proof.
  unfold civil_of_days, civil_ok, march_civil.
  pose proof (march_year_spec (d + 719468)) as Hy. pose proof (year_length (march_year (d + 719468))) as Hl.
  generalize dependent (march_year (d + 719468)). intros y Hy Hl.
  set (doy := d + 719468 - year_start y). assert (0 <= doy < 366) as Hd by (unfold doy; case_match; lia).
  assert (doy = 365 -> leap (y + 1) = true) as H365 by (unfold doy; destruct (leap (y + 1)); [done|lia]).
  clearbody doy. doy_facts doy Hd.
  destruct (Z.ltb_spec (doy_month doy) 10); simpl; rewrite !andb_true_iff, !Z.leb_le;
    (split; [lia|]).
  - destruct (Z.eqb_spec (doy_month doy) 11); [lia|].
    unfold month_days in *. destruct (Z.eqb_spec (doy_month doy + 3) 2); [lia|]. lia.
  - destruct (Z.eqb_spec (doy_month doy) 11) as [He|He].
    + rewrite He. unfold month_days; simpl.
      destruct (Z.eqb_spec doy 365); [rewrite H365 by done; lia|]. destruct (leap _); lia.
    + assert (doy_month doy = 10) as E by lia. rewrite E in *. unfold month_days in *; simpl in *. lia.
Qed.

Lemma days_civil_roundtrip d : days_of_civil (civil_of_days d) = d.
Proof.
  unfold civil_of_days, days_of_civil, march_civil.
  pose proof (march_year_spec (d + 719468)) as Hy. pose proof (year_length (march_year (d + 719468))) as Hl.
  generalize dependent (march_year (d + 719468)). intros y Hy Hl.
  set (doy := d + 719468 - year_start y). assert (0 <= doy < 366) as Hd by (unfold doy; case_match; lia).
  doy_facts doy Hd.
  destruct (Z.ltb_spec (doy_month doy) 10); simpl.
  - destruct (Z.leb_spec (doy_month doy + 3) 2); [lia|]. rewrite Z.add_simpl_r. lia.
  - destruct (Z.leb_spec (doy_month doy - 9) 2); [|lia].
    rewrite Z.sub_simpl_r, Z.add_simpl_r. lia.
Qed.

(** Later days have later dates. *)
Lemma civil_key_mono d1 d2 : d1 < d2 -> civil_key (civil_of_days d1) < civil_key (civil_of_days d2).
Proof.
  intros H. unfold civil_of_days, civil_key, march_civil.
  pose proof (march_year_spec (d1 + 719468)) as Hy1. pose proof (year_length (march_year (d1 + 719468))) as Hl1.
  pose proof (march_year_spec (d2 + 719468)) as Hy2. pose proof (year_length (march_year (d2 + 719468))) as Hl2.
  generalize dependent (march_year (d1 + 719468)). intros y1 Hy1 Hl1.
  generalize dependent (march_year (d2 + 719468)). intros y2 Hy2 Hl2.
  set (doy1 := d1 + 719468 - year_start y1). set (doy2 := d2 + 719468 - year_start y2).
  assert (0 <= doy1 < 366) as Hd1 by (unfold doy1; destruct (leap (y1 + 1)); lia).
  assert (0 <= doy2 < 366) as Hd2 by (unfold doy2; destruct (leap (y2 + 1)); lia).
  assert (y1 < y2 \/ (y1 = y2 /\ doy1 < doy2)) as Hlex.
  { destruct (Z.lt_trichotomy y1 y2) as [Hl|[Hl|Hl]]; [by left| |].
    - right. split; [done|]. unfold doy1, doy2. subst. lia.
    - pose proof (year_start_mono (y2 + 1) y1). lia. }
  assert (y1 = y2 -> doy_month doy1 * 100 + doy_day doy1 < doy_month doy2 * 100 + doy_day doy2) as Hk.
  { intros Hy. apply doy_key_mono; lia. }
  clearbody doy1 doy2. doy_facts doy1 Hd1. doy_facts doy2 Hd2.
  assert (doy_day doy1 <= 31 /\ doy_day doy2 <= 31) as [??]
    by (unfold month_days in *; split; repeat case_match; lia).
  destruct (Z.ltb_spec (doy_month doy1) 10), (Z.ltb_spec (doy_month doy2) 10); simpl; lia.
Qed.

(** ** The text of an instant *)

(** [2006-01-02T15:04:05] of a number of seconds since the epoch. *)
Definition fmt_secs (s : Z) : string :=
  let c := civil_of_days (s / 86400) in
  let tod := s mod 86400 in
  pad 10 4 (cy c) +:+ "-" +:+ pad 10 2 (cm c) +:+ "-" +:+ pad 10 2 (cd c) +:+ "T" +:+
  pad 10 2 (tod / 3600) +:+ ":" +:+ pad 10 2 (tod / 60 mod 60) +:+ ":" +:+ pad 10 2 (tod mod 60).

(** The last [w] digits of [n] without their trailing zeros. *)
Fixpoint strip_zeros (w : nat) (n : Z) : string :=
  match w with
  | O => ""
  | S w' => if n mod 10 =? 0 then strip_zeros w' (n / 10) else pad 10 w n
  end.

(** [.999999999]: nothing for a whole second. *)
Definition fmt_frac (ns : Z) : string :=
  if ns =? 0 then "" else "." +:+ strip_zeros 9 ns.

(** [t.UTC().Format(time.RFC3339Nano)], for the years 0 to 9999. *)
Definition fmt_time (t : time) : string :=
  fmt_secs (t / Second) +:+ fmt_frac (t mod Second) +:+ "Z".

(** 0000-01-01T00:00:00Z up to the end of the year 9999. *)
Definition time_ok (t : time) : Prop := -62167219200 <= t / Second < 253402300800.

#[global] Instance time_ok_dec t : Decision (time_ok t).
Proof. unfold time_ok. apply _. Defined.

Example fmt_time_examples :
  fmt_time 1767225600000000000 = "2026-01-01T00:00:00Z" /\
  fmt_time 1767225600500000000 = "2026-01-01T00:00:00.5Z" /\
  fmt_time 951782400000000001 = "2000-02-29T00:00:00.000000001Z" /\
  fmt_time (-1) = "1969-12-31T23:59:59.999999999Z".
Proof. repeat split; vm_compute; reflexivity. Qed.

(** The time zone suffix, for an offset in minutes: [Z] or [+hh:mm]. *)
Definition fmt_zone (zone : Z) : string :=
  if zone =? 0 then "Z"
  else (if zone <? 0 then "-" else "+") +:+ pad 10 2 (Z.abs zone / 60) +:+ ":" +:+ pad 10 2 (Z.abs zone mod 60).

(** [t.Format(time.RFC3339Nano)] in the zone [zone] minutes east of UTC. *)
Definition fmt_zoned (zone : Z) (t : time) : string :=
  let l := t + zone * 60 * Second in
  fmt_secs (l / Second) +:+ fmt_frac (l mod Second) +:+ fmt_zone zone.

(** [time.Parse(time.RFC3339Nano, s)] on the texts of that form; any other text
    is an error. *)
Definition expect (c : ascii) (s : string) : option string :=
  match s with
  | String d r => if Ascii.eqb c d then Some r else None
  | EmptyString => None
  end.

(** Digits after the point, the first worth [scale]; digits past the ninth are
    dropped, as their scale is zero. *)
Fixpoint read_frac (s : string) (scale acc : Z) : Z * string :=
  match s with
  | String c r =>
      if is_digit c then read_frac r (scale / 10) (acc + digit_val c * scale) else (acc, s)
  | EmptyString => (acc, s)
  end.

Definition read_ns (s : string) : Z * string :=
  match s with
  | String "." (String c r) =>
      if is_digit c then read_frac (String c r) 100000000 0 else (0, s)
  | _ => (0, s)
  end.

Definition read_zone (s : string) : option Z :=
  match s with
  | EmptyString => None
  | String c r =>
      if Ascii.eqb c "Z" then if String.eqb r "" then Some 0 else None
      else if Ascii.eqb c "+" || Ascii.eqb c "-" then
        '(h, r) ← read_num 2 0 r;
        r ← expect ":" r;
        '(m, r) ← read_num 2 0 r;
        if (h <? 24) && (m <? 60) && String.eqb r "" then Some (if Ascii.eqb c "-" then - (h * 60 + m) else h * 60 + m) else None
      else None
  end.

Definition parse_time (s : string) : option time :=
  '(y, s) ← read_num 4 0 s;
  s ← expect "-" s;
  '(m, s) ← read_num 2 0 s;
  s ← expect "-" s;
  '(d, s) ← read_num 2 0 s;
  s ← expect "T" s;
  '(hh, s) ← read_num 2 0 s;
  s ← expect ":" s;
  '(mm, s) ← read_num 2 0 s;
  s ← expect ":" s;
  '(ss, s) ← read_num 2 0 s;
  let '(ns, s) := read_ns s in
  zone ← read_zone s;
  if civil_ok (mkCivil y m d) && (hh <? 24) && (mm <? 60) && (ss <? 60)
  then Some ((days_of_civil (mkCivil y m d) * 86400 + hh * 3600 + mm * 60 + ss - zone * 60) * Second + ns)
  else None.

Lemma strip_zeros_pad w n :
  0 < n < 10 ^ Z.of_nat w -> exists k m,
    strip_zeros w n = pad 10 (S k) m /\ (S k <= w)%nat /\ 0 <= m < 10 ^ Z.of_nat (S k) /\
    n = m * 10 ^ Z.of_nat (w - S k).
Proof.
  revert n; induction w as [|w IH]; intros n Hn; [simpl in Hn; lia|]. cbn [strip_zeros].
  rewrite Nat2Z.inj_succ, Z.pow_succ_r in Hn by lia.
  destruct (Z.eqb_spec (n mod 10) 0) as [Hz|Hz].
  - destruct (IH (n / 10)) as (k & m & -> & Hk & Hm & He).
    { split; [zdiv|]. apply Z.div_lt_upper_bound; lia. }
    exists k, m. split; [done|]. split; [lia|]. split; [done|].
    replace (S w - S k)%nat with (S (w - S k)) by lia. rewrite Nat2Z.inj_succ, Z.pow_succ_r by lia.
    pose proof (Z.div_mod n 10). lia.
  - exists w, n. rewrite Nat.sub_diag. simpl Z.of_nat. rewrite Nat2Z.inj_succ, Z.pow_succ_r by lia.
    split; [done|]. split; [done|]. simpl. lia.
Qed.

Lemma read_frac_pad w n acc k r :
  (w <= k)%nat -> 0 <= n < 10 ^ Z.of_nat w ->
  match r with String c _ => is_digit c = false | EmptyString => True end ->
  read_frac (pad 10 w n +:+ r) (10 ^ Z.of_nat k / 10) acc = (acc + n * 10 ^ Z.of_nat (k - w), r).
Proof.
  intros Hk Hn Hr. revert n acc k Hk Hn; induction w as [|w IH]; intros n acc k Hk Hn.
  { rewrite str_app_nil_l. assert (n = 0) as -> by (simpl in Hn; lia).
    rewrite Z.mul_0_l, Z.add_0_r. destruct r; simpl; [done|]. by rewrite Hr. }
  destruct k as [|k]; [lia|]. rewrite pad_cons, str_app_cons by lia. cbn [read_frac].
  rewrite !Nat2Z.inj_succ, !Z.pow_succ_r in * by lia.
  assert (0 < 10 ^ Z.of_nat w) by (apply Z.pow_pos_nonneg; lia).
  assert (0 <= n / 10 ^ Z.of_nat w < 10).
  { split; [apply Z.div_pos; lia|]. apply Z.div_lt_upper_bound; lia. }
  rewrite (Z.mod_small (n / _)) by lia. destruct (digit_10 (n / 10 ^ Z.of_nat w)) as [-> ->]; [done|].
  rewrite (Z.mul_comm 10 (10 ^ Z.of_nat k)), Z.div_mul by lia.
  rewrite <- (pad_mod 10 w n) by lia. rewrite IH by (try apply Z.mod_pos_bound; lia).
  f_equal. replace (S k - S w)%nat with (k - w)%nat by lia.
  replace (10 ^ Z.of_nat k) with (10 ^ Z.of_nat w * 10 ^ Z.of_nat (k - w))
    by (rewrite <- Z.pow_add_r by lia; f_equal; lia).
  pose proof (Z.div_mod n (10 ^ Z.of_nat w) ltac:(lia)). nia.
Qed.

(** What may follow a fraction: neither a digit nor a point. *)
Definition ends_frac (r : string) : Prop := match r with String c _ => is_digit c = false /\ c <> "."%char | EmptyString => True end.

Lemma read_ns_frac ns r :
  0 <= ns < Second -> ends_frac r -> read_ns (fmt_frac ns +:+ r) = (ns, r).
Proof.
  intros Hns Hr. unfold fmt_frac. destruct (Z.eqb_spec ns 0) as [->|Hz].
  { rewrite str_app_nil_l. destruct r as [|c r]; [done|]. destruct Hr as [_ Hc]. unfold read_ns.
    by destruct c as [[] [] [] [] [] [] [] []]. }
  destruct (strip_zeros_pad 9 ns) as (k & m & -> & Hk & Hm & He); [unfold Second in *; simpl; lia|].
  rewrite str_app_assoc. unfold read_ns. rewrite str_app_cons, str_app_nil_l.
  rewrite pad_cons, str_app_cons by lia.
  assert (0 < 10 ^ Z.of_nat k) by (apply Z.pow_pos_nonneg; lia).
  destruct (digit_10 (m / 10 ^ Z.of_nat k mod 10)) as [Hd _]; [apply Z.mod_pos_bound; lia|].
  rewrite Hd. rewrite <- str_app_cons, <- pad_cons by lia.
  change 100000000 with (10 ^ Z.of_nat 9 / 10). rewrite read_frac_pad; [|done|done|by destruct r; [|destruct Hr]].
  f_equal. lia.
Qed.

Lemma time_ok_civil t :
  time_ok t -> let c := civil_of_days (t / Second / 86400) in
  0 <= cy c <= 9999 /\ 1 <= cm c <= 12 /\ 1 <= cd c <= 31.
Proof.
  unfold time_ok. intros [Hlo Hhi]. set (s := t / Second) in *. cbn zeta.
  pose proof (civil_of_days_ok (s / 86400)) as Hok. unfold civil_ok in Hok. bool_to_prop.
  assert (cd (civil_of_days (s / 86400)) <= 31) by (unfold month_days in *; repeat case_match; lia).
  assert (civil_key (civil_of_days (-719528)) <= civil_key (civil_of_days (s / 86400))) as Hge.
  { destruct (decide (s / 86400 = -719528)) as [->|]; [done|].
    apply Z.lt_le_incl, civil_key_mono. zdiv. }
  assert (civil_key (civil_of_days (s / 86400)) <= civil_key (civil_of_days 2932896)) as Hle.
  { destruct (decide (s / 86400 = 2932896)) as [->|]; [done|].
    apply Z.lt_le_incl, civil_key_mono. zdiv. }
  assert (civil_key (civil_of_days (-719528)) = 101) as E0 by reflexivity.
  assert (civil_key (civil_of_days 2932896) = 99991231) as E1 by reflexivity.
  rewrite E0 in Hge. rewrite E1 in Hle. unfold civil_key in Hge, Hle. lia.
Qed.

Lemma expect_app c r : expect c (String c "" +:+ r) = Some r.
Proof. rewrite str_app_cons, str_app_nil_l. simpl. by rewrite Ascii.eqb_refl. Qed.

Lemma tod_fields tod :
  0 <= tod < 86400 ->
  0 <= tod / 3600 < 24 /\ 0 <= tod / 60 mod 60 < 60 /\ 0 <= tod mod 60 < 60 /\
  tod / 3600 * 3600 + tod / 60 mod 60 * 60 + tod mod 60 = tod.
Proof. intros H. zdiv. Qed.

Definition zone_ok (zone : Z) : Prop := -1440 < zone < 1440.

Lemma read_fmt_zone zone : zone_ok zone -> read_zone (fmt_zone zone) = Some zone /\ ends_frac (fmt_zone zone).
Proof.
  unfold zone_ok. intros Hz. unfold fmt_zone. destruct (Z.eqb_spec zone 0) as [->|H0]; [done|].
  assert (Z.abs zone = zone \/ Z.abs zone = - zone) as Ha by lia.
  assert (0 <= Z.abs zone / 60 < 24 /\ 0 <= Z.abs zone mod 60 < 60 /\ Z.abs zone / 60 * 60 + Z.abs zone mod 60 = Z.abs zone) as (Hh & Hm & He) by zdiv.
  set (h := Z.abs zone / 60) in *. set (m := Z.abs zone mod 60) in *. clearbody h m.
  assert (forall c, Ascii.eqb c "Z" = false -> Ascii.eqb c "+" || Ascii.eqb c "-" = true ->
    read_zone (String c (pad 10 2 h +:+ ":" +:+ pad 10 2 m)) = Some (if Ascii.eqb c "-" then - (h * 60 + m) else h * 60 + m)) as Hr.
  { intros c Hc Hs. unfold read_zone. rewrite Hc, Hs. rewrite read_num_pad by (simpl; lia). cbn [mbind option_bind]. rewrite expect_app. cbn [mbind option_bind].
    rewrite <- (str_app_nil_r (pad 10 2 m)), read_num_pad by (simpl; lia). cbn [mbind option_bind].
    rewrite !Z.mul_0_l, !Z.add_0_l. assert ((h <? 24) = true) as -> by lia. by assert ((m <? 60) = true) as -> by lia. }
  destruct (Z.ltb_spec zone 0) as [Hn|Hp]; rewrite str_app_cons, str_app_nil_l, Hr by done; (split; [cbn; f_equal; lia|done]).
Qed.

(** Reading back what was written. *)
Lemma parse_fmt_zoned zone t : zone_ok zone -> time_ok (t + zone * 60 * Second) -> parse_time (fmt_zoned zone t) = Some t.
Proof.
  intros Hz Ht. destruct (read_fmt_zone zone Hz) as [Hrz Hez]. pose proof (time_ok_civil _ Ht) as Hc. cbn zeta in Hc.
  unfold fmt_zoned. set (l := t + zone * 60 * Second) in *.
  pose proof (civil_of_days_ok (l / Second / 86400)) as Hok.
  pose proof (days_civil_roundtrip (l / Second / 86400)) as Hd.
  unfold fmt_secs, parse_time. set (s := l / Second) in *.
  destruct (civil_of_days (s / 86400)) as [y m d]. simpl cy in *. simpl cm in *. simpl cd in *.
  rewrite !str_app_assoc.
  pose proof (tod_fields (s mod 86400) ltac:(apply Z.mod_pos_bound; lia)) as (Hh & Hm & Hs & Htod).
  pose proof (Z.mod_pos_bound l Second ltac:(unfold Second; lia)) as Hns.
  pose proof (Z.div_mod s 86400 ltac:(lia)) as Hday.
  pose proof (Z.div_mod l Second ltac:(unfold Second; lia)) as Hsec. fold s in Hsec.
  set (tod := s mod 86400) in *. set (hh := tod / 3600) in *.
  set (mm := tod / 60 mod 60) in *. set (ss := tod mod 60) in *. clearbody hh mm ss.
  repeat (rewrite read_num_pad by (simpl; lia); cbn [mbind option_bind];
          try (rewrite expect_app; cbn [mbind option_bind])).
  rewrite read_ns_frac by done. cbn beta iota. rewrite Hrz. cbn [mbind option_bind].
  rewrite !Z.mul_0_l, !Z.add_0_l, Hok.
  assert ((hh <? 24) = true) as -> by lia. assert ((mm <? 60) = true) as -> by lia.
  assert ((ss <? 60) = true) as -> by lia.
  cbn [andb]. f_equal. rewrite Hd. unfold l in *. lia.
Qed.

Lemma fmt_zoned_0 t : fmt_zoned 0 t = fmt_time t.
Proof. unfold fmt_zoned. by rewrite !Z.mul_0_l, Z.add_0_r. Qed.

Lemma parse_fmt_time t : time_ok t -> parse_time (fmt_time t) = Some t.
Proof. intros Ht. rewrite <- fmt_zoned_0. apply parse_fmt_zoned; [done|]. by rewrite !Z.mul_0_l, Z.add_0_r. Qed.

Example fmt_zoned_examples :
  fmt_zoned 330 1767225600500000000 = "2026-01-01T05:30:00.5+05:30" /\
  parse_time "2025-12-31T15:00:00-09:00" = Some (1767225600 * Second).
Proof. split; vm_compute; reflexivity. Qed.

Lemma fmt_time_inj t1 t2 : time_ok t1 -> time_ok t2 -> fmt_time t1 = fmt_time t2 -> t1 = t2.
Proof.
  intros H1 H2 He. pose proof (parse_fmt_time t1 H1) as P1. pose proof (parse_fmt_time t2 H2) as P2.
  congruence.
Qed.

(** ** String order against time order *)

(** Lexicographic comparison of fixed-width fields. *)
Lemma str_lt_field w a b x y :
  0 <= a <= b -> b < 10 ^ Z.of_nat w -> (a = b -> str_lt x y) ->
  str_lt (pad 10 w a +:+ x) (pad 10 w b +:+ y).
Proof.
  intros Ha Hb He. destruct (decide (a = b)) as [->|].
  - rewrite str_lt_app_same. auto.
  - apply str_lt_app_l; [by rewrite !pad_length|]. apply pad_lt; lia.
Qed.

Lemma fmt_secs_length s : String.length (fmt_secs s) = 19%nat.
Proof. unfold fmt_secs. by rewrite !str_length_app, !pad_length. Qed.

Lemma fmt_secs_lt t1 t2 :
  time_ok t1 -> time_ok t2 -> t1 / Second < t2 / Second ->
  str_lt (fmt_secs (t1 / Second)) (fmt_secs (t2 / Second)).
Proof.
  intros H1 H2 Hlt. apply time_ok_civil in H1, H2. cbn zeta in H1, H2. unfold fmt_secs.
  set (s1 := t1 / Second) in *. set (s2 := t2 / Second) in *. clearbody s1 s2.
  assert (s1 / 86400 < s2 / 86400 \/ (s1 / 86400 = s2 / 86400 /\ s1 mod 86400 < s2 mod 86400)) as Hd by zdiv.
  pose proof (civil_key_mono (s1 / 86400) (s2 / 86400)) as Hk. unfold civil_key in Hk.
  assert (s1 / 86400 = s2 / 86400 -> civil_of_days (s1 / 86400) = civil_of_days (s2 / 86400)) as Hsame by congruence.
  destruct (civil_of_days (s1 / 86400)) as [y1 m1 d1], (civil_of_days (s2 / 86400)) as [y2 m2 d2].
  cbn [cy cm cd] in *.
  assert (s1 / 86400 = s2 / 86400 -> y1 = y2 /\ m1 = m2 /\ d1 = d2) as Hs by (intros E; by simplify_eq (Hsame E)).
  clear Hsame. assert (s1 / 86400 = s2 / 86400 \/ s1 / 86400 < s2 / 86400) as [E|E] by lia.
  - destruct (Hs E) as (-> & -> & ->). rewrite !str_lt_app_same.
    destruct Hd as [|[_ Hd]]; [lia|].
    pose proof (Z.mod_pos_bound s1 86400 ltac:(lia)). pose proof (Z.mod_pos_bound s2 86400 ltac:(lia)).
    set (a := s1 mod 86400) in *. set (b := s2 mod 86400) in *. clearbody a b.
    apply str_lt_field; [zdiv|simpl; zdiv|]. intros Eh. rewrite str_lt_app_same.
    apply str_lt_field; [zdiv|simpl; zdiv|]. intros Em. rewrite str_lt_app_same.
    apply pad_lt; [lia|zdiv|simpl; zdiv].
  - specialize (Hk E). apply str_lt_field; [lia|simpl; lia|]. intros ->. rewrite str_lt_app_same.
    apply str_lt_field; [lia|simpl; lia|]. intros ->. rewrite str_lt_app_same.
    apply str_lt_field; [lia|simpl; lia|]. lia.
Qed.

(** A later second has a greater text, whatever the fractions. *)
Lemma fmt_time_lt_secs t1 t2 :
  time_ok t1 -> time_ok t2 -> t1 / Second < t2 / Second -> str_lt (fmt_time t1) (fmt_time t2).
Proof.
  intros H1 H2 Hlt. unfold fmt_time.
  apply str_lt_app_l; [by rewrite !fmt_secs_length|]. by apply fmt_secs_lt.
Qed.

(** Within one second, texts with equally many digits are ordered as the
    instants; the order is only wrong when the widths differ. *)
Lemma fmt_time_le_secs t1 t2 :
  time_ok t1 -> time_ok t2 -> str_le (fmt_time t1) (fmt_time t2) -> t1 / Second <= t2 / Second.
Proof.
  intros H1 H2 Hle. destruct (Z.le_gt_cases (t1 / Second) (t2 / Second)); [done|].
  exfalso. apply str_nle_lt in Hle; [done|]. by apply fmt_time_lt_secs.
Qed.

(** Both fractions use all nine digits. *)
Lemma fmt_time_lt_full t1 t2 :
  time_ok t1 -> time_ok t2 -> t1 mod 10 <> 0 -> t2 mod 10 <> 0 ->
  (str_lt (fmt_time t1) (fmt_time t2) <-> t1 < t2).
Proof.
  intros H1 H2 N1 N2.
  assert (forall a b, time_ok a -> time_ok b -> a mod 10 <> 0 -> b mod 10 <> 0 -> a < b ->
    str_lt (fmt_time a) (fmt_time b)) as Hlt.
  { clear. intros a b Ha Hb Na Nb Hab.
    destruct (decide (a / Second < b / Second)) as [|Hn]; [by apply fmt_time_lt_secs|].
    assert (a / Second = b / Second) as He by (unfold Second in *; zdiv).
    unfold fmt_time. rewrite He, str_lt_app_same. unfold fmt_frac.
    assert (a mod Second < b mod Second /\ 0 <= a mod Second /\ b mod Second < 10 ^ 9 /\
      a mod Second mod 10 <> 0 /\ b mod Second mod 10 <> 0) as (L & Z0 & U & Na' & Nb')
      by (unfold Second in *; zdiv).
    destruct (Z.eqb_spec (a mod Second) 0) as [E|_]; [rewrite E in Na'; done|].
    destruct (Z.eqb_spec (b mod Second) 0) as [E|_]; [rewrite E in Nb'; done|].
    cbn [strip_zeros]. destruct (Z.eqb_spec (a mod Second mod 10) 0); [done|].
    destruct (Z.eqb_spec (b mod Second mod 10) 0); [done|].
    rewrite !str_app_assoc, str_lt_app_same. apply str_lt_app_l; [by rewrite !pad_length|].
    apply pad_lt; simpl; lia. }
  split; [|by apply Hlt]. intros Hs. destruct (Z.lt_trichotomy t1 t2) as [|[->|Hgt]]; [done| |].
  - by apply str_lt_irrefl in Hs.
  - exfalso. eapply str_lt_irrefl, str_lt_trans; [apply Hs|]. by apply Hlt.
Qed.
