(* ===== verification/Clock.v ===== *)
(** The scheduler's clock: internal/scheduler/clock.go.

    The scheduler reads instants and waits on timers through an interface; the
    model takes the instants as arguments.  Here is the fake clock that drives it
    in the tests: timers with a one-place channel, fired by [Advance]. *)
From S2P Require Import Prelude GoTime.

Record fakeTimer := mkTimer {
  ft_ch : option time;       (** the channel's one place *)
  ft_deadline : time;
  ft_stopped : bool
}.
Record FakeClock := mkClock { fc_now : time; fc_timers : list fakeTimer }.

(** 2026-01-01T00:00:00Z. *)
Definition NewFakeClock : FakeClock := mkClock (1767225600 * Second) [].

Definition NewTimer (d : Z) (f : FakeClock) : nat * FakeClock :=
  (length (fc_timers f), mkClock (fc_now f) (fc_timers f ++ [mkTimer None (fc_now f + d) false])).

Definition due (now : time) (t : fakeTimer) : bool := negb (ft_stopped t) && (ft_deadline t <=? now).

(** A send that does not wait. *)
Definition offer (x : time) (ch : option time) : option time := match ch with None => Some x | Some y => Some y end.

Definition Advance (d : Z) (f : FakeClock) : FakeClock :=
  let now := fc_now f + d in
  mkClock now (map (fun t => if due now t then mkTimer (offer now (ft_ch t)) (ft_deadline t) true else t) (fc_timers f)).

Definition on_timer (i : nat) (g : fakeTimer -> fakeTimer) (f : FakeClock) : FakeClock :=
  mkClock (fc_now f) (alter g i (fc_timers f)).

Definition Timer_Stop (i : nat) (f : FakeClock) : FakeClock := on_timer i (fun t => mkTimer (ft_ch t) (ft_deadline t) true) f.
Definition Timer_Reset (i : nat) (d : Z) (f : FakeClock) : FakeClock := on_timer i (fun t => mkTimer None (fc_now f + d) false) f.

(** A receive from the channel, if it is not empty. *)
Definition Timer_recv (i : nat) (f : FakeClock) : option time * FakeClock :=
  (fc_timers f !! i ≫= ft_ch, on_timer i (fun t => mkTimer None (ft_deadline t) (ft_stopped t)) f).

Definition advances (ds : list Z) (f : FakeClock) : FakeClock := foldl (fun f d => Advance d f) f ds.

(** The first of the instants reached that is past the deadline. *)
Fixpoint first_past (deadline now : time) (ds : list Z) : option time :=
  match ds with
  | [] => None
  | d :: ds => if deadline <=? now + d then Some (now + d) else first_past deadline (now + d) ds
  end.

Lemma fired_stays ds : forall f i ch dl, fc_timers f !! i = Some (mkTimer ch dl true) ->
  fc_timers (advances ds f) !! i = Some (mkTimer ch dl true).
Proof.
  induction ds as [|d ds IH]; intros f i ch dl Hi; [done|]. apply IH. unfold Advance. cbn [fc_timers]. rewrite list_lookup_fmap, Hi. cbn. unfold due. cbn. reflexivity.
Qed.

(** After a reset, and whatever the steps of the clock, the timer's channel holds
    the first instant reached that is past its deadline, once, and nothing
    before. *)
Theorem reset_fires_once i d ds (f : FakeClock) t :
  fc_timers f !! i = Some t ->
  exists t', fc_timers (advances ds (Timer_Reset i d f)) !! i = Some t' /\
    ft_ch t' = first_past (fc_now f + d) (fc_now f) ds /\ ft_stopped t' = bool_decide (is_Some (first_past (fc_now f + d) (fc_now f) ds)).
Proof.
  intros Hi. set (f' := Timer_Reset i d f).
  assert (fc_timers f' !! i = Some (mkTimer None (fc_now f + d) false) /\ fc_now f' = fc_now f) as [Hf Hn].
  { unfold f', Timer_Reset, on_timer. cbn [fc_timers fc_now]. by rewrite list_lookup_alter_eq, Hi. }
  generalize dependent (fc_now f + d). intros dl Hf. rewrite <- Hn. clear Hn. generalize dependent f'. clear. induction ds as [|x ds IH]; intros f Hf; cbn [first_past].
  - by eexists.
  - cbn [advances foldl]. destruct (Z.leb_spec dl (fc_now f + x)) as [Hd|Hd].
    + eexists. split; [apply fired_stays; unfold Advance; cbn [fc_timers]; rewrite list_lookup_fmap, Hf; cbn; unfold due; cbn;
        destruct (Z.leb_spec dl (fc_now f + x)); [reflexivity|lia]|]. done.
    + apply (IH (Advance x f)). unfold Advance; cbn [fc_timers]. rewrite list_lookup_fmap, Hf. cbn. unfold due; cbn.
      by destruct (Z.leb_spec dl (fc_now f + x)); [lia|].
Qed.

(** A stopped timer does not fire. *)
Lemma stopped_silent i ds (f : FakeClock) t :
  fc_timers f !! i = Some t -> fc_timers (advances ds (Timer_Stop i f)) !! i = Some (mkTimer (ft_ch t) (ft_deadline t) true).
Proof. intros Hi. apply fired_stays. unfold Timer_Stop, on_timer. cbn [fc_timers]. by rewrite list_lookup_alter_eq, Hi. Qed.

Example clock_example :
  let '(i, f) := NewTimer (5 * Second) NewFakeClock in
  fst (Timer_recv i (Advance (3 * Second) f)) = None /\
  fst (Timer_recv i (advances [3 * Second; 3 * Second; Second] f)) = Some (fc_now f + 6 * Second).
Proof. vm_compute. by split. Qed.
