(* ===== verification/Float64.v ===== *)
(** IEEE binary64 values, as far as the program uses float64: reading a JSON
    number, converting to and from integers, and the two products and the sum
    of the retry jitter.

    A non-negative value is [fm * 2 ^ fe]; [round_q] rounds a quotient to the
    nearest representable value, ties to even. *)
From S2P Require Import Prelude.

Record fpos := mkFpos { fm : Z; fe : Z }.

(** Smallest exponent (subnormals), and the exponent from which values overflow. *)
Definition emin : Z := -1074.

(** The exponent at which the quotient has 53 bits. *)
Definition q_exp (num den : Z) : Z :=
  let e := Z.log2 num - Z.log2 den - 52 in
  let e := if num * 2 ^ Z.max 0 (- e) <? 2 ^ 52 * (den * 2 ^ Z.max 0 e) then e - 1 else e in
  Z.max emin e.

Definition round_q (num den : Z) : fpos :=
  if num =? 0 then mkFpos 0 0
  else
    let e := q_exp num den in
    let n := num * 2 ^ Z.max 0 (- e) in
    let d := den * 2 ^ Z.max 0 e in
    let q := n / d in
    let r := n mod d in
    let m := if (d <? 2 * r) || ((d =? 2 * r) && Z.odd q) then q + 1 else q in
    mkFpos m e.

(** The value as a quotient of integers. *)
Definition f_num (x : fpos) : Z := fm x * 2 ^ Z.max 0 (fe x).
Definition f_den (x : fpos) : Z := 2 ^ Z.max 0 (- fe x).

Definition f_overflow (x : fpos) : bool := 2 ^ 1024 * f_den x <=? f_num x.

Definition f_of_Z (n : Z) : fpos := round_q n 1.
Definition f_mul (x y : fpos) : fpos := round_q (f_num x * f_num y) (f_den x * f_den y).
Definition f_add (x y : fpos) : fpos :=
  round_q (f_num x * f_den y + f_num y * f_den x) (f_den x * f_den y).
Definition f_div (x y : fpos) : fpos := round_q (f_num x * f_den y) (f_den x * f_num y).

(** Conversion to an integer truncates. *)
Definition f_trunc (x : fpos) : Z := f_num x / f_den x.

Lemma f_den_pos x : 0 < f_den x.
Proof. unfold f_den. apply Z.pow_pos_nonneg; lia. Qed.

Lemma pow2_max_pos e : 0 < 2 ^ Z.max 0 e.
Proof. apply Z.pow_pos_nonneg; lia. Qed.

Lemma q_exp_big num den :
  0 < num -> 0 < den -> emin < q_exp num den ->
  2 ^ 52 * (den * 2 ^ Z.max 0 (q_exp num den)) <= num * 2 ^ Z.max 0 (- q_exp num den).
Proof.
  intros Hn Hd. unfold q_exp. set (e := Z.log2 num - Z.log2 den - 52).
  destruct (Z.ltb_spec (num * 2 ^ Z.max 0 (- e)) (2 ^ 52 * (den * 2 ^ Z.max 0 e))) as [Hlt|Hge].
  - intros Hmin. replace (Z.max emin (e - 1)) with (e - 1) by lia.
    pose proof (Z.log2_spec num Hn) as [Ln _]. pose proof (Z.log2_spec den Hd) as [_ Ud].
    assert (0 <= Z.log2 num) by apply Z.log2_nonneg. assert (0 <= Z.log2 den) by apply Z.log2_nonneg.
    destruct (Z.le_gt_cases (e - 1) 0).
    + rewrite (Z.max_l 0 (e - 1)), Z.pow_0_r, Z.mul_1_r by lia. rewrite Z.max_r by lia.
      assert (2 ^ 52 * 2 ^ Z.succ (Z.log2 den) <= 2 ^ Z.log2 num * 2 ^ (- (e - 1))).
      { rewrite <- !Z.pow_add_r by lia. apply Z.pow_le_mono_r; lia. }
      assert (0 < 2 ^ (- (e - 1))) by (apply Z.pow_pos_nonneg; lia). nia.
    + rewrite (Z.max_r 0 (e - 1)), (Z.max_l 0), Z.pow_0_r, Z.mul_1_r by lia.
      assert (2 ^ 52 * (2 ^ Z.succ (Z.log2 den) * 2 ^ (e - 1)) <= 2 ^ Z.log2 num).
      { rewrite <- !Z.pow_add_r by lia. apply Z.pow_le_mono_r; lia. }
      assert (0 < 2 ^ (e - 1)) by (apply Z.pow_pos_nonneg; lia). nia.
  - intros Hmin. replace (Z.max emin e) with e by lia. done.
Qed.

(** Rounding moves a normal value by at most one part in 2^53. *)
Lemma round_q_error num den :
  0 < num -> 0 < den -> emin < q_exp num den ->
  let x := round_q num den in
  2 ^ 53 * Z.abs (f_num x * den - num * f_den x) <= num * f_den x.
Proof.
  intros Hn Hd Hmin. pose proof (q_exp_big num den Hn Hd Hmin) as Hbig.
  unfold round_q. destruct (Z.eqb_spec num 0); [lia|]. cbn zeta.
  set (e := q_exp num den) in *.
  unfold f_num, f_den; cbn [fm fe].
  set (a := 2 ^ Z.max 0 (- e)) in *. set (b := 2 ^ Z.max 0 e) in *.
  assert (0 < a) by apply pow2_max_pos. assert (0 < b) by apply pow2_max_pos.
  set (d := den * b) in *. assert (0 < d) by (unfold d; nia).
  pose proof (Z.div_mod (num * a) d ltac:(lia)) as Hdm.
  pose proof (Z.mod_pos_bound (num * a) d ltac:(lia)) as Hr.
  set (q := num * a / d) in *. set (r := num * a mod d) in *.
  match goal with |- context [if ?c then q + 1 else q] => set (up := c) end.
  assert (Z.abs ((if up then q + 1 else q) * d - num * a) * 2 <= d) as Herr.
  { unfold up. destruct (Z.ltb_spec d (2 * r)); simpl; [lia|].
    destruct (Z.eqb_spec d (2 * r)); simpl; [destruct (Z.odd q); lia|lia]. }
  replace ((if up then q + 1 else q) * b * den) with ((if up then q + 1 else q) * d) by (unfold d; ring).
  lia.
Qed.

(** Integers of at most 53 bits are represented exactly. *)
Lemma f_of_Z_exact n : 0 <= n < 2 ^ 53 -> f_num (f_of_Z n) = n * f_den (f_of_Z n).
Proof.
  intros Hn. unfold f_of_Z, round_q. destruct (Z.eqb_spec n 0) as [->|Hz]; [done|]. cbn zeta.
  assert (q_exp n 1 <= 0) as He.
  { unfold q_exp. change (Z.log2 1) with 0. assert (Z.log2 n < 53) by (apply Z.log2_lt_pow2; lia).
    unfold emin.
    match goal with |- context [if ?c then _ else _] => destruct c end; lia. }
  set (e := q_exp n 1) in *. rewrite (Z.max_l 0 e), Z.pow_0_r, Z.mul_1_r by lia.
  rewrite Z.div_1_r, Z.mod_1_r. change ((1 <? 2 * 0) || ((1 =? 2 * 0) && ?b))%bool with false. cbn iota.
  unfold f_num, f_den; cbn [fm fe]. rewrite (Z.max_l 0 e), Z.pow_0_r by lia. lia.
Qed.

Lemma f_trunc_of_Z n : 0 <= n < 2 ^ 53 -> f_trunc (f_of_Z n) = n.
Proof.
  intros Hn. unfold f_trunc. rewrite f_of_Z_exact by done.
  apply Z.div_mul. pose proof (f_den_pos (f_of_Z n)). lia.
Qed.

(** ** Intervals

    [within x a b q]: the value of [x] lies between [a/q] and [b/q]. *)
Definition within (x : fpos) (a b q : Z) : Prop := a * f_den x <= q * f_num x /\ q * f_num x <= b * f_den x.

(** Rounding a quotient widens its interval by one part in 2^53. *)
Lemma round_within num den a b q :
  0 < num -> 0 < den -> 0 < q -> emin < q_exp num den ->
  a * den <= q * num -> q * num <= b * den ->
  within (round_q num den) ((2 ^ 53 - 1) * a) ((2 ^ 53 + 1) * b) (2 ^ 53 * q).
Proof.
  intros Hn Hd Hq Hmin Ha Hb. pose proof (round_q_error num den Hn Hd Hmin) as He. cbn zeta in He.
  set (x := round_q num den) in *. pose proof (f_den_pos x) as Hf. unfold within.
  set (N := f_num x) in *. set (D := f_den x) in *. clearbody N D. clear x Hmin.
  assert ((2 ^ 53 - 1) * (num * D) <= 2 ^ 53 * (N * den) /\ 2 ^ 53 * (N * den) <= (2 ^ 53 + 1) * (num * D)) as [L U].
  { revert He. generalize (N * den), (num * D). intros A B. lia. }
  clear He. assert (1 < 2 ^ 53) as HP by lia. revert HP L U. generalize (2 ^ 53). intros P HP L U.
  split; apply (Zmult_le_reg_r _ _ den); try lia.
  - transitivity (q * ((P - 1) * (num * D))); [|nia].
    transitivity ((P - 1) * D * (a * den)); [lia|]. transitivity ((P - 1) * D * (q * num)); [|lia].
    apply Z.mul_le_mono_nonneg_l; [nia|done].
  - transitivity (q * ((P + 1) * (num * D))); [nia|].
    transitivity ((P + 1) * D * (q * num)); [lia|]. transitivity ((P + 1) * D * (b * den)); [|lia].
    apply Z.mul_le_mono_nonneg_l; [nia|done].
Qed.

(** The exponent is not the subnormal one when the quotient is large enough. *)
Lemma q_exp_normal num den : 0 < num -> 0 < den -> den <= 2 ^ 1000 * num -> emin < q_exp num den.
Proof.
  intros Hn Hd Hle. assert (Z.log2 den <= Z.log2 num + 1000) as Hl.
  { apply Z.log2_le_mono in Hle. rewrite Z.mul_comm, Z.log2_mul_pow2 in Hle by lia. lia. }
  unfold q_exp, emin. cbn zeta. match goal with |- context [if ?c then _ else _] => destruct c end; lia.
Qed.

(** ** Decimal literals: [strconv.ParseFloat] *)

(** A literal as sign, digits and decimal exponent. *)
Record decimal := mkDecimal { d_neg : bool; d_mant : Z; d_exp : Z }.

(** Magnitude of [d_mant * 10 ^ d_exp]; [None] when it overflows binary64.
    The first two tests keep the computation small: such values round to
    infinity and to zero. *)
Definition decimal_round (d : decimal) : option fpos :=
  if d_mant d =? 0 then Some (mkFpos 0 0)
  else if 310 <? d_exp d + Z.of_nat (dec_digits (d_mant d)) then None
  else if d_exp d + Z.of_nat (dec_digits (d_mant d)) <? -330 then Some (mkFpos 0 0)
  else
    let x := round_q (d_mant d * 10 ^ Z.max 0 (d_exp d)) (10 ^ Z.max 0 (- d_exp d)) in
    if f_overflow x then None else Some x.

Example float_examples :
  f_trunc (f_of_Z 9007199254740993) = 9007199254740992 /\
  fmap f_trunc (decimal_round (mkDecimal false 15 (-1))) = Some 1 /\
  fmap f_trunc (decimal_round (mkDecimal false 1 308)) <> None /\
  decimal_round (mkDecimal false 18 308) = None /\
  round_q 1 10 = mkFpos 7205759403792794 (-56).
Proof. vm_compute. repeat split; congruence. Qed.
