(* ===== verification/Json.v ===== *)
(** encoding/json, as far as the program relies on it.

    [parse] is the decoder's grammar with its nesting limit, [valid] is
    json.Valid, [print] is json.Marshal of a value (compact, HTML-escaped).
    Struct decoding is a [decoder]: it folds the members of an object over the
    struct decoded so far, so a repeated key overrides and a null leaves the
    field alone; member names match a field exactly or under case folding.
    A json.RawMessage is represented by the value it holds. *)
From S2P Require Import Prelude Float64.

#[local] Set Warnings "-register-all".

Inductive json :=
| JNull
| JBool (b : bool)
| JNum (lit : string)      (** the literal, as written *)
| JStr (s : string)        (** unquoted, valid UTF-8 *)
| JArr (l : list json)
| JObj (l : list (string * json)).

Definition code (c : ascii) : Z := Z.of_N (N_of_ascii c).
Definition chr (n : Z) : ascii := ascii_of_N (Z.to_N n).

Definition in_range (lo hi : Z) (c : ascii) : bool := (lo <=? code c) && (code c <=? hi).

Definition is_ws (c : ascii) : bool :=
  (code c =? 32) || (code c =? 9) || (code c =? 10) || (code c =? 13).

Fixpoint skip_ws (s : string) : string :=
  match s with
  | String c r => if is_ws c then skip_ws r else s
  | EmptyString => s
  end.

(** ** Numbers *)

Fixpoint span_digits (s : string) : string * string :=
  match s with
  | String c r =>
      if is_digit c then let '(d, r') := span_digits r in (String c d, r') else ("", s)
  | EmptyString => ("", s)
  end.

(** [0] or a digit string without leading zero. *)
Definition scan_int (s : string) : option (string * string) :=
  match s with
  | String "0" r => Some ("0", r)
  | String c r => if is_digit c then Some (span_digits s) else None
  | EmptyString => None
  end.

Definition scan_frac (s : string) : option (string * string) :=
  match s with
  | String "." r =>
      let '(d, r') := span_digits r in
      if String.eqb d "" then None else Some (String "." d, r')
  | _ => Some ("", s)
  end.

Definition scan_exp (s : string) : option (string * string) :=
  match s with
  | String e r =>
      if Ascii.eqb e "e" || Ascii.eqb e "E" then
        let '(sign, r) :=
          match r with
          | String c r' => if Ascii.eqb c "+" || Ascii.eqb c "-" then (String c "", r') else ("", r)
          | EmptyString => ("", r)
          end in
        let '(d, r') := span_digits r in
        if String.eqb d "" then None else Some (String e (sign +:+ d), r')
      else Some ("", s)
  | EmptyString => Some ("", s)
  end.

Definition scan_num (s : string) : option (string * string) :=
  let '(sign, s) := match s with String "-" r => ("-", r) | _ => ("", s) end in
  '(i, s) ← scan_int s;
  '(f, s) ← scan_frac s;
  '(e, s) ← scan_exp s;
  Some (sign +:+ i +:+ f +:+ e, s).

(** ** Strings *)

Definition hex_val (c : ascii) : option Z :=
  if in_range 48 57 c then Some (code c - 48)
  else if in_range 97 102 c then Some (code c - 87)
  else if in_range 65 70 c then Some (code c - 55)
  else None.

Definition hex4 (a b c d : ascii) : option Z :=
  a ← hex_val a; b ← hex_val b; c ← hex_val c; d ← hex_val d;
  Some (((a * 16 + b) * 16 + c) * 16 + d).

(** UTF-8 of a code point (a surrogate encodes as U+FFFD). *)
Definition encode_rune (r : Z) : string :=
  if r <? 0x80 then String (chr r) ""
  else if r <? 0x800 then String (chr (0xC0 + r / 64)) (String (chr (0x80 + r mod 64)) "")
  else if (0xD800 <=? r) && (r <=? 0xDFFF) then
    String (chr 0xEF) (String (chr 0xBF) (String (chr 0xBD) ""))
  else if r <? 0x10000 then
    String (chr (0xE0 + r / 4096)) (String (chr (0x80 + r / 64 mod 64)) (String (chr (0x80 + r mod 64)) ""))
  else
    String (chr (0xF0 + r / 262144)) (String (chr (0x80 + r / 4096 mod 64))
      (String (chr (0x80 + r / 64 mod 64)) (String (chr (0x80 + r mod 64)) ""))).

Definition replacement : string := encode_rune 0xFFFD.

(** Number of bytes of the multi-byte UTF-8 sequence a string starts with; 0
    when the bytes are not one. *)
Definition utf8_width (c : ascii) (r : string) : nat :=
  let cont := in_range 0x80 0xBF in
  let two := match r with String a _ => cont a | _ => false end in
  let three (lo hi : Z) :=
    match r with String a (String b _) => in_range lo hi a && cont b | _ => false end in
  let four (lo hi : Z) :=
    match r with
    | String a (String b (String d _)) => in_range lo hi a && cont b && cont d
    | _ => false
    end in
  if in_range 0xC2 0xDF c then (if two then 2%nat else 0%nat)
  else if code c =? 0xE0 then (if three 0xA0 0xBF then 3%nat else 0%nat)
  else if code c =? 0xED then (if three 0x80 0x9F then 3%nat else 0%nat)
  else if in_range 0xE1 0xEF c then (if three 0x80 0xBF then 3%nat else 0%nat)
  else if code c =? 0xF0 then (if four 0x90 0xBF then 4%nat else 0%nat)
  else if code c =? 0xF4 then (if four 0x80 0x8F then 4%nat else 0%nat)
  else if in_range 0xF1 0xF3 c then (if four 0x80 0xBF then 4%nat else 0%nat)
  else 0%nat.

Definition simple_escape (c : ascii) : option ascii :=
  match c with
  | "034" | "\" | "/" => Some c
  | "b" => Some (chr 8) | "f" => Some (chr 12) | "n" => Some (chr 10)
  | "r" => Some (chr 13) | "t" => Some (chr 9)
  | _ => None
  end%char.

Definition prepend (p : string) (r : option (string * string)) : option (string * string) :=
  '(s, rest) ← r; Some (p +:+ s, rest).

(** After the opening quote: the unquoted text and what follows the closing
    quote.  Invalid UTF-8 and unpaired surrogates become U+FFFD. *)
Fixpoint scan_str (s : string) : option (string * string) :=
  match s with
  | EmptyString => None
  | String c r =>
      if Ascii.eqb c "034" then Some ("", r)
      else if Ascii.eqb c "\" then
        match r with
        | String e r1 =>
            if Ascii.eqb e "u" then
              match r1 with
              | String h1 (String h2 (String h3 (String h4 r1))) =>
                  match hex4 h1 h2 h3 h4 with
                  | None => None
                  | Some u =>
                      if (0xD800 <=? u) && (u <? 0xE000) then
                        match r1 with
                        | String b (String u' (String g1 (String g2 (String g3 (String g4 r2))))) =>
                            if Ascii.eqb b "\" && Ascii.eqb u' "u" then
                              match hex4 g1 g2 g3 g4 with
                              | Some v =>
                                  if (u <? 0xDC00) && (0xDC00 <=? v) && (v <? 0xE000) then
                                    prepend (encode_rune ((u - 0xD800) * 1024 + (v - 0xDC00) + 0x10000)) (scan_str r2)
                                  else prepend replacement (scan_str r1)
                              | None => None
                              end
                            else prepend replacement (scan_str r1)
                        | _ => prepend replacement (scan_str r1)
                        end
                      else prepend (encode_rune u) (scan_str r1)
                  end
              | _ => None
              end
            else
              match simple_escape e with
              | Some b => prepend (String b "") (scan_str r1)
              | None => None
              end
        | EmptyString => None
        end
      else if code c <? 32 then None
      else if code c <? 0x80 then prepend (String c "") (scan_str r)
      else
        match utf8_width c r, r with
        | 2%nat, String c1 r1 => prepend (String c (String c1 "")) (scan_str r1)
        | 3%nat, String c1 (String c2 r1) => prepend (String c (String c1 (String c2 ""))) (scan_str r1)
        | 4%nat, String c1 (String c2 (String c3 r1)) =>
            prepend (String c (String c1 (String c2 (String c3 "")))) (scan_str r1)
        | _, _ => prepend replacement (scan_str r)
        end
  end.

(** ** Values *)

Fixpoint drop_prefix (p s : string) : option string :=
  match p, s with
  | EmptyString, _ => Some s
  | String a p, String b s => if Ascii.eqb a b then drop_prefix p s else None
  | _, EmptyString => None
  end.

(** What follows the byte [c], if it is the next one after white space. *)
Definition closes (c : ascii) (s : string) : option string :=
  match skip_ws s with
  | String d r => if Ascii.eqb d c then Some r else None
  | EmptyString => None
  end.

(** The scanner's nesting limit. *)
Definition max_nesting : Z := 10000.

Fixpoint pval (fuel : nat) (depth : Z) (s : string) : option (json * string) :=
  match fuel with
  | O => None
  | S fuel =>
      match skip_ws s with
      | EmptyString => None
      | String c r =>
          if Ascii.eqb c "{" then
            if depth <=? 0 then None
            else match closes "}" r with
                 | Some r' => Some (JObj [], r')
                 | None => '(l, r') ← pobj fuel (depth - 1) r; Some (JObj l, r')
                 end
          else if Ascii.eqb c "[" then
            if depth <=? 0 then None
            else match closes "]" r with
                 | Some r' => Some (JArr [], r')
                 | None => '(l, r') ← parr fuel (depth - 1) r; Some (JArr l, r')
                 end
          else if Ascii.eqb c "034" then '(t, r') ← scan_str r; Some (JStr t, r')
          else if Ascii.eqb c "t" then r' ← drop_prefix "rue" r; Some (JBool true, r')
          else if Ascii.eqb c "f" then r' ← drop_prefix "alse" r; Some (JBool false, r')
          else if Ascii.eqb c "n" then r' ← drop_prefix "ull" r; Some (JNull, r')
          else '(lit, r') ← scan_num (String c r); Some (JNum lit, r')
      end
  end
with parr (fuel : nat) (depth : Z) (s : string) : option (list json * string) :=
  match fuel with
  | O => None
  | S fuel =>
      '(v, r) ← pval fuel depth s;
      match closes "," r, closes "]" r with
      | Some r', _ => '(l, r'') ← parr fuel depth r'; Some (v :: l, r'')
      | None, Some r' => Some ([v], r')
      | None, None => None
      end
  end
with pobj (fuel : nat) (depth : Z) (s : string) : option (list (string * json) * string) :=
  match fuel with
  | O => None
  | S fuel =>
      r ← closes "034" s;
      '(k, r) ← scan_str r;
      r ← closes ":" r;
      '(v, r) ← pval fuel depth r;
      match closes "," r, closes "}" r with
      | Some r', _ => '(l, r'') ← pobj fuel depth r'; Some ((k, v) :: l, r'')
      | None, Some r' => Some ([(k, v)], r')
      | None, None => None
      end
  end.

(** Every call of [pval] consumes input, every other call is followed by one. *)
Definition parse_fuel (s : string) : nat := (2 * String.length s + 2)%nat.

(** The first value of a stream (json.Decoder), and what follows it. *)
Definition parse_first (s : string) : option (json * string) :=
  pval (parse_fuel s) max_nesting s.

(** json.Unmarshal's whole-input parse, and json.Valid. *)
Definition parse (s : string) : option json :=
  '(v, r) ← parse_first s; if String.eqb (skip_ws r) "" then Some v else None.

Definition valid (s : string) : bool :=
  match parse s with Some _ => true | None => false end.

(** ** Numbers as Go values *)

Fixpoint digits_val (acc : Z) (s : string) : Z :=
  match s with
  | String c r => digits_val (acc * 10 + digit_val c) r
  | EmptyString => acc
  end.

(** [strconv.ParseInt(lit, 10, 64)] of a number literal: only an integer
    literal within 64 bits. *)
Definition lit_int (lit : string) : option Z :=
  let '(neg, d) := match lit with String "-" r => (true, r) | _ => (false, lit) end in
  let '(ds, rest) := span_digits d in
  if negb (String.eqb rest "") || String.eqb ds "" then None
  else
    let n := if neg then - digits_val 0 ds else digits_val 0 ds in
    if (- 2 ^ 63 <=? n) && (n <? 2 ^ 63) then Some n else None.

Definition lit_decimal (lit : string) : decimal :=
  let '(neg, s) := match lit with String "-" r => (true, r) | _ => (false, lit) end in
  let '(i, s) := span_digits s in
  let '(f, s) := match s with String "." r => span_digits r | _ => ("", s) end in
  let e :=
    match s with
    | String _ (String "-" r) => - digits_val 0 r
    | String _ (String "+" r) => digits_val 0 r
    | String _ r => digits_val 0 r
    | EmptyString => 0
    end in
  mkDecimal neg (digits_val 0 (i +:+ f)) (e - Z.of_nat (String.length f)).

(** [strconv.ParseFloat(lit, 64)]: sign and magnitude, [None] out of range. *)
Definition lit_float (lit : string) : option (bool * fpos) :=
  let d := lit_decimal lit in
  m ← decimal_round d; Some (d_neg d, m).

(** [int(f)]: truncation; a value that does not fit is the least int64, which
    is what amd64 gives. *)
Definition float_int (x : bool * fpos) : Z :=
  let n := if fst x then - f_trunc (snd x) else f_trunc (snd x) in
  if (- 2 ^ 63 <=? n) && (n <? 2 ^ 63) then n else - 2 ^ 63.

(** ** Decoding into Go values *)

(** The text of a library error is not modelled: a decoding error says [json]. *)
Definition json_error : err := errorf "json".

(** A decoder updates the value decoded so far. *)
Definition decoder (A : Type) := A -> json -> result A.

Definition dec_string : decoder string := fun prev j =>
  match j with
  | JNull => Ok prev
  | JStr s => Ok s
  | _ => Err json_error
  end.

(** A pointer: null clears it. *)
Definition dec_ptr {A} (zero : A) (d : decoder A) : decoder (option A) := fun prev j =>
  match j with
  | JNull => Ok None
  | _ => x <-! d (default zero prev) j ;; Ok (Some x)
  end.

Definition dec_int : decoder Z := fun prev j =>
  match j with
  | JNull => Ok prev
  | JNum lit => match lit_int lit with Some n => Ok n | None => Err json_error end
  | _ => Err json_error
  end.

Definition dec_float : decoder (bool * fpos) := fun prev j =>
  match j with
  | JNull => Ok prev
  | JNum lit => match lit_float lit with Some x => Ok x | None => Err json_error end
  | _ => Err json_error
  end.

(** A json.RawMessage: nil before, the value after, null included. *)
Definition dec_raw : decoder (option json) := fun _ j => Ok (Some j).

(** A slice: elements are decoded over those already there. *)
Fixpoint dec_elems {A} (zero : A) (d : decoder A) (prev : list A) (js : list json) : result (list A) :=
  match js with
  | [] => Ok []
  | j :: js =>
      x <-! d (default zero (head prev)) j ;;
      xs <-! dec_elems zero d (tail prev) js ;;
      Ok (x :: xs)
  end.

Definition dec_slice {A} (zero : A) (d : decoder A) : decoder (list A) := fun prev j =>
  match j with
  | JNull => Ok []
  | JArr js => dec_elems zero d prev js
  | _ => Err json_error
  end.

(** Case folding of a member name, for names that fold to ASCII: letters fold to
    upper case, and so do U+017F (long s) and U+212A (Kelvin sign). *)
Fixpoint fold_name (s : string) : string :=
  match s with
  | EmptyString => ""
  | String c r =>
      if in_range 97 122 c then String (chr (code c - 32)) (fold_name r)
      else
        match r with
        | String c1 r1 =>
            if (code c =? 0xC5) && (code c1 =? 0xBF) then String "S" (fold_name r1)
            else
              match r1 with
              | String c2 r2 =>
                  if (code c =? 0xE2) && (code c1 =? 0x84) && (code c2 =? 0xAA)
                  then String "K" (fold_name r2) else String c (fold_name r)
              | EmptyString => String c (fold_name r)
              end
        | EmptyString => String c ""
        end
  end.

Definition field_is (name key : string) : bool :=
  String.eqb name key || String.eqb (fold_name name) (fold_name key).

(** A struct: [field] decodes a member into the struct, [None] when no field has
    its name; unknown members are skipped, or refused under
    DisallowUnknownFields ([strict]). *)
Definition dec_struct {A} (strict : bool) (field : string -> option (decoder A)) : decoder A := fun prev j =>
  match j with
  | JNull => Ok prev
  | JObj kvs =>
      foldl (fun acc kv =>
        a <-! acc ;;
        match field (fst kv) with
        | Some d => d a (snd kv)
        | None => if strict then Err json_error else Ok a
        end) (Ok prev) kvs
  | _ => Err json_error
  end.

(** json.Unmarshal. *)
Definition unmarshal {A} (d : decoder A) (zero : A) (s : string) : result A :=
  match parse s with
  | Some j => d zero j
  | None => Err json_error
  end.

(** ** Printing: json.Marshal *)

Definition hex_digit_chr (n : Z) : ascii := digit n.

Definition quote_byte (c : ascii) : string :=
  if Ascii.eqb c "034" then "\" +:+ String "034" ""
  else if Ascii.eqb c "\" then "\\"
  else if code c =? 8 then "\b"
  else if code c =? 12 then "\f"
  else if code c =? 10 then "\n"
  else if code c =? 13 then "\r"
  else if code c =? 9 then "\t"
  else if (code c <? 32) || Ascii.eqb c "<" || Ascii.eqb c ">" || Ascii.eqb c "&" then
    "\u00" +:+ pad 16 2 (code c)
  else String c "".

Fixpoint quote_body (s : string) : string :=
  match s with
  | EmptyString => ""
  | String c r =>
      if code c <? 0x80 then quote_byte c +:+ quote_body r
      else
        match utf8_width c r, r with
        | 2%nat, String c1 r1 => String c (String c1 (quote_body r1))
        | 3%nat, String c1 (String c2 r1) =>
            if (code c =? 0xE2) && (code c1 =? 0x80) && ((code c2 =? 0xA8) || (code c2 =? 0xA9))
            then "\u202" +:+ pad 16 1 (code c2) +:+ quote_body r1
            else String c (String c1 (String c2 (quote_body r1)))
        | 4%nat, String c1 (String c2 (String c3 r1)) => String c (String c1 (String c2 (String c3 (quote_body r1))))
        | _, _ => "\ufffd" +:+ quote_body r
        end
  end.

Definition quote (s : string) : string :=
  String "034" (quote_body s +:+ String "034" "").

Fixpoint print (j : json) : string :=
  match j with
  | JNull => "null"
  | JBool true => "true"
  | JBool false => "false"
  | JNum lit => lit
  | JStr s => quote s
  | JArr l =>
      "[" +:+ (fix go (first : bool) (l : list json) : string :=
        match l with
        | [] => "]"
        | v :: l => (if first then "" else ",") +:+ print v +:+ go false l
        end) true l
  | JObj l =>
      "{" +:+ (fix go (first : bool) (l : list (string * json)) : string :=
        match l with
        | [] => "}"
        | (k, v) :: l => (if first then "" else ",") +:+ quote k +:+ ":" +:+ print v +:+ go false l
        end) true l
  end.

Definition dq (s : string) : string := String "034" (s +:+ String "034" "").

Example json_examples :
  parse (" {" +:+ dq "a\u00e9" +:+ " : [1, -2.5e3, true, null, " +:+ dq "x" +:+ "]}  ") =
    Some (JObj [("aé", JArr [JNum "1"; JNum "-2.5e3"; JBool true; JNull; JStr "x"])]) /\
  parse "01" = None /\ parse "[1,]" = None /\ parse "{} x" = None /\ valid "[]" = true /\
  parse_first "{}}" = Some (JObj [], "}") /\
  option_map float_int (lit_float "12.9") = Some 12 /\
  option_map float_int (lit_float "-1e3") = Some (-1000) /\ lit_float "1e400" = None /\
  field_is "hops" "HOPS" = true /\ field_is "hops" "hopſ" = true /\ field_is "hops" "hop" = false /\
  print (JObj [("a<", JArr [JNum "1"; JStr "é"])]) = "{" +:+ dq "a\u003c" +:+ ":[1," +:+ dq "é" +:+ "]}".
Proof. vm_compute. repeat split; reflexivity. Qed.

(** ** Reading back a printed integer *)

Lemma span_digits_pad w n r :
  match r with String c _ => is_digit c = false | EmptyString => True end ->
  span_digits (pad 10 w n +:+ r) = (pad 10 w n, r).
Proof.
  intros Hr. revert n; induction w as [|w IH]; intros n.
  - destruct r as [|c r]; [done|]. change (pad 10 0 n) with "". simpl. by rewrite Hr.
  - rewrite pad_cons, str_app_cons by lia. cbn [span_digits].
    destruct (digit_10 (n / 10 ^ Z.of_nat w mod 10)) as [-> _]; [apply Z.mod_pos_bound; lia|]. by rewrite IH.
Qed.

Lemma digits_val_pad w n acc :
  0 <= n < 10 ^ Z.of_nat w -> digits_val acc (pad 10 w n) = acc * 10 ^ Z.of_nat w + n.
Proof.
  revert n acc; induction w as [|w IH]; intros n acc Hn.
  { simpl in *. change (pad 10 0 n) with "". simpl. lia. }
  rewrite pad_cons by lia. cbn [digits_val]. rewrite Nat2Z.inj_succ, Z.pow_succ_r in * by lia.
  assert (0 < 10 ^ Z.of_nat w) by (apply Z.pow_pos_nonneg; lia).
  assert (0 <= n / 10 ^ Z.of_nat w < 10).
  { split; [apply Z.div_pos; lia|]. apply Z.div_lt_upper_bound; lia. }
  rewrite (Z.mod_small (n / _)) by lia. destruct (digit_10 (n / 10 ^ Z.of_nat w)) as [_ ->]; [done|].
  rewrite <- (pad_mod 10 w n), IH by (try apply Z.mod_pos_bound; lia).
  pose proof (Z.div_mod n (10 ^ Z.of_nat w) ltac:(lia)). lia.
Qed.

(** The text of a natural number is a literal without a leading zero. *)
Lemma scan_int_dec n r :
  0 <= n -> match r with String c _ => is_digit c = false | EmptyString => True end ->
  scan_int (dec n +:+ r) = Some (dec n, r).
Proof.
  intros Hn Hr. unfold dec. destruct (Z.ltb_spec n 0); [lia|].
  destruct (dec_digits_first n Hn) as [-> | (w & -> & Hlead)]; [done|].
  pose proof (span_digits_pad (S w) n r Hr) as Hs. rewrite pad_cons, str_app_cons in * by lia.
  assert (0 <= n / 10 ^ Z.of_nat w mod 10 < 10) as Hd by (apply Z.mod_pos_bound; lia).
  unfold scan_int. destruct (digit_10 _ Hd) as [Hdig _].
  assert (digit (n / 10 ^ Z.of_nat w mod 10) <> "0"%char) as Hne.
  { intros He. destruct (digit_10 _ Hd) as [_ Hval]. rewrite He in Hval. by apply Hlead. }
  set (c := digit (n / 10 ^ Z.of_nat w mod 10)) in *. clearbody c.
  rewrite Hdig, Hs. destruct c as [[] [] [] [] [] [] [] []]; try done.
Qed.

Lemma scan_num_dec n r :
  0 <= n -> match r with String c _ => is_digit c = false /\ c <> "."%char /\ c <> "e"%char /\ c <> "E"%char | EmptyString => True end ->
  scan_num (dec n +:+ r) = Some (dec n, r).
Proof.
  intros Hn Hr.
  assert (exists c t, dec n = String c t /\ c <> "-"%char) as (c & t & Hc & Hneg).
  { unfold dec. destruct (Z.ltb_spec n 0); [lia|].
    destruct (dec_digits_first n Hn) as [-> | (w & -> & _)]; [by exists "0"%char, ""|].
    rewrite pad_cons by lia. eexists _, _; split; [done|]. intros He.
    destruct (digit_10 (n / 10 ^ Z.of_nat w mod 10)) as [Hd _]; [apply Z.mod_pos_bound; lia|]. by rewrite He in Hd. }
  assert (scan_int (dec n +:+ r) = Some (dec n, r)) as Hi by (apply scan_int_dec; [done|]; destruct r; [done|by destruct Hr]).
  unfold scan_num. rewrite Hc, str_app_cons in *.
  assert ((match String c (t +:+ r) with String "-" r => ("-", r) | _ => ("", String c (t +:+ r)) end) = ("", String c (t +:+ r))) as ->
    by (clear Hi Hc; destruct c as [[] [] [] [] [] [] [] []]; done).
  rewrite Hi. simpl. destruct r as [|d r]; simpl.
  - by rewrite !str_app_nil_r, str_app_nil_l.
  - destruct Hr as (_ & Hd & He & HE). unfold scan_frac.
    assert ((match d with "."%char => let '(d, r') := span_digits r in if String.eqb d "" then None else Some (String "." d, r') | _ => Some ("", String d r) end)
      = Some ("", String d r)) as Hf by (destruct d as [[] [] [] [] [] [] [] []]; done).
    rewrite Hf. simpl. destruct (Ascii.eqb_spec d "e"); [done|]. destruct (Ascii.eqb_spec d "E"); [done|]. simpl.
    by rewrite !str_app_nil_r, str_app_nil_l.
Qed.

Lemma dec_digit_first n : 0 <= n -> exists c t, dec n = String c t /\ is_digit c = true.
Proof.
  intros Hn. unfold dec. destruct (Z.ltb_spec n 0); [lia|].
  destruct (dec_digits_first n Hn) as [-> | (w & -> & _)]; [by exists "0"%char, ""|].
  rewrite pad_cons by lia. eexists _, _; split; [done|]. apply digit_10, Z.mod_pos_bound. lia.
Qed.

Lemma skip_nonws c s : is_ws c = false -> skip_ws (String c s) = String c s.
Proof. intros Hc. simpl. by rewrite Hc. Qed.

(** One step of the parser, per kind of text. *)
Lemma pval_digit fuel depth c s :
  is_digit c = true -> pval (S fuel) depth (String c s) = ('(lit, r) ← scan_num (String c s); Some (JNum lit, r)).
Proof.
  intros Hc. cbn [pval]. destruct c as [[] [] [] [] [] [] [] []]; try discriminate Hc; by rewrite skip_nonws.
Qed.

Lemma pval_obj fuel depth r :
  0 < depth -> closes "}" r = None ->
  pval (S fuel) depth (String "{" r) = ('(l, r') ← pobj fuel (depth - 1) r; Some (JObj l, r')).
Proof.
  intros Hd Hr. cbn [pval]. rewrite skip_nonws by reflexivity. simpl. destruct (Z.leb_spec depth 0); [lia|]. by rewrite Hr.
Qed.

Lemma pobj_one fuel depth r k r1 v r2 :
  scan_str r = Some (k, String ":" r1) -> pval fuel depth r1 = Some (v, String "}" r2) ->
  pobj (S fuel) depth (String "034" r) = Some ([(k, v)], r2).
Proof.
  intros Hk Hv. cbn [pobj].
  change (closes "034" (String "034" r)) with (Some r). cbn [mbind option_bind]. rewrite Hk. cbn [mbind option_bind].
  change (closes ":" (String ":" r1)) with (Some r1). cbn [mbind option_bind]. by rewrite Hv.
Qed.

(** The headers object of the system: one integer member. *)
Lemma parse_hops n :
  0 <= n -> parse ("{" +:+ dq "hops" +:+ ":" +:+ dec n +:+ "}") = Some (JObj [("hops", JNum (dec n))]).
Proof.
  intros Hn. set (s := "{" +:+ dq "hops" +:+ ":" +:+ dec n +:+ "}").
  assert (exists f, parse_fuel s = S (S (S f))) as [f Hf].
  { exists (parse_fuel s - 3)%nat. unfold s, parse_fuel, dq. rewrite !str_length_app. simpl. lia. }
  unfold parse, parse_first. rewrite Hf. unfold s.
  change ("{" +:+ dq "hops" +:+ ":" +:+ dec n +:+ "}") with
    (String "{" (String "034" (String "h" (String "o" (String "p" (String "s" (String "034" (String ":" (dec n +:+ "}"))))))))).
  destruct (dec_digit_first n Hn) as (c & t & Hc & Hd).
  pose proof (scan_num_dec n "}" Hn ltac:(done)) as Hs. rewrite Hc, str_app_cons in *.
  rewrite pval_obj by done.
  rewrite (pobj_one _ _ _ "hops" (String c (t +:+ "}")) (JNum (String c t)) ""); [done|done|].
  rewrite pval_digit by done. by rewrite Hs.
Qed.

(** An integer below 2^53 is read back exactly from its decimal text. *)
Lemma lit_float_dec n : 0 <= n < 2 ^ 53 -> exists x, lit_float (dec n) = Some (false, x) /\ float_int (false, x) = n.
Proof.
  intros Hn. unfold lit_float, lit_decimal. destruct (dec_digit_first n ltac:(lia)) as (c & t & Hc & Hd).
  assert (span_digits (dec n) = (dec n, "")) as Hsp.
  { unfold dec. destruct (Z.ltb_spec n 0); [lia|]. pose proof (span_digits_pad (dec_digits n) n "" I) as Hs. by rewrite str_app_nil_r in Hs. }
  assert (digits_val 0 (dec n +:+ "") = n) as Hval.
  { rewrite str_app_nil_r. unfold dec. destruct (Z.ltb_spec n 0); [lia|]. rewrite digits_val_pad; [lia|].
    split; [lia|apply dec_digits_enough; lia]. }
  assert ((match dec n with String "-" r => (true, r) | _ => (false, dec n) end) = (false, dec n)) as ->
    by (rewrite Hc; destruct c as [[] [] [] [] [] [] [] []]; done).
  rewrite Hsp. cbn -[decimal_round float_int]. rewrite Hval. change (0 - Z.of_nat 0) with 0. unfold decimal_round; cbn [d_mant d_exp d_neg].
  destruct (Z.eqb_spec n 0) as [->|Hz]; [eexists; split; [done|]; vm_compute; reflexivity|].
  assert (Z.of_nat (dec_digits n) <= 17) as Hdd.
  { pose proof (ndigits_least (Z.to_nat (Z.log2 n + 1)) n ltac:(lia)) as Hl. fold (dec_digits n) in Hl.
    destruct (Z.le_gt_cases (Z.of_nat (dec_digits n)) 17) as [|Hgt]; [done|].
    assert (10 ^ 17 <= 10 ^ (Z.of_nat (dec_digits n) - 1)) by (apply Z.pow_le_mono_r; lia). lia. }
  destruct (Z.ltb_spec 310 (0 + Z.of_nat (dec_digits n))); [lia|].
  destruct (Z.ltb_spec (0 + Z.of_nat (dec_digits n)) (-330)); [lia|].
  change (10 ^ Z.max 0 (- 0)) with 1. change (10 ^ Z.max 0 0) with 1. rewrite Z.mul_1_r. fold (f_of_Z n).
  assert (f_overflow (f_of_Z n) = false) as Hov.
  { unfold f_overflow. rewrite f_of_Z_exact by done. apply Z.leb_gt. pose proof (f_den_pos (f_of_Z n)).
    apply Z.mul_lt_mono_pos_r; [done|]. lia. }
  unfold f_of_Z in Hov |- *. cbn zeta. rewrite Hov. fold (f_of_Z n). eexists; split; [done|]. unfold float_int. cbn [fst snd]. rewrite f_trunc_of_Z by done.
  destruct (Z.leb_spec (- 2 ^ 63) n); [|lia]. by destruct (Z.ltb_spec n (2 ^ 63)); [|lia].
Qed.
