(* ===== verification/JsonText.v ===== *)
(** Reading back what encoding/json prints.

    The parser's fuel is enough; what it returns is well formed ([good]: UTF-8
    strings, number literals, bounded nesting); a well-formed value is read
    back from its printed text ([parse_print]). *)
From S2P Require Import Prelude Float64 Json.

#[local] Abbreviation len := String.length.

(** ** Consumption *)

Lemma skip_ws_le s : (len (skip_ws s) <= len s)%nat.
Proof. induction s as [|c s IH]; simpl; [done|]. destruct (is_ws c); simpl; lia. Qed.

Lemma closes_lt c s r : closes c s = Some r -> (len r < len s)%nat.
Proof.
  unfold closes. pose proof (skip_ws_le s). destruct (skip_ws s) as [|d r']; [done|].
  destruct (Ascii.eqb d c); [|done]. intros [= <-]. simpl in *. lia.
Qed.

Lemma drop_prefix_app p s r : drop_prefix p s = Some r -> s = p +:+ r.
Proof.
  revert s; induction p as [|a p IH]; intros [|b s]; simpl; try (by intros [= <-]).
  destruct (Ascii.eqb_spec a b) as [->|]; [|done]. intros Hs. rewrite str_app_cons. f_equal. by apply IH.
Qed.

Lemma span_digits_app s : s = fst (span_digits s) +:+ snd (span_digits s).
Proof.
  induction s as [|c s IH]; [done|]. simpl. destruct (is_digit c); [|done].
  destruct (span_digits s) as [d r]. simpl in *. rewrite str_app_cons. congruence.
Qed.

(** ** Number literals

    A literal is a text that scans as itself in front of anything that cannot
    continue it. *)

Definition starts (p : ascii -> bool) (s : string) : bool :=
  match s with String c _ => p c | EmptyString => false end.
Definition is_e (c : ascii) : bool := Ascii.eqb c "e" || Ascii.eqb c "E".
Definition continues (c : ascii) : bool := is_digit c || Ascii.eqb c "." || is_e c.

Definition num_lit (lit : string) : Prop :=
  lit <> "" /\ forall r, starts continues r = false -> scan_num (lit +:+ r) = Some (lit, r).

Lemma span_digits_again d r' :
  fst (span_digits d) = d -> starts is_digit r' = false -> span_digits (d +:+ r') = (d, r').
Proof.
  intros Hd Hr'. induction d as [|c d IH]; simpl in *.
  - destruct r' as [|c r']; [done|]. simpl in *. by rewrite Hr'.
  - destruct (is_digit c) eqn:E; [|done]. destruct (span_digits d) as [d' r0] eqn:Es. simpl in *. injection Hd as Hd.
    by rewrite IH by done.
Qed.

Lemma span_digits_fst s : fst (span_digits (fst (span_digits s))) = fst (span_digits s).
Proof.
  induction s as [|c s IH]; [done|]. simpl. destruct (is_digit c) eqn:E; [|done].
  destruct (span_digits s) as [d r] eqn:Es. simpl in *. rewrite E. destruct (span_digits d) as [d' r'] eqn:Ed. simpl in *. by rewrite IH.
Qed.

Lemma starts_app p a b : starts p (a +:+ b) = if String.eqb a "" then starts p b else starts p a.
Proof. by destruct a. Qed.

Lemma starts_impl p q s : (forall c, p c = true -> q c = true) -> starts q s = false -> starts p s = false.
Proof. intros Hpq. destruct s as [|c s]; simpl; [done|]. intros Hq. apply not_true_iff_false. intros Hp. apply Hpq in Hp. congruence. Qed.

Lemma scan_int_cases s :
  scan_int s = match s with
  | String c r => if Ascii.eqb c "0" then Some ("0", r) else if is_digit c then Some (span_digits s) else None
  | EmptyString => None
  end.
Proof. destruct s as [|c r]; [done|]. unfold scan_int. destruct c as [[] [] [] [] [] [] [] []]; done. Qed.

Lemma scan_int_stable s i r : scan_int s = Some (i, r) ->
  s = i +:+ r /\ i <> "" /\ starts is_digit i = true /\ forall r', starts is_digit r' = false -> scan_int (i +:+ r') = Some (i, r').
Proof.
  rewrite scan_int_cases. destruct s as [|c s]; [done|]. destruct (Ascii.eqb_spec c "0") as [->|Hc].
  { intros [= <- <-]. done. }
  destruct (is_digit c) eqn:Ed; [|done]. intros Hs. pose proof (span_digits_app (String c s)) as Ha. pose proof (span_digits_fst (String c s)) as Hf.
  assert (span_digits (String c s) = (i, r)) as Hs' by congruence. clear Hs. rewrite Hs' in Ha, Hf. cbn [fst snd] in Ha, Hf. assert (starts is_digit i = true /\ exists t, i = String c t) as (Hi & t & ->).
  { simpl in Hs'. rewrite Ed in Hs'. destruct (span_digits s) as [d' r0]. injection Hs' as <- _. split; [done|by eexists]. }
  split_and!; [done|done|done|]. intros r' Hr'. rewrite scan_int_cases. rewrite str_app_cons.
  destruct (Ascii.eqb_spec c "0"); [done|]. rewrite Ed, <- str_app_cons. f_equal. by apply span_digits_again.
Qed.

Lemma scan_frac_cases s :
  scan_frac s = match s with
  | String c r => if Ascii.eqb c "." then let '(d, r') := span_digits r in if String.eqb d "" then None else Some (String "." d, r') else Some ("", s)
  | EmptyString => Some ("", s)
  end.
Proof. destruct s as [|c r]; [done|]. unfold scan_frac. destruct c as [[] [] [] [] [] [] [] []]; done. Qed.

Definition is_point (c : ascii) : bool := Ascii.eqb c ".".

Lemma scan_frac_stable s f r : scan_frac s = Some (f, r) ->
  s = f +:+ r /\ (f = "" \/ starts is_point f = true) /\
  forall r', starts is_digit r' = false -> starts is_point r' = false -> scan_frac (f +:+ r') = Some (f, r').
Proof.
  assert (forall r', starts is_point r' = false -> scan_frac r' = Some ("", r')) as Hnil.
  { intros r' Hp. rewrite scan_frac_cases. destruct r' as [|c r']; [done|]. simpl in Hp. unfold is_point in Hp. by rewrite Hp. }
  rewrite scan_frac_cases. destruct s as [|c s]; [intros [= <- <-]; split_and!; auto|].
  destruct (Ascii.eqb_spec c ".") as [->|Hc]; [|intros [= <- <-]; split_and!; auto].
  pose proof (span_digits_app s) as Ha. pose proof (span_digits_fst s) as Hf. destruct (span_digits s) as [d r0] eqn:Es. simpl in Ha, Hf.
  destruct (String.eqb_spec d "") as [|Hd]; [done|]. intros [= <- <-]. split_and!; [rewrite str_app_cons; congruence|by right|].
  intros r' Hr' _. rewrite str_app_cons, scan_frac_cases. change (Ascii.eqb "." ".") with true. cbn iota.
  rewrite span_digits_again by done. by destruct (String.eqb_spec d "").
Qed.

Lemma scan_exp_stable s e r : scan_exp s = Some (e, r) ->
  s = e +:+ r /\ (e = "" \/ starts is_e e = true) /\
  forall r', starts is_digit r' = false -> starts is_e r' = false -> scan_exp (e +:+ r') = Some (e, r').
Proof.
  assert (forall r', starts is_e r' = false -> scan_exp r' = Some ("", r')) as Hnil.
  { intros [|c r']; [done|]. simpl. unfold is_e. by intros ->. }
  destruct s as [|c s]; [intros [= <- <-]; split_and!; auto|]. unfold scan_exp at 1. fold (is_e c).
  destruct (is_e c) eqn:Ee; [|intros [= <- <-]; split_and!; auto].
  set (sg := match s with String c r' => if Ascii.eqb c "+" || Ascii.eqb c "-" then (String c "", r') else ("", s) | EmptyString => ("", s) end).
  assert (s = fst sg +:+ snd sg) as Hsg by (unfold sg; destruct s as [|c' s']; [done|]; by destruct (_ || _)).
  assert (forall d r', starts is_digit d = true -> match fst sg +:+ d +:+ r' with
    | String c r => if Ascii.eqb c "+" || Ascii.eqb c "-" then (String c "", r) else ("", fst sg +:+ d +:+ r') | EmptyString => ("", fst sg +:+ d +:+ r') end = (fst sg, d +:+ r')) as Hsign.
  { intros [|c' d] r'; [done|]. simpl. intros Hd.
    assert (Ascii.eqb c' "+" || Ascii.eqb c' "-" = false) as Hc' by (destruct (Ascii.eqb_spec c' "+") as [->|]; [done|]; by destruct (Ascii.eqb_spec c' "-") as [->|]).
    unfold sg. destruct s as [|c2 s2]; [cbn [fst snd]; by rewrite str_app_nil_l, str_app_cons, Hc'|].
    destruct (Ascii.eqb c2 "+" || Ascii.eqb c2 "-") eqn:E2; cbn [fst snd]; rewrite ?str_app_nil_l, !str_app_cons; [by rewrite E2|by rewrite Hc']. }
  fold sg. clearbody sg. destruct sg as [sign s1]. simpl in Hsg, Hsign.
  pose proof (span_digits_app s1) as Ha. pose proof (span_digits_fst s1) as Hf. destruct (span_digits s1) as [d r0] eqn:Es. simpl in Ha, Hf.
  destruct (String.eqb_spec d "") as [|Hd]; [done|]. intros [= <- <-].
  assert (starts is_digit d = true) as Hdd.
  { destruct d as [|c' d]; [done|]. simpl in Hf |- *. destruct (is_digit c'); [done|]. done. }
  split_and!; [rewrite str_app_cons, str_app_assoc; congruence|by right|].
  intros r' Hr' _. rewrite str_app_cons. unfold scan_exp. fold (is_e c). rewrite Ee, str_app_assoc, Hsign by done.
  rewrite span_digits_again by done. by destruct (String.eqb_spec d "").
Qed.

Lemma continues_not c : continues c = false -> is_digit c = false /\ is_point c = false /\ is_e c = false.
Proof. unfold continues, is_point. destruct (is_digit c), (Ascii.eqb c "."), (is_e c); done. Qed.

Definition split_sign (s : string) : string * string :=
  match s with String "-" r => ("-", r) | _ => ("", s) end.

Lemma split_sign_cases s :
  split_sign s = match s with String c r => if Ascii.eqb c "-" then ("-", r) else ("", s) | EmptyString => ("", s) end.
Proof. destruct s as [|c r]; [done|]. unfold split_sign. destruct c as [[] [] [] [] [] [] [] []]; done. Qed.

(** The parts of a literal make a literal. *)
Lemma num_lit_build sg i f e :
  sg = "" \/ sg = "-" -> scan_int i = Some (i, "") -> scan_frac f = Some (f, "") -> scan_exp e = Some (e, "") ->
  num_lit (sg +:+ i +:+ f +:+ e).
Proof.
  intros Hsg Hi Hf He. apply scan_int_stable in Hi as (_ & Hi0 & Hid & Hi). apply scan_frac_stable in Hf as (_ & Hf0 & Hf).
  apply scan_exp_stable in He as (_ & He0 & He). split; [destruct Hsg as [-> | ->]; by destruct i|].
  intros r Hr. assert (starts is_digit r = false /\ starts is_point r = false /\ starts is_e r = false) as (R1 & R2 & R3)
    by (destruct r; [done|by apply continues_not]).
  assert (starts is_digit (e +:+ r) = false /\ starts is_point (e +:+ r) = false) as (E1 & E2).
  { destruct He0 as [-> |He0]; [done|]. destruct e as [|c e]; [done|]. simpl in *. unfold is_e in He0.
    apply orb_true_iff in He0 as [He0|He0]; apply Ascii.eqb_eq in He0 as ->; done. }
  assert (starts is_digit (f +:+ e +:+ r) = false) as F1.
  { destruct Hf0 as [-> |Hf0]; [done|]. destruct f as [|c f]; [done|]. simpl in *. unfold is_point in Hf0. by apply Ascii.eqb_eq in Hf0 as ->. }
  unfold scan_num. fold (split_sign ((sg +:+ i +:+ f +:+ e) +:+ r)). rewrite !str_app_assoc.
  assert (split_sign (sg +:+ i +:+ f +:+ e +:+ r) = (sg, i +:+ f +:+ e +:+ r)) as ->.
  { destruct Hsg as [-> | ->]; [|done]. rewrite str_app_nil_l, split_sign_cases. destruct i as [|c i]; [done|]. simpl in *.
    by destruct (Ascii.eqb_spec c "-") as [->|]. }
  rewrite Hi by done. cbn [mbind option_bind]. rewrite Hf by done. cbn [mbind option_bind]. by rewrite He.
Qed.

Lemma split_sign_parts s : s = fst (split_sign s) +:+ snd (split_sign s) /\ (fst (split_sign s) = "" \/ fst (split_sign s) = "-").
Proof.
  rewrite split_sign_cases. destruct s as [|c s]; simpl; [auto|]. destruct (Ascii.eqb_spec c "-") as [->|]; simpl; auto.
Qed.

Lemma scan_num_stable s lit r : scan_num s = Some (lit, r) -> s = lit +:+ r /\ num_lit lit.
Proof.
  unfold scan_num. fold (split_sign s). destruct (split_sign_parts s) as [Hs Hsg]. destruct (split_sign s) as [sg s0]. simpl in Hs, Hsg.
  intros Hn. apply bind_Some in Hn as ((i & s1) & Hi & Hn). apply bind_Some in Hn as ((f & s2) & Hf & Hn). apply bind_Some in Hn as ((e & s3) & He & Hn).
  injection Hn as <- <-. apply scan_int_stable in Hi as (-> & _ & _ & Hi). apply scan_frac_stable in Hf as (-> & _ & Hf). apply scan_exp_stable in He as (-> & _ & He).
  split; [by rewrite Hs, !str_app_assoc|]. specialize (Hi "" eq_refl). specialize (Hf "" eq_refl eq_refl). specialize (He "" eq_refl eq_refl).
  rewrite str_app_nil_r in Hi, Hf, He. by apply num_lit_build.
Qed.

Lemma num_lit_scan lit : num_lit lit -> scan_num lit = Some (lit, "").
Proof. intros [_ Hn]. specialize (Hn "" eq_refl). by rewrite str_app_nil_r in Hn. Qed.

Lemma scan_num_lit lit : scan_num lit = Some (lit, "") -> num_lit lit.
Proof. intros Hs. by apply scan_num_stable in Hs as [_ Hs]. Qed.

(** ** Strings *)

(** The width is decided by the bytes of the sequence alone. *)
Lemma utf8_width_2 c c1 r r' : utf8_width c (String c1 r) = 2%nat -> utf8_width c (String c1 r') = 2%nat.
Proof.
  unfold utf8_width. destruct (in_range 0xC2 0xDF c); [done|].
  repeat match goal with |- context [if ?b then _ else _] => let E := fresh in destruct b eqn:E end; done.
Qed.

Lemma utf8_width_3 c c1 c2 r r' : utf8_width c (String c1 (String c2 r)) = 3%nat -> utf8_width c (String c1 (String c2 r')) = 3%nat.
Proof.
  unfold utf8_width. destruct (in_range 0xC2 0xDF c); [by destruct (in_range 0x80 0xBF c1)|].
  destruct (code c =? 0xE0); [done|]. destruct (code c =? 0xED); [done|]. destruct (in_range 0xE1 0xEF c); [done|].
  repeat match goal with |- context [if ?b then _ else _] => let E := fresh in destruct b eqn:E end; done.
Qed.

Lemma utf8_width_4 c c1 c2 c3 r r' :
  utf8_width c (String c1 (String c2 (String c3 r))) = 4%nat -> utf8_width c (String c1 (String c2 (String c3 r'))) = 4%nat.
Proof.
  unfold utf8_width. destruct (in_range 0xC2 0xDF c); [by destruct (in_range 0x80 0xBF c1)|].
  destruct (code c =? 0xE0); [by destruct (_ && _)|]. destruct (code c =? 0xED); [by destruct (_ && _)|].
  destruct (in_range 0xE1 0xEF c); [by destruct (_ && _)|].
  destruct (code c =? 0xF0); [done|]. destruct (code c =? 0xF4); [done|]. by destruct (in_range 0xF1 0xF3 c).
Qed.

(** A string is a sequence of ASCII bytes and multi-byte sequences. *)
Inductive utf8 : string -> Prop :=
| utf8_nil : utf8 ""
| utf8_1 c r : code c < 0x80 -> utf8 r -> utf8 (String c r)
| utf8_2 c c1 r : 0x80 <= code c -> (forall r', utf8_width c (String c1 r') = 2%nat) -> utf8 r -> utf8 (String c (String c1 r))
| utf8_3 c c1 c2 r : 0x80 <= code c -> (forall r', utf8_width c (String c1 (String c2 r')) = 3%nat) -> utf8 r ->
    utf8 (String c (String c1 (String c2 r)))
| utf8_4 c c1 c2 c3 r : 0x80 <= code c -> (forall r', utf8_width c (String c1 (String c2 (String c3 r'))) = 4%nat) -> utf8 r ->
    utf8 (String c (String c1 (String c2 (String c3 r)))).

Lemma utf8_app a b : utf8 a -> utf8 b -> utf8 (a +:+ b).
Proof.
  intros Ha Hb. induction Ha; rewrite ?str_app_cons; [done|by apply utf8_1|by apply utf8_2|by apply utf8_3|by apply utf8_4].
Qed.

(** One step of the scanner over a sequence. *)
Lemma scan_2 c c1 r : 0x80 <= code c -> utf8_width c (String c1 r) = 2%nat ->
  scan_str (String c (String c1 r)) = prepend (String c (String c1 "")) (scan_str r).
Proof.
  intros Hc Hw. assert (Ascii.eqb c "034" = false /\ Ascii.eqb c "\" = false) as [Hq Hb].
  { split; apply Ascii.eqb_neq; intros ->; vm_compute in Hc; by apply Hc. }
  cbn -[Z.ltb utf8_width prepend]. rewrite Hq, Hb, Hw. destruct (Z.ltb_spec (code c) 32); [lia|]. by destruct (Z.ltb_spec (code c) 128); [lia|].
Qed.
Lemma scan_3 c c1 c2 r : 0x80 <= code c -> utf8_width c (String c1 (String c2 r)) = 3%nat ->
  scan_str (String c (String c1 (String c2 r))) = prepend (String c (String c1 (String c2 ""))) (scan_str r).
Proof.
  intros Hc Hw. assert (Ascii.eqb c "034" = false /\ Ascii.eqb c "\" = false) as [Hq Hb].
  { split; apply Ascii.eqb_neq; intros ->; vm_compute in Hc; by apply Hc. }
  cbn -[Z.ltb utf8_width prepend]. rewrite Hq, Hb, Hw. destruct (Z.ltb_spec (code c) 32); [lia|]. by destruct (Z.ltb_spec (code c) 128); [lia|].
Qed.
Lemma scan_4 c c1 c2 c3 r : 0x80 <= code c -> utf8_width c (String c1 (String c2 (String c3 r))) = 4%nat ->
  scan_str (String c (String c1 (String c2 (String c3 r)))) = prepend (String c (String c1 (String c2 (String c3 "")))) (scan_str r).
Proof.
  intros Hc Hw. assert (Ascii.eqb c "034" = false /\ Ascii.eqb c "\" = false) as [Hq Hb].
  { split; apply Ascii.eqb_neq; intros ->; vm_compute in Hc; by apply Hc. }
  cbn -[Z.ltb utf8_width prepend]. rewrite Hq, Hb, Hw. destruct (Z.ltb_spec (code c) 32); [lia|]. by destruct (Z.ltb_spec (code c) 128); [lia|].
Qed.

(** An escaped ASCII byte is read back. *)
Lemma scan_quote_byte c r : code c < 0x80 -> scan_str (quote_byte c +:+ r) = prepend (String c "") (scan_str r).
Proof.
  intros Hc. destruct c as [[] [] [] [] [] [] [] []]; try (vm_compute in Hc; discriminate Hc); reflexivity.
Qed.

Lemma prepend_some p s t r : s = Some (t, r) -> prepend p s = Some (p +:+ t, r).
Proof. by intros ->. Qed.

(** A quoted string is read back. *)
Lemma scan_quote_body s r : utf8 s -> scan_str (quote_body s +:+ String "034" r) = Some (s, r).
Proof.
  induction 1 as [|c s Hc _ IH|c c1 s Hc Hw _ IH|c c1 c2 s Hc Hw _ IH|c c1 c2 c3 s Hc Hw _ IH].
  - done.
  - cbn [quote_body]. destruct (Z.ltb_spec (code c) 0x80); [|lia]. rewrite str_app_assoc, scan_quote_byte by done. by apply (prepend_some (String c "")).
  - cbn [quote_body]. destruct (Z.ltb_spec (code c) 0x80); [lia|]. rewrite Hw, !str_app_cons, scan_2 by done. by apply (prepend_some (String c (String c1 ""))).
  - cbn [quote_body]. destruct (Z.ltb_spec (code c) 0x80); [lia|]. rewrite Hw.
    destruct ((code c =? 0xE2) && (code c1 =? 0x80) && ((code c2 =? 0xA8) || (code c2 =? 0xA9))) eqn:E.
    + rewrite str_app_assoc. apply andb_true_iff in E as [E E3]. apply andb_true_iff in E as [E1 E2]. apply Z.eqb_eq in E1, E2.
      assert (c = chr 0xE2 /\ c1 = chr 0x80) as [-> ->].
      { split; [rewrite <- (ascii_N_embedding c)|rewrite <- (ascii_N_embedding c1)]; unfold chr; f_equal; unfold code in *; lia. }
      apply orb_true_iff in E3 as [E3|E3]; apply Z.eqb_eq in E3; rewrite str_app_assoc;
        (assert (c2 = chr (code c2)) as Hc2 by (unfold chr, code; by rewrite N2Z.id, ascii_N_embedding)); rewrite E3 in Hc2 |- *; subst c2.
      * change (scan_str ("\u2028" +:+ quote_body s +:+ String "034" r) = Some (encode_rune 0x2028 +:+ s, r)).
        change (prepend (encode_rune 0x2028) (scan_str (quote_body s +:+ String "034" r)) = Some (encode_rune 0x2028 +:+ s, r)).
        by apply prepend_some.
      * change (prepend (encode_rune 0x2029) (scan_str (quote_body s +:+ String "034" r)) = Some (encode_rune 0x2029 +:+ s, r)).
        by apply prepend_some.
    + rewrite !str_app_cons, scan_3 by done. by apply (prepend_some (String c (String c1 (String c2 "")))).
  - cbn [quote_body]. destruct (Z.ltb_spec (code c) 0x80); [lia|]. rewrite Hw, !str_app_cons, scan_4 by done.
    by apply (prepend_some (String c (String c1 (String c2 (String c3 ""))))).
Qed.

Lemma code_chr n : 0 <= n < 256 -> code (chr n) = n.
Proof. intros Hn. unfold code, chr. rewrite N_ascii_embedding; lia. Qed.

Lemma in_range_true lo hi c : lo <= code c <= hi -> in_range lo hi c = true.
Proof. intros Hc. unfold in_range. by destruct (Z.leb_spec lo (code c)), (Z.leb_spec (code c) hi); try lia. Qed.
Lemma in_range_false lo hi c : code c < lo \/ hi < code c -> in_range lo hi c = false.
Proof. intros Hc. unfold in_range. by destruct (Z.leb_spec lo (code c)), (Z.leb_spec (code c) hi); try lia. Qed.

(** The encoding of a code point is UTF-8. *)
Lemma encode_rune_utf8 u : 0 <= u < 0x110000 -> utf8 (encode_rune u).
Proof.
  intros Hu. unfold encode_rune.
  destruct (Z.ltb_spec u 0x80). { apply utf8_1; [rewrite code_chr; lia|constructor]. }
  pose proof (Z.mod_pos_bound u 64 ltac:(lia)). pose proof (Z.div_mod u 64 ltac:(lia)).
  destruct (Z.ltb_spec u 0x800).
  { apply utf8_2; [rewrite code_chr by lia; lia| |constructor]. intros r'. unfold utf8_width.
    rewrite in_range_true by (rewrite code_chr by lia; lia). by rewrite in_range_true by (rewrite code_chr by lia; lia). }
  destruct ((0xD800 <=? u) && (u <=? 0xDFFF)) eqn:Es.
  { apply utf8_3; [vm_compute; discriminate|done|constructor]. }
  assert (u < 0xD800 \/ 0xDFFF < u) as Hs by (destruct (Z.leb_spec 0xD800 u), (Z.leb_spec u 0xDFFF); try lia; done).
  pose proof (Z.mod_pos_bound (u / 64) 64 ltac:(lia)). pose proof (Z.div_mod (u / 64) 64 ltac:(lia)).
  rewrite Z.div_div in * by lia. change (64 * 64) with 4096 in *.
  destruct (Z.ltb_spec u 0x10000).
  - apply utf8_3; [rewrite code_chr by lia; lia| |constructor]. intros r'. unfold utf8_width.
    rewrite in_range_false by (rewrite code_chr by lia; lia).
    destruct (Z.eqb_spec (code (chr (0xE0 + u / 4096))) 0xE0) as [He|He]; rewrite code_chr in He by lia.
    { rewrite !in_range_true by (rewrite code_chr by lia; lia). done. }
    destruct (Z.eqb_spec (code (chr (0xE0 + u / 4096))) 0xED) as [Hd|Hd]; rewrite code_chr in Hd by lia.
    { rewrite !in_range_true by (rewrite code_chr by lia; lia). done. }
    rewrite !in_range_true by (rewrite code_chr by lia; lia). done.
  - pose proof (Z.mod_pos_bound (u / 4096) 64 ltac:(lia)). pose proof (Z.div_mod (u / 4096) 64 ltac:(lia)).
    rewrite Z.div_div in * by lia. change (4096 * 64) with 262144 in *.
    apply utf8_4; [rewrite code_chr by lia; lia| |constructor]. intros r'. unfold utf8_width.
    rewrite in_range_false by (rewrite code_chr by lia; lia).
    destruct (Z.eqb_spec (code (chr (0xF0 + u / 262144))) 0xE0) as [He|He]; rewrite code_chr in He by lia; [lia|].
    destruct (Z.eqb_spec (code (chr (0xF0 + u / 262144))) 0xED) as [Hd|Hd]; rewrite code_chr in Hd by lia; [lia|].
    rewrite in_range_false by (rewrite code_chr by lia; lia).
    destruct (Z.eqb_spec (code (chr (0xF0 + u / 262144))) 0xF0) as [Hf0|Hf0]; rewrite code_chr in Hf0 by lia.
    { rewrite !in_range_true by (rewrite code_chr by lia; lia). done. }
    destruct (Z.eqb_spec (code (chr (0xF0 + u / 262144))) 0xF4) as [Hf4|Hf4]; rewrite code_chr in Hf4 by lia.
    { rewrite !in_range_true by (rewrite code_chr by lia; lia). done. }
    rewrite !in_range_true by (rewrite code_chr by lia; lia). done.
Qed.

Lemma hex_val_bounds c v : hex_val c = Some v -> 0 <= v < 16.
Proof.
  unfold hex_val, in_range. repeat match goal with |- context [if ?b then _ else _] => destruct b eqn:?; [intros [= <-]|] end; [lia..|done].
Qed.

Lemma hex4_bounds a b c d u : hex4 a b c d = Some u -> 0 <= u < 0x10000.
Proof.
  unfold hex4. intros Hu. apply bind_Some in Hu as (x & Hx & Hu). apply bind_Some in Hu as (y & Hy & Hu).
  apply bind_Some in Hu as (z & Hz & Hu). apply bind_Some in Hu as (w & Hw & Hu). injection Hu as <-.
  apply hex_val_bounds in Hx, Hy, Hz, Hw. lia.
Qed.

Lemma replacement_utf8 : utf8 replacement.
Proof. apply encode_rune_utf8. lia. Qed.

Lemma simple_escape_ascii e b : simple_escape e = Some b -> code b < 0x80.
Proof. unfold simple_escape. destruct e as [[] [] [] [] [] [] [] []]; intros [= <-]; vm_compute; done. Qed.

(** One step of the scanner: the end, or a piece of UTF-8 and a shorter rest. *)
Lemma scan_str_step s t r : scan_str s = Some (t, r) ->
  s = String "034" r /\ t = "" \/
  exists piece s' t', utf8 piece /\ (len s' < len s)%nat /\ scan_str s' = Some (t', r) /\ t = piece +:+ t'.
Proof.
  assert (forall piece s' o, utf8 piece -> (len s' < o)%nat -> prepend piece (scan_str s') = Some (t, r) ->
    exists piece s' t', utf8 piece /\ (len s' < o)%nat /\ scan_str s' = Some (t', r) /\ t = piece +:+ t') as Hp.
  { intros piece s' o Hu Hl Hs. unfold prepend in Hs. apply bind_Some in Hs as ((t' & r') & Hs & Ht). injection Ht as <- ->. by exists piece, s', t'. }
  destruct s as [|c s]; [done|]. cbn [scan_str]. destruct (Ascii.eqb_spec c "034") as [->|Hq]; [intros [= <- <-]; by left|]. intros Hs. right.
  destruct (Ascii.eqb_spec c "\") as [->|Hb].
  - destruct s as [|e s]; [done|]. destruct (Ascii.eqb e "u").
    + destruct s as [|h1 [|h2 [|h3 [|h4 s]]]]; try done. destruct (hex4 h1 h2 h3 h4) as [u|] eqn:Eu; [|done]. apply hex4_bounds in Eu.
      destruct (_ && _) eqn:Es; [|eapply Hp; [| |exact Hs]; [apply encode_rune_utf8; lia|simpl; lia]].
      assert (prepend replacement (scan_str s) = Some (t, r) -> exists piece s' t', utf8 piece /\ (len s' < len (String "\" (String e (String h1 (String h2 (String h3 (String h4 s)))))))%nat /\ scan_str s' = Some (t', r) /\ t = piece +:+ t') as Hrep
        by (intros Hs'; eapply Hp; [apply replacement_utf8| |exact Hs']; simpl; lia).
      destruct s as [|b [|u' [|g1 [|g2 [|g3 [|g4 s]]]]]]; try (by apply Hrep).
      destruct (Ascii.eqb b "\" && Ascii.eqb u' "u"); [|by apply Hrep].
      destruct (hex4 g1 g2 g3 g4) as [v|] eqn:Ev; [|done]. apply hex4_bounds in Ev.
      destruct ((u <? 0xDC00) && (0xDC00 <=? v) && (v <? 0xE000)) eqn:Ep; [|by apply Hrep].
      eapply Hp; [| |exact Hs]; [|simpl; lia]. apply encode_rune_utf8.
      apply andb_true_iff in Ep as [Ep E3]. apply andb_true_iff in Ep as [E1 E2]. apply andb_true_iff in Es as [E4 E5].
      apply Z.ltb_lt in E1, E3, E5. apply Z.leb_le in E2, E4. lia.
    + destruct (simple_escape e) as [b|] eqn:Ee; [|done]. eapply Hp; [| |exact Hs]; [|simpl; lia].
      apply utf8_1; [by apply (simple_escape_ascii e)|constructor].
  - destruct (Z.ltb_spec (code c) 32); [done|]. destruct (Z.ltb_spec (code c) 0x80).
    { eapply Hp; [| |exact Hs]; [|simpl; lia]. by apply utf8_1; [|constructor]. }
    assert (prepend replacement (scan_str s) = Some (t, r) -> exists piece s' t', utf8 piece /\ (len s' < len (String c s))%nat /\ scan_str s' = Some (t', r) /\ t = piece +:+ t') as Hrep
      by (intros Hs'; eapply Hp; [apply replacement_utf8| |exact Hs']; simpl; lia).
    destruct (utf8_width c s) as [|[|[|[|[|k]]]]] eqn:Ew; try (by apply Hrep).
    + destruct s as [|c1 s]; [by apply Hrep|]. eapply Hp; [| |exact Hs]; [|simpl; lia].
      apply utf8_2; [lia| |constructor]. intros r'. by apply (utf8_width_2 c c1 s).
    + destruct s as [|c1 [|c2 s]]; try (by apply Hrep). eapply Hp; [| |exact Hs]; [|simpl; lia].
      apply utf8_3; [lia| |constructor]. intros r'. by apply (utf8_width_3 c c1 c2 s).
    + destruct s as [|c1 [|c2 [|c3 s]]]; try (by apply Hrep). eapply Hp; [| |exact Hs]; [|simpl; lia].
      apply utf8_4; [lia| |constructor]. intros r'. by apply (utf8_width_4 c c1 c2 c3 s).
Qed.

(** A scanned string is UTF-8, and scanning consumes at least the closing quote. *)
Lemma scan_str_ok s t r : scan_str s = Some (t, r) -> utf8 t /\ (len r < len s)%nat.
Proof.
  remember (len s) as n eqn:En. assert (len s <= n)%nat as Hle by lia. clear En. revert s t r Hle.
  induction n as [n IH] using lt_wf_ind. intros s t r Hle Hs.
  apply scan_str_step in Hs as [[-> ->]|(piece & s' & t' & Hu & Hl & Hs & ->)]; [split; [constructor|simpl in *; lia]|].
  destruct (IH (len s') ltac:(lia) s' t' r ltac:(lia) Hs) as [Ht Hr]. split; [by apply utf8_app|lia].
Qed.

(** ** The parser's fuel *)

Lemma pval_consumes fuel :
  (forall d s v r, pval fuel d s = Some (v, r) -> (len r < len s)%nat) /\
  (forall d s l r, parr fuel d s = Some (l, r) -> (len r < len s)%nat) /\
  (forall d s l r, pobj fuel d s = Some (l, r) -> (len r < len s)%nat).
Proof.
  induction fuel as [|fuel (IHv & IHa & IHo)]; [done|]. split_and!.
  - intros d s v r. cbn [pval]. pose proof (skip_ws_le s) as Hw. destruct (skip_ws s) as [|c s']; [done|]. cbn [len] in Hw.
    assert (forall p s'' x, drop_prefix p s' = Some s'' -> Some (x, s'') = Some (v, r) -> (len r < len s)%nat) as Hlit.
    { intros p s'' x Hd [= _ <-]. apply drop_prefix_app in Hd. subst s'. rewrite str_length_app in Hw. lia. }
    destruct (Ascii.eqb c "{").
    { destruct (d <=? 0); [done|]. destruct (closes "}" s') as [r'|] eqn:Ec; [intros [= _ <-]; apply closes_lt in Ec; lia|].
      intros Hp. apply bind_Some in Hp as ((l & r') & Hp & [= _ <-]). apply IHo in Hp. lia. }
    destruct (Ascii.eqb c "[").
    { destruct (d <=? 0); [done|]. destruct (closes "]" s') as [r'|] eqn:Ec; [intros [= _ <-]; apply closes_lt in Ec; lia|].
      intros Hp. apply bind_Some in Hp as ((l & r') & Hp & [= _ <-]). apply IHa in Hp. lia. }
    destruct (Ascii.eqb c "034").
    { intros Hp. apply bind_Some in Hp as ((t & r') & Hp & [= _ <-]). apply scan_str_ok in Hp as [_ Hp]. lia. }
    do 3 (match goal with |- context [if ?b then _ else _] => destruct b end;
      [intros Hp; apply bind_Some in Hp as (s'' & Hd & Hp); by apply (Hlit _ s'' _ Hd Hp)|]).
    intros Hp. apply bind_Some in Hp as ((lit & r') & Hp & [= _ <-]). apply scan_num_stable in Hp as [Hp [Hne _]].
    apply (f_equal len) in Hp. rewrite str_length_app in Hp. cbn [len] in Hp. destruct lit; [done|]. cbn [len] in Hp. lia.
  - intros d s l r. cbn [parr]. intros Hp. apply bind_Some in Hp as ((v & r1) & Hv & Hp). apply IHv in Hv.
    destruct (closes "," r1) as [r2|] eqn:Ec; [|destruct (closes "]" r1) as [r2|] eqn:Ec'; [|done]].
    + apply bind_Some in Hp as ((l' & r3) & Hp & [= _ <-]). apply IHa in Hp. apply closes_lt in Ec. lia.
    + injection Hp as _ <-. apply closes_lt in Ec'. lia.
  - intros d s l r. cbn [pobj]. intros Hp. apply bind_Some in Hp as (r0 & Hq & Hp). apply bind_Some in Hp as ((k & r1) & Hk & Hp).
    apply bind_Some in Hp as (r2 & Hc & Hp). apply bind_Some in Hp as ((v & r3) & Hv & Hp).
    apply closes_lt in Hq, Hc. apply scan_str_ok in Hk as [_ Hk]. apply IHv in Hv.
    destruct (closes "," r3) as [r4|] eqn:Ec; [|destruct (closes "}" r3) as [r4|] eqn:Ec'; [|done]].
    + apply bind_Some in Hp as ((l' & r5) & Hp & [= _ <-]). apply IHo in Hp. apply closes_lt in Ec. lia.
    + injection Hp as _ <-. apply closes_lt in Ec'. lia.
Qed.

Lemma bind_ext {A B} (o : option A) (f g : A -> option B) : (forall x, o = Some x -> f x = g x) -> (o ≫= f) = (o ≫= g).
Proof. destruct o; simpl; auto. Qed.

Lemma fuel_enough_aux k :
  forall f1 f2, (k <= f1)%nat -> (k <= f2)%nat ->
  (forall d s, (2 * len s + 1 <= k)%nat -> pval f1 d s = pval f2 d s) /\
  (forall d s, (2 * len s + 2 <= k)%nat -> parr f1 d s = parr f2 d s) /\
  (forall d s, (2 * len s + 2 <= k)%nat -> pobj f1 d s = pobj f2 d s).
Proof.
  induction k as [|k IH]; intros f1 f2 H1 H2; [split_and!; intros; lia|].
  destruct f1 as [|f1]; [lia|]. destruct f2 as [|f2]; [lia|]. destruct (IH f1 f2 ltac:(lia) ltac:(lia)) as (IHv & IHa & IHo). split_and!.
  - intros d s Hl. cbn [pval]. pose proof (skip_ws_le s) as Hw. destruct (skip_ws s) as [|c s']; [done|]. cbn [len] in Hw.
    destruct (Ascii.eqb c "{"); [by rewrite IHo by lia|]. destruct (Ascii.eqb c "["); [by rewrite IHa by lia|]. done.
  - intros d s Hl. cbn [parr]. rewrite IHv by lia. apply bind_ext. intros [v r] Hv. apply pval_consumes in Hv.
    destruct (closes "," r) as [r'|] eqn:Ec; [|done]. apply closes_lt in Ec. by rewrite IHa by lia.
  - intros d s Hl. cbn [pobj]. apply bind_ext. intros r0 Hq. apply bind_ext. intros [key r1] Hk. apply bind_ext. intros r2 Hc.
    apply closes_lt in Hq, Hc. apply scan_str_ok in Hk as [_ Hk]. rewrite IHv by lia. apply bind_ext. intros [v r3] Hv. apply pval_consumes in Hv.
    destruct (closes "," r3) as [r4|] eqn:Ec; [|done]. apply closes_lt in Ec. by rewrite IHo by lia.
Qed.

(** More fuel never changes the answer: [parse_fuel] is enough. *)
Theorem parse_fuel_enough s d fuel : (parse_fuel s <= fuel)%nat -> pval fuel d s = pval (parse_fuel s) d s.
Proof. intros Hf. apply (fuel_enough_aux (parse_fuel s) fuel (parse_fuel s)); unfold parse_fuel in *; lia. Qed.

(** ** The parser without its fuel *)

Definition pv (d : Z) (s : string) := pval (parse_fuel s) d s.
Definition pa (d : Z) (s : string) := parr (parse_fuel s) d s.
Definition po (d : Z) (s : string) := pobj (parse_fuel s) d s.

Lemma pv_eq d s :
  pv d s = match skip_ws s with
  | EmptyString => None
  | String c r =>
      if Ascii.eqb c "{" then
        if d <=? 0 then None
        else match closes "}" r with Some r' => Some (JObj [], r') | None => '(l, r') ← po (d - 1) r; Some (JObj l, r') end
      else if Ascii.eqb c "[" then
        if d <=? 0 then None
        else match closes "]" r with Some r' => Some (JArr [], r') | None => '(l, r') ← pa (d - 1) r; Some (JArr l, r') end
      else if Ascii.eqb c "034" then '(t, r') ← scan_str r; Some (JStr t, r')
      else if Ascii.eqb c "t" then r' ← drop_prefix "rue" r; Some (JBool true, r')
      else if Ascii.eqb c "f" then r' ← drop_prefix "alse" r; Some (JBool false, r')
      else if Ascii.eqb c "n" then r' ← drop_prefix "ull" r; Some (JNull, r')
      else '(lit, r') ← scan_num (String c r); Some (JNum lit, r')
  end.
Proof.
  unfold pv, parse_fuel at 1. rewrite Nat.add_comm. cbn [Nat.add pval]. pose proof (skip_ws_le s) as Hw. destruct (skip_ws s) as [|c r]; [done|]. cbn [len] in Hw.
  destruct (fuel_enough_aux (parse_fuel r) (S (2 * len s)) (parse_fuel r)) as (_ & Ha & Ho); [unfold parse_fuel; lia|lia|].
  unfold pa, po. by rewrite (Ha (d - 1) r), (Ho (d - 1) r) by (unfold parse_fuel; lia).
Qed.

Lemma parr_S f d s :
  parr (S f) d s = '(v, r) ← pval f d s;
    match closes "," r, closes "]" r with
    | Some r', _ => '(l, r'') ← parr f d r'; Some (v :: l, r'')
    | None, Some r' => Some ([v], r')
    | None, None => None
    end.
Proof. done. Qed.

Lemma pobj_S f d s :
  pobj (S f) d s = r ← closes "034" s;
    '(k, r) ← scan_str r;
    r ← closes ":" r;
    '(v, r) ← pval f d r;
    match closes "," r, closes "}" r with
    | Some r', _ => '(l, r'') ← pobj f d r'; Some ((k, v) :: l, r'')
    | None, Some r' => Some ([(k, v)], r')
    | None, None => None
    end.
Proof. done. Qed.

Lemma parse_fuel_S s : parse_fuel s = S (S (2 * len s)).
Proof. unfold parse_fuel. lia. Qed.

Lemma pa_eq d s :
  pa d s = '(v, r) ← pv d s;
    match closes "," r, closes "]" r with
    | Some r', _ => '(l, r'') ← pa d r'; Some (v :: l, r'')
    | None, Some r' => Some ([v], r')
    | None, None => None
    end.
Proof.
  unfold pa at 1. rewrite parse_fuel_S, parr_S.
  destruct (fuel_enough_aux (2 * len s + 1) (S (2 * len s)) (parse_fuel s)) as (Hv & _); [lia|unfold parse_fuel; lia|].
  rewrite Hv by lia. apply bind_ext. intros [v r] Hr. apply pval_consumes in Hr. destruct (closes "," r) as [r'|] eqn:Ec; [|done]. apply closes_lt in Ec.
  destruct (fuel_enough_aux (parse_fuel r') (S (2 * len s)) (parse_fuel r')) as (_ & Ha & _); [unfold parse_fuel; lia|lia|].
  unfold pa. by rewrite (Ha d r') by (unfold parse_fuel; lia).
Qed.

Lemma po_eq d s :
  po d s = r ← closes "034" s;
    '(k, r) ← scan_str r;
    r ← closes ":" r;
    '(v, r) ← pv d r;
    match closes "," r, closes "}" r with
    | Some r', _ => '(l, r'') ← po d r'; Some ((k, v) :: l, r'')
    | None, Some r' => Some ([(k, v)], r')
    | None, None => None
    end.
Proof.
  unfold po at 1. rewrite parse_fuel_S, pobj_S.
  apply bind_ext. intros r0 Hq. apply bind_ext. intros [key r1] Hk. apply bind_ext. intros r2 Hc. apply closes_lt in Hq, Hc. apply scan_str_ok in Hk as [_ Hk].
  destruct (fuel_enough_aux (2 * len r2 + 1) (S (2 * len s)) (parse_fuel r2)) as (Hv & _); [lia|unfold parse_fuel; lia|].
  rewrite Hv by lia. apply bind_ext. intros [v r3] Hr. apply pval_consumes in Hr. destruct (closes "," r3) as [r'|] eqn:Ec; [|done]. apply closes_lt in Ec.
  destruct (fuel_enough_aux (parse_fuel r') (S (2 * len s)) (parse_fuel r')) as (_ & _ & Ho); [unfold parse_fuel; lia|lia|].
  unfold po. by rewrite (Ho d r') by (unfold parse_fuel; lia).
Qed.

(** ** Well-formed values *)

Fixpoint good (d : Z) (j : json) : Prop :=
  match j with
  | JNull | JBool _ => True
  | JNum lit => num_lit lit
  | JStr s => utf8 s
  | JArr l => 0 < d /\ (fix go (l : list json) := match l with [] => True | v :: l => good (d - 1) v /\ go l end) l
  | JObj l => 0 < d /\ (fix go (l : list (string * json)) :=
      match l with [] => True | (k, v) :: l => utf8 k /\ good (d - 1) v /\ go l end) l
  end.

Definition good_member (d : Z) (kv : string * json) : Prop := utf8 (fst kv) /\ good d (snd kv).

Lemma good_arr d l : good d (JArr l) <-> 0 < d /\ List.Forall (good (d - 1)) l.
Proof.
  cbn [good]. apply and_iff_compat_l. induction l as [|v l IH]; [by split|].
  rewrite IH. split; [by intros []; constructor|inversion 1; auto].
Qed.

Lemma good_obj d l : good d (JObj l) <-> 0 < d /\ List.Forall (good_member (d - 1)) l.
Proof.
  cbn [good]. apply and_iff_compat_l. induction l as [|[k v] l IH]; [by split|].
  rewrite IH. split; [by intros (? & ? & ?); constructor|inversion 1 as [|? ? []]; auto].
Qed.

Lemma json_nested (P : json -> Prop) :
  P JNull -> (forall b, P (JBool b)) -> (forall lit, P (JNum lit)) -> (forall s, P (JStr s)) ->
  (forall l, List.Forall P l -> P (JArr l)) -> (forall l, List.Forall (fun kv => P (snd kv)) l -> P (JObj l)) ->
  forall j, P j.
Proof.
  intros H0 H1 H2 H3 H4 H5. fix IH 1. intros [|b|lit|s|l|l]; [done|done|done|done|apply H4|apply H5].
  - induction l as [|v l IHl]; constructor; [apply IH|done].
  - induction l as [|[k v] l IHl]; constructor; [apply IH|done].
Qed.

(** What the parser returns is well formed. *)
Lemma pval_good fuel :
  (forall d s v r, pval fuel d s = Some (v, r) -> good d v) /\
  (forall d s l r, parr fuel d s = Some (l, r) -> List.Forall (good d) l) /\
  (forall d s l r, pobj fuel d s = Some (l, r) -> List.Forall (good_member d) l).
Proof.
  induction fuel as [|fuel (IHv & IHa & IHo)]; [done|]. split_and!.
  - intros d s v r. cbn [pval]. destruct (skip_ws s) as [|c s']; [done|].
    destruct (Ascii.eqb c "{").
    { destruct (Z.leb_spec d 0); [done|]. destruct (closes "}" s') as [r'|]; [intros [= <- _]; by apply good_obj|].
      intros Hp. apply bind_Some in Hp as ((l & r') & Hp & [= <- _]). apply good_obj. split; [done|by eapply IHo]. }
    destruct (Ascii.eqb c "[").
    { destruct (Z.leb_spec d 0); [done|]. destruct (closes "]" s') as [r'|]; [intros [= <- _]; by apply good_arr|].
      intros Hp. apply bind_Some in Hp as ((l & r') & Hp & [= <- _]). apply good_arr. split; [done|by eapply IHa]. }
    destruct (Ascii.eqb c "034").
    { intros Hp. apply bind_Some in Hp as ((t & r') & Hp & [= <- _]). by apply scan_str_ok in Hp as [Hp _]. }
    do 3 (match goal with |- context [if ?b then _ else _] => destruct b end;
      [intros Hp; by apply bind_Some in Hp as (s'' & _ & [= <- _])|]).
    intros Hp. apply bind_Some in Hp as ((lit & r') & Hp & [= <- _]). by apply scan_num_stable in Hp as [_ Hp].
  - intros d s l r. cbn [parr]. intros Hp. apply bind_Some in Hp as ((v & r1) & Hv & Hp). apply IHv in Hv.
    destruct (closes "," r1); [|destruct (closes "]" r1); [|done]].
    + apply bind_Some in Hp as ((l' & r3) & Hp & [= <- _]). constructor; [done|by eapply IHa].
    + injection Hp as <- _. by repeat constructor.
  - intros d s l r. cbn [pobj]. intros Hp. apply bind_Some in Hp as (r0 & _ & Hp). apply bind_Some in Hp as ((k & r1) & Hk & Hp).
    apply bind_Some in Hp as (r2 & _ & Hp). apply bind_Some in Hp as ((v & r3) & Hv & Hp). apply scan_str_ok in Hk as [Hk _]. apply IHv in Hv.
    destruct (closes "," r3); [|destruct (closes "}" r3); [|done]].
    + apply bind_Some in Hp as ((l' & r5) & Hp & [= <- _]). constructor; [done|by eapply IHo].
    + injection Hp as <- _. by repeat constructor.
Qed.

Lemma parse_first_good s j r : parse_first s = Some (j, r) -> good max_nesting j.
Proof. apply pval_good. Qed.

(** ** Reading back a printed value *)

Fixpoint print_items (l : list json) : string :=
  match l with [] => "]" | v :: l => "," +:+ print v +:+ print_items l end.
Fixpoint print_members (l : list (string * json)) : string :=
  match l with [] => "}" | (k, v) :: l => "," +:+ quote k +:+ ":" +:+ print v +:+ print_members l end.

Definition print_seq : bool -> list json -> string :=
  fix go (first : bool) (l : list json) : string :=
    match l with [] => "]" | v :: l => (if first then "" else ",") +:+ print v +:+ go false l end.
Definition print_pairs : bool -> list (string * json) -> string :=
  fix go (first : bool) (l : list (string * json)) : string :=
    match l with
    | [] => "}"
    | (k, v) :: l => (if first then "" else ",") +:+ quote k +:+ ":" +:+ print v +:+ go false l
    end.

Lemma print_seq_items l : print_seq false l = print_items l.
Proof. induction l as [|v l IH]; [done|]. cbn [print_seq print_items]. by rewrite IH. Qed.
Lemma print_pairs_members l : print_pairs false l = print_members l.
Proof. induction l as [|[k v] l IH]; [done|]. cbn [print_pairs print_members]. by rewrite IH. Qed.

Lemma print_arr l : print (JArr l) = "[" +:+ match l with [] => "]" | v :: l => print v +:+ print_items l end.
Proof. change (print (JArr l)) with ("[" +:+ print_seq true l). destruct l as [|v l]; [done|]. cbn [print_seq]. by rewrite print_seq_items. Qed.

Lemma print_obj l : print (JObj l) =
  "{" +:+ match l with [] => "}" | (k, v) :: l => quote k +:+ ":" +:+ print v +:+ print_members l end.
Proof. change (print (JObj l)) with ("{" +:+ print_pairs true l). destruct l as [|[k v] l]; [done|]. cbn [print_pairs]. by rewrite print_pairs_members. Qed.

(** The first byte of a printed value. *)
Definition value_first (c : ascii) : bool :=
  Ascii.eqb c "{" || Ascii.eqb c "[" || Ascii.eqb c "034" || Ascii.eqb c "t" || Ascii.eqb c "f" || Ascii.eqb c "n" ||
  is_digit c || Ascii.eqb c "-".

Lemma num_first lit : num_lit lit -> exists c t, lit = String c t /\ (is_digit c || Ascii.eqb c "-") = true.
Proof.
  intros Hn. apply num_lit_scan in Hn as Hs. destruct lit as [|c t]; [by destruct Hn|]. exists c, t. split; [done|].
  unfold scan_num in Hs. fold (split_sign (String c t)) in Hs. rewrite split_sign_cases in Hs.
  destruct (Ascii.eqb c "-"); [by rewrite orb_true_r|]. rewrite scan_int_cases in Hs. destruct (Ascii.eqb_spec c "0") as [->|]; [done|].
  by destruct (is_digit c).
Qed.

Lemma print_first d j : good d j -> exists c t, print j = String c t /\ value_first c = true.
Proof.
  destruct j as [|[]|lit|s|l|l]; intros Hg; try (by eexists _, _; split; [reflexivity|]).
  destruct (num_first lit Hg) as (c & t & -> & Hc). exists c, t. split; [done|]. unfold value_first.
  destruct (is_digit c); simpl in Hc; [by rewrite orb_true_r|]. rewrite Hc. by rewrite orb_true_r.
Qed.

(** No byte is both white space or a bracket and the start of a value. *)
Lemma value_first_closes c t r b : value_first c = true -> value_first b = false -> closes b (String c t +:+ r) = None.
Proof.
  intros Hc Hb. unfold closes. rewrite str_app_cons. rewrite skip_nonws.
  - destruct (Ascii.eqb_spec c b) as [->|]; [congruence|done].
  - destruct c as [[] [] [] [] [] [] [] []]; vm_compute in Hc |- *; done.
Qed.

Lemma closes_same c r : is_ws c = false -> closes c (String c r) = Some r.
Proof. intros Hc. unfold closes. rewrite skip_nonws by done. by rewrite Ascii.eqb_refl. Qed.
Lemma closes_other c b r : is_ws c = false -> Ascii.eqb c b = false -> closes b (String c r) = None.
Proof. intros Hc Hb. unfold closes. rewrite skip_nonws by done. by rewrite Hb. Qed.

Lemma quote_app s r : quote s +:+ r = String "034" (quote_body s +:+ String "034" r).
Proof. unfold quote. rewrite str_app_cons, str_app_assoc. done. Qed.

Lemma colon_app r : ":" +:+ r = String ":" r.
Proof. done. Qed.
Lemma comma_app r : "," +:+ r = String "," r.
Proof. done. Qed.

Definition reads (d : Z) (j : json) : Prop :=
  forall r, starts continues r = false -> pv d (print j +:+ r) = Some (j, r).

Lemma read_num_lit d lit : num_lit lit -> reads d (JNum lit).
Proof.
  intros Hn r Hr. destruct (num_first lit Hn) as (c & t & He & Hc). cbn [print]. rewrite pv_eq.
  destruct Hn as [_ Hn]. specialize (Hn r Hr). rewrite He, str_app_cons in *.
  destruct c as [[] [] [] [] [] [] [] []]; try (vm_compute in Hc; discriminate Hc); rewrite skip_nonws by reflexivity;
    cbn [Ascii.eqb Bool.eqb]; by rewrite Hn.
Qed.

Lemma read_str d s : utf8 s -> reads d (JStr s).
Proof.
  intros Hs r _. cbn [print]. rewrite quote_app, pv_eq, skip_nonws by reflexivity.
  cbn [Ascii.eqb Bool.eqb]. by rewrite scan_quote_body.
Qed.

Lemma read_items d v l r :
  good d v -> reads d v -> List.Forall (good d) l -> List.Forall (reads d) l ->
  pa d (print v +:+ print_items l +:+ r) = Some (v :: l, r).
Proof.
  intros Hg Hv Hgl Hl. revert v Hg Hv. induction l as [|w l IH]; intros v Hg Hv; rewrite pa_eq, Hv by done; cbn [mbind option_bind print_items].
  - rewrite str_app_cons. by rewrite closes_other, closes_same.
  - inversion_clear Hgl; inversion_clear Hl. rewrite str_app_assoc, comma_app, closes_same by done. rewrite str_app_assoc. by rewrite IH.
Qed.

Lemma read_members d k v l r :
  good_member d (k, v) -> reads d v -> List.Forall (good_member d) l -> List.Forall (fun kv => reads d (snd kv)) l ->
  po d (quote k +:+ ":" +:+ print v +:+ print_members l +:+ r) = Some ((k, v) :: l, r).
Proof.
  intros Hg Hv Hgl Hl. revert k v Hg Hv. induction l as [|[k' w] l IH]; intros k v [Hk Hg] Hv; rewrite po_eq, quote_app, closes_same by done;
    cbn [mbind option_bind]; rewrite scan_quote_body by done; cbn [mbind option_bind];
    rewrite colon_app, closes_same by done; cbn [mbind option_bind]; rewrite Hv by done; cbn [mbind option_bind print_members].
  - rewrite str_app_cons. by rewrite closes_other, closes_same.
  - inversion_clear Hgl; inversion_clear Hl. rewrite str_app_assoc, comma_app, closes_same by done. rewrite !str_app_assoc. by rewrite IH.
Qed.

(** Whatever can follow a value does not disturb it. *)
Theorem read_print j : forall d, good d j -> reads d j.
Proof.
  induction j as [|b|lit|s|l IH|l IH] using json_nested; intros d Hg.
  - intros r _. by rewrite pv_eq.
  - intros r _. rewrite pv_eq. by destruct b.
  - by apply read_num_lit.
  - by apply read_str.
  - intros r _. apply good_arr in Hg as [Hd Hg]. rewrite print_arr, str_app_assoc, str_app_cons, str_app_nil_l, pv_eq, skip_nonws by reflexivity.
    cbn [Ascii.eqb Bool.eqb]. destruct (Z.leb_spec d 0); [lia|]. destruct l as [|v l]; [by rewrite str_app_cons, closes_same|].
    inversion_clear Hg as [|? ? Hv Hl]; inversion_clear IH as [|? ? Iv Il]. rewrite str_app_assoc.
    destruct (print_first _ _ Hv) as (c & t & Hp & Hc). rewrite Hp at 1. rewrite value_first_closes by done.
    rewrite read_items; [done|done|by apply Iv|done|]. rewrite List.Forall_forall in *. auto.
  - intros r _. apply good_obj in Hg as [Hd Hg]. rewrite print_obj, str_app_assoc, str_app_cons, str_app_nil_l, pv_eq, skip_nonws by reflexivity.
    cbn [Ascii.eqb Bool.eqb]. destruct (Z.leb_spec d 0); [lia|]. destruct l as [|[k v] l]; [by rewrite str_app_cons, closes_same|].
    inversion_clear Hg as [|? ? [Hk Hv] Hl]; inversion_clear IH as [|? ? Iv Il]. rewrite !str_app_assoc.
    rewrite quote_app, (closes_other "034"), <- quote_app by done.
    rewrite read_members; [done|done|by apply Iv|done|]. rewrite List.Forall_forall in *. intros kv Hkv. apply Il; [done|]. by apply Hl.
Qed.

(** A well-formed value is read back from its text. *)
Theorem parse_print j : good max_nesting j -> parse (print j) = Some j /\ parse_first (print j) = Some (j, "").
Proof.
  intros Hg. assert (parse_first (print j) = Some (j, "")) as Hp.
  { pose proof (read_print j max_nesting Hg "" eq_refl) as Hr. by rewrite str_app_nil_r in Hr. }
  split; [|done]. unfold parse. by rewrite Hp.
Qed.

(** ** Literals the program prints *)

Definition all_digits (s : string) : Prop := fst (span_digits s) = s.

Lemma all_digits_app a b : all_digits a -> all_digits b -> all_digits (a +:+ b).
Proof.
  unfold all_digits. induction a as [|c a IH]; [done|]. rewrite str_app_cons. simpl. destruct (is_digit c); [|done].
  destruct (span_digits a) as [d r], (span_digits (a +:+ b)) as [d' r']. simpl in *. intros [= Ha] Hb. f_equal. auto.
Qed.

Lemma all_digits_cons c s : all_digits (String c s) <-> is_digit c = true /\ all_digits s.
Proof.
  unfold all_digits. simpl. destruct (is_digit c); [|split; [done|by intros []]]. destruct (span_digits s) as [d r]. simpl.
  split; [intros [= Hd]; auto|intros [_ ->]; done].
Qed.

Lemma all_digits_pad w n : all_digits (pad 10 w n).
Proof. unfold all_digits. pose proof (span_digits_pad w n "" I) as Hs. rewrite str_app_nil_r in Hs. by rewrite Hs. Qed.

Lemma all_digits_scan s : all_digits s -> span_digits s = (s, "").
Proof. intros Hs. pose proof (span_digits_again s "" Hs eq_refl) as Ha. by rewrite str_app_nil_r in Ha. Qed.

Lemma scan_int_digits c s : is_digit c = true -> c <> "0"%char -> all_digits s -> scan_int (String c s) = Some (String c s, "").
Proof.
  intros Hc H0 Hs. rewrite scan_int_cases. destruct (Ascii.eqb_spec c "0"); [done|]. rewrite Hc. f_equal. apply all_digits_scan. by apply all_digits_cons.
Qed.

Lemma scan_frac_digits s : all_digits s -> s <> "" -> scan_frac (String "." s) = Some (String "." s, "").
Proof. intros Hs Hne. rewrite scan_frac_cases. simpl. rewrite all_digits_scan by done. by destruct (String.eqb_spec s ""). Qed.

Lemma scan_exp_digits (plus : bool) s : all_digits s -> s <> "" ->
  scan_exp ("e" +:+ (if plus then "+" else "-") +:+ s) = Some ("e" +:+ (if plus then "+" else "-") +:+ s, "").
Proof. intros Hs Hne. unfold scan_exp. destruct plus; rewrite !str_app_cons, !str_app_nil_l; cbn -[span_digits]; rewrite all_digits_scan by done; by destruct (String.eqb_spec s ""). Qed.

(** A decimal numeral. *)
Lemma dec_first n : 0 < n -> exists c s, dec n = String c s /\ is_digit c = true /\ c <> "0"%char /\ all_digits s.
Proof.
  intros Hn. unfold dec. destruct (Z.ltb_spec n 0); [lia|]. destruct (dec_digits_first n ltac:(lia)) as [->|(w & -> & Hlead)]; [lia|].
  rewrite pad_cons by lia. destruct (digit_10 (n / 10 ^ Z.of_nat w mod 10)) as [Hd Hv]; [apply Z.mod_pos_bound; lia|].
  eexists _, _. split_and!; [done|done| |apply all_digits_pad]. intros He. rewrite He in Hv. by apply Hlead.
Qed.

Lemma dec_neg n : n < 0 -> dec n = "-" +:+ dec (- n).
Proof. intros Hn. unfold dec. destruct (Z.ltb_spec n 0); [|lia]. by destruct (Z.ltb_spec (- n) 0); [lia|]. Qed.

Lemma dec_scan n : 0 <= n -> scan_int (dec n) = Some (dec n, "").
Proof.
  intros Hn. destruct (decide (n = 0)) as [->|]; [done|]. destruct (dec_first n ltac:(lia)) as (c & s & -> & Hc & H0 & Hs). by apply scan_int_digits.
Qed.

Lemma dec_num_lit n : num_lit (dec n).
Proof.
  destruct (Z.lt_ge_cases n 0) as [Hn|Hn].
  - rewrite dec_neg by done. pose proof (num_lit_build "-" (dec (- n)) "" "") as Hb. rewrite !str_app_nil_r in Hb. apply Hb; [auto|apply dec_scan; lia|done|done].
  - pose proof (num_lit_build "" (dec n) "" "") as Hb. rewrite !str_app_nil_r in Hb. apply Hb; [auto|by apply dec_scan|done|done].
Qed.

Lemma lit_int_dec n : - 2 ^ 63 <= n < 2 ^ 63 -> lit_int (dec n) = Some n.
Proof.
  intros Hn. assert (forall k, 0 <= k -> span_digits (dec k) = (dec k, "") /\ dec k <> "" /\ digits_val 0 (dec k) = k) as Hk.
  { intros k Hk. unfold dec. destruct (Z.ltb_spec k 0); [lia|]. split_and!; [apply all_digits_scan, all_digits_pad| |].
    - destruct (dec_digits_first k Hk) as [->|(w & -> & _)]; [done|]. by rewrite pad_cons by lia.
    - rewrite digits_val_pad; [lia|]. split; [done|by apply dec_digits_enough]. }
  unfold lit_int. destruct (Z.lt_ge_cases n 0) as [Hneg|Hpos].
  - rewrite dec_neg, str_app_cons, str_app_nil_l by done. destruct (Hk (- n) ltac:(lia)) as (Hs & Hne & Hv). rewrite Hs, Hv.
    destruct (String.eqb_spec (dec (- n)) ""); [done|]. cbn [String.eqb negb orb]. rewrite Z.opp_involutive.
    destruct (Z.leb_spec (- 2 ^ 63) n); [|lia]. by destruct (Z.ltb_spec n (2 ^ 63)); [|lia].
  - destruct (Hk n ltac:(lia)) as (Hs & Hne & Hv).
    assert ((match dec n with String "-" r => (true, r) | _ => (false, dec n) end) = (false, dec n)) as ->.
    { destruct (dec_digit_first n ltac:(lia)) as (c & t & -> & Hd). destruct c as [[] [] [] [] [] [] [] []]; done. }
    rewrite Hs, Hv. destruct (String.eqb_spec (dec n) ""); [done|]. cbn [String.eqb negb orb].
    destruct (Z.leb_spec (- 2 ^ 63) n); [|lia]. by destruct (Z.ltb_spec n (2 ^ 63)); [|lia].
Qed.
