(* ===== verification/RawText.v ===== *)
(** json.RawMessage: values kept as their own text.

    [compact] is what encoding/json does to a RawMessage it prints,
    [unmarshal_raw] decodes a struct some of whose fields take the bytes of their
    member.  The compacted text of a value is a text of the same value
    ([compact_reads]). *)
From S2P Require Import Prelude Json JsonText.

(** ** Printing *)

(** json.Compact with HTML escaping, of valid JSON text; [esc] marks the byte
    after a backslash. *)
Fixpoint compact (in_str esc : bool) (s : string) : string :=
  match s with
  | EmptyString => ""
  | String c r =>
      if in_str then
        let next := compact (esc || negb (Ascii.eqb c "034")) (negb esc && Ascii.eqb c "\") r in
        if Ascii.eqb c "<" || Ascii.eqb c ">" || Ascii.eqb c "&" then "\u00" +:+ pad 16 2 (code c) +:+ next
        else match r with
             | String c1 (String c2 r2) =>
                 if (code c =? 0xE2) && (code c1 =? 0x80) && ((code c2 =? 0xA8) || (code c2 =? 0xA9))
                 then "\u202" +:+ pad 16 1 (code c2) +:+ compact true false r2
                 else String c next
             | _ => String c next
             end
      else if (code c =? 32) || (code c =? 9) || (code c =? 10) || (code c =? 13) then compact false false r
      else String c (compact (Ascii.eqb c "034") false r)
  end.

(** json.Marshal of a RawMessage: an error unless it is valid. *)
Definition marshal_raw (s : string) : result string :=
  if valid s then Ok (compact false false s) else Err json_error.

(** ** Compacted strings *)

(** The bytes the compaction rewrites inside strings. *)
Definition rewritten (c : ascii) : bool := Ascii.eqb c "<" || Ascii.eqb c ">" || Ascii.eqb c "&" || (code c =? 0xE2).

Lemma compact_plain esc c r : rewritten c = false ->
  compact true esc (String c r) = String c (compact (esc || negb (Ascii.eqb c "034")) (negb esc && Ascii.eqb c "\") r).
Proof.
  unfold rewritten. intros Hc. apply orb_false_iff in Hc as [Hc He]. cbn [compact]. rewrite Hc, He. by destruct r as [|c1 [|c2 r2]].
Qed.

Lemma compact_outside c r : is_ws c = false -> compact false false (String c r) = String c (compact (Ascii.eqb c "034") false r).
Proof. destruct c as [[] [] [] [] [] [] [] []]; intros Hw; try (vm_compute in Hw; discriminate Hw); reflexivity. Qed.

Lemma compact_skip s : compact false false s = compact false false (skip_ws s).
Proof.
  induction s as [|c s IH]; [done|]. cbn [skip_ws]. destruct (is_ws c) eqn:Ec; [|done]. rewrite <- IH.
  destruct c as [[] [] [] [] [] [] [] []]; try (vm_compute in Ec; discriminate Ec); reflexivity.
Qed.

(** The continuation bytes a string starts with: all that decides whether a byte
    before it starts a sequence. *)
Fixpoint conts (s : string) : string :=
  match s with
  | String c r => if in_range 0x80 0xBF c then String c (conts r) else ""
  | EmptyString => ""
  end.

Lemma in_range_sub lo hi c : 0x80 <= lo -> hi <= 0xBF -> in_range 0x80 0xBF c = false -> in_range lo hi c = false.
Proof. unfold in_range. intros Hl Hh. rewrite !andb_false_iff, !Z.leb_gt. lia. Qed.

Lemma width_conts c s : utf8_width c s = utf8_width c (conts s).
Proof.
  unfold utf8_width. cbv zeta. destruct s as [|a s]; [done|]. cbn [conts]. destruct (in_range 0x80 0xBF a) eqn:Ea.
  2:{ rewrite !(in_range_sub _ _ a) by (done || lia). repeat case_match; done. }
  destruct s as [|b s]; [by rewrite Ea|]. cbn [conts]. rewrite Ea. destruct (in_range 0x80 0xBF b) eqn:Eb; [|rewrite !andb_false_r; repeat case_match; done].
  destruct s as [|d s]; [by rewrite Eb|]. cbn [conts]. rewrite Eb. destruct (in_range 0x80 0xBF d) eqn:Ed; [by rewrite Ed|rewrite !andb_false_r; repeat case_match; done].
Qed.

(** An escaped low surrogate: what decides the reading of a high one before it. *)
Definition low (x : string) : bool :=
  match x with
  | String b (String u (String g1 (String g2 (String g3 (String g4 _))))) =>
      Ascii.eqb b "\" && Ascii.eqb u "u" &&
      match hex4 g1 g2 g3 g4 with Some v => (0xDC00 <=? v) && (v <? 0xE000) | None => false end
  | _ => false
  end.

Definition esc_u (h1 h2 h3 h4 : ascii) : string := String "\" (String "u" (String h1 (String h2 (String h3 (String h4 ""))))).

(** A byte that is not a control character: a text of such bytes is one line. *)
Definition printable (c : ascii) : bool := 32 <=? code c.

Lemma printable_high c : 0x80 <= code c -> printable c = true.
Proof. intros Hc. apply Z.leb_le. lia. Qed.
Lemma printable_range lo hi c : 32 <= lo -> in_range lo hi c = true -> printable c = true.
Proof. unfold in_range. intros Hl Hc. apply andb_true_iff in Hc as [Hc%Z.leb_le _]. apply Z.leb_le. lia. Qed.

Lemma all_bytes_app cls a b : all_bytes cls (a +:+ b) = all_bytes cls a && all_bytes cls b.
Proof. induction a as [|c a IH]; [done|]. rewrite str_app_cons. cbn [all_bytes]. by rewrite IH, andb_assoc. Qed.

Lemma all_bytes_impl (p q : ascii -> bool) s : (forall c, p c = true -> q c = true) -> all_bytes p s = true -> all_bytes q s = true.
Proof. intros Hpq. induction s as [|c s IH]; [done|]. cbn [all_bytes]. intros Hs. apply andb_true_iff in Hs as [Hc Hs]. by rewrite Hpq, IH. Qed.

(** [s] starts with a unit of the scanner that stands for [txt] and is compacted
    to [dst]; [s'] is the rest. *)
Record unit_of (s s' txt dst : string) : Prop := {
  unit_shorter : (String.length s' < String.length s)%nat;
  unit_compact : compact true false s = dst +:+ compact true false s';
  unit_scan : forall x y, conts x = conts s' -> low x = low s' -> scan_str x = Some y -> scan_str (dst +:+ x) = prepend txt (scan_str x);
  unit_conts : forall x, conts x = conts s' -> conts (dst +:+ x) = conts s;
  unit_low : forall x, low (dst +:+ x) = low s;
  unit_bytes : all_bytes printable dst = true
}.

Lemma hex_val_plain h v : hex_val h = Some v -> rewritten h = false /\ Ascii.eqb h "034" = false /\ Ascii.eqb h "\" = false.
Proof. destruct h as [[] [] [] [] [] [] [] []]; intros Hh; try (vm_compute in Hh; discriminate Hh); done. Qed.

Lemma compact_esc_u h1 h2 h3 h4 u r : hex4 h1 h2 h3 h4 = Some u ->
  compact true false (esc_u h1 h2 h3 h4 +:+ r) = esc_u h1 h2 h3 h4 +:+ compact true false r.
Proof.
  unfold hex4. intros Hu. apply bind_Some in Hu as (a & Ha & Hu). apply bind_Some in Hu as (b & Hb & Hu).
  apply bind_Some in Hu as (c & Hc & Hu). apply bind_Some in Hu as (d & Hd & _).
  apply hex_val_plain in Ha as (Ha & Qa & Ba), Hb as (Hb & Qb & Bb), Hc as (Hc & Qc & Bc), Hd as (Hd & Qd & Bd).
  unfold esc_u. rewrite !str_app_cons, !str_app_nil_l. rewrite !compact_plain by done.
  cbn -[compact]. rewrite Qa, Ba. cbn -[compact]. rewrite compact_plain, Qb, Bb by done. cbn -[compact]. rewrite compact_plain, Qc, Bc by done.
  cbn -[compact]. by rewrite compact_plain, Qd, Bd by done.
Qed.

Lemma high_byte c : 0x80 <= code c -> Ascii.eqb c "034" = false /\ Ascii.eqb c "\" = false.
Proof. intros Hc. split; apply Ascii.eqb_neq; intros ->; vm_compute in Hc; by apply Hc. Qed.

Lemma low_first c x : Ascii.eqb c "\" = false -> low (String c x) = false.
Proof. intros Hc. destruct x as [|x1 [|x2 [|x3 [|x4 [|x5 x]]]]]; try done. unfold low. by rewrite Hc. Qed.

Lemma conts_first c x : in_range 0x80 0xBF c = false -> conts (String c x) = "".
Proof. intros Hc. cbn [conts]. by rewrite Hc. Qed.

(** A byte that the scanner and the compaction both copy. *)
Lemma unit_byte c s : code c < 0x80 -> 32 <= code c -> Ascii.eqb c "034" = false -> Ascii.eqb c "\" = false ->
  exists dst, unit_of (String c s) s (String c "") dst.
Proof.
  intros H1 H2 Hq Hb. assert (in_range 0x80 0xBF c = false) as Hr by (apply in_range_false; lia).
  assert (forall x, scan_str (String c x) = prepend (String c "") (scan_str x)) as Hs.
  { intros x. cbn -[Z.ltb prepend]. rewrite Hq, Hb. destruct (Z.ltb_spec (code c) 32); [lia|]. by destruct (Z.ltb_spec (code c) 128); [|lia]. }
  destruct (rewritten c) eqn:Er.
  - assert (c = "<" \/ c = ">" \/ c = "&")%char as Hc.
    { unfold rewritten in Er. apply orb_true_iff in Er as [Er|Er]; [|apply Z.eqb_eq in Er; lia].
      apply orb_true_iff in Er as [Er|Er%Ascii.eqb_eq]; [|auto]. apply orb_true_iff in Er as [Er%Ascii.eqb_eq|Er%Ascii.eqb_eq]; auto. }
    exists ("\u00" +:+ pad 16 2 (code c)). split.
    + simpl; lia.
    + by destruct Hc as [->|[->| ->]].
    + intros x y _ _ _. by destruct Hc as [->|[->| ->]].
    + intros x _. by destruct Hc as [->|[->| ->]].
    + intros x. rewrite (low_first c) by done. by destruct Hc as [->|[->| ->]].
    + by destruct Hc as [->|[->| ->]].
  - exists (String c ""). split.
    + simpl; lia.
    + rewrite compact_plain by done. rewrite Hb, andb_false_r. by rewrite Hq.
    + intros x y _ _ _. by apply Hs.
    + intros x _. rewrite str_app_cons. by rewrite !conts_first.
    + intros x. rewrite str_app_cons. by rewrite !low_first.
    + cbn [all_bytes]. rewrite andb_true_r. by apply Z.leb_le.
Qed.

Lemma unit_escape e b s : simple_escape e = Some b -> unit_of (String "\" (String e s)) s (String b "") (String "\" (String e "")).
Proof.
  intros He. assert (Ascii.eqb e "u" = false /\ rewritten e = false) as [Hu Hr] 
    by (destruct e as [[] [] [] [] [] [] [] []]; try discriminate He; split; reflexivity).
  assert (forall x, scan_str (String "\" (String e x)) = prepend (String b "") (scan_str x)) as Hs by (intros x; cbn -[prepend simple_escape]; by rewrite Hu, He).
  split.
  - simpl; lia.
  - rewrite compact_plain by done. cbn -[compact]. by rewrite compact_plain by done.
  - intros x y _ _ _. by apply Hs.
  - done.
  - assert (forall x, low (String "\" (String e x)) = false) as Hl; [|by intros x; rewrite Hl, !str_app_cons, str_app_nil_l].
    intros x. destruct x as [|x2 [|x3 [|x4 [|x5 x]]]]; try done. unfold low. by rewrite Hu.
  - destruct e as [[] [] [] [] [] [] [] []]; try discriminate He; reflexivity.
Qed.

(** A multi-byte sequence: either a separator, escaped, or copied. *)
Lemma unit_sequence piece s c r :
  piece = String c r -> 0x80 <= code c -> in_range 0x80 0xBF c = false ->
  compact true false (piece +:+ s) = piece +:+ compact true false s ->
  (forall x, scan_str (piece +:+ x) = prepend piece (scan_str x)) -> all_bytes printable piece = true ->
  unit_of (piece +:+ s) s piece piece.
Proof.
  intros -> Hc Hr Hcomp Hs Hp. destruct (high_byte c Hc) as [_ Hb]. split.
  - rewrite str_length_app. simpl. lia.
  - done.
  - intros x y _ _ _. apply Hs.
  - intros x _. rewrite !str_app_cons. by rewrite !conts_first.
  - intros x. rewrite !str_app_cons. by rewrite !low_first.
  - done.
Qed.

(** A continuation byte is not the start of a sequence. *)
Lemma width_lead c s n : utf8_width c s = S n -> in_range 0x80 0xBF c = false.
Proof.
  intros Hw. apply not_true_is_false. intros Hr. unfold in_range in Hr. apply andb_true_iff in Hr as [_ Hr%Z.leb_le]. unfold utf8_width in Hw.
  rewrite !(in_range_false _ _ c) in Hw by lia. assert (forall k, 0xBF < k -> (code c =? k) = false) as He by (intros k Hk; apply Z.eqb_neq; lia). by rewrite !He in Hw by lia.
Qed.

Lemma not_separator c c1 r : negb ((code c =? 0xE2) && (code c1 =? 0x80) && starts (fun c2 => (code c2 =? 0xA8) || (code c2 =? 0xA9)) r) = true -> 0x80 <= code c ->
  compact true false (String c (String c1 r)) = String c (compact true false (String c1 r)).
Proof.
  intros Hn Hc. destruct (high_byte c Hc) as [Hq Hb]. assert (Ascii.eqb c "<" || Ascii.eqb c ">" || Ascii.eqb c "&" = false) as Hl.
  { rewrite !orb_false_iff. repeat split; apply Ascii.eqb_neq; intros ->; vm_compute in Hc; by apply Hc. }
  cbn [compact]. rewrite Hl, Hq, Hb. cbn [negb orb andb]. destruct r as [|c2 r]; [done|]. cbn [starts] in Hn. apply negb_true_iff in Hn. by rewrite Hn.
Qed.

Lemma high_last c : 0x80 <= code c -> compact true false (String c "") = String c "".
Proof.
  intros Hc. assert (Ascii.eqb c "<" || Ascii.eqb c ">" || Ascii.eqb c "&" = false) as Hl; [|cbn [compact]; by rewrite Hl].
  rewrite !orb_false_iff. repeat split; apply Ascii.eqb_neq; intros ->; vm_compute in Hc; by apply Hc.
Qed.

Lemma cont_plain c : in_range 0x80 0xBF c = true -> rewritten c = false /\ Ascii.eqb c "034" = false /\ Ascii.eqb c "\" = false.
Proof. destruct c as [[] [] [] [] [] [] [] []]; intros Hh; try (vm_compute in Hh; discriminate Hh); done. Qed.

Lemma compact_cont c s : in_range 0x80 0xBF c = true -> compact true false (String c s) = String c (compact true false s).
Proof. intros Hc. apply cont_plain in Hc as (Hr & Hq & Hb). by rewrite compact_plain, Hq, Hb. Qed.

(** The bytes of a multi-byte sequence after the first are continuation bytes. *)
Lemma width_2_cont c c1 r : utf8_width c (String c1 r) = 2%nat -> in_range 0x80 0xBF c1 = true /\ (code c =? 0xE2) = false.
Proof.
  unfold utf8_width. cbv zeta. destruct (in_range 0xC2 0xDF c) eqn:Ec.
  - destruct (in_range 0x80 0xBF c1); [|done]. intros _. split; [done|]. unfold in_range in Ec. apply andb_true_iff in Ec as [_ Ec%Z.leb_le]. apply Z.eqb_neq. lia.
  - repeat case_match; done.
Qed.

Lemma in_range_wide lo hi c : 0x80 <= lo -> hi <= 0xBF -> in_range lo hi c = true -> in_range 0x80 0xBF c = true.
Proof. intros Hl Hh Hc. destruct (in_range 0x80 0xBF c) eqn:E; [done|]. by rewrite in_range_sub in Hc. Qed.

Lemma width_3_cont c c1 c2 r : utf8_width c (String c1 (String c2 r)) = 3%nat -> in_range 0x80 0xBF c1 = true /\ in_range 0x80 0xBF c2 = true.
Proof.
  unfold utf8_width. cbv zeta. destruct (in_range 0xC2 0xDF c); [by case_match|].
  assert (forall lo hi, 0x80 <= lo -> hi <= 0xBF -> in_range lo hi c1 && in_range 0x80 0xBF c2 = true -> in_range 0x80 0xBF c1 = true /\ in_range 0x80 0xBF c2 = true) as Hx.
  { intros lo hi Hl Hh Hc. apply andb_true_iff in Hc as [H1 H2]. split; [by eapply in_range_wide|done]. }
  do 3 (match goal with |- context [if ?a then (if ?b then 3%nat else _) else _] => destruct a; [destruct b eqn:Eb; [intros _; eapply Hx; [| |exact Eb]; lia|done]|] end).
  repeat case_match; done.
Qed.

Lemma width_4_cont c c1 c2 c3 r : utf8_width c (String c1 (String c2 (String c3 r))) = 4%nat ->
  in_range 0x80 0xBF c1 = true /\ in_range 0x80 0xBF c2 = true /\ in_range 0x80 0xBF c3 = true /\ (code c =? 0xE2) = false.
Proof.
  unfold utf8_width. cbv zeta. destruct (in_range 0xC2 0xDF c); [by case_match|]. do 2 (case_match; [by case_match|]).
  destruct (in_range 0xE1 0xEF c) eqn:Er; [by case_match|]. intros Hw.
  assert ((code c =? 0xE2) = false) as He.
  { unfold in_range in Er. apply Z.eqb_neq. intros Hc. rewrite Hc in Er. done. }
  assert (forall lo hi, 0x80 <= lo -> hi <= 0xBF -> in_range lo hi c1 && in_range 0x80 0xBF c2 && in_range 0x80 0xBF c3 = true ->
    in_range 0x80 0xBF c1 = true /\ in_range 0x80 0xBF c2 = true /\ in_range 0x80 0xBF c3 = true /\ (code c =? 0xE2) = false) as Hx.
  { intros lo hi Hl Hh Hc. apply andb_true_iff in Hc as [Hc H3]. apply andb_true_iff in Hc as [H1 H2]. split_and!; [by eapply in_range_wide|done..]. }
  revert Hw. do 3 (match goal with |- context [if ?a then (if ?b then 4%nat else _) else _] => destruct a; [destruct b eqn:Eb; [intros _; eapply Hx; [| |exact Eb]; lia|done]|] end).
  done.
Qed.

Lemma not_E2 c c1 r : (code c =? 0xE2) = false -> 0x80 <= code c ->
  compact true false (String c (String c1 r)) = String c (compact true false (String c1 r)).
Proof. intros He Hc. apply not_separator; [by rewrite He|done]. Qed.

Lemma sequence_scan_4 c c1 c2 c3 s : 0x80 <= code c -> utf8_width c (String c1 (String c2 (String c3 s))) = 4%nat ->
  exists dst, unit_of (String c (String c1 (String c2 (String c3 s)))) s (String c (String c1 (String c2 (String c3 "")))) dst.
Proof.
  intros Hc Hw. pose proof (width_4_cont _ _ _ _ _ Hw) as (H1 & H2 & H3 & He). eexists.
  apply (unit_sequence (String c (String c1 (String c2 (String c3 "")))) s c _ eq_refl Hc (width_lead _ _ _ Hw)).
  - rewrite !str_app_cons, !str_app_nil_l. by rewrite not_E2, !compact_cont.
  - intros x. rewrite !str_app_cons, !str_app_nil_l. apply scan_4; [done|]. by apply (utf8_width_4 _ _ _ _ s).
  - cbn [all_bytes]. by rewrite (printable_high c), (printable_range 0x80 0xBF c1 ltac:(lia) H1), (printable_range 0x80 0xBF c2 ltac:(lia) H2), (printable_range 0x80 0xBF c3 ltac:(lia) H3).
Qed.

Lemma sequence_scan_2 c c1 s : 0x80 <= code c -> utf8_width c (String c1 s) = 2%nat ->
  exists dst, unit_of (String c (String c1 s)) s (String c (String c1 "")) dst.
Proof.
  intros Hc Hw. pose proof (width_2_cont _ _ _ Hw) as (H1 & He). eexists.
  apply (unit_sequence (String c (String c1 "")) s c _ eq_refl Hc (width_lead _ _ _ Hw)).
  - rewrite !str_app_cons, !str_app_nil_l. by rewrite not_E2, !compact_cont.
  - intros x. rewrite !str_app_cons, !str_app_nil_l. apply scan_2; [done|]. by apply (utf8_width_2 _ _ s).
  - cbn [all_bytes]. by rewrite (printable_high c), (printable_range 0x80 0xBF c1 ltac:(lia) H1).
Qed.

Lemma code_inj c n : 0 <= n < 256 -> code c = n -> c = chr n.
Proof. intros Hn Hc. unfold chr, code in *. rewrite <- Hc, N2Z.id. by rewrite ascii_N_embedding. Qed.

Lemma sequence_scan_3 c c1 c2 s : 0x80 <= code c -> utf8_width c (String c1 (String c2 s)) = 3%nat ->
  exists dst, unit_of (String c (String c1 (String c2 s))) s (String c (String c1 (String c2 ""))) dst.
Proof.
  intros Hc Hw. pose proof (width_3_cont _ _ _ _ Hw) as (H1 & H2).
  destruct ((code c =? 0xE2) && (code c1 =? 0x80) && ((code c2 =? 0xA8) || (code c2 =? 0xA9))) eqn:E.
  - apply andb_true_iff in E as [E E3]. apply andb_true_iff in E as [E1%Z.eqb_eq E2%Z.eqb_eq].
    apply code_inj in E1, E2; [|lia..]. subst c c1. exists ("\u202" +:+ pad 16 1 (code c2)).
    assert (c2 = chr 0xA8 \/ c2 = chr 0xA9) as Hc2 by (apply orb_true_iff in E3 as [E3%Z.eqb_eq|E3%Z.eqb_eq]; apply code_inj in E3; auto; lia). clear E3. split.
    + simpl; lia.
    + by destruct Hc2 as [-> | ->].
    + intros x y _ _ _. by destruct Hc2 as [-> | ->].
    + intros x _. by destruct Hc2 as [-> | ->].
    + intros x. rewrite (low_first (chr 0xE2)) by done. by destruct Hc2 as [-> | ->].
    + by destruct Hc2 as [-> | ->].
  - eexists. apply (unit_sequence (String c (String c1 (String c2 ""))) s c _ eq_refl Hc (width_lead _ _ _ Hw)).
    + rewrite !str_app_cons, !str_app_nil_l. rewrite not_separator; [|by rewrite negb_true_iff|done]. by rewrite !compact_cont.
    + intros x. rewrite !str_app_cons, !str_app_nil_l. apply scan_3; [done|]. by apply (utf8_width_3 _ _ _ s).
    + cbn [all_bytes]. by rewrite (printable_high c), (printable_range 0x80 0xBF c1 ltac:(lia) H1), (printable_range 0x80 0xBF c2 ltac:(lia) H2).
Qed.

(** A byte that starts no sequence. *)
Lemma scan_invalid c x : 0x80 <= code c -> utf8_width c x = 0%nat -> scan_str (String c x) = prepend replacement (scan_str x).
Proof.
  intros Hc Hw. destruct (high_byte c Hc) as [Hq Hb]. cbn -[Z.ltb utf8_width prepend]. rewrite Hq, Hb, Hw.
  destruct (Z.ltb_spec (code c) 32); [lia|]. by destruct (Z.ltb_spec (code c) 128); [lia|].
Qed.

Lemma unit_invalid c s : 0x80 <= code c -> utf8_width c s = 0%nat -> unit_of (String c s) s replacement (String c "").
Proof.
  intros Hc Hw. destruct (high_byte c Hc) as [Hq Hb]. split.
  - simpl; lia.
  - rewrite str_app_cons, str_app_nil_l. destruct s as [|c1 s].
    + by apply high_last.
    + apply not_separator; [|done]. apply negb_true_iff. destruct (code c =? 0xE2) eqn:E1; [|done]. destruct (code c1 =? 0x80) eqn:E2; [|done].
      apply Z.eqb_eq in E1, E2. apply code_inj in E1, E2; [|lia..]. subst c c1. destruct s as [|c2 s]; [done|]. cbn [starts andb].
      destruct ((code c2 =? 0xA8) || (code c2 =? 0xA9)) eqn:E3; [|done].
      apply orb_true_iff in E3 as [E3%Z.eqb_eq|E3%Z.eqb_eq]; (apply code_inj in E3; [|lia]); subst c2; vm_compute in Hw; discriminate Hw.
  - intros x y Hx _ _. rewrite str_app_cons, str_app_nil_l. apply scan_invalid; [done|]. by rewrite width_conts, Hx, <- width_conts.
  - intros x Hx. rewrite str_app_cons, str_app_nil_l. cbn [conts]. by rewrite Hx.
  - intros x. rewrite str_app_cons. by rewrite !low_first.
  - cbn [all_bytes]. by rewrite printable_high.
Qed.

(** *** Escaped code points *)

Lemma esc_u_low h1 h2 h3 h4 x y : low (esc_u h1 h2 h3 h4 +:+ x) = low (esc_u h1 h2 h3 h4 +:+ y).
Proof. done. Qed.

(** One step of the scanner over an escaped code point. *)
Lemma scan_code h1 h2 h3 h4 x : scan_str (esc_u h1 h2 h3 h4 +:+ x) =
  match hex4 h1 h2 h3 h4 with
  | None => None
  | Some u =>
      if (0xD800 <=? u) && (u <? 0xE000) then
        match x with
        | String b (String u' (String g1 (String g2 (String g3 (String g4 r2))))) =>
            if Ascii.eqb b "\" && Ascii.eqb u' "u" then
              match hex4 g1 g2 g3 g4 with
              | Some v =>
                  if (u <? 0xDC00) && (0xDC00 <=? v) && (v <? 0xE000) then
                    prepend (encode_rune ((u - 0xD800) * 1024 + (v - 0xDC00) + 0x10000)) (scan_str r2)
                  else prepend replacement (scan_str x)
              | None => None
              end
            else prepend replacement (scan_str x)
        | _ => prepend replacement (scan_str x)
        end
      else prepend (encode_rune u) (scan_str x)
  end.
Proof. reflexivity. Qed.

Lemma scan_esc_u h1 h2 h3 h4 u x y : hex4 h1 h2 h3 h4 = Some u -> ((0xD800 <=? u) && (u <? 0xDC00)) && low x = false -> scan_str x = Some y ->
  scan_str (esc_u h1 h2 h3 h4 +:+ x) = prepend (encode_rune u) (scan_str x).
Proof.
  intros Hu Hl Hx. assert (forall b, (0xD800 <=? u) && (u <? 0xE000) = b -> b = true -> encode_rune u = replacement) as Hrep.
  { intros b Hb ->. apply andb_true_iff in Hb as [Hb1%Z.leb_le Hb2%Z.ltb_lt]. unfold replacement, encode_rune.
    destruct (Z.ltb_spec u 0x80); [lia|]. destruct (Z.ltb_spec u 0x800); [lia|]. destruct (Z.leb_spec 0xD800 u); [|lia]. by destruct (Z.leb_spec u 0xDFFF); [|lia]. }
  rewrite scan_code, Hu. destruct ((0xD800 <=? u) && (u <? 0xE000)) eqn:Es; [|done]. rewrite (Hrep _ eq_refl eq_refl).
  destruct x as [|b [|u' [|g1 [|g2 [|g3 [|g4 x]]]]]]; try done. destruct (Ascii.eqb b "\" && Ascii.eqb u' "u") eqn:Eb; [|done].
  apply andb_true_iff in Eb as [Eb%Ascii.eqb_eq Eu%Ascii.eqb_eq]. subst b u'. unfold low in Hl. cbn -[hex4 Z.ltb Z.leb] in Hl.
  destruct (hex4 g1 g2 g3 g4) as [v|] eqn:Ev.
  - apply andb_true_iff in Es as [Es _]. rewrite Es in Hl. cbn [andb] in Hl. by rewrite <- andb_assoc, Hl.
  - exfalso. cbn -[hex4] in Hx. by rewrite Ev in Hx.
Qed.

Lemma esc_u_bytes h1 h2 h3 h4 u : hex4 h1 h2 h3 h4 = Some u -> all_bytes printable (esc_u h1 h2 h3 h4) = true.
Proof.
  assert (forall h v, hex_val h = Some v -> printable h = true) as Hp by
    (intros h v Hh; destruct h as [[] [] [] [] [] [] [] []]; try (vm_compute in Hh; discriminate Hh); reflexivity).
  unfold hex4. intros Hu. apply bind_Some in Hu as (a & Ha & Hu). apply bind_Some in Hu as (b & Hb & Hu).
  apply bind_Some in Hu as (c & Hc & Hu). apply bind_Some in Hu as (d & Hd & _). unfold esc_u. cbn [all_bytes].
  by rewrite (Hp _ _ Ha), (Hp _ _ Hb), (Hp _ _ Hc), (Hp _ _ Hd).
Qed.

Lemma unit_code h1 h2 h3 h4 u s : hex4 h1 h2 h3 h4 = Some u -> ((0xD800 <=? u) && (u <? 0xDC00)) && low s = false ->
  unit_of (esc_u h1 h2 h3 h4 +:+ s) s (encode_rune u) (esc_u h1 h2 h3 h4).
Proof.
  intros Hu Hl. split.
  - rewrite !str_length_app. unfold esc_u. cbn [String.length]. lia.
  - by apply (compact_esc_u _ _ _ _ u).
  - intros x y _ Hx Hy. apply (scan_esc_u _ _ _ _ _ _ y); [done| |done]. by rewrite Hx.
  - done.
  - done.
  - by apply (esc_u_bytes _ _ _ _ u).
Qed.

Definition pair_rune (u v : Z) : string := encode_rune ((u - 0xD800) * 1024 + (v - 0xDC00) + 0x10000).

Lemma scan_pair h1 h2 h3 h4 g1 g2 g3 g4 u v x :
  hex4 h1 h2 h3 h4 = Some u -> hex4 g1 g2 g3 g4 = Some v -> (0xD800 <=? u) && (u <? 0xE000) = true -> (u <? 0xDC00) && (0xDC00 <=? v) && (v <? 0xE000) = true ->
  scan_str (esc_u h1 h2 h3 h4 +:+ esc_u g1 g2 g3 g4 +:+ x) = prepend (pair_rune u v) (scan_str x).
Proof.
  intros Hu Hv Hs Hp. rewrite scan_code, Hu, Hs. unfold esc_u at 1. rewrite !str_app_cons, !str_app_nil_l, Hv, Hp. done.
Qed.

Lemma unit_pair h1 h2 h3 h4 g1 g2 g3 g4 u v s :
  hex4 h1 h2 h3 h4 = Some u -> hex4 g1 g2 g3 g4 = Some v -> (0xD800 <=? u) && (u <? 0xE000) = true -> (u <? 0xDC00) && (0xDC00 <=? v) && (v <? 0xE000) = true ->
  unit_of (esc_u h1 h2 h3 h4 +:+ esc_u g1 g2 g3 g4 +:+ s) s (pair_rune u v) (esc_u h1 h2 h3 h4 +:+ esc_u g1 g2 g3 g4).
Proof.
  intros Hu Hv Hs Hp. split.
  - rewrite !str_length_app. unfold esc_u. cbn [String.length]. lia.
  - by rewrite (compact_esc_u _ _ _ _ u), (compact_esc_u _ _ _ _ v), str_app_assoc.
  - intros x y _ _ _. rewrite str_app_assoc. by apply scan_pair.
  - done.
  - done.
  - by rewrite all_bytes_app, (esc_u_bytes _ _ _ _ u), (esc_u_bytes _ _ _ _ v).
Qed.

Lemma prepend_inv p o t r : prepend p o = Some (t, r) -> exists t', o = Some (t', r) /\ t = p +:+ t'.
Proof. unfold prepend. intros Hp. apply bind_Some in Hp as ([t' r'] & -> & [= <- <-]). by exists t'. Qed.

Definition one_unit (s t r : string) : Prop :=
  exists s' t' txt dst, unit_of s s' txt dst /\ scan_str s' = Some (t', r) /\ t = txt +:+ t'.

Lemma one_unit_intro s s' txt dst t r : unit_of s s' txt dst -> prepend txt (scan_str s') = Some (t, r) -> one_unit s t r.
Proof. intros Hu Hp. apply prepend_inv in Hp as (t' & Hp & ->). by exists s', t', txt, dst. Qed.

(** An escape, and a plain byte or sequence. *)
Lemma scan_escape s t r : scan_str (String "\" s) = Some (t, r) -> one_unit (String "\" s) t r.
Proof.
  intros Hs. destruct s as [|e s]; [done|]. destruct (Ascii.eqb e "u") eqn:Ee.
  - apply Ascii.eqb_eq in Ee as ->. destruct s as [|h1 [|h2 [|h3 [|h4 s]]]]; try done.
    change (scan_str (esc_u h1 h2 h3 h4 +:+ s) = Some (t, r)) in Hs. change (one_unit (esc_u h1 h2 h3 h4 +:+ s) t r).
    pose proof Hs as Hscan. rewrite scan_code in Hs. destruct (hex4 h1 h2 h3 h4) as [u|] eqn:Eu; [|done].
    assert (forall y, scan_str s = Some y -> (0xD800 <=? u) && (u <? 0xDC00) && low s = false -> one_unit (esc_u h1 h2 h3 h4 +:+ s) t r) as Hlone.
    { intros y Hy Hl. eapply one_unit_intro; [by apply (unit_code _ _ _ _ u)|]. by rewrite <- (scan_esc_u h1 h2 h3 h4 u s y). }
    destruct ((0xD800 <=? u) && (u <? 0xE000)) eqn:Es.
    + assert (forall p, prepend p (scan_str s) = Some (t, r) -> (0xD800 <=? u) && (u <? 0xDC00) && low s = false -> one_unit (esc_u h1 h2 h3 h4 +:+ s) t r) as Hrep.
      { intros p Hp Hl. apply prepend_inv in Hp as (t' & Hp & _). by apply (Hlone (t', r)). }
      destruct s as [|b [|u' [|g1 [|g2 [|g3 [|g4 s]]]]]]; try (apply (Hrep _ Hs), andb_false_r).
      destruct (Ascii.eqb b "\" && Ascii.eqb u' "u") eqn:Eb; [|apply (Hrep _ Hs); unfold low; by rewrite Eb, andb_false_r].
      destruct (hex4 g1 g2 g3 g4) as [v|] eqn:Ev; [|done]. destruct ((u <? 0xDC00) && (0xDC00 <=? v) && (v <? 0xE000)) eqn:Ep.
      * apply andb_true_iff in Eb as [Eb%Ascii.eqb_eq Eu'%Ascii.eqb_eq]. subst b u'. eapply one_unit_intro; [by apply (unit_pair h1 h2 h3 h4 g1 g2 g3 g4 u v)|done].
      * apply (Hrep _ Hs). unfold low. rewrite Eb, Ev. apply andb_true_iff in Es as [Es _]. rewrite Es. cbn [andb]. by rewrite andb_assoc.
    + apply prepend_inv in Hs as Hs'. destruct Hs' as (t' & Ht & _). apply (Hlone (t', r) Ht).
      assert ((0xD800 <=? u) && (u <? 0xDC00) = false) as ->; [|done]. apply andb_false_iff. apply andb_false_iff in Es as [Es|Es]; [by left|right].
      apply Z.ltb_ge in Es. apply Z.ltb_ge. lia.
  - cbn [scan_str] in Hs. cbn -[prepend scan_str simple_escape] in Hs. rewrite Ee in Hs. destruct (simple_escape e) as [b|] eqn:Eb; [|done].
    eapply one_unit_intro; [by apply unit_escape|done].
Qed.

Lemma scan_unit s t r : scan_str s = Some (t, r) -> s = String "034" r /\ t = "" \/ one_unit s t r.
Proof.
  destruct s as [|c s]; [done|]. intros Hs. destruct (Ascii.eqb_spec c "034") as [->|Hq]; [injection Hs as <- ->; by left|]. right.
  destruct (Ascii.eqb_spec c "\") as [->|Hb]; [by apply scan_escape|]. pose proof Hs as Hscan. cbn -[Z.ltb utf8_width prepend] in Hs.
  apply Ascii.eqb_neq in Hq, Hb. rewrite Hq, Hb in Hs. destruct (Z.ltb_spec (code c) 32); [done|].
  destruct (Z.ltb_spec (code c) 0x80); [destruct (unit_byte c s) as [dst Hu]; [done..|]; by eapply one_unit_intro|].
  assert (utf8_width c s = 0%nat -> one_unit (String c s) t r) as Hinv.
  { intros Hw. eapply one_unit_intro; [by apply unit_invalid|]. by rewrite <- (scan_invalid c s). }
  destruct (utf8_width c s) as [|[|[|[|[|k]]]]] eqn:Ew; [by apply Hinv|exfalso; revert Ew; unfold utf8_width; repeat case_match; done|..].
  - destruct s as [|c1 s]; [exfalso; revert Ew; unfold utf8_width; repeat case_match; done|].
    destruct (sequence_scan_2 c c1 s) as [dst Hu]; [done..|]. by eapply one_unit_intro.
  - destruct s as [|c1 [|c2 s]]; try (exfalso; revert Ew; unfold utf8_width; repeat case_match; done).
    destruct (sequence_scan_3 c c1 c2 s) as [dst Hu]; [done..|]. by eapply one_unit_intro.
  - destruct s as [|c1 [|c2 [|c3 s]]]; try (exfalso; revert Ew; unfold utf8_width; repeat case_match; done).
    destruct (sequence_scan_4 c c1 c2 c3 s) as [dst Hu]; [done..|]. by eapply one_unit_intro.
  - exfalso; revert Ew; unfold utf8_width; repeat case_match; done.
Qed.

(** A string, from its opening quote, is compacted to a text of the same string. *)
Lemma compact_str s t r : scan_str s = Some (t, r) ->
  exists u, compact true false s = u +:+ String "034" (compact false false r) /\ all_bytes printable u = true /\
    forall x, scan_str (u +:+ String "034" x) = Some (t, x) /\ conts (u +:+ String "034" x) = conts s /\ low (u +:+ String "034" x) = low s.
Proof.
  remember (String.length s) as n eqn:En. revert s t En. induction n as [n IH] using lt_wf_ind. intros s t -> Hs.
  apply scan_unit in Hs as [[-> ->]|(s' & t' & txt & dst & [Hl Hc Hsc Hct Hlo Hby] & Hs & ->)].
  - exists "". split; [by rewrite compact_plain|]. split; [done|]. intros x. split_and!; [done..|]. by rewrite str_app_nil_l, !low_first by done.
  - destruct (IH _ Hl s' t' eq_refl Hs) as (u & Hu & Hb & Hx). exists (dst +:+ u). rewrite Hc, Hu. split; [by rewrite str_app_assoc|]. split; [by rewrite all_bytes_app, Hby, Hb|].
    intros x. destruct (Hx x) as (H1 & H2 & H3). rewrite str_app_assoc. split_and!.
    + rewrite (Hsc _ (t', x)) by done. by rewrite H1.
    + by apply Hct.
    + by apply Hlo.
Qed.

(** ** Compacted values *)

(** The bytes of number literals, which the compaction copies. *)
Definition lit_byte (c : ascii) : bool := continues c || Ascii.eqb c "+" || Ascii.eqb c "-".

Lemma span_digits_bytes s : all_bytes lit_byte (fst (span_digits s)) = true.
Proof.
  induction s as [|c s IH]; [done|]. cbn [span_digits]. destruct (is_digit c) eqn:E; [|done]. destruct (span_digits s) as [d r].
  cbn [fst all_bytes] in *. rewrite IH. unfold lit_byte, continues. by rewrite E.
Qed.

Lemma scan_num_bytes s lit r : scan_num s = Some (lit, r) -> all_bytes lit_byte lit = true.
Proof.
  unfold scan_num. fold (split_sign s). destruct (split_sign_parts s) as [_ Hsg]. destruct (split_sign s) as [sg s0]. cbn [fst] in Hsg.
  intros Hn. apply bind_Some in Hn as ((i & s1) & Hi & Hn). apply bind_Some in Hn as ((f & s2) & Hf & Hn). apply bind_Some in Hn as ((e & s3) & He & Hn).
  injection Hn as <- _. rewrite !all_bytes_app. rewrite !andb_true_iff. split_and!.
  - by destruct Hsg as [-> | ->].
  - rewrite scan_int_cases in Hi. destruct s0 as [|c s0]; [done|]. destruct (Ascii.eqb c "0"); [by injection Hi as <- _|]. destruct (is_digit c); [|done].
    pose proof (span_digits_bytes (String c s0)) as Hb. assert (span_digits (String c s0) = (i, s1)) as E by congruence. by rewrite E in Hb.
  - rewrite scan_frac_cases in Hf. destruct s1 as [|c s1]; [by injection Hf as <- _|]. destruct (Ascii.eqb c "."); [|by injection Hf as <- _].
    pose proof (span_digits_bytes s1) as Hb. destruct (span_digits s1) as [d r']. destruct (String.eqb d ""); [done|]. injection Hf as <- _. exact Hb.
  - unfold scan_exp in He. destruct s2 as [|c s2]; [by injection He as <- _|]. destruct (Ascii.eqb c "e" || Ascii.eqb c "E") eqn:Ec; [|by injection He as <- _].
    set (sg' := match s2 with String c r' => if Ascii.eqb c "+" || Ascii.eqb c "-" then (String c "", r') else ("", s2) | EmptyString => ("", s2) end) in He.
    assert (all_bytes lit_byte (fst sg') = true) as Hs.
    { unfold sg'. destruct s2 as [|c2 s2]; [done|]. destruct (Ascii.eqb c2 "+" || Ascii.eqb c2 "-") eqn:E2; [|done]. cbn [fst all_bytes]. unfold lit_byte.
      rewrite <- orb_assoc, E2. by rewrite orb_true_r. }
    destruct sg' as [sg2 s4]. pose proof (span_digits_bytes s4) as Hb. destruct (span_digits s4) as [d r']. destruct (String.eqb d ""); [done|]. injection He as <- _.
    cbn [fst all_bytes] in *. rewrite all_bytes_app, Hs, Hb. unfold lit_byte, continues, is_e. rewrite Ec. by rewrite !orb_true_r.
Qed.

Lemma skip_ws_first s c r : skip_ws s = String c r -> is_ws c = false.
Proof. induction s as [|c' s IH]; [done|]. cbn [skip_ws]. destruct (is_ws c') eqn:E; [apply IH|]. by intros [= <- _]. Qed.

(** A text of [v], whatever follows it: the value decoded, and no white space
    before it. *)
Definition clean (d : Z) (t : string) (v : json) : Prop :=
  starts value_first t = true /\ forall x, starts continues x = false -> pv d (t +:+ x) = Some (v, x).

Lemma clean_print d j : good d j -> clean d (print j) j.
Proof.
  intros Hg. split; [|by apply read_print]. destruct (print_first d j Hg) as (c & t & -> & Hc). done.
Qed.

Lemma clean_closes d t v b x : clean d t v -> value_first b = false -> closes b (t +:+ x) = None.
Proof. intros [Hf _] Hb. destruct t as [|c t]; [done|]. by apply value_first_closes. Qed.

(** [t] is what the compaction makes of [s] up to its rest [r], on one line. *)
Definition text_of (s r t : string) : Prop := compact false false s = t +:+ compact false false r /\ all_bytes printable t = true.

(** Appending is associative, byte by byte. *)
Ltac str_norm := repeat progress (rewrite ?str_app_cons, ?str_app_assoc, ?str_app_nil_l); done.

Definition punct (c : ascii) : bool := negb (is_ws c) && negb (Ascii.eqb c "034") && printable c.

Lemma punct_parts c : punct c = true -> is_ws c = false /\ Ascii.eqb c "034" = false /\ printable c = true.
Proof. unfold punct. intros Hp. apply andb_true_iff in Hp as [Hp H3]. apply andb_true_iff in Hp as [H1%negb_true_iff H2%negb_true_iff]. done. Qed.

Lemma text_cons c s r t : punct c = true -> text_of s r t -> text_of (String c s) r (String c t).
Proof. intros (Hw & Hq & Hp)%punct_parts [Ht Hb]. split; [by rewrite compact_outside, Hq, Ht|]. cbn [all_bytes]. by rewrite Hp. Qed.

Lemma text_skip s c s' r t : skip_ws s = String c s' -> text_of (String c s') r t -> text_of s r t.
Proof. intros Hs [Ht Hb]. split; [|done]. by rewrite compact_skip, Hs. Qed.

Lemma text_nil r : text_of r r "".
Proof. done. Qed.

Lemma text_app s r1 r t1 t2 : text_of s r1 t1 -> text_of r1 r t2 -> text_of s r (t1 +:+ t2).
Proof. intros [H1 B1] [H2 B2]. split; [by rewrite H1, H2, str_app_assoc|]. by rewrite all_bytes_app, B1, B2. Qed.

Lemma text_closes c s r1 r t : punct c = true -> closes c s = Some r1 -> text_of r1 r t -> text_of s r (String c t).
Proof.
  intros Hp Hc Ht. unfold closes in Hc. destruct (skip_ws s) as [|c' s'] eqn:Es; [done|]. destruct (Ascii.eqb_spec c' c) as [->|]; [|done].
  injection Hc as ->. eapply text_skip; [exact Es|]. by apply text_cons.
Qed.

Lemma text_str s t r : scan_str s = Some (t, r) ->
  exists u, text_of (String "034" s) r (String "034" (u +:+ String "034" "")) /\ forall x, scan_str (u +:+ String "034" x) = Some (t, x).
Proof.
  intros Hs. apply compact_str in Hs as (u & Hu & Hb & Hx). exists u. split; [|intros x; by apply Hx]. split.
  - rewrite compact_outside by done. change (Ascii.eqb "034" "034") with true. rewrite Hu. str_norm.
  - cbn [all_bytes]. by rewrite all_bytes_app, Hb.
Qed.

Lemma text_quote s s' k r : closes "034" s = Some s' -> scan_str s' = Some (k, r) ->
  exists u, text_of s r (String "034" (u +:+ String "034" "")) /\ forall x, scan_str (u +:+ String "034" x) = Some (k, x).
Proof.
  intros Hc Hk. apply text_str in Hk as (u & Hu & Hx). exists u. split; [|done]. unfold closes in Hc.
  destruct (skip_ws s) as [|c' s2] eqn:Es; [done|]. destruct (Ascii.eqb_spec c' "034") as [->|]; [|done]. injection Hc as ->. by eapply text_skip.
Qed.

Lemma text_bytes p r : all_bytes punct p = true -> text_of (p +:+ r) r p.
Proof.
  induction p as [|c p IH]; [by split|]. cbn [all_bytes]. intros Hp. apply andb_true_iff in Hp as [Hc Hp]. rewrite str_app_cons. apply text_cons; auto.
Qed.

(** Constants and numbers, from their first byte [c]. *)
Definition scalar (c : ascii) (r : string) : option (json * string) :=
  if Ascii.eqb c "t" then r' ← drop_prefix "rue" r; Some (JBool true, r')
  else if Ascii.eqb c "f" then r' ← drop_prefix "alse" r; Some (JBool false, r')
  else if Ascii.eqb c "n" then r' ← drop_prefix "ull" r; Some (JNull, r')
  else '(lit, r') ← scan_num (String c r); Some (JNum lit, r').

Lemma text_scalar d c s v r : scalar c s = Some (v, r) -> exists t, text_of (String c s) r t /\ clean d t v.
Proof.
  unfold scalar.
  assert (forall p v', drop_prefix p s = Some r -> all_bytes punct (String c p) = true -> print v' = String c p -> good d v' ->
    exists t, text_of (String c s) r t /\ clean d t v') as Hlit.
  { intros p v' Hd Hp He Hg. apply drop_prefix_app in Hd as ->. exists (String c p). split; [by apply (text_bytes (String c p))|]. rewrite <- He. by apply clean_print. }
  destruct (Ascii.eqb_spec c "t") as [->|_]; [intros Hp; apply bind_Some in Hp as (r' & Hp & [= <- <-]); by apply (Hlit "rue")|].
  destruct (Ascii.eqb_spec c "f") as [->|_]; [intros Hp; apply bind_Some in Hp as (r' & Hp & [= <- <-]); by apply (Hlit "alse")|].
  destruct (Ascii.eqb_spec c "n") as [->|_]; [intros Hp; apply bind_Some in Hp as (r' & Hp & [= <- <-]); by apply (Hlit "ull")|].
  intros Hp. apply bind_Some in Hp as ((lit & r') & Hp & [= <- <-]). exists lit. pose proof (scan_num_bytes _ _ _ Hp) as Hb. apply scan_num_stable in Hp as [-> Hn].
  split; [|by apply (clean_print d (JNum lit))]. apply text_bytes. eapply all_bytes_impl; [|exact Hb].
  intros c'. destruct c' as [[] [] [] [] [] [] [] []]; intros Hc; try (vm_compute in Hc; discriminate Hc); reflexivity.
Qed.

Definition value_text (d : Z) (s : string) (v : json) (r : string) : Prop := exists t, text_of s r t /\ clean d t v.
Definition items_text (d : Z) (s : string) (l : list json) (r : string) : Prop :=
  exists t, text_of s r t /\ starts value_first t = true /\ forall x, pa d (t +:+ x) = Some (l, x).
Definition members_text (d : Z) (s : string) (l : list (string * json)) (r : string) : Prop :=
  exists t, text_of s r (String "034" t) /\ forall x, po d (String "034" t +:+ x) = Some (l, x).

Lemma object_text d s s' l r : skip_ws s = String "{" s' -> 0 < d ->
  closes "}" s' = Some r /\ l = [] \/ members_text (d - 1) s' l r -> value_text d s (JObj l) r.
Proof.
  intros Hs Hd [[Hc ->]|(t & Ht & Hx)].
  - exists "{}". split; [eapply text_skip; [exact Hs|]; apply text_cons; [done|]; by eapply text_closes|]. split; [done|]. intros x _. rewrite pv_eq. cbn -[Z.leb].
    by destruct (Z.leb_spec d 0); [lia|].
  - exists (String "{" (String "034" t)). split; [eapply text_skip; [exact Hs|]; by apply text_cons|]. split; [done|]. intros x _. specialize (Hx x). rewrite str_app_cons in Hx.
    rewrite !str_app_cons, pv_eq, skip_nonws by done. cbn [Ascii.eqb Bool.eqb]. destruct (Z.leb_spec d 0); [lia|]. rewrite closes_other by done. by rewrite Hx.
Qed.

Lemma array_text d s s' l r : skip_ws s = String "[" s' -> 0 < d ->
  closes "]" s' = Some r /\ l = [] \/ items_text (d - 1) s' l r -> value_text d s (JArr l) r.
Proof.
  intros Hs Hd [[Hc ->]|(t & Ht & Hf & Hx)].
  - exists "[]". split; [eapply text_skip; [exact Hs|]; apply text_cons; [done|]; by eapply text_closes|]. split; [done|]. intros x _. rewrite pv_eq. cbn -[Z.leb].
    by destruct (Z.leb_spec d 0); [lia|].
  - exists (String "[" t). split; [eapply text_skip; [exact Hs|]; by apply text_cons|]. split; [done|]. intros x _.
    rewrite str_app_cons, pv_eq, skip_nonws by done. cbn [Ascii.eqb Bool.eqb]. destruct (Z.leb_spec d 0); [lia|].
    assert (closes "]" (t +:+ x) = None) as -> by (destruct t; [done|]; by apply value_first_closes). by rewrite Hx.
Qed.

Lemma item_text d s v r1 l r r2 : value_text d s v r1 ->
  closes "," r1 = Some r2 /\ items_text d r2 l r \/ closes "]" r1 = Some r /\ l = [] -> items_text d s (v :: l) r.
Proof.
  intros (t & Ht & Hf & Hc) [[Hcl (t' & Ht' & _ & Hx)]|[Hcl ->]].
  - exists (t +:+ String "," t'). split; [eapply text_app; [exact Ht|]; by eapply text_closes|]. split; [by destruct t|]. intros x.
    rewrite str_app_assoc, pa_eq, Hc by done. cbn [mbind option_bind]. rewrite str_app_cons, closes_same by done. by rewrite Hx.
  - exists (t +:+ String "]" ""). split; [eapply text_app; [exact Ht|]; by eapply text_closes|]. split; [by destruct t|]. intros x.
    rewrite str_app_assoc, pa_eq, Hc by done. cbn [mbind option_bind]. by rewrite str_app_cons, closes_other, closes_same.
Qed.

Lemma member_text d s s1 k r0 r1 v r2 l r r3 :
  closes "034" s = Some s1 -> scan_str s1 = Some (k, r0) -> closes ":" r0 = Some r1 -> value_text d r1 v r2 ->
  closes "," r2 = Some r3 /\ members_text d r3 l r \/ closes "}" r2 = Some r /\ l = [] -> members_text d s ((k, v) :: l) r.
Proof.
  intros Hq Hk Hcol (t & Ht & Hf & Hc) Hl. destruct (text_quote _ _ _ _ Hq Hk) as (u & Hu & Hx).
  assert (forall y z, text_of r2 r z -> text_of s r (String "034" (u +:+ String "034" (String ":" (t +:+ z)))) /\
    (starts continues y = false -> po d (String "034" (u +:+ String "034" (String ":" t)) +:+ y) =
      match closes "," y, closes "}" y with Some r', _ => '(l, r'') ← po d r'; Some ((k, v) :: l, r'') | None, Some r' => Some ([(k, v)], r') | None, None => None end)) as Hstep.
  { intros y z Hz. split.
    - replace (String "034" (u +:+ String "034" (String ":" (t +:+ z)))) with (String "034" (u +:+ String "034" "") +:+ String ":" (t +:+ z)) by str_norm.
      eapply text_app; [exact Hu|]. eapply text_closes; [done|exact Hcol|]. by eapply text_app.
    - intros Hy. rewrite po_eq, str_app_cons, closes_same by done. cbn [mbind option_bind]. rewrite str_app_assoc, str_app_cons, Hx. cbn [mbind option_bind].
      rewrite str_app_cons, closes_same by done. cbn [mbind option_bind]. by rewrite Hc. }
  destruct Hl as [[Hcl (t' & Ht' & Hx')]|[Hcl ->]].
  - exists (u +:+ String "034" (String ":" (t +:+ String "," (String "034" t')))). split; [by apply (Hstep ""), (text_closes "," _ r3)|]. intros x.
    destruct (Hstep (String "," (String "034" t' +:+ x)) (String "," (String "034" t'))) as [_ Hs]; [by apply (text_closes "," _ r3)|].
    replace (String "034" (u +:+ String "034" (String ":" (t +:+ String "," (String "034" t')))) +:+ x) with
      (String "034" (u +:+ String "034" (String ":" t)) +:+ String "," (String "034" t' +:+ x)) by str_norm.
    rewrite Hs, closes_same by done. by rewrite Hx'.
  - exists (u +:+ String "034" (String ":" (t +:+ String "}" ""))). split; [by apply (Hstep ""), (text_closes "}" _ r)|]. intros x.
    destruct (Hstep (String "}" x) (String "}" "")) as [_ Hs]; [by apply (text_closes "}" _ r)|].
    replace (String "034" (u +:+ String "034" (String ":" (t +:+ String "}" ""))) +:+ x) with
      (String "034" (u +:+ String "034" (String ":" t)) +:+ String "}" x) by str_norm.
    rewrite Hs by done. by rewrite closes_other, closes_same.
Qed.

Lemma compact_value fuel :
  (forall d s v r, pval fuel d s = Some (v, r) -> value_text d s v r) /\
  (forall d s l r, parr fuel d s = Some (l, r) -> items_text d s l r) /\
  (forall d s l r, pobj fuel d s = Some (l, r) -> members_text d s l r).
Proof.
  induction fuel as [|fuel (IHv & IHa & IHo)]; [done|]. split_and!.
  - intros d s v r Hv. cbn [pval] in Hv. destruct (skip_ws s) as [|c s'] eqn:Es; [done|]. destruct (Ascii.eqb_spec c "{") as [->|N1].
    { destruct (Z.leb_spec d 0); [done|]. destruct (closes "}" s') as [r'|] eqn:Ec; [injection Hv as <- <-; eapply object_text; [exact Es|lia|by left]|].
      apply bind_Some in Hv as ((l & r') & Hp & [= <- <-]). eapply object_text; [exact Es|lia|right; by apply IHo]. }
    destruct (Ascii.eqb_spec c "[") as [->|N2].
    { destruct (Z.leb_spec d 0); [done|]. destruct (closes "]" s') as [r'|] eqn:Ec; [injection Hv as <- <-; eapply array_text; [exact Es|lia|by left]|].
      apply bind_Some in Hv as ((l & r') & Hp & [= <- <-]). eapply array_text; [exact Es|lia|right; by apply IHa]. }
    destruct (Ascii.eqb_spec c "034") as [->|N3].
    { apply bind_Some in Hv as ((t & r') & Hp & [= <- <-]). apply text_str in Hp as (u & Hu & Hx). exists (String "034" (u +:+ String "034" "")).
      split; [by eapply text_skip|]. split; [done|]. intros x _. rewrite str_app_cons, pv_eq, skip_nonws by done. cbn [Ascii.eqb Bool.eqb].
      rewrite str_app_assoc. change (String "034" "" +:+ x) with (String "034" x). by rewrite Hx. }
    destruct (text_scalar d c s' v r Hv) as (t & Ht & Hc). exists t. split; [by eapply text_skip|done].
  - intros d s l r. cbn [parr]. intros Hp. apply bind_Some in Hp as ((v & r1) & Hv & Hp). apply IHv in Hv.
    destruct (closes "," r1) as [r2|] eqn:Ec; [|destruct (closes "]" r1) as [r2|] eqn:Ec'; [|done]].
    + apply bind_Some in Hp as ((l' & r3) & Hp & [= <- <-]). eapply item_text; [exact Hv|left; split; [exact Ec|by apply IHa]].
    + injection Hp as <- <-. eapply (item_text _ _ _ _ _ _ ""); [exact Hv|by right].
  - intros d s l r. cbn [pobj]. intros Hp. apply bind_Some in Hp as (r0 & H0 & Hp). apply bind_Some in Hp as ((k & r1) & Hk & Hp).
    apply bind_Some in Hp as (r2 & Hcol & Hp). apply bind_Some in Hp as ((v & r3) & Hv & Hp). apply IHv in Hv.
    destruct (closes "," r3) as [r4|] eqn:Ec; [|destruct (closes "}" r3) as [r4|] eqn:Ec'; [|done]].
    + apply bind_Some in Hp as ((l' & r5) & Hp & [= <- <-]). eapply member_text; [done..|left; split; [exact Ec|by apply IHo]].
    + injection Hp as <- <-. eapply (member_text _ _ _ _ _ _ _ _ _ _ ""); [done..|by right].
Qed.

(** The whole of [s] is a value of nesting at most [d]. *)
Definition fits (d : Z) (s : string) (v : json) : Prop := exists r, pv d s = Some (v, r) /\ skip_ws r = "".

Lemma parse_fits s v : parse s = Some v <-> fits max_nesting s v.
Proof.
  unfold parse, parse_first, fits, pv. split.
  - intros Hp. apply bind_Some in Hp as ([v' r] & Hp & Hr). destruct (String.eqb_spec (skip_ws r) "") as [E|]; [|done]. injection Hr as <-. by exists r.
  - intros (r & -> & Hr). cbn [mbind option_bind]. by rewrite Hr.
Qed.

(** A value's compacted text is a text of the same value, that can stand inside
    another. *)
Theorem compact_reads d s v : fits d s v -> clean d (compact false false s) v.
Proof.
  intros (r & Hv & Hr). apply (proj1 (compact_value _)) in Hv as (t & [Ht _] & Hc).
  rewrite (compact_skip r), Hr in Ht. cbn [compact] in Ht. rewrite str_app_nil_r in Ht. by rewrite Ht.
Qed.

(** Compacted text is one line. *)
Lemma compact_one_line d s v : fits d s v -> all_bytes printable (compact false false s) = true.
Proof.
  intros (r & Hv & Hr). apply (proj1 (compact_value _)) in Hv as (t & [Ht Hb] & _).
  rewrite (compact_skip r), Hr in Ht. cbn [compact] in Ht. rewrite str_app_nil_r in Ht. by rewrite Ht.
Qed.

(** A deeper limit reads the same values. *)
Lemma pval_deeper fuel :
  (forall d d' s x, d <= d' -> pval fuel d s = Some x -> pval fuel d' s = Some x) /\
  (forall d d' s x, d <= d' -> parr fuel d s = Some x -> parr fuel d' s = Some x) /\
  (forall d d' s x, d <= d' -> pobj fuel d s = Some x -> pobj fuel d' s = Some x).
Proof.
  induction fuel as [|fuel (IHv & IHa & IHo)]; [done|]. split_and!; intros d d' s x Hd.
  - cbn [pval]. destruct (skip_ws s) as [|c s']; [done|].
    destruct (Ascii.eqb c "{"); [|destruct (Ascii.eqb c "["); [|done]].
    + destruct (Z.leb_spec d 0), (Z.leb_spec d' 0); try done; [lia|]. destruct (closes "}" s'); [done|]. intros Hp. apply bind_Some in Hp as (y & Hp & Hx).
      by rewrite (IHo (d - 1) (d' - 1) s' y) by (lia || done).
    + destruct (Z.leb_spec d 0), (Z.leb_spec d' 0); try done; [lia|]. destruct (closes "]" s'); [done|]. intros Hp. apply bind_Some in Hp as (y & Hp & Hx).
      by rewrite (IHa (d - 1) (d' - 1) s' y) by (lia || done).
  - cbn [parr]. intros Hp. apply bind_Some in Hp as ([v r] & Hv & Hp). rewrite (IHv d d' s _ Hd Hv). cbn [mbind option_bind].
    destruct (closes "," r) as [r'|]; [|done]. apply bind_Some in Hp as (y & Hp & Hx). by rewrite (IHa d d' r' y Hd Hp).
  - cbn [pobj]. intros Hp. apply bind_Some in Hp as (r0 & -> & Hp). apply bind_Some in Hp as ([k r1] & Hk & Hp). cbn [mbind option_bind]. rewrite Hk. cbn [mbind option_bind].
    apply bind_Some in Hp as (r2 & Hc & Hp). rewrite Hc. cbn [mbind option_bind]. apply bind_Some in Hp as ([v r] & Hv & Hp). rewrite (IHv d d' _ _ Hd Hv). cbn [mbind option_bind].
    destruct (closes "," r) as [r'|]; [|done]. apply bind_Some in Hp as (y & Hp & Hx). by rewrite (IHo d d' r' y Hd Hp).
Qed.

Lemma clean_deeper d d' t v : d <= d' -> clean d t v -> clean d' t v.
Proof. intros Hd [Hf Hc]. split; [done|]. intros x Hx. unfold pv. eapply (proj1 (pval_deeper _)); [exact Hd|]. by apply Hc. Qed.

(** ** Decoding with the text at hand *)

(** A decoder that is also given the value's text. *)
Definition rdecoder (A : Type) := A -> json -> string -> result A.

Definition plain {A} (d : decoder A) : rdecoder A := fun a j _ => d a j.
(** RawMessage's UnmarshalJSON, and the same in a pointer or a slice element. *)
Definition rd_raw : rdecoder string := fun _ _ raw => Ok raw.

(** A value with its text, from its first byte on. *)
Definition spanned (d : Z) (s : string) : option (json * string * string) :=
  let r := skip_ws s in
  '(v, r') ← pv d r;
  Some (v, String.substring 0 (String.length r - String.length r') r, r').

(** The members of an object and the elements of an array with their texts. *)
Fixpoint spans (fuel : nat) (s : string) : option (list (string * json * string) * string) :=
  match fuel with
  | O => None
  | S fuel =>
      r ← closes "034" s;
      '(k, r) ← scan_str r;
      r ← closes ":" r;
      '(v, raw, r') ← spanned (max_nesting - 1) r;
      match closes "," r', closes "}" r' with
      | Some r'', _ => '(l, r3) ← spans fuel r''; Some ((k, v, raw) :: l, r3)
      | None, Some r'' => Some ([(k, v, raw)], r'')
      | None, None => None
      end
  end.

Fixpoint elem_spans (fuel : nat) (s : string) : option (list (json * string) * string) :=
  match fuel with
  | O => None
  | S fuel =>
      '(v, raw, r') ← spanned (max_nesting - 1) s;
      match closes "," r', closes "]" r' with
      | Some r'', _ => '(l, r3) ← elem_spans fuel r''; Some ((v, raw) :: l, r3)
      | None, Some r'' => Some ([(v, raw)], r'')
      | None, None => None
      end
  end.

Definition raw_step {A} (field : string -> option (rdecoder A)) (acc : result A) (m : string * json * string) : result A :=
  a <-! acc ;;
  match field (fst (fst m)) with
  | Some d => d a (snd (fst m)) (snd m)
  | None => Ok a
  end.

Definition rd_struct {A} (field : string -> option (rdecoder A)) : rdecoder A := fun a j raw =>
  match j with
  | JNull => Ok a
  | JObj [] => Ok a
  | JObj _ =>
      match (r ← closes "{" raw; spans (String.length raw) r) with
      | None => Err json_error
      | Some (l, _) => foldl (raw_step field) (Ok a) l
      end
  | _ => Err json_error
  end.

(** Elements are decoded over those already there. *)
Fixpoint rd_elems {A} (zero : A) (d : rdecoder A) (prev : list A) (js : list (json * string)) : result (list A) :=
  match js with
  | [] => Ok []
  | (j, raw) :: js =>
      x <-! d (default zero (head prev)) j raw ;;
      xs <-! rd_elems zero d (tail prev) js ;;
      Ok (x :: xs)
  end.

Definition rd_slice {A} (zero : A) (d : rdecoder A) : rdecoder (list A) := fun prev j raw =>
  match j with
  | JNull => Ok []
  | JArr [] => Ok []
  | JArr _ =>
      match (r ← closes "[" raw; elem_spans (String.length raw) r) with
      | None => Err json_error
      | Some (l, _) => rd_elems zero d prev l
      end
  | _ => Err json_error
  end.

(** A pointer: null clears it. *)
Definition rd_ptr {A} (zero : A) (d : rdecoder A) : rdecoder (option A) := fun prev j raw =>
  match j with
  | JNull => Ok None
  | _ => x <-! d (default zero prev) j raw ;; Ok (Some x)
  end.

(** json.Unmarshal, and one Decode of json.Decoder: the first value of a
    stream. *)
Definition unmarshal_as {A} (d : rdecoder A) (zero : A) (s : string) : result A :=
  match spanned max_nesting s with
  | Some (j, raw, r) => if String.eqb (skip_ws r) "" then d zero j raw else Err json_error
  | None => Err json_error
  end.

Definition decode_first {A} (d : rdecoder A) (zero : A) (s : string) : result A :=
  match spanned max_nesting s with
  | Some (j, raw, _) => d zero j raw
  | None => Err json_error
  end.

(** ** Texts of objects and arrays *)

Fixpoint more_members (l : list (string * string)) : string :=
  match l with [] => "}" | (k, t) :: l => "," +:+ quote k +:+ ":" +:+ t +:+ more_members l end.
Definition obj_text (l : list (string * string)) : string :=
  "{" +:+ match l with [] => "}" | (k, t) :: l => quote k +:+ ":" +:+ t +:+ more_members l end.

Fixpoint more_items (l : list string) : string :=
  match l with [] => "]" | t :: l => "," +:+ t +:+ more_items l end.
Definition arr_text (l : list string) : string :=
  "[" +:+ match l with [] => "]" | t :: l => t +:+ more_items l end.

(** A value is printed member by member. *)
Lemma print_obj_text l : print (JObj l) = obj_text (map (fun kv => (fst kv, print (snd kv))) l).
Proof.
  rewrite print_obj. unfold obj_text. destruct l as [|[k v] l]; [done|]. cbn [map fst snd]. do 4 f_equal.
  induction l as [|[k' v'] l IH]; [done|]. cbn [print_members map more_members fst snd]. by rewrite IH.
Qed.

(** A member of an object text: its key, its text and its value. *)
Definition mtext (m : string * json * string) : string * string := (fst (fst m), snd m).
Definition mval (m : string * json * string) : string * json := fst m.
Definition member_ok (d : Z) (m : string * json * string) : Prop := utf8 (fst (fst m)) /\ clean d (snd m) (snd (fst m)).
Definition item_ok (d : Z) (m : json * string) : Prop := clean d (snd m) (fst m).

Lemma value_first_ws c : value_first c = true -> is_ws c = false.
Proof. destruct c as [[] [] [] [] [] [] [] []]; intros Hc; try (vm_compute in Hc; discriminate Hc); reflexivity. Qed.

Lemma clean_skip d t v x : clean d t v -> skip_ws (t +:+ x) = t +:+ x.
Proof. intros [Hf _]. destruct t as [|c t]; [done|]. rewrite str_app_cons. apply skip_nonws. by apply value_first_ws. Qed.

Lemma substring_prefix a b : String.substring 0 (String.length a) (a +:+ b) = a.
Proof. induction a as [|c a IH]; [by destruct b|]. rewrite str_app_cons. cbn [String.length String.substring]. by rewrite IH. Qed.

Lemma clean_spanned d d' t v x : d <= d' -> clean d t v -> starts continues x = false -> spanned d' (t +:+ x) = Some (v, t, x).
Proof.
  intros Hd Hc Hx. unfold spanned. rewrite (clean_skip d t v x Hc). destruct (clean_deeper _ _ _ _ Hd Hc) as [_ Hp]. rewrite Hp by done. cbn [mbind option_bind].
  rewrite str_length_app. replace (String.length t + String.length x - String.length x)%nat with (String.length t) by lia. by rewrite substring_prefix.
Qed.

Lemma quote_cons s r : quote s +:+ r = String "034" (quote_body s +:+ String "034" r).
Proof. apply quote_app. Qed.

Lemma read_mtexts d k v t l x :
  Forall (member_ok d) ((k, v, t) :: l) ->
  po d (quote k +:+ ":" +:+ t +:+ more_members (map mtext l) +:+ x) = Some (map mval ((k, v, t) :: l), x).
Proof.
  revert k v t. induction l as [|[[k' v'] t'] l IH]; intros k v t Hl; inversion_clear Hl as [|? ? [Hk Hc] Hl'];
    cbn [fst snd] in Hk, Hc; rewrite po_eq, quote_cons, closes_same by done; cbn [mbind option_bind]; rewrite scan_quote_body by done; cbn [mbind option_bind];
    rewrite colon_app, closes_same by done; cbn [mbind option_bind]; destruct Hc as [_ Hc]; rewrite Hc by done; cbn [mbind option_bind map more_members mtext fst snd].
  - rewrite str_app_cons. by rewrite closes_other, closes_same.
  - rewrite str_app_assoc, comma_app, closes_same by done. rewrite !str_app_assoc. by rewrite (IH k' v' t').
Qed.

Lemma spans_mtexts fuel d k v t l x : d <= max_nesting - 1 -> (length l < fuel)%nat ->
  Forall (member_ok d) ((k, v, t) :: l) ->
  spans fuel (quote k +:+ ":" +:+ t +:+ more_members (map mtext l) +:+ x) = Some ((k, v, t) :: l, x).
Proof.
  intros Hd. revert fuel k v t. induction l as [|[[k' v'] t'] l IH]; intros [|fuel] k v t Hf Hl; try (cbn [length] in Hf; lia); inversion_clear Hl as [|? ? [Hk Hc] Hl'];
    cbn [fst snd] in Hk, Hc; cbn [spans]; rewrite quote_cons, closes_same by done; cbn [mbind option_bind]; rewrite scan_quote_body by done; cbn [mbind option_bind];
    rewrite colon_app, closes_same by done; cbn [mbind option_bind]; rewrite (clean_spanned d _ t v) by done; cbn [mbind option_bind map more_members mtext fst snd].
  - rewrite str_app_cons. by rewrite closes_other, closes_same.
  - rewrite str_app_assoc, comma_app, closes_same by done. rewrite !str_app_assoc. cbn [length] in Hf. rewrite (IH fuel k' v' t') by (done || lia). done.
Qed.

Lemma read_items_text d v t l x :
  Forall (item_ok d) ((v, t) :: l) ->
  pa d (t +:+ more_items (map snd l) +:+ x) = Some (v :: map fst l, x).
Proof.
  revert v t. induction l as [|[v' t'] l IH]; intros v t Hl; inversion_clear Hl as [|? ? Hc Hl'];
    destruct Hc as [_ Hc]; cbn [fst snd] in Hc; rewrite pa_eq, Hc by done; cbn [mbind option_bind map more_items fst snd].
  - rewrite str_app_cons. by rewrite closes_other, closes_same.
  - rewrite str_app_assoc, comma_app, closes_same by done. rewrite !str_app_assoc. by rewrite (IH v' t').
Qed.

Lemma elem_spans_text fuel d v t l x : d <= max_nesting - 1 -> (length l < fuel)%nat ->
  Forall (item_ok d) ((v, t) :: l) ->
  elem_spans fuel (t +:+ more_items (map snd l) +:+ x) = Some ((v, t) :: l, x).
Proof.
  intros Hd. revert fuel v t. induction l as [|[v' t'] l IH]; intros [|fuel] v t Hf Hl; try (cbn [length] in Hf; lia); inversion_clear Hl as [|? ? Hc Hl'];
    unfold item_ok in Hc; cbn [fst snd] in Hc; cbn [elem_spans]; rewrite (clean_spanned d _ t v) by done; cbn [mbind option_bind map more_items fst snd].
  - rewrite str_app_cons. by rewrite closes_other, closes_same.
  - rewrite str_app_assoc, comma_app, closes_same by done. rewrite !str_app_assoc. cbn [length] in Hf. rewrite (IH fuel v' t') by (done || lia). done.
Qed.

Lemma more_members_length l : (length l < String.length (more_members l))%nat.
Proof. induction l as [|[k t] l IH]; [simpl; lia|]. cbn [more_members]. rewrite !str_length_app. cbn [length String.length]. lia. Qed.
Lemma more_items_length l : (length l < String.length (more_items l))%nat.
Proof. induction l as [|t l IH]; [simpl; lia|]. cbn [more_items]. rewrite !str_length_app. cbn [length String.length]. lia. Qed.

(** The text of an object: its value, and the members a struct decodes. *)
Lemma obj_clean d l : 0 < d -> Forall (member_ok (d - 1)) l -> clean d (obj_text (map mtext l)) (JObj (map mval l)).
Proof.
  intros Hd Hl. unfold obj_text. split; [done|]. intros x _. rewrite str_app_assoc, str_app_cons, str_app_nil_l, pv_eq, skip_nonws by done.
  cbn [Ascii.eqb Bool.eqb]. destruct (Z.leb_spec d 0); [lia|]. destruct l as [|[[k v] t] l]; [done|]. cbn [map mtext fst snd].
  rewrite !str_app_assoc, quote_cons, closes_other, <- quote_cons by done. by rewrite (read_mtexts (d - 1) k v t l).
Qed.

Lemma rd_struct_text {A} (field : string -> option (rdecoder A)) a d l : d <= max_nesting -> Forall (member_ok (d - 1)) l ->
  rd_struct field a (JObj (map mval l)) (obj_text (map mtext l)) = foldl (raw_step field) (Ok a) l.
Proof.
  intros Hd Hl. destruct l as [|[[k v] t] l]; [done|]. rewrite <- (str_app_nil_r (obj_text _)). unfold obj_text. rewrite str_app_assoc, str_app_cons, str_app_nil_l.
  cbn [rd_struct map mtext mval fst snd]. rewrite closes_same by done. cbn [mbind option_bind]. rewrite !str_app_assoc.
  rewrite (spans_mtexts _ (d - 1) k v t l ""); [done|lia| |done]. cbn [String.length]. rewrite !str_length_app.
  pose proof (more_members_length (map mtext l)) as Hm. rewrite length_map in Hm. lia.
Qed.

Lemma arr_clean d l : 0 < d -> Forall (item_ok (d - 1)) l -> clean d (arr_text (map snd l)) (JArr (map fst l)).
Proof.
  intros Hd Hl. unfold arr_text. split; [done|]. intros x _. rewrite str_app_assoc, str_app_cons, str_app_nil_l, pv_eq, skip_nonws by done.
  cbn [Ascii.eqb Bool.eqb]. destruct (Z.leb_spec d 0); [lia|]. destruct l as [|[v t] l]; [done|]. cbn [map fst snd].
  assert (item_ok (d - 1) (v, t)) as Hv by by inversion_clear Hl. rewrite str_app_assoc, (clean_closes _ _ _ "]" _ Hv) by done.
  by rewrite (read_items_text (d - 1) v t l).
Qed.

Lemma rd_slice_text {A} (zero : A) dec prev d l : d <= max_nesting -> Forall (item_ok (d - 1)) l ->
  rd_slice zero dec prev (JArr (map fst l)) (arr_text (map snd l)) = rd_elems zero dec prev l.
Proof.
  intros Hd Hl. destruct l as [|[v t] l]; [done|]. rewrite <- (str_app_nil_r (arr_text _)). unfold arr_text. rewrite str_app_assoc, str_app_cons, str_app_nil_l.
  cbn [rd_slice map fst snd]. rewrite closes_same by done. cbn [mbind option_bind]. rewrite !str_app_assoc.
  rewrite (elem_spans_text _ (d - 1) v t l ""); [done|lia| |done]. cbn [String.length]. rewrite !str_length_app.
  pose proof (more_items_length (map snd l)) as Hm. rewrite length_map in Hm. lia.
Qed.

Lemma clean_parse d t v : d <= max_nesting -> clean d t v -> parse t = Some v.
Proof.
  intros Hd Hc. apply (clean_deeper _ max_nesting) in Hc as [_ Hc]; [|done]. apply parse_fits. exists "". split; [|done].
  specialize (Hc "" eq_refl). by rewrite str_app_nil_r in Hc.
Qed.

(** A clean text is read whole, and ahead of anything else. *)
Lemma unmarshal_clean {A} (dec : rdecoder A) zero d t v : d <= max_nesting -> clean d t v -> unmarshal_as dec zero t = dec zero v t.
Proof. intros Hd Hc. unfold unmarshal_as. pose proof (clean_spanned d _ t v "" Hd Hc eq_refl) as Hs. rewrite str_app_nil_r in Hs. by rewrite Hs. Qed.

Lemma decode_clean {A} (dec : rdecoder A) zero d t v x : d <= max_nesting -> clean d t v -> starts continues x = false ->
  decode_first dec zero (t +:+ x) = dec zero v t.
Proof. intros Hd Hc Hx. unfold decode_first. by rewrite (clean_spanned d _ t v x Hd Hc Hx). Qed.

(** What is decoded comes from well-formed values. *)
Lemma spanned_good d s v raw r : spanned d s = Some (v, raw, r) -> good d v.
Proof.
  unfold spanned. intros Hs. apply bind_Some in Hs as ([v' r'] & Hv & [= <- <- <-]). by apply (proj1 (pval_good _)) in Hv.
Qed.

Lemma spans_good fuel : forall s l r, spans fuel s = Some (l, r) -> List.Forall (fun m => good (max_nesting - 1) (snd (fst m))) l.
Proof.
  induction fuel as [|fuel IH]; intros s l r; [done|]. cbn [spans]. intros Hs.
  apply bind_Some in Hs as (r1 & _ & Hs). apply bind_Some in Hs as ([k r2] & _ & Hs). apply bind_Some in Hs as (r3 & _ & Hs).
  apply bind_Some in Hs as ([[v raw] r4] & Hv & Hs). apply spanned_good in Hv.
  destruct (closes "," r4) as [r5|]; [apply bind_Some in Hs as ([l' r6] & Hl & [= <- <-]); constructor; [done|by apply (IH r5 _ r6)]|].
  destruct (closes "}" r4) as [r5|]; [|done]. injection Hs as <- <-. by repeat constructor.
Qed.

(** A property of the struct that every field's decoder keeps. *)
Lemma rd_struct_keeps {A} (P : A -> Prop) (field : string -> option (rdecoder A)) a j raw b :
  (forall k f x v t y, field k = Some f -> P x -> good (max_nesting - 1) v -> f x v t = Ok y -> P y) ->
  P a -> rd_struct field a j raw = Ok b -> P b.
Proof.
  intros Hf Ha. destruct j as [| | | | |[|kv kvs]]; try done; try (by intros [= <-]). cbn [rd_struct].
  destruct (r0 ← closes "{" raw; spans _ r0) as [[l r1]|] eqn:Es; [|done]. apply bind_Some in Es as (r0 & _ & Hs). apply spans_good in Hs.
  assert (forall e l, foldl (raw_step field) (Err e) l = Err e) as Herr by (intros e l'; induction l' as [|m l' IH]; [done|apply IH]).
  revert a Ha. induction l as [|m l IH]; intros a Ha; [by intros [= <-]|]. inversion_clear Hs as [|? ? Hm Hl]. cbn [foldl]. unfold raw_step at 2. cbn [rbind].
  destruct (field (fst (fst m))) as [f|] eqn:Ef; [|by apply IH]. destruct (f a _ _) as [a'|e] eqn:Ea; [|by rewrite Herr].
  apply IH; [done|]. by eapply Hf.
Qed.

(** ** Strings that are not UTF-8 *)

(** What is left of a string: each byte that is not part of a UTF-8 sequence is
    replaced by U+FFFD. *)
Fixpoint to_valid (s : string) : string :=
  match s with
  | EmptyString => ""
  | String c r =>
      if code c <? 0x80 then String c (to_valid r)
      else
        match utf8_width c r, r with
        | 2%nat, String c1 r1 => String c (String c1 (to_valid r1))
        | 3%nat, String c1 (String c2 r1) => String c (String c1 (String c2 (to_valid r1)))
        | 4%nat, String c1 (String c2 (String c3 r1)) => String c (String c1 (String c2 (String c3 (to_valid r1))))
        | _, _ => replacement +:+ to_valid r
        end
  end.

Lemma scan_replacement x : scan_str ("\ufffd" +:+ x) = prepend replacement (scan_str x).
Proof. reflexivity. Qed.

Lemma scan_separator c c1 c2 x : (code c =? 0xE2) && (code c1 =? 0x80) && ((code c2 =? 0xA8) || (code c2 =? 0xA9)) = true ->
  scan_str (("\u202" +:+ pad 16 1 (code c2)) +:+ x) = prepend (String c (String c1 (String c2 ""))) (scan_str x).
Proof.
  intros E. apply andb_true_iff in E as [E E3]. apply andb_true_iff in E as [E1%Z.eqb_eq E2%Z.eqb_eq].
  apply code_inj in E1, E2; [|lia..]. subst c c1.
  apply orb_true_iff in E3 as [E3%Z.eqb_eq|E3%Z.eqb_eq]; (apply code_inj in E3; [|lia]); subst c2; reflexivity.
Qed.

(** Any string is read back as [to_valid] of it. *)
Lemma scan_quote s r : scan_str (quote_body s +:+ String "034" r) = Some (to_valid s, r).
Proof.
  remember (String.length s) as n eqn:En. revert s En. induction n as [n IH] using lt_wf_ind. intros s ->.
  destruct s as [|c s]; [done|]. cbn [quote_body to_valid]. destruct (Z.ltb_spec (code c) 0x80) as [Hc|Hc].
  { rewrite str_app_assoc, scan_quote_byte by done. apply (prepend_some (String c "")). eapply IH; [|done]. simpl; lia. }
  assert (scan_str (("\ufffd" +:+ quote_body s) +:+ String "034" r) = Some (replacement +:+ to_valid s, r)) as Hrep.
  { rewrite str_app_assoc, scan_replacement. apply prepend_some. eapply IH; [|done]. simpl; lia. }
  destruct (utf8_width c s) as [|[|[|[|[|k]]]]] eqn:Ew; try exact Hrep.
  - destruct s as [|c1 s]; [exact Hrep|]. rewrite !str_app_cons, scan_2 by (done || by apply (utf8_width_2 c c1 s)).
    apply (prepend_some (String c (String c1 ""))). eapply IH; [|done]. simpl; lia.
  - destruct s as [|c1 [|c2 s]]; try exact Hrep. destruct (_ && _) eqn:Es.
    + rewrite <- str_app_assoc, (str_app_assoc _ (quote_body s)), (scan_separator c c1 c2) by done.
      apply (prepend_some (String c (String c1 (String c2 "")))). eapply IH; [|done]. simpl; lia.
    + rewrite !str_app_cons, scan_3 by (done || by apply (utf8_width_3 c c1 c2 s)).
      apply (prepend_some (String c (String c1 (String c2 "")))). eapply IH; [|done]. simpl; lia.
  - destruct s as [|c1 [|c2 [|c3 s]]]; try exact Hrep. rewrite !str_app_cons, scan_4 by (done || by apply (utf8_width_4 c c1 c2 c3 s)).
    apply (prepend_some (String c (String c1 (String c2 (String c3 ""))))). eapply IH; [|done]. simpl; lia.
Qed.

Lemma to_valid_utf8 s : utf8 (to_valid s).
Proof. pose proof (scan_quote s "") as Hs. by apply scan_str_ok in Hs as [Hs _]. Qed.

Lemma to_valid_id s : utf8 s -> to_valid s = s.
Proof. intros Hs. pose proof (scan_quote s "") as H1. rewrite scan_quote_body in H1 by done. congruence. Qed.

Lemma quote_clean d s : clean d (quote s) (JStr (to_valid s)).
Proof.
  split; [done|]. intros x _. rewrite quote_app, pv_eq, skip_nonws by done. cbn [Ascii.eqb Bool.eqb]. by rewrite scan_quote.
Qed.

Lemma quote_one_line s : all_bytes printable (quote s) = true.
Proof.
  assert (all_bytes printable (quote_body s) = true) as Hb; [|unfold quote; cbn [all_bytes]; by rewrite all_bytes_app, Hb].
  remember (String.length s) as n eqn:En. revert s En. induction n as [n IH] using lt_wf_ind. intros s ->.
  destruct s as [|c s]; [done|]. cbn [quote_body]. destruct (Z.ltb_spec (code c) 0x80) as [Hc|Hc].
  { rewrite all_bytes_app, (IH (String.length s)) by (simpl; lia || done). rewrite andb_true_r.
    destruct c as [[] [] [] [] [] [] [] []]; try (vm_compute in Hc; discriminate Hc); reflexivity. }
  assert (all_bytes printable ("\ufffd" +:+ quote_body s) = true) as Hrep by (rewrite all_bytes_app, (IH (String.length s)) by (simpl; lia || done); done).
  destruct (utf8_width c s) as [|[|[|[|[|k]]]]] eqn:Ew; try exact Hrep.
  - destruct s as [|c1 s]; [exact Hrep|]. destruct (width_2_cont _ _ _ Ew) as [H1 _]. cbn [all_bytes].
    by rewrite (printable_high c), (printable_range 0x80 0xBF c1 ltac:(lia) H1), (IH (String.length s)) by (simpl; lia || done).
  - destruct s as [|c1 [|c2 s]]; try exact Hrep. destruct (width_3_cont _ _ _ _ Ew) as [H1 H2]. destruct (_ && _) eqn:Es.
    + rewrite !all_bytes_app, (IH (String.length s)) by (simpl; lia || done). rewrite andb_true_r.
      apply andb_true_iff in Es as [_ Es]. apply orb_true_iff in Es as [Es%Z.eqb_eq|Es%Z.eqb_eq]; by rewrite Es.
    + cbn [all_bytes]. by rewrite (printable_high c), (printable_range 0x80 0xBF c1 ltac:(lia) H1), (printable_range 0x80 0xBF c2 ltac:(lia) H2), (IH (String.length s)) by (simpl; lia || done).
  - destruct s as [|c1 [|c2 [|c3 s]]]; try exact Hrep. destruct (width_4_cont _ _ _ _ _ Ew) as (H1 & H2 & H3 & _). cbn [all_bytes].
    by rewrite (printable_high c), (printable_range 0x80 0xBF c1 ltac:(lia) H1), (printable_range 0x80 0xBF c2 ltac:(lia) H2), (printable_range 0x80 0xBF c3 ltac:(lia) H3), (IH (String.length s)) by (simpl; lia || done).
Qed.

(** Text of digits and punctuation is ASCII. *)
Lemma utf8_ascii s : all_bytes (fun c => code c <? 0x80) s = true -> utf8 s.
Proof.
  induction s as [|c s IH]; [constructor|]. cbn [all_bytes]. intros Hs. apply andb_true_iff in Hs as [Hc%Z.ltb_lt Hs]. constructor; auto.
Qed.

Lemma fits_deeper d d' s v : d <= d' -> fits d s v -> fits d' s v.
Proof. intros Hd (r & Hv & Hr). exists r. split; [|done]. by apply (proj1 (pval_deeper _) d). Qed.
