(* ===== verification/Action.v ===== *)
(** Action definitions: internal/workflow/action.go.

    The authored unit, its decoding from JSON (strict for what a client sends,
    lenient for what the store holds) and its accessors.  Durations follow
    time.ParseDuration. *)
From S2P Require Import Prelude GoTime Float64 Json.

(** ** time.ParseDuration *)

(** [unitMap]. *)
Definition duration_unit (u : string) : option Z :=
  if String.eqb u "ns" then Some 1
  else if String.eqb u "us" || String.eqb u "µs" || String.eqb u "μs" then Some 1000
  else if String.eqb u "ms" then Some Millisecond
  else if String.eqb u "s" then Some Second
  else if String.eqb u "m" then Some Minute
  else if String.eqb u "h" then Some Hour
  else None.

(** leadingInt: [None] on overflow past 2^63. *)
Fixpoint leading_int (x : Z) (s : string) : option (Z * string) :=
  match s with
  | String c r =>
      if is_digit c then
        if 2 ^ 63 / 10 <? x then None
        else let x := x * 10 + digit_val c in
             if 2 ^ 63 <? x then None else leading_int x r
      else Some (x, s)
  | EmptyString => Some (x, s)
  end.

(** leadingFraction: digits past an overflow are read and ignored. *)
Fixpoint leading_fraction (over : bool) (x scale : Z) (s : string) : Z * Z * string :=
  match s with
  | String c r =>
      if is_digit c then
        if over || ((2 ^ 63 - 1) / 10 <? x) then leading_fraction true x scale r
        else let y := x * 10 + digit_val c in
             if 2 ^ 63 <? y then leading_fraction true x scale r
             else leading_fraction false y (scale * 10) r
      else (x, scale, s)
  | EmptyString => (x, scale, s)
  end.

(** The unit: everything up to a point or a digit. *)
Fixpoint span_unit (s : string) : string * string :=
  match s with
  | String c r =>
      if Ascii.eqb c "." || is_digit c then ("", s)
      else let '(u, r') := span_unit r in (String c u, r')
  | EmptyString => ("", s)
  end.

Fixpoint duration_loop (fuel : nat) (d : Z) (s : string) : option Z :=
  match fuel, s with
  | _, EmptyString => Some d
  | O, _ => None
  | S fuel, String c _ =>
      if negb (Ascii.eqb c "." || is_digit c) then None
      else
        '(v, s1) ← leading_int 0 s;
        let pre := negb (String.length s1 =? String.length s)%nat in
        let '(f, scale, s2, post) :=
          match s1 with
          | String "." r =>
              let '(f, scale, s2) := leading_fraction false 0 1 r in
              (f, scale, s2, negb (String.length s2 =? String.length r)%nat)
          | _ => (0, 1, s1, false)
          end in
        if negb pre && negb post then None
        else
          let '(u, s3) := span_unit s2 in
          if String.eqb u "" then None
          else
            unit ← duration_unit u;
            if 2 ^ 63 / unit <? v then None
            else
              let v := v * unit in
              let v := if 0 <? f
                       then v + f_trunc (f_mul (f_of_Z f) (f_div (f_of_Z unit) (f_of_Z scale)))
                       else v in
              if 2 ^ 63 <? v then None
              else if 2 ^ 63 <? d + v then None
              else duration_loop fuel (d + v) s3
  end.

Definition ParseDuration (s : string) : option Z :=
  let '(neg, s) :=
    match s with
    | String "-" r => (true, r)
    | String "+" r => (false, r)
    | _ => (false, s)
    end in
  if String.eqb s "0" then Some 0
  else if String.eqb s "" then None
  else
    d ← duration_loop (String.length s) 0 s;
    if neg then Some (- d) else if 2 ^ 63 - 1 <? d then None else Some d.

Example ParseDuration_examples :
  ParseDuration "300s" = Some (300 * Second) /\ ParseDuration "24h" = Some (24 * Hour) /\
  ParseDuration "1h15m30.918s" = Some (4530918 * Millisecond) /\ ParseDuration "-1.5h" = Some (-90 * Minute) /\
  ParseDuration "3" = None /\ ParseDuration "" = None /\ ParseDuration "1x" = None /\
  ParseDuration "9223372036854775808ns" = None.
Proof. vm_compute. repeat split; reflexivity. Qed.

(** ** Definitions *)

Record Input := mkInput {
  in_queue : string;
  in_filter : string;
  in_correlate_on : string
}.

(** [act_instructions] is the json.RawMessage of the instructions block: [None]
    when it has length 0, otherwise the value it spells. *)
Record Action := mkAction {
  act_name : string;
  act_inputs : list Input;
  act_actor : string;
  act_instructions : option json;
  act_output : string;
  act_concurrency : option Z;
  act_max_attempts : option Z;
  act_join_timeout : option Z
}.

Record SubprocessInstructions := mkSubprocess {
  si_command : list string;
  si_timeout : option Z
}.

Definition ActorSubprocess : string := "subprocess".
Definition DefaultConcurrency : Z := 1.
Definition DefaultJoinTimeout : Z := 24 * Hour.

Definition zero_Input : Input := mkInput "" "" "".
Definition zero_Action : Action := mkAction "" [] "" None "" None None None.
Definition zero_Subprocess : SubprocessInstructions := mkSubprocess [] None.

(** The first input decides. *)
Definition IsJoin (a : Action) : bool :=
  match act_inputs a with
  | i :: _ => negb (String.eqb (in_correlate_on i) "")
  | [] => false
  end.

Definition Queues (a : Action) : list string := in_queue <$> act_inputs a.

Definition ConcurrencyOrDefault (a : Action) : Z := default DefaultConcurrency (act_concurrency a).
Definition JoinTimeoutOrDefault (a : Action) : Z := default DefaultJoinTimeout (act_join_timeout a).

(** Duration.UnmarshalJSON: a duration string. *)
Definition Duration_UnmarshalJSON : decoder Z := fun _ j =>
  match j with
  | JStr s => match ParseDuration s with Some d => Ok d | None => Err (errorf ("invalid duration " +:+ s)) end
  | JNull => match ParseDuration "" with Some d => Ok d | None => Err (errorf "invalid duration ") end
  | _ => Err (errorf "duration must be a string")
  end.

(** ** Decoding *)

(** A field of a struct: [set] stores what [d] decodes over [get]. *)
Definition fld {A B} (d : decoder B) (get : A -> B) (set : B -> A -> A) : decoder A :=
  fun a j => b <-! d (get a) j ;; Ok (set b a).

Definition Input_field (key : string) : option (decoder Input) :=
  if field_is "queue" key then Some (fld dec_string in_queue (fun x i => mkInput x (in_filter i) (in_correlate_on i)))
  else if field_is "filter" key then Some (fld dec_string in_filter (fun x i => mkInput (in_queue i) x (in_correlate_on i)))
  else if field_is "correlate_on" key then
    Some (fld dec_string in_correlate_on (fun x i => mkInput (in_queue i) (in_filter i) x))
  else None.

Definition Action_field (strict : bool) (key : string) : option (decoder Action) :=
  if field_is "name" key then
    Some (fld dec_string act_name (fun x '(mkAction _ i c n o p m j) => mkAction x i c n o p m j))
  else if field_is "inputs" key then
    Some (fld (dec_slice zero_Input (dec_struct strict Input_field)) act_inputs
      (fun x '(mkAction a _ c n o p m j) => mkAction a x c n o p m j))
  else if field_is "actor" key then
    Some (fld dec_string act_actor (fun x '(mkAction a i _ n o p m j) => mkAction a i x n o p m j))
  else if field_is "instructions" key then
    Some (fld dec_raw act_instructions (fun x '(mkAction a i c _ o p m j) => mkAction a i c x o p m j))
  else if field_is "output" key then
    Some (fld dec_string act_output (fun x '(mkAction a i c n _ p m j) => mkAction a i c n x p m j))
  else if field_is "concurrency" key then
    Some (fld (dec_ptr 0 dec_int) act_concurrency (fun x '(mkAction a i c n o _ m j) => mkAction a i c n o x m j))
  else if field_is "max_attempts" key then
    Some (fld (dec_ptr 0 dec_int) act_max_attempts (fun x '(mkAction a i c n o p _ j) => mkAction a i c n o p x j))
  else if field_is "join_timeout" key then
    Some (fld (dec_ptr 0 Duration_UnmarshalJSON) act_join_timeout
      (fun x '(mkAction a i c n o p m _) => mkAction a i c n o p m x))
  else None.

Definition Subprocess_field (key : string) : option (decoder SubprocessInstructions) :=
  if field_is "command" key then
    Some (fld (dec_slice "" dec_string) si_command (fun x s => mkSubprocess x (si_timeout s)))
  else if field_is "timeout" key then
    Some (fld (dec_ptr 0 Duration_UnmarshalJSON) si_timeout (fun x s => mkSubprocess (si_command s) x))
  else None.

Definition dec_Action (strict : bool) : decoder Action := dec_struct strict (Action_field strict).

(** json.Unmarshal of a stored definition. *)
Definition unmarshal_Action (s : string) : result Action := unmarshal (dec_Action false) zero_Action s.

(** [dec.More()] after the first value: a following byte other than a closing
    bracket or brace. *)
Definition more_after (rest : string) : bool :=
  match skip_ws rest with
  | EmptyString => false
  | String c _ => negb (Ascii.eqb c "]" || Ascii.eqb c "}")
  end.

Definition strictUnmarshal {A} (d : decoder A) (zero : A) (s : string) : result A :=
  match parse_first s with
  | None => Err json_error
  | Some (j, rest) =>
      a <-! d zero j ;;
      if more_after rest then Err (errorf "unexpected trailing content after definition") else Ok a
  end.

(** A RawMessage field is one value, so nothing follows it. *)
Definition decodeSubprocess (raw : option json) : result SubprocessInstructions :=
  match raw with
  | None => Err json_error
  | Some j => dec_struct true Subprocess_field zero_Subprocess j
  end.

Definition Subprocess (a : Action) : result SubprocessInstructions :=
  if String.eqb (act_actor a) ActorSubprocess then decodeSubprocess (act_instructions a)
  else Err (errorf ("action " +:+ act_name a +:+ ": actor is not subprocess")).

Definition sample_def : string :=
  "{" +:+ dq "name" +:+ ":" +:+ dq "sum" +:+ "," +:+
  dq "inputs" +:+ ":[{" +:+ dq "queue" +:+ ":" +:+ dq "raw" +:+ "," +:+ dq "filter" +:+ ":" +:+ dq "payload.n > 0" +:+ "}]," +:+
  dq "actor" +:+ ":" +:+ dq "subprocess" +:+ "," +:+
  dq "instructions" +:+ ":{" +:+ dq "command" +:+ ":[" +:+ dq "./run.sh" +:+ "]," +:+ dq "timeout" +:+ ":" +:+ dq "30s" +:+ "}," +:+
  dq "output" +:+ ":" +:+ dq "out" +:+ "," +:+ dq "concurrency" +:+ ":2," +:+ dq "max_attempts" +:+ ":3}".

Definition sample_action : Action :=
  mkAction "sum" [mkInput "raw" "payload.n > 0" ""] "subprocess"
    (Some (JObj [("command", JArr [JStr "./run.sh"]); ("timeout", JStr "30s")])) "out" (Some 2) (Some 3) None.

Example decode_sample :
  unmarshal_Action sample_def = Ok sample_action /\
  strictUnmarshal (dec_Action true) zero_Action sample_def = Ok sample_action /\
  Subprocess sample_action = Ok (mkSubprocess ["./run.sh"] (Some (30 * Second))) /\
  is_ok (strictUnmarshal (dec_Action true) zero_Action ("{" +:+ dq "nmae" +:+ ":1}")) = false /\
  is_ok (unmarshal_Action ("{" +:+ dq "nmae" +:+ ":1}")) = true.
Proof. vm_compute. repeat split; reflexivity. Qed.
