(* ===== verification/DurationText.v ===== *)
(** Durations as text: time.Duration.String, and that time.ParseDuration reads
    it back. *)
From S2P Require Import Prelude GoTime Float64 Json JsonText Action.

(** ** time.Duration.String *)

(** fmtFrac: the last [w] digits of [n] after a point, without trailing zeros. *)
Definition frac (w : nat) (n : Z) : string :=
  let s := strip_zeros w n in if String.eqb s "" then "" else "." +:+ s.

Definition Duration_String (d : Z) : string :=
  let u := Z.abs d in
  let body :=
    if u =? 0 then "0s"
    else if u <? 1000 then dec u +:+ "ns"
    else if u <? Millisecond then dec (u / 1000) +:+ frac 3 u +:+ "µs"
    else if u <? Second then dec (u / Millisecond) +:+ frac 6 u +:+ "ms"
    else
      let s := u / Second in
      let h := s / 3600 in
      let m := s / 60 in
      (if 0 <? h then dec h +:+ "h" else "") +:+
      (if 0 <? m then dec (m mod 60) +:+ "m" else "") +:+
      dec (s mod 60) +:+ frac 9 u +:+ "s" in
  if d <? 0 then "-" +:+ body else body.

Example Duration_examples :
  Duration_String (30 * Second) = "30s" /\ Duration_String (24 * Hour) = "24h0m0s" /\
  Duration_String (1500 * Millisecond) = "1.5s" /\ Duration_String (90 * Minute + 1) = "1h30m0.000000001s" /\
  Duration_String 1500 = "1.5µs" /\ Duration_String 0 = "0s" /\ Duration_String (-(2 ^ 63)) = "-2562047h47m16.854775808s".
Proof. vm_compute. repeat split; reflexivity. Qed.

(** ** Exact arithmetic *)

Lemma round_q_int num den q : 0 < den -> 0 <= q < 2 ^ 53 -> num = q * den ->
  f_num (round_q num den) = q * f_den (round_q num den).
Proof.
  intros Hd Hq ->. unfold round_q. destruct (Z.eqb_spec (q * den) 0) as [Hz|Hz]; [assert (q = 0) as -> by nia; done|]. cbn zeta.
  assert (0 < q) by nia. assert (q_exp (q * den) den <= 0) as He.
  { unfold q_exp. cbn zeta. assert (Z.log2 q < 53) by (apply Z.log2_lt_pow2; lia).
    pose proof (Z.log2_mul_above q den ltac:(lia) ltac:(lia)) as Hl. unfold emin.
    destruct (Z.ltb_spec (q * den * 2 ^ Z.max 0 (- (Z.log2 (q * den) - Z.log2 den - 52))) (2 ^ 52 * (den * 2 ^ Z.max 0 (Z.log2 (q * den) - Z.log2 den - 52)))) as [|Hge]; [lia|].
    destruct (Z.le_gt_cases (Z.log2 (q * den) - Z.log2 den - 52) 0); [lia|]. exfalso.
    replace (Z.log2 (q * den) - Z.log2 den - 52) with 1 in Hge by lia. change (2 ^ Z.max 0 (- (1))) with 1 in Hge. change (2 ^ Z.max 0 1) with 2 in Hge. nia. }
  set (e := q_exp (q * den) den) in *. rewrite (Z.max_l 0 e), Z.pow_0_r, Z.mul_1_r by lia.
  replace (q * den * 2 ^ Z.max 0 (- e)) with (q * 2 ^ Z.max 0 (- e) * den) by ring. rewrite Z.div_mul, Z.mod_mul by lia.
  destruct (Z.ltb_spec den (2 * 0)); [lia|]. destruct (Z.eqb_spec den (2 * 0)); [lia|]. cbn [orb andb].
  unfold f_num, f_den; cbn [fm fe]. rewrite (Z.max_l 0 e), Z.pow_0_r by lia. lia.
Qed.

(** The scaled fraction of a duration is computed exactly. *)
Lemma fraction_exact f k j : 0 <= f < 10 ^ Z.of_nat j -> (j + k <= 9)%nat ->
  f_trunc (f_mul (f_of_Z f) (f_div (f_of_Z (10 ^ Z.of_nat (j + k))) (f_of_Z (10 ^ Z.of_nat j)))) = f * 10 ^ Z.of_nat k.
Proof.
  intros Hf Hjk. assert (forall i, (i <= 9)%nat -> 0 < 10 ^ Z.of_nat i < 2 ^ 53) as Hp.
  { intros i Hi. split; [apply Z.pow_pos_nonneg; lia|]. apply (Z.le_lt_trans _ (10 ^ 9)); [apply Z.pow_le_mono_r; lia|lia]. }
  pose proof (Hp (j + k)%nat ltac:(lia)) as Hjk'. pose proof (Hp j ltac:(lia)) as Hj. pose proof (Hp k ltac:(lia)) as Hk.
  assert (10 ^ Z.of_nat (j + k) = 10 ^ Z.of_nat k * 10 ^ Z.of_nat j) as Hm by (rewrite <- Z.pow_add_r by lia; f_equal; lia).
  assert (f * 10 ^ Z.of_nat k < 2 ^ 53) by nia.
  set (d := f_div _ _). assert (f_num d = 10 ^ Z.of_nat k * f_den d) as Hd.
  { unfold d, f_div. apply round_q_int; [|lia|].
    - rewrite (f_of_Z_exact (10 ^ Z.of_nat j)) by lia. pose proof (f_den_pos (f_of_Z (10 ^ Z.of_nat (j + k)))). pose proof (f_den_pos (f_of_Z (10 ^ Z.of_nat j))). nia.
    - rewrite (f_of_Z_exact (10 ^ Z.of_nat j)), (f_of_Z_exact (10 ^ Z.of_nat (j + k))), Hm by lia. ring. }
  clearbody d. unfold f_trunc, f_mul. rewrite (round_q_int _ _ (f * 10 ^ Z.of_nat k)).
  - apply Z.div_mul. match goal with |- f_den ?x <> 0 => pose proof (f_den_pos x); lia end.
  - pose proof (f_den_pos (f_of_Z f)). pose proof (f_den_pos d). nia.
  - nia.
  - rewrite (f_of_Z_exact f), Hd by (nia || lia). ring.
Qed.

Lemma leading_int_pad w : forall x n r, 0 <= x -> 0 <= n < 10 ^ Z.of_nat w -> x * 10 ^ Z.of_nat w + n <= 2 ^ 63 -> starts is_digit r = false ->
  leading_int x (pad 10 w n +:+ r) = Some (x * 10 ^ Z.of_nat w + n, r).
Proof.
  induction w as [|w IH]; intros x n r Hx Hn Hle Hr.
  - change (pad 10 0 n +:+ r) with r. change (10 ^ Z.of_nat 0) with 1 in *. replace (x * 1 + n) with x by lia.
    destruct r as [|c r]; [done|]. simpl in Hr |- *. by rewrite Hr.
  - rewrite pad_cons, str_app_cons by lia. rewrite Nat2Z.inj_succ, Z.pow_succ_r in * by lia. assert (0 < 10 ^ Z.of_nat w) by (apply Z.pow_pos_nonneg; lia).
    assert (0 <= n / 10 ^ Z.of_nat w < 10) by (split; [apply Z.div_pos; lia|apply Z.div_lt_upper_bound; lia]).
    rewrite (Z.mod_small (n / _)) by lia. destruct (digit_10 (n / 10 ^ Z.of_nat w)) as [Hd Hv]; [done|]. cbn [leading_int]. rewrite Hd, Hv.
    pose proof (Z.div_mod n (10 ^ Z.of_nat w) ltac:(lia)). pose proof (Z.mod_pos_bound n (10 ^ Z.of_nat w) ltac:(lia)).
    assert (x <= 2 ^ 63 / 10) by (apply Z.div_le_lower_bound; nia).
    destruct (Z.ltb_spec (2 ^ 63 / 10) x); [lia|]. destruct (Z.ltb_spec (2 ^ 63) (x * 10 + n / 10 ^ Z.of_nat w)); [nia|].
    rewrite <- (pad_mod 10 w n), IH by (try done; nia). f_equal. f_equal. nia.
Qed.

Lemma leading_fraction_pad w : forall x sc n r, 0 <= x < 10 ^ 9 -> 0 <= n < 10 ^ Z.of_nat w -> x * 10 ^ Z.of_nat w + n < 10 ^ 9 -> starts is_digit r = false ->
  leading_fraction false x sc (pad 10 w n +:+ r) = (x * 10 ^ Z.of_nat w + n, sc * 10 ^ Z.of_nat w, r).
Proof.
  induction w as [|w IH]; intros x sc n r Hx Hn Hle Hr.
  - change (pad 10 0 n +:+ r) with r. change (10 ^ Z.of_nat 0) with 1 in *. replace (x * 1 + n) with x by lia. rewrite Z.mul_1_r.
    destruct r as [|c r]; [done|]. simpl in Hr |- *. by rewrite Hr.
  - rewrite pad_cons, str_app_cons by lia. rewrite Nat2Z.inj_succ, Z.pow_succ_r in * by lia. assert (0 < 10 ^ Z.of_nat w) by (apply Z.pow_pos_nonneg; lia).
    assert (0 <= n / 10 ^ Z.of_nat w < 10) by (split; [apply Z.div_pos; lia|apply Z.div_lt_upper_bound; lia]).
    rewrite (Z.mod_small (n / _)) by lia. destruct (digit_10 (n / 10 ^ Z.of_nat w)) as [Hd Hv]; [done|]. cbn [leading_fraction]. rewrite Hd, Hv.
    pose proof (Z.div_mod n (10 ^ Z.of_nat w) ltac:(lia)). pose proof (Z.mod_pos_bound n (10 ^ Z.of_nat w) ltac:(lia)).
    change ((2 ^ 63 - 1) / 10) with 922337203685477580. cbn [orb]. destruct (Z.ltb_spec 922337203685477580 x); [lia|].
    destruct (Z.ltb_spec (2 ^ 63) (x * 10 + n / 10 ^ Z.of_nat w)); [nia|].
    rewrite <- (pad_mod 10 w n), IH by (try done; nia). f_equal. f_equal; nia.
Qed.

Lemma strip_zeros_spec w n : 0 <= n -> exists k, (k <= w)%nat /\ strip_zeros w n = pad 10 (w - k) (n / 10 ^ Z.of_nat k) /\
  n mod 10 ^ Z.of_nat w = (n / 10 ^ Z.of_nat k) mod 10 ^ Z.of_nat (w - k) * 10 ^ Z.of_nat k.
Proof.
  revert n; induction w as [|w IH]; intros n Hn; [exists 0%nat; split_and!; [lia|done|]; change (10 ^ Z.of_nat 0) with 1; by rewrite !Z.mod_1_r|].
  cbn [strip_zeros]. destruct (Z.eqb_spec (n mod 10) 0) as [Hz|Hz].
  - destruct (IH (n / 10)) as (k & Hk & Hs & Hm); [by apply Z.div_pos|]. exists (S k). split; [lia|]. replace (S w - S k)%nat with (w - k)%nat by lia.
    rewrite Nat2Z.inj_succ, Z.pow_succ_r by lia. assert (0 < 10 ^ Z.of_nat k) by (apply Z.pow_pos_nonneg; lia). assert (0 < 10 ^ Z.of_nat w) by (apply Z.pow_pos_nonneg; lia).
    rewrite <- Z.div_div by lia. split; [done|]. rewrite Nat2Z.inj_succ, Z.pow_succ_r by lia. rewrite Z.rem_mul_r, Hz, Hm by lia. ring.
  - exists 0%nat. split; [lia|]. rewrite Nat.sub_0_r. change (10 ^ Z.of_nat 0) with 1. by rewrite Z.div_1_r, Z.mul_1_r.
Qed.

(** ** Components *)

(** The units, with the number of digits their fraction may have. *)
Definition units : list (string * Z * nat) :=
  [("ns", 1, 0%nat); ("µs", 1000, 3%nat); ("ms", Millisecond, 6%nat); ("s", Second, 9%nat); ("m", Minute, 0%nat); ("h", Hour, 0%nat)].

Definition numeric (c : ascii) : bool := Ascii.eqb c "." || is_digit c.

Lemma span_unit_stop rest u :
  (forall c, List.In c (list_ascii_of_string u) -> numeric c = false) -> (rest = "" \/ starts numeric rest = true) ->
  span_unit (u +:+ rest) = (u, rest).
Proof.
  intros Hu Hr. induction u as [|c u IH].
  - rewrite str_app_nil_l. destruct rest as [|c r]; [done|]. destruct Hr as [|Hr]; [done|]. simpl in *. unfold numeric in Hr. by rewrite Hr.
  - rewrite str_app_cons. cbn [span_unit]. fold (numeric c). rewrite (Hu c) by (by left). rewrite IH; [done|]. intros x Hx. apply Hu. by right.
Qed.

Lemma fraction_part w n u rest unit v :
  List.In (u, unit, w) units -> 0 <= n -> 0 <= v ->
  let s1 := frac w n +:+ u +:+ rest in
  let '(f, scale, s2, post) :=
    match s1 with
    | String "." r =>
        let '(f, scale, s2) := leading_fraction false 0 1 r in
        (f, scale, s2, negb (String.length s2 =? String.length r)%nat)
    | _ => (0, 1, s1, false)
    end in
  s2 = u +:+ rest /\
  (if 0 <? f then v + f_trunc (f_mul (f_of_Z f) (f_div (f_of_Z unit) (f_of_Z scale))) else v) = v + n mod 10 ^ Z.of_nat w.
Proof.
  intros Hu Hn Hv. cbn zeta. unfold frac. destruct (strip_zeros_spec w n Hn) as (k & Hk & Hs & Hm). rewrite Hs.
  set (j := (w - k)%nat) in *. set (m := n / 10 ^ Z.of_nat k) in *.
  assert (0 < 10 ^ Z.of_nat j) by (apply Z.pow_pos_nonneg; lia). pose proof (Z.mod_pos_bound m (10 ^ Z.of_nat j) ltac:(lia)) as Hb.
  destruct (String.eqb_spec (pad 10 j m) "") as [He|Hne].
  - assert (j = 0%nat) as Hj by (rewrite <- (pad_length 10 j m), He; done). rewrite Hj in Hm. change (10 ^ Z.of_nat 0) with 1 in Hm. rewrite Z.mod_1_r in Hm.
    rewrite str_app_nil_l. unfold units in Hu. repeat destruct Hu as [Hu|Hu]; try (by destruct Hu); injection Hu as <- <- <-;
      rewrite !str_app_cons, str_app_nil_l; (split; [done|]); cbn [Z.ltb Z.compare]; lia.
  - rewrite str_app_assoc. change (("." +:+ pad 10 j m +:+ u +:+ rest)) with (String "." (pad 10 j m +:+ u +:+ rest)). cbv iota.
    rewrite <- (pad_mod 10 j m) by lia.
    assert (starts is_digit (u +:+ rest) = false /\ (w <= 9)%nat /\ (w = 0%nat \/ unit = 10 ^ Z.of_nat w)) as (Hst & Hw & Hunit).
    { unfold units in Hu. repeat destruct Hu as [Hu|Hu]; try (by destruct Hu); injection Hu as <- <- <-; (split; [done|]); (split; [lia|]); auto. }
    assert (10 ^ Z.of_nat j <= 10 ^ 9) by (apply Z.pow_le_mono_r; lia).
    rewrite leading_fraction_pad by (try done; lia). split; [done|]. rewrite Z.mul_0_l, Z.add_0_l, Z.mul_1_l.
    destruct (Z.ltb_spec 0 (m mod 10 ^ Z.of_nat j)) as [Hpos|Hz]; [|rewrite Hm; assert (m mod 10 ^ Z.of_nat j = 0) as -> by lia; lia].
    destruct Hunit as [Hw0|Hunit]; [unfold j in Hne; rewrite Hw0 in Hne; done|].
    replace w with (j + k)%nat in Hunit by (unfold j; lia). rewrite Hunit, fraction_exact by lia. by rewrite Hm.
Qed.

(** One component of a duration. *)
Lemma duration_step fuel d v w n u unit rest :
  List.In (u, unit, w) units -> 0 <= n -> 0 <= v -> 0 <= d -> d + (v * unit + n mod 10 ^ Z.of_nat w) <= 2 ^ 63 ->
  rest = "" \/ starts numeric rest = true ->
  duration_loop (S fuel) d (dec v +:+ frac w n +:+ u +:+ rest) = duration_loop fuel (d + (v * unit + n mod 10 ^ Z.of_nat w)) rest.
Proof.
  intros Hu Hn Hv Hd Hle Hrest.
  assert (0 < 10 ^ Z.of_nat w) by (apply Z.pow_pos_nonneg; lia). pose proof (Z.mod_pos_bound n (10 ^ Z.of_nat w) ltac:(lia)) as Hf.
  assert (duration_unit u = Some unit /\ 1 <= unit /\ u <> "" /\ span_unit (u +:+ rest) = (u, rest) /\ starts is_digit (frac w n +:+ u +:+ rest) = false) as (Hunit & Hpos & Hne & Hspan & Hstart).
  { assert (starts is_digit (frac w n +:+ u +:+ rest) = false) as Hst.
    { unfold frac. destruct (String.eqb _ ""); [|done]. rewrite str_app_nil_l.
      unfold units in Hu. repeat destruct Hu as [Hu|Hu]; try (by destruct Hu); by injection Hu as <- <- <-. }
    assert (span_unit (u +:+ rest) = (u, rest)) as Hsp.
    { apply span_unit_stop; [|done].
      unfold units in Hu. repeat destruct Hu as [Hu|Hu]; try (by destruct Hu); injection Hu as <- <- <-; intros c Hc; simpl in Hc;
        repeat destruct Hc as [Hc|Hc]; try (by destruct Hc); by subst c. }
    unfold units in Hu. repeat destruct Hu as [Hu|Hu]; try (by destruct Hu); injection Hu as <- <- <-; split_and!; try done; vm_compute; done. }
  pose proof (fraction_part w n u rest unit (v * unit) Hu Hn ltac:(nia)) as Hfrac. cbn zeta in Hfrac.
  assert (exists c t, dec v = String c t /\ is_digit c = true) as (c & t & Hc & Hdig) by (destruct (dec_digit_first v Hv) as (c & t & ? & ?); eauto).
  assert (leading_int 0 (dec v +:+ frac w n +:+ u +:+ rest) = Some (v, frac w n +:+ u +:+ rest)) as Hlead.
  { unfold dec. destruct (Z.ltb_spec v 0); [lia|]. rewrite leading_int_pad; [f_equal; f_equal; lia|lia| |nia|done]. split; [done|by apply dec_digits_enough]. }
  set (s := dec v +:+ frac w n +:+ u +:+ rest) in *. set (s1 := frac w n +:+ u +:+ rest) in *.
  assert (s = String c (t +:+ s1)) as Hs by (unfold s; by rewrite Hc).
  assert (negb (String.length s1 =? String.length s)%nat = true) as Hpre.
  { rewrite Hs. cbn [String.length]. rewrite str_length_app. apply negb_true_iff, Nat.eqb_neq. lia. }
  rewrite Hs. cbn [duration_loop]. rewrite <- Hs, Hdig, orb_true_r. cbn [negb]. rewrite Hlead. cbn [mbind option_bind]. rewrite Hpre.
  set (q := match s1 with
    | String "." r => let '(f, scale, s2) := leading_fraction false 0 1 r in (f, scale, s2, negb (String.length s2 =? String.length r)%nat)
    | _ => (0, 1, s1, false)
    end) in *.
  clearbody q. destruct q as [[[f scale] s2] post].
  destruct Hfrac as [-> Hval]. cbn [negb andb]. rewrite Hspan. destruct (String.eqb_spec u "") as [|_]; [done|]. rewrite Hunit. cbn [mbind option_bind].
  assert (v <= 2 ^ 63 / unit) by (apply Z.div_le_lower_bound; nia).
  destruct (Z.ltb_spec (2 ^ 63 / unit) v); [lia|]. rewrite Hval.
  destruct (Z.ltb_spec (2 ^ 63) (v * unit + n mod 10 ^ Z.of_nat w)); [lia|].
  by destruct (Z.ltb_spec (2 ^ 63) (d + (v * unit + n mod 10 ^ Z.of_nat w))); [lia|].
Qed.

Definition duration_body (u : Z) : string :=
  if u =? 0 then "0s"
  else if u <? 1000 then dec u +:+ "ns"
  else if u <? Millisecond then dec (u / 1000) +:+ frac 3 u +:+ "µs"
  else if u <? Second then dec (u / Millisecond) +:+ frac 6 u +:+ "ms"
  else
    let s := u / Second in
    (if 0 <? s / 3600 then dec (s / 3600) +:+ "h" else "") +:+
    (if 0 <? s / 60 then dec (s / 60 mod 60) +:+ "m" else "") +:+
    dec (s mod 60) +:+ frac 9 u +:+ "s".

Lemma loop_done fuel d : duration_loop fuel d "" = Some d.
Proof. by destruct fuel. Qed.

(** The last component. *)
Lemma duration_last fuel d v w n u unit :
  List.In (u, unit, w) units -> 0 <= n -> 0 <= v -> 0 <= d -> d + (v * unit + n mod 10 ^ Z.of_nat w) <= 2 ^ 63 -> (1 <= fuel)%nat ->
  duration_loop fuel d (dec v +:+ frac w n +:+ u) = Some (d + (v * unit + n mod 10 ^ Z.of_nat w)).
Proof.
  intros Hu Hn Hv Hd Hle Hf. destruct fuel as [|fuel]; [lia|]. pose proof (duration_step fuel d v w n u unit "" Hu Hn Hv Hd Hle (or_introl eq_refl)) as Hs.
  by rewrite str_app_nil_r, loop_done in Hs.
Qed.

(** A component without a fraction, before others. *)
Lemma duration_whole fuel d v u unit rest :
  List.In (u, unit, 0%nat) units -> 0 <= v -> 0 <= d -> d + v * unit <= 2 ^ 63 -> starts numeric rest = true -> (1 <= fuel)%nat ->
  duration_loop fuel d ((dec v +:+ u) +:+ rest) = duration_loop (fuel - 1) (d + v * unit) rest.
Proof.
  intros Hu Hv Hd Hle Hr Hf. destruct fuel as [|fuel]; [lia|]. replace (S fuel - 1)%nat with fuel by lia.
  pose proof (duration_step fuel d v 0 0 u unit rest Hu) as Hs. change (frac 0 0) with "" in Hs. change (10 ^ Z.of_nat 0) with 1 in Hs.
  rewrite Z.mod_1_r, Z.add_0_r, str_app_nil_l in Hs. rewrite str_app_assoc. by apply Hs; auto.
Qed.

Lemma dec_numeric v r : 0 <= v -> starts numeric (dec v +:+ r) = true.
Proof. intros Hv. destruct (dec_digit_first v Hv) as (c & t & -> & Hd). rewrite str_app_cons. simpl. unfold numeric. by rewrite Hd, orb_true_r. Qed.

Lemma dec_length v : 0 <= v -> (1 <= String.length (dec v))%nat.
Proof. intros Hv. destruct (dec_digit_first v Hv) as (c & t & -> & _). simpl. lia. Qed.

Lemma duration_seconds u : Second <= u <= 2 ^ 63 -> duration_loop (String.length (duration_body u)) 0 (duration_body u) = Some u.
Proof.
  intros Hu. unfold duration_body. assert (Second = 1000000000) as HS by done. assert (Millisecond = 1000000) as HM by done.
  destruct (Z.eqb_spec u 0); [lia|]. destruct (Z.ltb_spec u 1000); [lia|]. destruct (Z.ltb_spec u Millisecond); [lia|]. destruct (Z.ltb_spec u Second); [lia|].
  cbn zeta. set (s := u / Second). set (last := dec (s mod 60) +:+ frac 9 u +:+ "s").
  pose proof (Z.div_mod u Second ltac:(lia)) as Du. pose proof (Z.mod_pos_bound u Second ltac:(lia)) as Bu. fold s in Du.
  pose proof (Z.div_mod s 60 ltac:(lia)) as Ds. pose proof (Z.mod_pos_bound s 60 ltac:(lia)) as Bs.
  pose proof (Z.div_mod (s / 60) 60 ltac:(lia)) as Dm. pose proof (Z.mod_pos_bound (s / 60) 60 ltac:(lia)) as Bm.
  rewrite Z.div_div in Dm by lia. change (60 * 60) with 3600 in Dm.
  assert (0 <= s / 3600) by (apply Z.div_pos; [unfold s; apply Z.div_pos; lia|lia]). assert (0 <= s / 60) by (apply Z.div_pos; [unfold s; apply Z.div_pos; lia|lia]).
  assert (forall fuel d, 0 <= d -> d + (s mod 60 * Second + u mod Second) <= 2 ^ 63 -> (1 <= fuel)%nat ->
    duration_loop fuel d last = Some (d + (s mod 60 * Second + u mod Second))) as Hlast.
  { intros fuel d Hd Hle Hf. apply (duration_last fuel d (s mod 60) 9 u "s" Second); [unfold units; simpl; tauto|lia|lia|done|exact Hle|done]. }
  assert (starts numeric last = true) as Hnum by (apply dec_numeric; lia).
  assert ((2 <= String.length last)%nat) as Hlen.
  { unfold last. rewrite !str_length_app. pose proof (dec_length (s mod 60) ltac:(lia)). simpl. lia. }
  assert (Hour = 3600 * Second /\ Minute = 60 * Second) as [HH HMi] by done.
  destruct (Z.ltb_spec 0 (s / 3600)) as [Hh|Hh].
  - destruct (Z.ltb_spec 0 (s / 60)) as [Hm|Hm]; [|lia].
    pose proof (dec_length (s / 3600) ltac:(lia)). pose proof (dec_length (s / 60 mod 60) ltac:(lia)).
    rewrite (duration_whole _ 0 (s / 3600) "h" Hour); [|unfold units; simpl; tauto|lia|lia|lia| |rewrite !str_length_app; lia].
    + rewrite (duration_whole _ _ (s / 60 mod 60) "m" Minute); [|unfold units; simpl; tauto|lia|lia|lia|done|rewrite !str_length_app; simpl; lia].
      rewrite Hlast; [f_equal; lia|lia|lia|rewrite !str_length_app; simpl; lia].
    + rewrite str_app_assoc. apply dec_numeric. lia.
  - destruct (Z.ltb_spec 0 (s / 60)) as [Hm|Hm].
    + pose proof (dec_length (s / 60 mod 60) ltac:(lia)). rewrite str_app_nil_l.
      rewrite (duration_whole _ _ (s / 60 mod 60) "m" Minute); [|unfold units; simpl; tauto|lia|lia|lia|done|rewrite !str_length_app; simpl; lia].
      rewrite Hlast; [f_equal; lia|lia|lia|rewrite !str_length_app; simpl; lia].
    + rewrite !str_app_nil_l. rewrite Hlast; [f_equal; lia|lia|lia|lia].
Qed.

Lemma duration_body_read u : 0 < u <= 2 ^ 63 -> duration_loop (String.length (duration_body u)) 0 (duration_body u) = Some u.
Proof.
  intros Hu. destruct (Z.le_gt_cases Second u); [apply duration_seconds; lia|]. unfold duration_body.
  assert (Millisecond = 1000000) as HM by done. assert (Second = 1000000000) as HS by done.
  destruct (Z.eqb_spec u 0); [lia|]. destruct (Z.ltb_spec u 1000).
  - pose proof (duration_last (String.length (dec u +:+ "ns")) 0 u 0 0 "ns" 1) as Hl. change (frac 0 0) with "" in Hl. rewrite str_app_nil_l in Hl.
    change (10 ^ Z.of_nat 0) with 1 in Hl. rewrite Z.mod_1_r in Hl. rewrite Hl; [f_equal; lia|unfold units; simpl; tauto|lia..|rewrite str_length_app; simpl; lia].
  - destruct (Z.ltb_spec u Millisecond); [|destruct (Z.ltb_spec u Second); [|lia]].
    + pose proof (Z.div_mod u 1000 ltac:(lia)). assert (0 <= u / 1000) by (apply Z.div_pos; lia).
      rewrite (duration_last _ 0 (u / 1000) 3 u "µs" 1000); [f_equal; change (10 ^ Z.of_nat 3) with 1000; lia|unfold units; simpl; tauto|lia|done|lia|change (10 ^ Z.of_nat 3) with 1000; lia|].
      rewrite !str_length_app. pose proof (dec_length (u / 1000) ltac:(lia)). lia.
    + pose proof (Z.div_mod u Millisecond ltac:(lia)). assert (0 <= u / Millisecond) by (apply Z.div_pos; lia).
      rewrite (duration_last _ 0 (u / Millisecond) 6 u "ms" Millisecond); [f_equal; change (10 ^ Z.of_nat 6) with Millisecond; lia|unfold units; simpl; tauto|lia|done|lia|change (10 ^ Z.of_nat 6) with Millisecond; lia|].
      rewrite !str_length_app. pose proof (dec_length (u / Millisecond) ltac:(lia)). lia.
Qed.

(** The body starts with a digit and has a unit. *)
Lemma duration_body_first u : 0 <= u -> exists c t, duration_body u = String c t /\ is_digit c = true /\ t <> "".
Proof.
  intros Hu. assert (forall v r, 0 <= v -> r <> "" -> exists c t, dec v +:+ r = String c t /\ is_digit c = true /\ t <> "") as Hd.
  { intros v r Hv Hr. destruct (dec_digit_first v Hv) as (c & t & -> & Hc). exists c, (t +:+ r). split_and!; [done|done|]. by destruct t. }
  assert (forall a b, b <> "" -> a +:+ b <> "") as Happ by (intros [|? ?] b Hb; [done|done]).
  assert (Second = 1000000000) as HS by done. assert (Millisecond = 1000000) as HM by done.
  unfold duration_body. destruct (u =? 0); [by exists "0"%char, "s"|]. destruct (u <? 1000); [by apply Hd|].
  destruct (u <? Millisecond); [apply Hd; [apply Z.div_pos; lia|by apply Happ]|]. destruct (u <? Second); [apply Hd; [apply Z.div_pos; lia|by apply Happ]|].
  cbn zeta. set (s := u / Second). assert (0 <= s) by (apply Z.div_pos; lia).
  pose proof (Z.mod_pos_bound s 60 ltac:(lia)). pose proof (Z.mod_pos_bound (s / 60) 60 ltac:(lia)).
  destruct (0 <? s / 3600); [rewrite str_app_assoc; apply Hd; [apply Z.div_pos; lia|done]|]. rewrite str_app_nil_l.
  destruct (0 <? s / 60); [rewrite str_app_assoc; apply Hd; [lia|done]|]. rewrite str_app_nil_l. apply Hd; [lia|by apply Happ].
Qed.

(** ParseDuration reads back what String prints. *)
Theorem ParseDuration_String d : - 2 ^ 63 <= d < 2 ^ 63 -> ParseDuration (Duration_String d) = Some d.
Proof.
  intros Hd. change (Duration_String d) with (if d <? 0 then "-" +:+ duration_body (Z.abs d) else duration_body (Z.abs d)).
  destruct (decide (d = 0)) as [->|Hne]; [done|].
  destruct (duration_body_first (Z.abs d) ltac:(lia)) as (c & t & Hb & Hc & Ht).
  pose proof (duration_body_read (Z.abs d) ltac:(lia)) as Hr. unfold ParseDuration.
  destruct (Z.ltb_spec d 0) as [Hneg|Hpos].
  - rewrite str_app_cons, str_app_nil_l. rewrite Hb in *. destruct (String.eqb_spec (String c t) "0") as [[= _ ?]|_]; [done|]. cbn [String.eqb].
    rewrite Hr. cbn [mbind option_bind]. f_equal. lia.
  - rewrite Hb in *. assert ((match String c t with String "-" r => (true, r) | String "+" r => (false, r) | _ => (false, String c t) end) = (false, String c t)) as ->.
    { clear -Hc. destruct c as [[] [] [] [] [] [] [] []]; done. }
    destruct (String.eqb_spec (String c t) "0") as [[= _ ?]|_]; [done|]. cbn [String.eqb]. rewrite Hr. cbn [mbind option_bind].
    destruct (Z.ltb_spec (2 ^ 63 - 1) (Z.abs d)); [lia|]. f_equal. lia.
Qed.

Lemma strip_zeros_digits w n : all_digits (strip_zeros w n).
Proof. revert n; induction w as [|w IH]; intros n; [done|]. cbn [strip_zeros]. destruct (n mod 10 =? 0); [apply IH|apply all_digits_pad]. Qed.

(** ** The text is UTF-8 *)

Lemma all_digits_utf8 s : all_digits s -> utf8 s.
Proof.
  induction s as [|c s IH]; intros Hs; [constructor|]. apply all_digits_cons in Hs as [Hc Hs]. apply utf8_1; [|auto].
  unfold is_digit in Hc. apply andb_true_iff in Hc as [_ Hc]. apply N.leb_le in Hc. unfold code. lia.
Qed.

Lemma dec_digits_all n : 0 <= n -> all_digits (dec n).
Proof. intros Hn. unfold dec. destruct (Z.ltb_spec n 0); [lia|]. apply all_digits_pad. Qed.

Lemma frac_utf8 w n : utf8 (frac w n).
Proof.
  unfold frac. destruct (String.eqb _ ""); [constructor|]. rewrite str_app_cons, str_app_nil_l. apply utf8_1; [done|]. apply all_digits_utf8, strip_zeros_digits.
Qed.

Lemma Duration_utf8 d : utf8 (Duration_String d).
Proof.
  assert (forall n, 0 <= n -> utf8 (dec n)) as Hdec by (intros; by apply all_digits_utf8, dec_digits_all).
  assert (forall a b, utf8 a -> utf8 b -> utf8 (a +:+ b)) as Happ by apply utf8_app.
  assert (utf8 "ns" /\ utf8 "ms" /\ utf8 "s" /\ utf8 "m" /\ utf8 "h" /\ utf8 "0s" /\ utf8 "-" /\ utf8 "µs" /\ utf8 "") as (? & ? & ? & ? & ? & ? & ? & ? & ?).
  { split_and!; repeat (first [apply utf8_nil|apply utf8_1; [done|]|apply utf8_2; [by vm_compute|done|]]). }
  unfold Duration_String. cbn zeta. assert (forall w n, utf8 (frac w n)) by apply frac_utf8.
  assert (0 <= Z.abs d) by lia. assert (forall a b, 0 <= a -> 0 < b -> 0 <= a / b) by (intros; by apply Z.div_pos).
  assert (0 <= Z.abs d / Second / 3600 /\ 0 <= (Z.abs d / Second / 60) mod 60 /\ 0 <= (Z.abs d / Second) mod 60) as (? & ? & ?).
  { split_and!; [apply Z.div_pos; [by apply Z.div_pos|lia]|by apply Z.mod_pos_bound..]. }
  repeat (match goal with |- context [if ?b then _ else _] => destruct b end); repeat (first [assumption|apply Happ|apply Hdec]);
    solve [auto | apply Z.div_pos; [lia|done]].
Qed.
