(* ===== verification/Cel.v ===== *)
(** CEL expressions: internal/workflow/cel.go.

    cel-go itself is not part of the repository; [CelLib] is the part of its
    interface the code uses, with no laws assumed.  Everything around it -
    which expressions are compiled, the static type check, evaluation results
    and their coercion, the program cache - is modelled. *)
From S2P Require Import Prelude GoTime Float64 Json Action.

(** The dynamic value of a CEL result, as far as [out.(type)] and
    [out.Value().(bool)] distinguish it. *)
Inductive ref_val :=
| VString (s : string)
| VInt (n : Z)
| VUint (n : Z)
| VDouble (neg : bool) (x : fpos)
| VDoubleNonFinite (text : string)     (** NaN and the infinities *)
| VBool (b : bool)
| VOther (type : string).

(** workflow.Activation: payload and headers decoded into [any]. *)
Record Activation := mkActivation {
  av_payload : json;
  av_headers : list (string * json);
  av_queue : string;
  av_trace_id : string
}.

Class CelLib := {
  cel_ast : Type;
  cel_program : Type;
  cel_type : Type;
  cel_env : result unit;                          (** cel.NewEnv *)
  cel_compile : string -> cel_ast + string;       (** env.Compile: an ast, or the text of its issues *)
  cel_output : cel_ast -> option cel_type;        (** ast.OutputType *)
  cel_assignable_dyn : cel_type -> bool;          (** IsAssignableType(cel.DynType) *)
  cel_exact : cel_type -> cel_type -> bool;       (** IsExactType *)
  cel_type_string : cel_type -> string;
  cel_BoolType : cel_type;
  cel_StringType : cel_type;
  cel_IntType : cel_type;
  cel_make : cel_ast -> result cel_program;       (** env.Program *)
  cel_eval : cel_program -> Activation -> result ref_val  (** prg.Eval *)
}.

(** workflow.invalidf. *)
Definition wf_invalidf (msg : string) : err := mkErr ErrInvalidAction (msg +:+ ": invalid action").

(** ** Compilation *)

Definition flatten_line (line : string) : option string :=
  let line := trim_space line in
  if String.eqb line "" || has_prefix "|" line then None
  else Some (trim_prefix "ERROR: <input>:" line).

Definition flattenCELError (text : string) : string :=
  match omap flatten_line (split_on (chr 10) text) with
  | [] => text
  | kept => join "; " kept
  end.

Section Cel.
Context `{CelLib}.

Fixpoint typeList_from (i n : nat) (ts : list cel_type) (out : string) : string :=
  match ts with
  | [] => out
  | t :: ts =>
      let out :=
        if (i =? 0)%nat then cel_type_string t
        else if (i =? n - 1)%nat then out +:+ " or " +:+ cel_type_string t
        else out +:+ ", " +:+ cel_type_string t in
      typeList_from (S i) n ts out
  end.

Definition typeList (ts : list cel_type) : string := typeList_from 0 (length ts) ts "".

Definition compileTyped (src : string) (want : list cel_type) : result cel_program :=
  match cel_compile src with
  | inr text => Err (errorf (flattenCELError text))
  | inl ast =>
      match cel_output ast with
      | Some got =>
          if negb (cel_assignable_dyn got) && negb (existsb (cel_exact got) want)
          then Err (errorf ("expression must evaluate to " +:+ typeList want +:+ ", got " +:+ cel_type_string got))
          else cel_make ast
      | None => cel_make ast
      end
  end.

(** Programs by input position; [None] is the nil program. *)
Record Compiled := mkCompiled {
  c_filters : list (option cel_program);
  c_correlate : list (option cel_program)
}.

(** One optional expression of one input. *)
Definition compile_expr (name : string) (i : Z) (field src : string) (want : list cel_type)
    : result (option cel_program) :=
  if String.eqb src "" then Ok None
  else match compileTyped src want with
       | Ok p => Ok (Some p)
       | Err e => Err (wf_invalidf ("action " +:+ name +:+ ": inputs[" +:+ dec i +:+ "]." +:+ field +:+ ": " +:+ err_msg e))
       end.

Fixpoint compile_inputs (name : string) (i : Z) (ins : list Input)
    : result (list (option cel_program) * list (option cel_program)) :=
  match ins with
  | [] => Ok ([], [])
  | x :: ins =>
      f <-! compile_expr name i "filter" (in_filter x) [cel_BoolType] ;;
      c <-! compile_expr name i "correlate_on" (in_correlate_on x) [cel_StringType; cel_IntType] ;;
      r <-! compile_inputs name (i + 1) ins ;;
      Ok (f :: fst r, c :: snd r)
  end.

Definition Compile (a : Action) : result Compiled :=
  match cel_env with
  | Err e => Err (wrapf "build CEL environment" e)
  | Ok _ =>
      r <-! compile_inputs (act_name a) 0 (act_inputs a) ;;
      Ok (mkCompiled (fst r) (snd r))
  end.

(** ** Evaluation *)

(** Decoding into [any] checks every number against float64. *)
Fixpoint any_ok (j : json) : bool :=
  match j with
  | JNum lit => match lit_float lit with Some _ => true | None => false end
  | JArr l => forallb any_ok l
  | JObj l => forallb (fun kv => any_ok (snd kv)) l
  | _ => true
  end.

Definition unmarshal_any (s : string) : result json :=
  match parse s with
  | Some j => if any_ok j then Ok j else Err json_error
  | None => Err json_error
  end.

(** Into a map[string]any: an object or null. *)
Definition unmarshal_headers (s : string) : result (list (string * json)) :=
  j <-! unmarshal_any s ;;
  match j with
  | JObj l => Ok l
  | JNull => Ok []
  | _ => Err json_error
  end.

Definition NewActivation (payload headers queue traceID : string) : result Activation :=
  p <-! (if String.eqb payload "" then Ok JNull
         else match unmarshal_any payload with Ok j => Ok j | Err e => Err (wrapf "decode payload" e) end) ;;
  h <-! (if String.eqb headers "" then Ok []
         else match unmarshal_headers headers with Ok l => Ok l | Err e => Err (wrapf "decode headers" e) end) ;;
  Ok (mkActivation p h queue traceID).

Definition ref_type (v : ref_val) : string :=
  match v with
  | VString _ => "string" | VInt _ => "int" | VUint _ => "uint"
  | VDouble _ _ | VDoubleNonFinite _ => "double" | VBool _ => "bool" | VOther t => t
  end.

Definition EvalFilter (prg : option cel_program) (act : Activation) : result bool :=
  match prg with
  | None => Ok true
  | Some p =>
      match cel_eval p act with
      | Err e => Err (wrapf "evaluate filter" e)
      | Ok (VBool b) => Ok b
      | Ok v => Err (errorf ("filter evaluated to " +:+ ref_type v +:+ ", want bool"))
      end
  end.

(** A double is a key when it is integral; [int64(f)] is the conversion. *)
Definition correlationKey (v : ref_val) : result string :=
  match v with
  | VString s => Ok s
  | VInt n | VUint n => Ok (dec n)
  | VDouble neg x =>
      if f_num x mod f_den x =? 0 then Ok (dec (float_int (neg, x)))
      else Err (errorf "correlate_on evaluated to a non-integral number, want string or int")
  | VDoubleNonFinite t => Err (errorf ("correlate_on evaluated to the non-integral number " +:+ t +:+ ", want string or int"))
  | VBool _ | VOther _ => Err (errorf ("correlate_on evaluated to " +:+ ref_type v +:+ ", want string or int"))
  end.

Definition EvalCorrelate (prg : option cel_program) (act : Activation) : result string :=
  match prg with
  | None => Err (errorf "no correlate_on expression")
  | Some p =>
      match cel_eval p act with
      | Err e => Err (wrapf "evaluate correlate_on" e)
      | Ok v => correlationKey v
      end
  end.

(** ** The program cache *)

Abbreviation Cache := (gmap (string * Z) Compiled).

Definition NewCache : Cache := ∅.

(** Cache.Get: compiled on first use, a failed compilation is not stored. *)
Definition Cache_Get (c : Cache) (name : string) (version : Z) (a : Action) : result Compiled * Cache :=
  match c !! (name, version) with
  | Some got => (Ok got, c)
  | None =>
      match Compile a with
      | Err e => (Err e, c)
      | Ok compiled => (Ok compiled, <[(name, version) := compiled]> c)
      end
  end.

Definition Cache_Len (c : Cache) : nat := size c.

(** Every entry is what compiling that version's definition gives. *)
Definition cache_ok (defs : string -> Z -> option Action) (c : Cache) : Prop :=
  forall n v k, c !! (n, v) = Some k -> exists a, defs n v = Some a /\ Compile a = Ok k.

Lemma Cache_Get_ok defs c n v a :
  cache_ok defs c -> defs n v = Some a ->
  fst (Cache_Get c n v a) = Compile a /\ cache_ok defs (snd (Cache_Get c n v a)).
Proof.
  intros Hc Ha. unfold Cache_Get. destruct (c !! (n, v)) as [k|] eqn:E; simpl.
  - destruct (Hc _ _ _ E) as (a' & Ha' & Hk). rewrite Ha in Ha'. by simplify_eq.
  - destruct (Compile a) as [k|e] eqn:Ek; simpl; [|done]. split; [done|].
    intros n' v' k' Hl. destruct (decide ((n, v) = (n', v'))) as [[= <- <-]|Hne].
    + rewrite lookup_insert_eq in Hl. simplify_eq. eauto.
    + rewrite lookup_insert_ne in Hl by done. eauto.
Qed.

Lemma compile_inputs_length name i ins r :
  compile_inputs name i ins = Ok r -> length (fst r) = length ins /\ length (snd r) = length ins.
Proof.
  revert i r; induction ins as [|x ins IH]; intros i r; simpl; [by intros [= <-]|].
  destruct (compile_expr _ _ "filter" _ _); simpl; [|done].
  destruct (compile_expr _ _ "correlate_on" _ _); simpl; [|done].
  destruct (compile_inputs name (i + 1) ins) as [r'|] eqn:E; simpl; [|done].
  intros [= <-]. destruct (IH _ _ E). simpl. lia.
Qed.

(** An empty expression has the nil program, a non-empty one has a program. *)
Lemma compile_inputs_nil name i ins r k x :
  compile_inputs name i ins = Ok r -> ins !! k = Some x ->
  exists f c, fst r !! k = Some f /\ snd r !! k = Some c /\
    (f = None <-> in_filter x = "") /\ (c = None <-> in_correlate_on x = "").
Proof.
  assert (forall n i fd src want p, compile_expr n i fd src want = Ok p -> (p = None <-> src = "")) as Hexpr.
  { clear. intros n i fd src want p. unfold compile_expr. destruct (String.eqb_spec src ""); [naive_solver|].
    destruct (compileTyped src want); [|done]. intros [= <-]. naive_solver. }
  revert i r k; induction ins as [|y ins IH]; intros i r k; [done|]. simpl.
  destruct (compile_expr _ _ "filter" _ _) as [f|] eqn:Ef; simpl; [|done].
  destruct (compile_expr _ _ "correlate_on" _ _) as [c|] eqn:Ec; simpl; [|done].
  destruct (compile_inputs name (i + 1) ins) as [r'|] eqn:E; simpl; [|done].
  intros [= <-]. destruct k as [|k]; simpl.
  - intros [= <-]. eauto 10.
  - intros Hk. by apply (IH _ _ _ E).
Qed.

(** ** Properties *)

(** A sequence of lookups, threading the cache. *)
Fixpoint cache_run (c : Cache) (reqs : list (string * Z * Action)) : list (result Compiled) * Cache :=
  match reqs with
  | [] => ([], c)
  | (n, v, a) :: reqs =>
      let '(r, c) := Cache_Get c n v a in
      let '(rs, c) := cache_run c reqs in (r :: rs, c)
  end.

(** The program cache is transparent: as long as a (name, version)
    always comes with the same definition - versions are immutable - every
    lookup of any sequence of lookups answers what compiling the definition
    answers, failures included. *)
Theorem Cache_transparent (defs : string -> Z -> option Action) reqs :
  Forall (fun r => defs r.1.1 r.1.2 = Some r.2) reqs ->
  (cache_run NewCache reqs).1 = map (fun r => Compile r.2) reqs.
Proof.
  assert (cache_ok defs NewCache) as Hc by (intros n v k Hl; unfold NewCache in Hl; by rewrite lookup_empty in Hl).
  revert Hc. generalize NewCache. induction reqs as [|[[n v] a] reqs IH]; intros c Hc Hf; [done|].
  apply Forall_cons in Hf as [Ha Hf]. simpl in *. destruct (Cache_Get_ok _ _ _ _ _ Hc Ha) as [Hr Hc'].
  destruct (Cache_Get c n v a) as [r c'] eqn:E. specialize (IH c' Hc' Hf). simpl in *.
  destruct (cache_run c' reqs) as [rs c'']. simpl in *. by subst.
Qed.

(** A compiled action has one filter slot and one correlate slot
    per input, in input order, nil exactly where the definition has no
    expression of that kind. *)
Theorem Compile_programs a c :
  Compile a = Ok c ->
  length (c_filters c) = length (act_inputs a) /\ length (c_correlate c) = length (act_inputs a) /\
  forall k x, act_inputs a !! k = Some x ->
    exists f g, c_filters c !! k = Some f /\ c_correlate c !! k = Some g /\
      (f = None <-> in_filter x = "") /\ (g = None <-> in_correlate_on x = "").
Proof.
  unfold Compile. destruct cel_env; [|done]. rewrite rbind_ok. intros (r & Hr & [= <-]). simpl.
  destruct (compile_inputs_length _ _ _ _ Hr). split_and!; [done..|]. intros k x.
  by apply (compile_inputs_nil _ _ _ _ _ _ Hr).
Qed.
End Cel.
Abbreviation Cache := (gmap (string * Z) Compiled).

(** A correlation key does not depend on how an id is spelled: an
    integral JSON number below 2^53 (decoded as a double), the int and the uint
    of the same value give the same key, and different such numbers different
    keys.  From 2^63 on the conversion to int64 saturates and all doubles share
    one key. *)
Theorem correlationKey_numbers m n :
  0 <= m < 2 ^ 53 -> 0 <= n < 2 ^ 53 ->
  correlationKey (VDouble false (f_of_Z n)) = correlationKey (VInt n) /\
  correlationKey (VInt n) = correlationKey (VUint n) /\
  (correlationKey (VDouble false (f_of_Z m)) = correlationKey (VDouble false (f_of_Z n)) -> m = n) /\
  (forall x, f_num x mod f_den x = 0 -> 2 ^ 63 <= f_trunc x -> correlationKey (VDouble false x) = Ok (dec (- 2 ^ 63))).
Proof.
  assert (forall k, 0 <= k < 2 ^ 53 -> correlationKey (VDouble false (f_of_Z k)) = Ok (dec k)) as Hk.
  { intros k Hk. unfold correlationKey, float_int. cbn [fst snd].
    rewrite f_of_Z_exact, Z.mod_mul, f_trunc_of_Z by (done || pose proof (f_den_pos (f_of_Z k)); lia).
    simpl (0 =? 0). cbn iota. destruct (Z.leb_spec (- 2 ^ 63) k); [|lia]. by destruct (Z.ltb_spec k (2 ^ 63)); [|lia]. }
  intros Hm Hn. rewrite !Hk by done. split_and!; [done..| |].
  - intros [= He]. apply dec_inj in He; [done|lia..].
  - intros x Hx Hb. unfold correlationKey, float_int. cbn [fst snd]. rewrite Hx. simpl (0 =? 0). cbn iota.
    destruct (Z.ltb_spec (f_trunc x) (2 ^ 63)); [lia|]. by rewrite andb_false_r.
Qed.

Lemma correlationKey_numbers_witness :
  0 <= 7 < 2 ^ 53 /\
  (correlationKey (VDouble false (f_of_Z 42)) = correlationKey (VInt 42) /\
  correlationKey (VInt 42) = correlationKey (VUint 42) /\
  (correlationKey (VDouble false (f_of_Z 7)) = correlationKey (VDouble false (f_of_Z 42)) -> 7 = 42) /\
  (forall x, f_num x mod f_den x = 0 -> 2 ^ 63 <= f_trunc x -> correlationKey (VDouble false x) = Ok (dec (- 2 ^ 63)))).
Proof. split; [lia|]. apply (correlationKey_numbers 7 42); lia. Defined.

(** ** A concrete expression language, for the examples

    [true], [false], [queue], a number; anything else does not compile. *)
Inductive toy_type := TBool | TString | TInt.

Definition toy_compile (src : string) : string + string :=
  if bool_decide (src ∈ ["true"; "false"; "queue"; "7"; "payload"]) then inl src
  else inr ("ERROR: <input>:1:1: undeclared reference" +:+ String (chr 10) " | " +:+ src).

Definition toy_output (src : string) : option toy_type :=
  if bool_decide (src ∈ ["true"; "false"]) then Some TBool
  else if String.eqb src "queue" then Some TString
  else if String.eqb src "7" then Some TInt else None.

Definition toy_eval (p : string) (act : Activation) : result ref_val :=
  if String.eqb p "true" then Ok (VBool true) else if String.eqb p "false" then Ok (VBool false)
  else if String.eqb p "queue" then Ok (VString (av_queue act))
  else if String.eqb p "7" then Ok (VInt 7)
  else match av_payload act with
       | JBool b => Ok (VBool b)
       | JStr s => Ok (VString s)
       | _ => Err (errorf "no such overload")
       end.

Definition toy_cel : CelLib := {|
  cel_ast := string; cel_program := string; cel_type := toy_type;
  cel_env := Ok tt;
  cel_compile := toy_compile;
  cel_output := toy_output;
  cel_assignable_dyn := fun _ => false;
  cel_exact := fun a b => match a, b with TBool, TBool | TString, TString | TInt, TInt => true | _, _ => false end;
  cel_type_string := fun t => match t with TBool => "bool" | TString => "string" | TInt => "int" end;
  cel_BoolType := TBool; cel_StringType := TString; cel_IntType := TInt;
  cel_make := fun a => Ok a;
  cel_eval := toy_eval
|}.

Definition toy_action : Action :=
  mkAction "sum" [mkInput "raw" "true" "queue"; mkInput "cooked" "" "7"] "subprocess"
    (Some (JObj [("command", JArr [JStr "./run.sh"])])) "out" (Some 2) None (Some (5 * Minute)).

Lemma Cache_transparent_witness :
  (cache_run (H := toy_cel) NewCache [("sum", 1, toy_action); ("sum", 2, sample_action); ("sum", 1, toy_action)]).1 =
  map (fun r => Compile (H := toy_cel) r.2) [("sum", 1, toy_action); ("sum", 2, sample_action); ("sum", 1, toy_action)].
Proof.
  apply (Cache_transparent (H := toy_cel) (fun n v => if v =? 1 then Some toy_action else Some sample_action)).
  repeat constructor.
Defined.

Lemma Compile_programs_witness :
  Compile (H := toy_cel) toy_action = Ok (mkCompiled (H := toy_cel) [Some "true"; None] [Some "queue"; Some "7"]) /\
  length [Some "true"; None] = length (act_inputs toy_action).
Proof.
  split; [vm_compute; reflexivity|].
  destruct (Compile_programs (H := toy_cel) toy_action (mkCompiled (H := toy_cel) [Some "true"; None] [Some "queue"; Some "7"])) as [Hl _];
    [vm_compute; reflexivity|exact Hl].
Defined.
