(* ===== verification/Validate.v ===== *)
(** Validation of definitions: internal/workflow/validate.go.

    The two regular expressions are kept as regular expressions, matched by
    derivatives, and characterised by direct predicates; [Validate] performs
    the checks in the order of the code; [action_spec] is what an accepted
    definition satisfies, and [Validate_correct] is the equivalence. *)
From S2P Require Import Prelude GoTime Json Action Cel.

(** ** Regular expressions (package regexp), whole-string matching *)
Inductive re :=
| REmpty
| REps
| RChr (cls : ascii -> bool)
| RSeq (a b : re)
| RAlt (a b : re)
| RStar (a : re).

Fixpoint nullable (r : re) : bool :=
  match r with
  | REmpty | RChr _ => false
  | REps | RStar _ => true
  | RSeq a b => nullable a && nullable b
  | RAlt a b => nullable a || nullable b
  end.

Fixpoint deriv (c : ascii) (r : re) : re :=
  match r with
  | REmpty | REps => REmpty
  | RChr cls => if cls c then REps else REmpty
  | RSeq a b =>
      if nullable a then RAlt (RSeq (deriv c a) b) (deriv c b) else RSeq (deriv c a) b
  | RAlt a b => RAlt (deriv c a) (deriv c b)
  | RStar a => RSeq (deriv c a) (RStar a)
  end.

Fixpoint re_match (r : re) (s : string) : bool :=
  match s with
  | EmptyString => nullable r
  | String c s => re_match (deriv c r) s
  end.

Definition alnum (c : ascii) : bool := in_range 97 122 c || in_range 48 57 c.
Definition name_mid (c : ascii) : bool := alnum c || Ascii.eqb c "-".
Definition queue_mid (c : ascii) : bool := alnum c || Ascii.eqb c "." || Ascii.eqb c "-".

(** [^[a-z0-9](mid*[a-z0-9])?$] *)
Definition ident_re (mid : ascii -> bool) : re :=
  RSeq (RChr alnum) (RAlt (RSeq (RStar (RChr mid)) (RChr alnum)) REps).

Definition nameRE : re := ident_re name_mid.
Definition queueRE : re := ident_re queue_mid.

(** What the expressions accept: the first and the last byte alphanumeric, every
    byte of the class ([all_bytes]). *)
Fixpoint ends_alnum (s : string) : bool :=
  match s with
  | EmptyString => false
  | String c EmptyString => alnum c
  | String _ r => ends_alnum r
  end.

Definition starts_alnum (s : string) : bool :=
  match s with String c _ => alnum c | EmptyString => false end.

Definition ident_ok (mid : ascii -> bool) (s : string) : bool :=
  all_bytes mid s && starts_alnum s && ends_alnum s.

(** Matching modulo the algebra of the operators used. *)
Lemma re_match_empty s : re_match REmpty s = false.
Proof. induction s; simpl; done. Qed.

Lemma re_match_alt a b s : re_match (RAlt a b) s = re_match a s || re_match b s.
Proof. revert a b; induction s; simpl; intros; [done|]. apply IHs. Qed.

Lemma re_match_eps s : re_match REps s = String.eqb s "".
Proof. destruct s; simpl; [done|]. apply re_match_empty. Qed.

Lemma re_match_seq_empty b s : re_match (RSeq REmpty b) s = false.
Proof. induction s; simpl; done. Qed.

Lemma re_match_seq_eps b s : re_match (RSeq REps b) s = re_match b s.
Proof.
  destruct s as [|c s]; simpl; [done|].
  by rewrite re_match_alt, re_match_seq_empty.
Qed.

Lemma re_match_seq_chr cls b s :
  re_match (RSeq (RChr cls) b) s = match s with String c r => cls c && re_match b r | EmptyString => false end.
Proof.
  destruct s as [|c s]; simpl; [done|].
  destruct (cls c); [apply re_match_seq_eps | apply re_match_seq_empty].
Qed.

Lemma re_match_seq_alt p q c s :
  re_match (RSeq (RAlt p q) c) s = re_match (RSeq p c) s || re_match (RSeq q c) s.
Proof.
  revert p q; induction s as [|y s IH]; intros p q; simpl.
  - by destruct (nullable p), (nullable q), (nullable c).
  - destruct (nullable p), (nullable q); simpl; rewrite ?re_match_alt, ?IH;
      repeat match goal with |- context [re_match ?r s] => destruct (re_match r s) end; done.
Qed.

Lemma re_match_seq_assoc a b c s : re_match (RSeq (RSeq a b) c) s = re_match (RSeq a (RSeq b c)) s.
Proof.
  revert a b; induction s as [|x s IH]; intros a b; simpl; [by rewrite andb_assoc|].
  destruct (nullable a); simpl; [|apply IH].
  destruct (nullable b); simpl; rewrite ?re_match_alt, ?re_match_seq_alt, ?IH; [|done].
  by rewrite orb_assoc.
Qed.

(** [mid*] followed by one alphanumeric. *)
Lemma re_match_tail (mid : ascii -> bool) s :
  (forall c, alnum c = true -> mid c = true) ->
  re_match (RSeq (RStar (RChr mid)) (RChr alnum)) s = all_bytes mid s && ends_alnum s.
Proof.
  intros Hmid. induction s as [|c s IH]; [done|]. cbn [re_match deriv nullable].
  rewrite re_match_alt, re_match_seq_assoc.
  assert (re_match (if alnum c then REps else REmpty) s = alnum c && String.eqb s "") as ->
    by (destruct (alnum c); [apply re_match_eps | apply re_match_empty]).
  assert (re_match (RSeq (if mid c then REps else REmpty) (RSeq (RStar (RChr mid)) (RChr alnum))) s =
    mid c && (all_bytes mid s && ends_alnum s)) as ->.
  { destruct (mid c); [by rewrite re_match_seq_eps | apply re_match_seq_empty]. }
  cbn [all_bytes ends_alnum]. destruct s as [|d s]; simpl.
  - specialize (Hmid c). destruct (alnum c), (mid c); simpl in *; naive_solver.
  - rewrite andb_false_r, orb_false_r. by rewrite !andb_assoc.
Qed.

Lemma ident_re_spec (mid : ascii -> bool) s :
  (forall c, alnum c = true -> mid c = true) ->
  re_match (ident_re mid) s = ident_ok mid s.
Proof.
  intros Hmid. unfold ident_re, ident_ok. rewrite re_match_seq_chr.
  destruct s as [|c s]; [done|]. rewrite re_match_alt, re_match_tail, re_match_eps by done.
  cbn [all_bytes starts_alnum ends_alnum]. specialize (Hmid c).
  destruct (alnum c); simpl; [|by rewrite andb_false_r].
  rewrite Hmid by done. destruct s as [|d s]; simpl; [done|].
  by rewrite orb_false_r, andb_true_r.
Qed.

Lemma alnum_name_mid c : alnum c = true -> name_mid c = true.
Proof. unfold name_mid. by intros ->. Qed.
Lemma alnum_queue_mid c : alnum c = true -> queue_mid c = true.
Proof. unfold queue_mid. by intros ->. Qed.

(** ** The checks *)

Section Validate.
Context `{CelLib}.

Definition reject {A} (a : Action) (msg : string) : result A :=
  Err (wf_invalidf ("action " +:+ act_name a +:+ ": " +:+ msg)).

(** The loop of validateInputs: the queues seen so far and how many inputs
    correlate. *)
Fixpoint validate_loop (a : Action) (seen : gset string) (correlated : Z) (ins : list Input) : result Z :=
  match ins with
  | [] => Ok correlated
  | i :: ins =>
      if String.eqb (in_queue i) "" then reject a "inputs queue is required"
      else if negb (re_match queueRE (in_queue i)) then
        reject a "invalid input queue: use lowercase letters, digits, dots, and dashes"
      else if decide (in_queue i ∈ seen) then reject a "duplicate input queue"
      else if negb (String.eqb (act_output a) "") && String.eqb (in_queue i) (act_output a) then
        reject a "input queue is also the output queue: a self-loop needs an intermediate queue"
      else
        validate_loop a ({[in_queue i]} ∪ seen)
          (if String.eqb (in_correlate_on i) "" then correlated else correlated + 1) ins
  end.

Definition validateInputs (a : Action) : result unit :=
  match act_inputs a with
  | [] => reject a "inputs is required with at least one queue"
  | _ =>
      correlated <-! validate_loop a ∅ 0 (act_inputs a) ;;
      let n := Z.of_nat (length (act_inputs a)) in
      if (0 <? correlated) && negb (correlated =? n) then
        reject a "correlate_on must be set on every input or none: a join is all-or-nothing"
      else if (0 <? correlated) && (n <? 2) then
        reject a "correlate_on needs at least 2 inputs to join"
      else Ok tt
  end.

Definition validateInstructions (a : Action) : result unit :=
  if String.eqb (act_actor a) ActorSubprocess then
    match act_instructions a with
    | None => reject a "instructions.command is required for actor subprocess"
    | Some _ =>
        match decodeSubprocess (act_instructions a) with
        | Err e => reject a ("instructions: " +:+ err_msg e)
        | Ok si =>
            match si_command si with
            | [] => reject a "instructions.command is required: give it argv form"
            | c :: _ =>
                if String.eqb (trim_space c) "" then
                  reject a "instructions.command[0] must name an executable"
                else
                  match si_timeout si with
                  | Some t => if t <=? 0 then reject a "instructions.timeout must be positive" else Ok tt
                  | None => Ok tt
                  end
            end
        end
    end
  else Ok tt.

(** An optional integer below one. *)
Definition below_one (o : option Z) : bool :=
  match o with Some n => n <? 1 | None => false end.

Definition Validate (a : Action) : result unit :=
  if String.eqb (act_name a) "" then Err (wf_invalidf "name is required")
  else if negb (re_match nameRE (act_name a)) then
    Err (wf_invalidf "invalid name: use lowercase letters, digits, and dashes")
  else if String.eqb (act_actor a) "" then reject a "actor is required (one of subprocess)"
  else if negb (String.eqb (act_actor a) ActorSubprocess) then
    reject a "unknown actor: known actors are subprocess"
  else
    _ <-! validateInputs a ;;
    _ <-! validateInstructions a ;;
    if negb (String.eqb (act_output a) "") && negb (re_match queueRE (act_output a)) then
      reject a "invalid output queue: use lowercase letters, digits, dots, and dashes"
    else if below_one (act_concurrency a) then reject a "concurrency must be >= 1"
    else if below_one (act_max_attempts a) then reject a "max_attempts must be >= 1"
    else
      _ <-! match act_join_timeout a with
            | Some t =>
                if negb (IsJoin a) then reject a "join_timeout requires correlate_on on every input"
                else if t <=? 0 then reject a "join_timeout must be positive"
                else Ok tt
            | None => Ok tt
            end ;;
      _ <-! Compile a ;;
      Ok tt.

(** ** What an accepted definition satisfies *)

Definition correlates (i : Input) : bool := negb (String.eqb (in_correlate_on i) "").

Record inputs_spec (a : Action) : Prop := {
  inputs_nonempty : act_inputs a <> [];
  inputs_queues : Forall (fun i => ident_ok queue_mid (in_queue i) = true) (act_inputs a);
  inputs_distinct : NoDup (Queues a);
  inputs_no_loop : act_output a <> "" -> act_output a ∉ Queues a;
  inputs_join : Forall (fun i => correlates i = true) (act_inputs a) /\ (2 <= length (act_inputs a))%nat \/
                Forall (fun i => correlates i = false) (act_inputs a)
}.

Record instructions_spec (a : Action) : Prop := {
  instr_ok : exists si c cs, decodeSubprocess (act_instructions a) = Ok si /\ si_command si = c :: cs /\
    trim_space c <> "" /\ (forall t, si_timeout si = Some t -> 0 < t)
}.

Record action_spec (a : Action) : Prop := {
  spec_name : ident_ok name_mid (act_name a) = true;
  spec_actor : act_actor a = ActorSubprocess;
  spec_inputs : inputs_spec a;
  spec_instructions : instructions_spec a;
  spec_output : act_output a = "" \/ ident_ok queue_mid (act_output a) = true;
  spec_concurrency : forall n, act_concurrency a = Some n -> 1 <= n;
  spec_max_attempts : forall n, act_max_attempts a = Some n -> 1 <= n;
  spec_join_timeout : forall t, act_join_timeout a = Some t -> IsJoin a = true /\ 0 < t;
  spec_compiles : exists c, Compile a = Ok c
}.

Lemma ident_ok_nonempty mid s : ident_ok mid s = true -> s <> "".
Proof. by intros Hs ->. Qed.

Lemma queueRE_spec s : re_match queueRE s = ident_ok queue_mid s.
Proof. apply ident_re_spec, alnum_queue_mid. Qed.
Lemma nameRE_spec s : re_match nameRE s = ident_ok name_mid s.
Proof. apply ident_re_spec, alnum_name_mid. Qed.

(** The two regular expressions accept exactly the non-empty strings
    of class bytes that start and end with a lower-case letter or digit. *)
Theorem name_queue_language s :
  (re_match nameRE s = true <->
     all_bytes name_mid s = true /\ starts_alnum s = true /\ ends_alnum s = true) /\
  (re_match queueRE s = true <->
     all_bytes queue_mid s = true /\ starts_alnum s = true /\ ends_alnum s = true).
Proof.
  rewrite nameRE_spec, queueRE_spec. unfold ident_ok. rewrite !andb_true_iff. intuition.
Qed.

(** The loop accepts exactly the inputs whose queues are valid, new, pairwise
    distinct and not the output, and counts the correlating ones. *)
Lemma validate_loop_ok a seen k ins n :
  validate_loop a seen k ins = Ok n <->
  Forall (fun i => ident_ok queue_mid (in_queue i) = true) ins /\
  NoDup (in_queue <$> ins) /\ (forall q, q ∈ in_queue <$> ins -> q ∉ seen) /\
  (act_output a <> "" -> act_output a ∉ in_queue <$> ins) /\
  n = k + Z.of_nat (length (List.filter correlates ins)).
Proof.
  revert seen k; induction ins as [|i ins IH]; intros seen k; cbn [validate_loop].
  { simpl. split.
    - intros [= <-]. split_and!; [constructor|constructor|intros q Hq; inversion Hq|intros _ Hq; inversion Hq|lia].
    - intros (_ & _ & _ & _ & ->). f_equal. lia. }
  rewrite queueRE_spec.
  destruct (String.eqb_spec (in_queue i) "") as [Hq|Hq].
  { split; [done|]. intros (Hf & _). apply Forall_cons in Hf as [Hf _]. by rewrite Hq in Hf. }
  destruct (ident_ok queue_mid (in_queue i)) eqn:Hid; cbn [negb].
  2:{ split; [done|]. intros (Hf & _). apply Forall_cons in Hf as [Hf _]. congruence. }
  destruct (decide (in_queue i ∈ seen)) as [Hs|Hs].
  { split; [done|]. intros (_ & _ & Hn & _). exfalso. apply (Hn (in_queue i)); [left|done]. }
  rewrite fmap_cons, NoDup_cons.
  destruct (negb (String.eqb (act_output a) "") && String.eqb (in_queue i) (act_output a)) eqn:Ho.
  { apply andb_true_iff in Ho as [Ho1 Ho2]. apply negb_true_iff, String.eqb_neq in Ho1.
    apply String.eqb_eq in Ho2. split; [done|]. intros (_ & _ & _ & Hn & _).
    exfalso. apply Hn; [done|]. rewrite Ho2. left. }
  rewrite IH. cbn [List.filter]. unfold correlates at 2. rewrite Forall_cons.
  assert (act_output a <> "" -> act_output a <> in_queue i) as Hout.
  { intros Hne He. rewrite He, String.eqb_refl in Ho. apply String.eqb_neq in Hne.
    rewrite <- He in *. rewrite Hne in Ho. done. }
  assert (forall x, (if String.eqb (in_correlate_on i) "" then k else k + 1) + Z.of_nat (length (List.filter correlates x)) =
    k + Z.of_nat (length (if negb (String.eqb (in_correlate_on i) "") then i :: List.filter correlates x
      else List.filter correlates x))) as Hlen
    by (intros x; destruct (String.eqb (in_correlate_on i) ""); simpl; lia).
  rewrite Hlen. set_unfold. split.
  - intros (Hf & Hnd & Hn & Hl & ->). split_and!; try done.
    + intros Hin. apply (Hn (in_queue i)); [done|]. by left.
    + intros q [->|Hq']; [done|]. intros Hin. apply (Hn q); [done|]. by right.
    + intros Hne [He|Hin]; [by apply Hout|by apply Hl].
  - intros ([_ Hf] & [Hni Hnd] & Hn & Hl & ->). split_and!; try done.
    + intros q Hq' [->|Hin]; [done|]. apply (Hn q); [by right|done].
    + intros Hne Hin. apply Hl; [done|]. by right.
Qed.

Lemma filter_all {A} (p : A -> bool) l :
  length (List.filter p l) = length l <-> Forall (fun x => p x = true) l.
Proof.
  induction l as [|x l IH]; simpl; [by split|]. rewrite Forall_cons, <- IH.
  pose proof (List.filter_length_le p l). destruct (p x); simpl; split; try lia; intros []; first [done|lia].
Qed.

Lemma filter_none {A} (p : A -> bool) l :
  length (List.filter p l) = 0%nat <-> Forall (fun x => p x = false) l.
Proof.
  induction l as [|x l IH]; simpl; [by split|]. rewrite Forall_cons, <- IH.
  destruct (p x); simpl; split; try lia; intros []; first [done|lia].
Qed.

Lemma validateInputs_correct a : validateInputs a = Ok tt <-> inputs_spec a.
Proof.
  unfold validateInputs. destruct (act_inputs a) as [|i ins] eqn:Ei.
  { split; [done|]. intros [Hn _ _ _ _]. by rewrite Ei in Hn. }
  rewrite <- Ei.
  set (cnt := Z.of_nat (length (List.filter correlates (act_inputs a)))).
  assert (validateInputs a = Ok tt <->
    (validate_loop a ∅ 0 (act_inputs a) = Ok cnt /\
     (Forall (fun i => correlates i = true) (act_inputs a) /\ (2 <= length (act_inputs a))%nat \/
      Forall (fun i => correlates i = false) (act_inputs a)))) as Hstep.
  { unfold validateInputs. rewrite Ei, <- Ei. rewrite <- filter_all, <- filter_none.
    destruct (validate_loop a ∅ 0 (act_inputs a)) as [n|e] eqn:El; simpl; [|by split; [|intros [? _]]].
    pose proof El as El'. apply validate_loop_ok in El' as (_ & _ & _ & _ & ->). fold cnt.
    rewrite Z.add_0_l. pose proof (List.filter_length_le correlates (act_inputs a)).
    assert (1 <= length (act_inputs a))%nat by (rewrite Ei; simpl; lia).
    destruct (Z.ltb_spec 0 cnt), (Z.eqb_spec cnt (Z.of_nat (length (act_inputs a)))),
      (Z.ltb_spec (Z.of_nat (length (act_inputs a))) 2); simpl; split; intros Hx; try done;
      try (split; [done|]; unfold cnt in *; lia); destruct Hx as [_ Hx]; unfold cnt in *; lia. }
  unfold validateInputs in Hstep. rewrite Ei, <- Ei in Hstep. rewrite Hstep, validate_loop_ok. split.
  - intros [(H1 & H2 & _ & H4 & _) H5]. constructor; [by rewrite Ei|exact H1|exact H2|exact H4|exact H5].
  - intros [H0 H1 H2 H4 H5]. split_and!; try done; set_solver.
Qed.

Lemma validateInstructions_correct a :
  act_actor a = ActorSubprocess -> validateInstructions a = Ok tt <-> instructions_spec a.
Proof.
  intros Ha. unfold validateInstructions. rewrite Ha, String.eqb_refl. split.
  - destruct (act_instructions a) as [j|] eqn:Ej; [|done].
    destruct (decodeSubprocess (Some j)) as [si|] eqn:Es; [|done].
    destruct (si_command si) as [|c cs] eqn:Ec; [done|].
    destruct (String.eqb_spec (trim_space c) ""); [done|]. intros Ht.
    split. rewrite Ej. exists si, c, cs. split_and!; try done. intros t Et. rewrite Et in Ht.
    destruct (Z.leb_spec t 0); [done|]. lia.
  - intros [(si & c & cs & Es & Ec & Hc & Ht)]. destruct (act_instructions a) as [j|]; [|done].
    rewrite Es, Ec. destruct (String.eqb_spec (trim_space c) ""); [done|].
    destruct (si_timeout si) as [t|]; [|done]. specialize (Ht t eq_refl).
    destruct (Z.leb_spec t 0); [lia|done].
Qed.

Lemma below_one_spec o : below_one o = false <-> forall n, o = Some n -> 1 <= n.
Proof.
  destruct o as [n|]; simpl; [|by split].
  rewrite Z.ltb_ge. split; [by intros H' ? [= ->]|]. intros H'. by apply H'.
Qed.

(** The join_timeout check of [Validate]. *)
Lemma join_timeout_ok (a : Action) :
  match act_join_timeout a with
  | Some t =>
      if negb (IsJoin a) then reject a "join_timeout requires correlate_on on every input"
      else if t <=? 0 then reject a "join_timeout must be positive"
      else Ok tt
  | None => Ok tt
  end = Ok tt <-> forall t, act_join_timeout a = Some t -> IsJoin a = true /\ 0 < t.
Proof.
  destruct (act_join_timeout a) as [t|]; [|by split].
  unfold reject. rewrite !guard_ok, negb_false_iff, Z.leb_gt. split.
  - intros (? & ? & _) ? [= <-]. done.
  - intros Ht. destruct (Ht t eq_refl). done.
Qed.

Lemma output_ok (s : string) :
  negb (String.eqb s "") && negb (ident_ok queue_mid s) = false <->
  s = "" \/ ident_ok queue_mid s = true.
Proof. destruct (String.eqb_spec s ""), (ident_ok queue_mid s); simpl; intuition congruence. Qed.

(** The chain of checks, one by one. *)
Lemma Validate_checks a : Validate a = Ok tt <-> action_spec a.
Proof.
  unfold Validate. rewrite nameRE_spec, queueRE_spec. unfold reject at 1 2 3 4 5.
  rewrite !guard_ok, !rbind_unit_ok, !guard_ok, !rbind_unit_ok, join_timeout_ok, output_ok,
    !below_one_spec, !negb_false_iff, !String.eqb_neq, String.eqb_eq, validateInputs_correct.
  assert ((x <-! Compile a;; Ok tt) = Ok tt <-> exists c, Compile a = Ok c) as ->
    by (destruct (Compile a); simpl; split; [eauto|done|done|by intros []]).
  split.
  - intros (H1 & H2 & H3 & H4 & H5 & H6 & H7 & H8 & H9 & H10 & H11). split; try done.
    by apply validateInstructions_correct.
  - intros []. split_and!; try done.
    + by eapply ident_ok_nonempty.
    + by rewrite spec_actor0.
    + by apply validateInstructions_correct.
Qed.

(** C32. Validation accepts exactly the definitions that satisfy the
    declarative specification [action_spec]: a valid name, the known actor, at
    least one input, valid and pairwise distinct queues none of which is the
    output, a join on all inputs or none and on two at least, decodable
    instructions with a command and a positive timeout, positive limits, and
    expressions that compile. *)
Theorem Validate_correct a : Validate a = Ok tt <-> action_spec a.
Proof. exact (Validate_checks a). Qed.

(** Every refusal wraps ErrInvalidAction. *)
Lemma compileTyped_expr_errs n i fd src want : errs_are ErrInvalidAction (compile_expr n i fd src want).
Proof.
  unfold compile_expr. destruct (String.eqb src ""); [auto with errs|].
  destruct (compileTyped src want); [auto with errs|]. apply errs_are_err.
Qed.

Lemma compile_inputs_errs name i ins : errs_are ErrInvalidAction (compile_inputs name i ins).
Proof.
  revert i; induction ins as [|y ins IH]; intros i; cbn [compile_inputs]; [auto with errs|].
  repeat (apply errs_are_bind; [first [apply compileTyped_expr_errs | apply IH]|intros ?]). auto with errs.
Qed.

Lemma reject_errs {A} a msg : errs_are (A := A) ErrInvalidAction (reject a msg).
Proof. apply errs_are_err. Qed.
#[local] Hint Resolve compile_inputs_errs reject_errs : errs.

Lemma validate_loop_errs a seen k ins : errs_are ErrInvalidAction (validate_loop a seen k ins).
Proof.
  revert seen k; induction ins as [|i ins IH]; intros seen k; cbn [validate_loop]; [auto with errs|].
  repeat (apply errs_are_if; [apply reject_errs|]). case_decide; [apply reject_errs|].
  repeat (apply errs_are_if; [apply reject_errs|]). apply IH.
Qed.

Lemma validateInputs_errs a : errs_are ErrInvalidAction (validateInputs a).
Proof.
  unfold validateInputs. destruct (act_inputs a); [auto with errs|].
  apply errs_are_bind; [apply validate_loop_errs|]. auto with errs.
Qed.

Lemma validateInstructions_errs a : errs_are ErrInvalidAction (validateInstructions a).
Proof.
  unfold validateInstructions. apply errs_are_if; [|auto with errs].
  destruct (act_instructions a); [|auto with errs]. destruct (decodeSubprocess _) as [si|]; [|auto with errs].
  destruct (si_command si); [auto with errs|]. apply errs_are_if; [auto with errs|].
  destruct (si_timeout si); auto with errs.
Qed.

(** Every refusal wraps [ErrInvalidAction] (the API's 400), as long
    as the CEL environment itself can be built. *)
Theorem Validate_errors a : cel_env = Ok tt -> errs_are ErrInvalidAction (Validate a).
Proof.
  intros Henv. unfold Validate, Compile. rewrite Henv.
  repeat (apply errs_are_if; [apply errs_are_err|]).
  apply errs_are_bind; [apply validateInputs_errs|intros _].
  apply errs_are_bind; [apply validateInstructions_errs|intros _].
  repeat (apply errs_are_if; [apply errs_are_err|]).
  apply errs_are_bind; [destruct (act_join_timeout a); auto with errs|intros _].
  apply errs_are_bind; [|auto with errs]. apply errs_are_bind; [apply compile_inputs_errs|auto with errs].
Qed.

End Validate.

(** ** Witnesses *)

Definition demo_action : Action :=
  mkAction "sum" [mkInput "raw" "true" ""] "subprocess"
    (Some (JObj [("command", JArr [JStr "./run.sh"]); ("timeout", JStr "30s")])) "out" (Some 2) (Some 3) None.

Example Validate_examples :
  Validate (H := toy_cel) demo_action = Ok tt /\
  Validate (H := toy_cel) toy_action = Ok tt /\
  is_ok (Validate (H := toy_cel) sample_action) = false /\
  re_match queueRE "a.b-c" = true /\ re_match nameRE "a.b" = false /\ re_match nameRE "a-" = false.
Proof. vm_compute. repeat split; reflexivity. Qed.

Lemma Validate_errors_witness :
  errs_are ErrInvalidAction (Validate (H := toy_cel) sample_action) /\ is_ok (Validate (H := toy_cel) sample_action) = false.
Proof. split; [apply (Validate_errors (H := toy_cel) sample_action); reflexivity|vm_compute; reflexivity]. Defined.
