(* ===== verification/Canon.v ===== *)
(** The canonical form of definitions: ParseJSON, normalize and Canonical of
    internal/workflow/action.go.

    With it, what encoding/json prints of decoded values: float64 numbers in
    their shortest form, maps in the order of their keys, durations by
    time.Duration's String.  A RawMessage is the value it holds, so that
    [Canonical] is the text of the code for instructions in the form that
    [normalize] leaves. *)
From S2P Require Import Prelude GoTime Float64 Json JsonText Action DurationText Cel Validate.

(** ** float64 in decimal: strconv.FormatFloat(f, _, -1, 64) *)

Definition f_eqb (x y : fpos) : bool := f_num x * f_den y =? f_num y * f_den x.
Definition f_ltb (x y : fpos) : bool := f_num x * f_den y <? f_num y * f_den x.

(** The decimal point: [10 ^ (p - 1) <= x < 10 ^ p], for [x > 0]. *)
Definition dec_point (x : fpos) : Z :=
  let n := f_num x in
  let d := f_den x in
  if d <=? n then Z.of_nat (dec_digits (n / d))
  else
    let p := 1 - Z.of_nat (dec_digits (d / n)) in
    if d <=? n * 10 ^ (- p) then p + 1 else p.

(** [m * 10 ^ e] is read back as [x]. *)
Definition reads_back (x : fpos) (m e : Z) : bool :=
  match decimal_round (mkDecimal false m e) with Some y => f_eqb x y | None => false end.

(** The [n]-digit decimal nearest to [x], and the other one next to [x]. *)
Definition neighbours (x : fpos) (p : Z) (n : nat) : Z * option Z :=
  let e := p - Z.of_nat n in
  let num := f_num x * 10 ^ Z.max 0 (- e) in
  let den := f_den x * 10 ^ Z.max 0 e in
  let lo := num / den in
  let r := num mod den in
  if r =? 0 then (lo, None)
  else if (2 * r <? den) || ((2 * r =? den) && Z.even lo) then (lo, Some (lo + 1))
  else (lo + 1, Some lo).

(** The one that is read back as [x]. *)
Definition digits_at (x : fpos) (p : Z) (n : nat) : option Z :=
  let '(near, far) := neighbours x p n in
  if reads_back x near (p - Z.of_nat n) then Some near
  else match far with
       | Some m => if reads_back x m (p - Z.of_nat n) then Some m else None
       | None => None
       end.

(** The shortest such decimal, of at most 17 digits. *)
Fixpoint shortest_from (x : fpos) (p : Z) (n k : nat) : Z * Z :=
  match digits_at x p n, k with
  | Some m, _ => (m, p - Z.of_nat n)
  | None, O => (fst (neighbours x p n), p - Z.of_nat n)
  | None, S k => shortest_from x p (S n) k
  end.

(** Digits without trailing zeros, and the position of the point. *)
Definition shortest (x : fpos) : string * Z :=
  let '(m, e) := shortest_from x (dec_point x) 1 16 in
  let w := dec_digits m in
  (strip_zeros w m, e + Z.of_nat w).

Fixpoint zeros (n : nat) : string := match n with O => "" | S n => String "0" (zeros n) end.

(** [%f] and [%e] of the digits [ds] with the point at [p]. *)
Definition fmt_f (ds : string) (p : Z) : string :=
  let w := Z.of_nat (String.length ds) in
  if p <=? 0 then "0." +:+ zeros (Z.to_nat (- p)) +:+ ds
  else if w <=? p then ds +:+ zeros (Z.to_nat (p - w))
  else String.substring 0 (Z.to_nat p) ds +:+ "." +:+ String.substring (Z.to_nat p) (Z.to_nat (w - p)) ds.

(** encoding/json writes e-07 as e-7. *)
Definition fmt_e (ds : string) (p : Z) : string :=
  let head := String.substring 0 1 ds in
  let tail := String.substring 1 (String.length ds - 1) ds in
  head +:+ (if String.eqb tail "" then "" else "." +:+ tail) +:+ "e" +:+
  (if p - 1 <? 0 then "-" else "+") +:+ dec (Z.abs (p - 1)).

(** encoding/json's floatEncoder. *)
Definition fmt_float (v : bool * fpos) : string :=
  let '(neg, x) := v in
  let body :=
    if f_num x <=? 0 then "0"
    else
      let '(ds, p) := shortest x in
      if f_ltb x (round_q 1 (10 ^ 6)) || negb (f_ltb x (f_of_Z (10 ^ 21))) then fmt_e ds p else fmt_f ds p in
  if neg then "-" +:+ body else body.

Definition reprint (lit : string) : option string := fmt_float <$> lit_float lit.

Example fmt_float_examples :
  reprint "1" = Some "1" /\ reprint "-0" = Some "-0" /\ reprint "1.50" = Some "1.5" /\ reprint "1e3" = Some "1000" /\
  reprint "0.1" = Some "0.1" /\ reprint "1e-7" = Some "1e-7" /\ reprint "123456789012345678901234" = Some "1.2345678901234569e+23" /\
  reprint "9007199254740993" = Some "9007199254740992" /\ reprint "0.000001" = Some "0.000001" /\
  reprint "5e-324" = Some "5e-324" /\ reprint "1.7976931348623157e308" = Some "1.7976931348623157e+308" /\
  reprint "100" = Some "100" /\ reprint "2.2250738585072014e-308" = Some "2.2250738585072014e-308" /\
  reprint "999999999999999999999" = Some "1e+21" /\ reprint "12345.678" = Some "12345.678" /\ reprint "1e999" = None.
Proof. vm_compute. repeat split; reflexivity. Qed.

(** ** Values of type any *)

(** The member of a Go map, kept in the order of keys in which it is printed; a
    repeated key overrides. *)
Fixpoint obj_put (k : string) (v : json) (l : list (string * json)) : list (string * json) :=
  match l with
  | [] => [(k, v)]
  | (k', v') :: l' =>
      match String.compare k k' with
      | Eq => (k, v) :: l'
      | Lt => (k, v) :: l
      | Gt => (k', v') :: obj_put k v l'
      end
  end.

Definition sort_members (l : list (string * json)) : list (string * json) :=
  foldl (fun acc kv => obj_put (fst kv) (snd kv) acc) [] l.

(** json.Unmarshal into an [any] and json.Marshal of it: numbers go through
    float64, objects through maps. *)
Fixpoint any (j : json) : result json :=
  match j with
  | JNum lit => match reprint lit with Some lit => Ok (JNum lit) | None => Err json_error end
  | JArr l =>
      l <-! (fix go (l : list json) : result (list json) :=
        match l with
        | [] => Ok []
        | v :: l => v <-! any v ;; l <-! go l ;; Ok (v :: l)
        end) l ;;
      Ok (JArr l)
  | JObj l =>
      l <-! (fix go (l : list (string * json)) : result (list (string * json)) :=
        match l with
        | [] => Ok []
        | (k, v) :: l => v <-! any v ;; l <-! go l ;; Ok ((k, v) :: l)
        end) l ;;
      Ok (JObj (sort_members l))
  | _ => Ok j
  end.

(** ** Canonical and ParseJSON *)

(** A member under [omitempty]. *)
Definition member {A} (k : string) (o : option A) (f : A -> json) : list (string * json) :=
  match o with Some x => [(k, f x)] | None => [] end.
Definition nonempty (s : string) : option string := if String.eqb s "" then None else Some s.

Definition input_json (i : Input) : json :=
  JObj ((("queue", JStr (in_queue i)) :: member "filter" (nonempty (in_filter i)) JStr) ++
        member "correlate_on" (nonempty (in_correlate_on i)) JStr).

Definition int_json (n : Z) : json := JNum (dec n).
Definition duration_json (d : Z) : json := JStr (Duration_String d).

Definition action_json (a : Action) : json :=
  JObj (("name", JStr (act_name a)) ::
    match act_inputs a with [] => [] | ins => [("inputs", JArr (map input_json ins))] end ++
    [("actor", JStr (act_actor a)); ("instructions", default JNull (act_instructions a))] ++
    member "output" (nonempty (act_output a)) JStr ++
    member "concurrency" (act_concurrency a) int_json ++
    member "max_attempts" (act_max_attempts a) int_json ++
    member "join_timeout" (act_join_timeout a) duration_json).

(** json.Marshal of a decoded action does not fail. *)
Definition Canonical (a : Action) : result string := Ok (print (action_json a)).

Definition normalize (a : Action) : result Action :=
  let set i := mkAction (act_name a) (act_inputs a) (act_actor a) i (act_output a) (act_concurrency a)
                 (act_max_attempts a) (act_join_timeout a) in
  match act_instructions a with
  | None | Some JNull => Ok (set None)
  | Some j =>
      match any j with
      | Ok v => Ok (set (Some v))
      | Err e => Err (wf_invalidf ("instructions: " +:+ err_msg e))
      end
  end.

Section ParseJSON.
Context `{CelLib}.

Definition ParseJSON (data : string) : result Action :=
  match strictUnmarshal (dec_Action true) zero_Action data with
  | Err e => Err (wf_invalidf (err_msg e))
  | Ok a =>
      a <-! normalize a ;;
      _ <-! Validate a ;;
      Ok a
  end.
End ParseJSON.

Example canonical_example :
  let messy := " {" +:+ dq "actor" +:+ ": " +:+ dq "subprocess" +:+ ", " +:+ dq "Name" +:+ ":" +:+ dq "sum" +:+ ", " +:+
    dq "join_timeout" +:+ ":null," +:+ dq "inputs" +:+ ":[{" +:+ dq "queue" +:+ ":" +:+ dq "raw" +:+ "}], " +:+
    dq "instructions" +:+ ":{" +:+ dq "timeout" +:+ ":" +:+ dq "30s" +:+ "," +:+ dq "command" +:+ ":[" +:+ dq "a<b" +:+ "]}}" in
  match ParseJSON (H := toy_cel) messy with
  | Ok a => Canonical a = Ok ("{" +:+ dq "name" +:+ ":" +:+ dq "sum" +:+ "," +:+ dq "inputs" +:+ ":[{" +:+ dq "queue" +:+ ":" +:+ dq "raw" +:+ "}]," +:+
      dq "actor" +:+ ":" +:+ dq "subprocess" +:+ "," +:+ dq "instructions" +:+ ":{" +:+ dq "command" +:+ ":[" +:+ dq "a\u003cb" +:+ "]," +:+
      dq "timeout" +:+ ":" +:+ dq "30s" +:+ "}}")
  | Err _ => False
  end.
Proof. vm_compute. reflexivity. Qed.

(** ** Printed numbers are literals *)

Lemma pow10_pos k : 0 < 10 ^ Z.max 0 k.
Proof. apply Z.pow_pos_nonneg; lia. Qed.

(** [10 ^ q <= x], as an inequality of integers. *)
Definition above (x : fpos) (q : Z) : Prop := f_den x * 10 ^ Z.max 0 q <= f_num x * 10 ^ Z.max 0 (- q).

Lemma above_mono x q q' : 0 < f_num x -> q' <= q -> above x q -> above x q'.
Proof.
  unfold above. intros Hn Hq Ha. pose proof (f_den_pos x) as Hd.
  assert (10 ^ Z.max 0 q' <= 10 ^ Z.max 0 q) by (apply Z.pow_le_mono_r; lia).
  assert (10 ^ Z.max 0 (- q) <= 10 ^ Z.max 0 (- q')) by (apply Z.pow_le_mono_r; lia). nia.
Qed.

Lemma dec_point_above x : 0 < f_num x -> above x (dec_point x - 1).
Proof.
  intros Hn. pose proof (f_den_pos x) as Hd. unfold dec_point. destruct (Z.leb_spec (f_den x) (f_num x)) as [Hle|Hlt].
  - assert (0 < f_num x / f_den x) as Hq by (apply Z.div_str_pos; lia).
    pose proof (ndigits_least (Z.to_nat (Z.log2 (f_num x / f_den x) + 1)) (f_num x / f_den x) Hq) as Hl. fold (dec_digits (f_num x / f_den x)) in Hl.
    unfold above. destruct (dec_digits_first (f_num x / f_den x) ltac:(lia)) as [?|(w & Hw & _)]; [lia|]. rewrite Hw in *.
    rewrite Z.max_r, Z.max_l by lia. pose proof (Z.mul_div_le (f_num x) (f_den x) Hd). nia.
  - assert (0 < f_den x / f_num x) as Hq by (apply Z.div_str_pos; lia). pose proof (dec_digits_enough (f_den x / f_num x) ltac:(lia)) as Hu.
    set (t := Z.of_nat (dec_digits (f_den x / f_num x))) in *.
    assert (f_den x < f_num x * 10 ^ t) as Hx.
    { pose proof (Z.mul_succ_div_gt (f_den x) (f_num x) Hn). nia. }
    destruct (Z.leb_spec (f_den x) (f_num x * 10 ^ (- (1 - t)))) as [Hp|Hp].
    + unfold above. replace (1 - t + 1 - 1) with (1 - t) by lia. assert (1 <= t) by (unfold t; lia || (unfold t; destruct (dec_digits_first (f_den x / f_num x) ltac:(lia)) as [?|(w & -> & _)]; lia)).
      rewrite (Z.max_l 0), (Z.max_r 0) by lia. lia.
    + unfold above. replace (1 - t - 1) with (- t) by lia. rewrite (Z.max_l 0), (Z.max_r 0), Z.opp_involutive by lia. lia.
Qed.

Lemma neighbours_pos x p n : 0 < f_num x -> above x (p - 1) -> (1 <= n)%nat ->
  0 < fst (neighbours x p n) /\ forall m, snd (neighbours x p n) = Some m -> 0 < m.
Proof.
  intros Hn Ha H1. apply (above_mono x _ (p - Z.of_nat n)) in Ha; [|done|lia]. unfold above in Ha. unfold neighbours. cbn zeta.
  set (num := f_num x * 10 ^ Z.max 0 (- (p - Z.of_nat n))) in *. set (den := f_den x * 10 ^ Z.max 0 (p - Z.of_nat n)) in *.
  assert (0 < den) by (unfold den; pose proof (f_den_pos x); pose proof (pow10_pos (p - Z.of_nat n)); nia).
  assert (0 < num / den) by (apply Z.div_str_pos; lia).
  destruct (num mod den =? 0); [simpl; split; [done|done]|]. destruct (_ || _); simpl; (split; [lia|intros m [= <-]; lia]).
Qed.

Lemma shortest_from_pos x p n k : 0 < f_num x -> above x (p - 1) -> (1 <= n)%nat -> 0 < fst (shortest_from x p n k).
Proof.
  intros Hn Ha. revert n; induction k as [|k IH]; intros n H1; cbn [shortest_from];
    pose proof (neighbours_pos x p n Hn Ha H1) as [Hp Hf]; unfold digits_at; destruct (neighbours x p n) as [near far] eqn:E; simpl in Hp, Hf;
    (destruct (reads_back x near _); [done|]); destruct far as [m|]; try (destruct (reads_back x m _); [by apply Hf|]); try done; apply IH; lia.
Qed.

(** Trailing zeros go, the leading digit stays. *)
Lemma strip_zeros_first w n : 0 <= n -> n / 10 ^ Z.of_nat w mod 10 <> 0 ->
  exists s, strip_zeros (S w) n = String (digit (n / 10 ^ Z.of_nat w mod 10)) s.
Proof.
  revert n; induction w as [|w IH]; intros n Hn Hlead.
  - cbn [strip_zeros]. change (10 ^ Z.of_nat 0) with 1 in *. rewrite Z.div_1_r in *. destruct (Z.eqb_spec (n mod 10) 0); [done|]. by exists "".
  - cbn [strip_zeros]. fold (strip_zeros (S w) (n / 10)). destruct (n mod 10 =? 0); [|rewrite pad_cons by lia; by eexists].
    rewrite Nat2Z.inj_succ, Z.pow_succ_r in * by lia. rewrite <- Z.div_div in * by (try apply Z.pow_nonzero; lia).
    apply IH; [apply Z.div_pos; lia|done].
Qed.

Lemma shortest_first x : 0 < f_num x ->
  exists c s, fst (shortest x) = String c s /\ is_digit c = true /\ c <> "0"%char /\ all_digits s.
Proof.
  intros Hn. unfold shortest. pose proof (shortest_from_pos x (dec_point x) 1 16 Hn (dec_point_above x Hn) ltac:(lia)) as Hm.
  destruct (shortest_from x (dec_point x) 1 16) as [m e]. simpl in *.
  destruct (dec_digits_first m ltac:(lia)) as [->|(w & -> & Hlead)]; [lia|]. destruct (strip_zeros_first w m ltac:(lia) Hlead) as [s Hs].
  pose proof (strip_zeros_digits (S w) m) as Hd. rewrite Hs in *. apply all_digits_cons in Hd as [Hc Hd].
  eexists _, _. split_and!; [done|done| |done]. intros He. destruct (digit_10 (m / 10 ^ Z.of_nat w mod 10)) as [_ Hv]; [apply Z.mod_pos_bound; lia|].
  rewrite He in Hv. by apply Hlead.
Qed.

Lemma substring_digits n m s : all_digits s -> all_digits (String.substring n m s).
Proof.
  revert n m; induction s as [|c s IH]; intros n m Hs; [by destruct n, m|]. apply all_digits_cons in Hs as [Hc Hs].
  destruct n as [|n]; [destruct m as [|m]; [done|]|]; simpl; [apply all_digits_cons; auto|auto].
Qed.

Lemma substring_length n m s : (n + m <= String.length s)%nat -> String.length (String.substring n m s) = m.
Proof.
  revert n m; induction s as [|c s IH]; intros n m Hl; simpl in *; [assert (n = 0 /\ m = 0)%nat as [-> ->] by lia; done|].
  destruct n as [|n]; [destruct m as [|m]; [done|]|]; simpl; [rewrite IH; lia|apply IH; lia].
Qed.

Lemma length_nonempty s : (0 < String.length s)%nat -> s <> "".
Proof. intros Hl ->. simpl in Hl. lia. Qed.

Lemma zeros_digits n : all_digits (zeros n).
Proof. induction n as [|n IH]; [done|]. by apply all_digits_cons. Qed.

Section Literals.
Context (c : ascii) (s : string) (p : Z).
Context (Hc : is_digit c = true) (H0 : c <> "0"%char) (Hs : all_digits s).

Lemma fmt_f_lit sg : sg = "" \/ sg = "-" -> num_lit (sg +:+ fmt_f (String c s) p).
Proof.
  intros Hsg. unfold fmt_f. destruct (Z.leb_spec p 0) as [Hp|Hp].
  - pose proof (num_lit_build sg "0" ("." +:+ zeros (Z.to_nat (- p)) +:+ String c s) "" Hsg eq_refl) as Hb. rewrite str_app_nil_r in Hb.
    apply Hb; [|done]. apply scan_frac_digits; [apply all_digits_app; [apply zeros_digits|by apply all_digits_cons]|].
    intros He. apply (f_equal String.length) in He. rewrite str_length_app in He. simpl in He. lia.
  - destruct (Z.leb_spec (Z.of_nat (String.length (String c s))) p) as [Hw|Hw].
    + pose proof (num_lit_build sg (String c s +:+ zeros (Z.to_nat (p - Z.of_nat (String.length (String c s))))) "" "" Hsg) as Hb. rewrite !str_app_nil_r in Hb.
      apply Hb; [|done|done]. rewrite str_app_cons. apply scan_int_digits; [done|done|]. apply all_digits_app; [done|apply zeros_digits].
    + cbn [String.length] in Hw. destruct (Z.to_nat p) as [|k] eqn:Ek; [lia|]. cbn [String.substring].
      set (t := String.substring k (Z.to_nat (Z.of_nat (String.length (String c s)) - p)) s).
      pose proof (num_lit_build sg (String c (String.substring 0 k s)) ("." +:+ t) "" Hsg) as Hb. rewrite str_app_nil_r in Hb.
      apply Hb; [apply scan_int_digits; [done|done|by apply substring_digits]| |done].
      apply scan_frac_digits; [by apply substring_digits|]. apply length_nonempty. unfold t. rewrite substring_length; cbn [String.length]; lia.
Qed.

Lemma fmt_e_lit sg : sg = "" \/ sg = "-" -> num_lit (sg +:+ fmt_e (String c s) p).
Proof.
  intros Hsg. unfold fmt_e. cbn [String.length]. replace (S (String.length s) - 1)%nat with (String.length s) by lia. cbn [String.substring].
  assert (String.substring 0 0 s = "") as -> by (by destruct s). set (t := String.substring 0 (String.length s) s).
  assert (all_digits t) as Ht by by apply substring_digits.
  rewrite <- (str_app_assoc (String c "")).
  assert (exists f, scan_frac f = Some (f, "") /\ String c "" +:+ (if String.eqb t "" then "" else "." +:+ t) = String c "" +:+ f) as (f & Hf & ->).
  { destruct (String.eqb_spec t "") as [|Hne]; [by exists ""|]. exists ("." +:+ t). split; [by apply scan_frac_digits|done]. }
  rewrite str_app_assoc. set (e := "e" +:+ (if p - 1 <? 0 then "-" else "+") +:+ dec (Z.abs (p - 1))).
  assert (scan_exp e = Some (e, "")) as He.
  { unfold e. assert (all_digits (dec (Z.abs (p - 1))) /\ dec (Z.abs (p - 1)) <> "") as [Hd Hne].
    { destruct (decide (Z.abs (p - 1) = 0)) as [->|]; [done|]. destruct (dec_first (Z.abs (p - 1)) ltac:(lia)) as (c' & s' & -> & ? & ? & ?).
      split; [by apply all_digits_cons|done]. }
    pose proof (scan_exp_digits (negb (p - 1 <? 0)) _ Hd Hne) as He. by destruct (p - 1 <? 0). }
  apply num_lit_build; [done|by apply scan_int_digits|done|done].
Qed.
End Literals.

Lemma fmt_float_lit v : num_lit (fmt_float v).
Proof.
  destruct v as [neg x]. unfold fmt_float. destruct (Z.leb_spec (f_num x) 0) as [|Hx].
  { destruct neg; by apply scan_num_lit. }
  destruct (shortest_first x Hx) as (c & s & Hsh & Hc & H0 & Hs). destruct (shortest x) as [ds p]. simpl in Hsh. subst ds.
  pose proof (fmt_e_lit c s p Hc H0 Hs) as He. pose proof (fmt_f_lit c s p Hc H0 Hs) as Hf.
  destruct (f_ltb _ _ || _); destruct neg; auto; [by apply (He ""); left|by apply (Hf ""); left].
Qed.

(** ** Normalized instructions are well formed *)

Definition any_list : list json -> result (list json) :=
  fix go (l : list json) : result (list json) :=
    match l with [] => Ok [] | v :: l => v <-! any v ;; l <-! go l ;; Ok (v :: l) end.
Definition any_members : list (string * json) -> result (list (string * json)) :=
  fix go (l : list (string * json)) : result (list (string * json)) :=
    match l with [] => Ok [] | (k, v) :: l => v <-! any v ;; l <-! go l ;; Ok ((k, v) :: l) end.

Lemma any_arr l : any (JArr l) = (l <-! any_list l ;; Ok (JArr l)).
Proof. done. Qed.
Lemma any_obj l : any (JObj l) = (l <-! any_members l ;; Ok (JObj (sort_members l))).
Proof. done. Qed.

Lemma rbind_Ok {A B} (m : result A) (k : A -> result B) b : rbind m k = Ok b -> exists a, m = Ok a /\ k a = Ok b.
Proof. destruct m as [a|e]; [by exists a|done]. Qed.

Lemma obj_put_Forall (P : string * json -> Prop) k v l : P (k, v) -> List.Forall P l -> List.Forall P (obj_put k v l).
Proof.
  intros Hk Hl. induction Hl as [|[k' v'] l Hk' Hl IH]; simpl; [by repeat constructor|].
  destruct (String.compare k k'); repeat constructor; done.
Qed.

Lemma sort_members_Forall (P : string * json -> Prop) l : List.Forall P l -> List.Forall P (sort_members l).
Proof.
  unfold sort_members. assert (List.Forall P []) as Hacc by constructor. revert Hacc. generalize ([] : list (string * json)).
  induction l as [|[k v] l IH]; intros acc Hacc Hl; simpl; [done|]. inversion_clear Hl. apply IH; [|done]. by apply obj_put_Forall.
Qed.

Lemma any_good j : forall d v, any j = Ok v -> good d j -> good d v.
Proof.
  induction j as [|b|lit|s|l IH|l IH] using json_nested; intros d v Ha Hg; try (by injection Ha as <-).
  - cbn [any] in Ha. unfold reprint in Ha. destruct (lit_float lit) as [x|]; [|done]. injection Ha as <-. apply fmt_float_lit.
  - rewrite any_arr in Ha. apply rbind_Ok in Ha as (l' & Hl & [= <-]). apply good_arr in Hg as [Hd Hg]. apply good_arr. split; [done|].
    revert l' Hl. induction l as [|w l IHl]; intros l' Hl; cbn [any_list] in Hl; [by injection Hl as <-|].
    apply rbind_Ok in Hl as (w' & Hw & Hl). apply rbind_Ok in Hl as (l2 & Hl & [= <-]). inversion_clear IH; inversion_clear Hg. constructor; eauto.
  - rewrite any_obj in Ha. apply rbind_Ok in Ha as (l' & Hl & [= <-]). apply good_obj in Hg as [Hd Hg]. apply good_obj. split; [done|]. apply sort_members_Forall.
    revert l' Hl. induction l as [|[k w] l IHl]; intros l' Hl; cbn [any_members] in Hl; [by injection Hl as <-|].
    apply rbind_Ok in Hl as (w' & Hw & Hl). apply rbind_Ok in Hl as (l2 & Hl & [= <-]).
    inversion_clear IH as [|? ? Iw Il]; inversion_clear Hg as [|? ? [Hk Hw'] Hg']. constructor; [split; [done|by apply Iw]|auto].
Qed.

(** ** What decoding leaves in an action *)

(** A decoder that keeps [P], on values of nesting at most [n]. *)
Definition keeps_ok {A} (n : Z) (P : A -> Prop) (d : decoder A) : Prop :=
  forall a j b, P a -> good n j -> d a j = Ok b -> P b.

Definition in_int64 (n : Z) : Prop := - 2 ^ 63 <= n < 2 ^ 63.
Definition opt_ok {A} (P : A -> Prop) (o : option A) : Prop := forall x, o = Some x -> P x.

Lemma dec_string_ok n : keeps_ok n utf8 dec_string.
Proof. intros a j b Ha Hg Hd. destruct j; simpl in *; try done; by injection Hd as <-. Qed.

Lemma dec_int_ok n : keeps_ok n in_int64 dec_int.
Proof.
  intros a j b Ha Hg Hd. destruct j as [| |lit| | |]; simpl in *; try done; [by injection Hd as <-|].
  destruct (lit_int lit) as [k|] eqn:El; [|done]. injection Hd as <-. unfold lit_int in El.
  destruct (match lit with String "-" r => (true, r) | _ => (false, lit) end) as [neg d]. destruct (span_digits d) as [ds rest].
  destruct (_ || _); [done|]. destruct (_ && _) eqn:Er; [|done]. injection El as <-. unfold in_int64. lia.
Qed.

Lemma dec_ptr_ok {A} n (P : A -> Prop) (zero : A) d : P zero -> keeps_ok n P d -> keeps_ok n (opt_ok P) (dec_ptr zero d).
Proof.
  intros Hz Hd a j b Ha Hg Hj.
  assert (forall x, d (default zero a) j = Ok x -> P x) as Hx by (intros x; apply Hd; [|done]; destruct a as [y|]; [by apply Ha|done]).
  destruct j; simpl in Hj; [injection Hj as <-; by intros x|..]; apply rbind_Ok in Hj as (x & Hj & [= <-]); intros y [= <-]; by apply Hx.
Qed.

Lemma dec_slice_ok {A} n (P : A -> Prop) (zero : A) d : P zero -> keeps_ok (n - 1) P d -> keeps_ok n (List.Forall P) (dec_slice zero d).
Proof.
  intros Hz Hd a j b Ha Hg Hj. destruct j as [| | | |js|]; simpl in Hj; try done; [by injection Hj as <-|]. apply good_arr in Hg as [_ Hg].
  revert a Ha b Hj; induction js as [|j js IH]; intros a Ha b Hj; cbn [dec_elems] in Hj; [by injection Hj as <-|].
  apply rbind_Ok in Hj as (x & Hx & Hj). apply rbind_Ok in Hj as (xs & Hxs & [= <-]). inversion_clear Hg as [|? ? Hgj Hgs]. constructor.
  - apply (Hd _ _ _) in Hx; [done| |done]. destruct Ha; done.
  - apply (IH Hgs (tail a)); [|done]. by destruct Ha.
Qed.

Lemma fld_ok {A B} n (P : A -> Prop) (Q : B -> Prop) (d : decoder B) get set :
  keeps_ok n Q d -> (forall a, P a -> Q (get a)) -> (forall a b, P a -> Q b -> P (set b a)) -> keeps_ok n P (fld d get set).
Proof.
  intros Hd Hget Hset a j b Ha Hg Hj. unfold fld in Hj. apply rbind_Ok in Hj as (x & Hx & [= <-]). apply Hset; [done|]. eapply Hd; [|exact Hg|exact Hx]. auto.
Qed.

Lemma dec_struct_ok {A} n (P : A -> Prop) strict (field : string -> option (decoder A)) :
  (forall k d, field k = Some d -> keeps_ok (n - 1) P d) -> keeps_ok n P (dec_struct strict field).
Proof.
  intros Hf a j b Ha Hg Hj. destruct j as [| | | | |kvs]; simpl in Hj; try done; [by injection Hj as <-|]. apply good_obj in Hg as [_ Hg].
  set (step := fun (acc : result A) (kv : string * json) => a <-! acc ;; match field (fst kv) with Some d => d a (snd kv) | None => if strict then Err json_error else Ok a end) in *.
  assert (forall e l, foldl step (Err e) l = Err e) as Herr by (intros e l; induction l as [|kv l IHl]; [done|apply IHl]).
  revert a Ha b Hj Hg. induction kvs as [|[k v] kvs IH]; intros a Ha b Hj Hg; [by injection Hj as <-|].
  inversion_clear Hg as [|? ? [_ Hv] Hgs].
  change (foldl step (match field k with Some d => d a v | None => if strict then Err json_error else Ok a end) kvs = Ok b) in Hj.
  destruct (field k) as [d|] eqn:Ek.
  - destruct (d a v) as [a'|e] eqn:Ed; [|by rewrite Herr in Hj]. apply (IH a'); [|done|done]. by apply (Hf k d Ek a v a').
  - destruct strict; [by rewrite Herr in Hj|]. by apply (IH a).
Qed.

Lemma digit_val_nonneg c : is_digit c = true -> 0 <= digit_val c.
Proof. unfold is_digit, digit_val. intros Hc. apply andb_true_iff in Hc as [Hc _]. apply N.leb_le in Hc. lia. Qed.

Lemma leading_int_nonneg s : forall x v r, 0 <= x -> leading_int x s = Some (v, r) -> 0 <= v.
Proof.
  induction s as [|c s IH]; intros x v r Hx; simpl; [by intros [= <- _]|]. destruct (is_digit c) eqn:Ec; [|by intros [= <- _]].
  pose proof (digit_val_nonneg c Ec). destruct (_ <? x); [done|]. destruct (_ <? _); [done|]. apply IH. lia.
Qed.

Lemma round_q_nonneg num den : 0 <= num -> 0 <= den -> 0 <= f_num (round_q num den).
Proof.
  intros Hn Hd. unfold round_q. destruct (num =? 0); [done|]. cbn zeta. unfold f_num; cbn [fm fe].
  assert (forall a b, 0 <= a -> 0 <= b -> 0 <= a / b) as Hdiv.
  { intros a b Ha Hb. destruct (decide (b = 0)) as [->|]; [by rewrite Z.div_0_r|apply Z.div_pos; lia]. }
  assert (forall k, 0 <= 2 ^ Z.max 0 k) as Hp by (intros; apply Z.pow_nonneg; lia).
  apply Z.mul_nonneg_nonneg; [|apply Hp]. match goal with |- context [if ?b then _ else _] => destruct b end;
    [apply Z.add_nonneg_nonneg; [|lia]|]; apply Hdiv; apply Z.mul_nonneg_nonneg; auto.
Qed.

Lemma leading_fraction_nonneg s : forall over x sc f sc' r, 0 <= x -> 0 <= sc -> leading_fraction over x sc s = (f, sc', r) -> 0 <= f /\ 0 <= sc'.
Proof.
  induction s as [|c s IH]; intros over x sc f sc' r Hx Hsc; cbn [leading_fraction]; [by intros [= <- <- _]|].
  destruct (is_digit c) eqn:Ec; [|by intros [= <- <- _]]. pose proof (digit_val_nonneg c Ec).
  destruct (_ || _); [by apply IH|]. destruct (_ <? _); [by apply IH|]. apply IH; lia.
Qed.

Lemma fraction_scale s1 f scale s2 post :
  match s1 with
  | String "." r => let '(f, scale, s2) := leading_fraction false 0 1 r in (f, scale, s2, negb (String.length s2 =? String.length r)%nat)
  | _ => (0, 1, s1, false)
  end = (f, scale, s2, post) -> 0 <= scale.
Proof.
  destruct s1 as [|c r]; [by intros [= _ <- _ _]|]. destruct c as [[] [] [] [] [] [] [] []]; try (by intros [= _ <- _ _]).
  destruct (leading_fraction false 0 1 r) as [[f' sc'] s'] eqn:E. intros [= _ <- _ _]. by apply leading_fraction_nonneg in E as [_ E].
Qed.

Lemma duration_loop_range fuel : forall d s r, 0 <= d <= 2 ^ 63 -> duration_loop fuel d s = Some r -> 0 <= r <= 2 ^ 63.
Proof.
  induction fuel as [|fuel IH]; intros d s r Hd; [by destruct s; [intros [= <-]|]|]. destruct s as [|c t]; [by intros [= <-]|].
  cbn [duration_loop]. destruct (negb _); [done|]. intros Hr. apply bind_Some in Hr as ((v & s1) & Hv & Hr). apply leading_int_nonneg in Hv; [|done].
  set (q := match s1 with
    | String "." r => let '(f, scale, s2) := leading_fraction false 0 1 r in (f, scale, s2, negb (String.length s2 =? String.length r)%nat)
    | _ => (0, 1, s1, false)
    end) in *.
  destruct q as [[[f scale] s2] post] eqn:Eq. apply fraction_scale in Eq. destruct (_ && _); [done|]. destruct (span_unit s2) as [u s3]. destruct (String.eqb u ""); [done|].
  apply bind_Some in Hr as (unit & Hunit & Hr). destruct (_ <? v); [done|].
  assert (0 <= unit) as Hu.
  { unfold duration_unit in Hunit. repeat (match type of Hunit with (if ?b then _ else _) = _ => destruct b end; [by injection Hunit as <-|]). done. }
  set (v' := if 0 <? f then _ else v * unit) in *.
  assert (0 <= v') as Hv'.
  { unfold v'. destruct (0 <? f) eqn:Ef; [|nia]. apply Z.add_nonneg_nonneg; [nia|]. unfold f_trunc. apply Z.div_pos; [|apply f_den_pos].
    assert (forall x y, 0 <= f_num x -> 0 <= f_num y -> 0 <= f_num (f_mul x y)) as Hmul.
    { intros x y Hx Hy. apply round_q_nonneg; [nia|]. pose proof (f_den_pos x). pose proof (f_den_pos y). nia. }
    apply Z.ltb_lt in Ef. apply Hmul; [apply round_q_nonneg; lia|].
    apply round_q_nonneg; [pose proof (f_den_pos (f_of_Z scale)); pose proof (round_q_nonneg unit 1 Hu ltac:(lia)); unfold f_of_Z in *; nia|].
    pose proof (f_den_pos (f_of_Z unit)). pose proof (round_q_nonneg scale 1 Eq ltac:(lia)). unfold f_of_Z in *. nia. }
  destruct (Z.ltb_spec (2 ^ 63) v'); [done|]. destruct (Z.ltb_spec (2 ^ 63) (d + v')); [done|]. apply (IH (d + v') s3); [lia|done].
Qed.

Lemma ParseDuration_range s d : ParseDuration s = Some d -> in_int64 d.
Proof.
  unfold ParseDuration. destruct (match s with String "-" r => (true, r) | String "+" r => (false, r) | _ => (false, s) end) as [neg s'].
  destruct (String.eqb s' "0"); [by intros [= <-]|]. destruct (String.eqb s' ""); [done|]. intros Hd. apply bind_Some in Hd as (r & Hr & Hd).
  apply duration_loop_range in Hr; [|lia]. unfold in_int64. destruct neg; [injection Hd as <-; lia|]. destruct (Z.ltb_spec (2 ^ 63 - 1) r); [done|].
  injection Hd as <-. lia.
Qed.

Lemma Duration_ok n : keeps_ok n in_int64 Duration_UnmarshalJSON.
Proof.
  intros a j b _ _ Hd. destruct j as [| | |s| |]; simpl in Hd; try done.
  destruct (ParseDuration s) as [x|] eqn:E; [|done]. injection Hd as <-. by apply ParseDuration_range in E.
Qed.

(** ** The round trip *)

Record input_ok (i : Input) : Prop := {
  input_queue_ok : utf8 (in_queue i); input_filter_ok : utf8 (in_filter i); input_correlate_ok : utf8 (in_correlate_on i)
}.

(** What the decoded definition of a document satisfies; [n] bounds the nesting
    of the instructions. *)
Record action_ok (n : Z) (a : Action) : Prop := {
  aok_name : utf8 (act_name a); aok_inputs : List.Forall input_ok (act_inputs a); aok_actor : utf8 (act_actor a);
  aok_instructions : opt_ok (good n) (act_instructions a); aok_output : utf8 (act_output a);
  aok_concurrency : opt_ok in_int64 (act_concurrency a); aok_max_attempts : opt_ok in_int64 (act_max_attempts a);
  aok_join : opt_ok in_int64 (act_join_timeout a)
}.

Lemma in_int64_0 : in_int64 0.
Proof. unfold in_int64. lia. Qed.
Create HintDb keeps.
#[local] Hint Resolve dec_string_ok dec_int_ok Duration_ok in_int64_0 : keeps.

Lemma Input_field_ok n k d : Input_field k = Some d -> keeps_ok n input_ok d.
Proof.
  unfold Input_field. destruct (field_is "queue" k); [|destruct (field_is "filter" k); [|destruct (field_is "correlate_on" k); [|done]]];
    intros [= <-]; apply (fld_ok n _ utf8); auto with keeps; try (by intros i []); intros i b [] Hb; by split.
Qed.

Lemma dec_raw_ok n : keeps_ok n (opt_ok (good n)) dec_raw.
Proof. intros a j b _ Hg [= <-] x [= <-]. done. Qed.

Lemma zero_Input_ok : input_ok zero_Input.
Proof. split; constructor. Qed.

Lemma Action_field_ok n strict k d : Action_field strict k = Some d -> keeps_ok n (action_ok n) d.
Proof.
  assert (keeps_ok n (List.Forall input_ok) (dec_slice zero_Input (dec_struct strict Input_field))) as Hins.
  { apply dec_slice_ok; [apply zero_Input_ok|]. apply dec_struct_ok. apply Input_field_ok. }
  assert (keeps_ok n (opt_ok in_int64) (dec_ptr 0 dec_int)) as Hint by (apply dec_ptr_ok; auto with keeps).
  assert (keeps_ok n (opt_ok in_int64) (dec_ptr 0 Duration_UnmarshalJSON)) as Hdur by (apply dec_ptr_ok; auto with keeps).
  pose proof (dec_raw_ok n) as Hraw. pose proof (dec_string_ok n) as Hstr. unfold Action_field.
  repeat match goal with |- context [if ?b then _ else _] =>
    destruct b; [intros [= <-]; eapply fld_ok; [eassumption|by intros x []|intros x y [] Hy; destruct x; by split]|] end.
  done.
Qed.

Lemma strict_action_ok data a : strictUnmarshal (dec_Action true) zero_Action data = Ok a -> action_ok (max_nesting - 1) a.
Proof.
  unfold strictUnmarshal. destruct (parse_first data) as [[j rest]|] eqn:Ep; [|done]. intros Ha. apply rbind_Ok in Ha as (a' & Ha & He).
  destruct (more_after rest); [done|]. injection He as <-. apply parse_first_good in Ep. unfold dec_Action in Ha.
  refine (dec_struct_ok max_nesting (action_ok (max_nesting - 1)) true (Action_field true) _ _ _ _ _ Ep Ha); [apply Action_field_ok|].
  split; first [apply utf8_nil|apply List.Forall_nil|by intros x].
Qed.

(** Members decoded one after the other. *)
Definition struct_step {A} (strict : bool) (field : string -> option (decoder A)) (acc : result A) (kv : string * json) : result A :=
  a <-! acc ;;
  match field (fst kv) with Some d => d a (snd kv) | None => if strict then Err json_error else Ok a end.

Definition runs {A} (strict : bool) (field : string -> option (decoder A)) (a : A) (kvs : list (string * json)) (a' : A) : Prop :=
  foldl (struct_step strict field) (Ok a) kvs = Ok a'.

Lemma runs_app {A} strict field (a b c : A) l1 l2 : runs strict field a l1 b -> runs strict field b l2 c -> runs strict field a (l1 ++ l2) c.
Proof. unfold runs. intros H1 H2. by rewrite foldl_app, H1. Qed.

Lemma runs_cons {A} strict field (a b c : A) k v d l :
  field k = Some d -> d a v = Ok b -> runs strict field b l c -> runs strict field a ((k, v) :: l) c.
Proof. unfold runs. intros Hf Hd Hl. cbn [foldl]. unfold struct_step at 2. cbn [rbind fst snd]. by rewrite Hf, Hd. Qed.

Lemma runs_nil {A} strict field (a : A) : runs strict field a [] a.
Proof. done. Qed.

Lemma runs_member {A B} strict field (a b : A) k (o : option B) (f : B -> json) d :
  field k = Some d -> match o with Some x => d a (f x) = Ok b | None => a = b end -> runs strict field a (member k o f) b.
Proof. intros Hf Ho. destruct o as [x|]; simpl; [|by subst b]. by eapply runs_cons; [exact Hf|exact Ho|]. Qed.

Lemma runs_nonempty {A} strict field (a b : A) k s d :
  field k = Some d -> d a (JStr s) = Ok b -> (s = "" -> a = b) -> runs strict field a (member k (nonempty s) JStr) b.
Proof. intros Hf Hd He. eapply runs_member; [exact Hf|]. unfold nonempty. destruct (String.eqb_spec s ""); auto. Qed.

Lemma runs_dec {A} strict field (a b : A) kvs : runs strict field a kvs b -> dec_struct strict field a (JObj kvs) = Ok b.
Proof. done. Qed.

Lemma input_runs strict i : dec_struct strict Input_field zero_Input (input_json i) = Ok i.
Proof.
  destruct i as [q f c]. apply runs_dec. unfold input_json. cbn [in_queue in_filter in_correlate_on].
  eapply runs_app; [eapply runs_cons; [done|done|]|].
  - instantiate (1 := mkInput q f ""). by eapply (runs_nonempty _ _ _ _ "filter"); [done|done|intros ->].
  - by eapply (runs_nonempty _ _ _ _ "correlate_on"); [done|done|intros ->].
Qed.

Lemma inputs_read strict ins : dec_slice zero_Input (dec_struct strict Input_field) [] (JArr (map input_json ins)) = Ok ins.
Proof.
  cbn [dec_slice]. induction ins as [|i ins IH]; [done|]. cbn [map dec_elems head tail default]. rewrite input_runs. cbn [rbind]. by rewrite IH.
Qed.

(** The printed definition is decoded to the definition, in either mode. *)
Lemma action_runs strict n a : action_ok n a ->
  dec_Action strict zero_Action (action_json a) =
    Ok (mkAction (act_name a) (act_inputs a) (act_actor a) (Some (default JNull (act_instructions a))) (act_output a)
          (act_concurrency a) (act_max_attempts a) (act_join_timeout a)).
Proof.
  destruct a as [nm ins ac instr out con mx jt]. intros [_ _ _ _ _ Hcon Hmx Hjt]. unfold action_json. cbn [act_name act_inputs act_actor act_instructions act_output act_concurrency act_max_attempts act_join_timeout] in *.
  unfold dec_Action. apply runs_dec. eapply runs_cons; [done|done|]. cbn [act_inputs act_name].
  eapply (runs_app _ _ _ (mkAction nm ins "" None "" None None None)).
  { destruct ins as [|i ins]; [done|]. eapply runs_cons; [done| |done]. unfold fld. cbn [act_inputs]. by rewrite inputs_read. }
  eapply (runs_app _ _ _ (mkAction nm ins ac (Some (default JNull instr)) "" None None None)).
  { eapply runs_cons; [done|done|]. by eapply runs_cons. }
  eapply (runs_app _ _ _ (mkAction nm ins ac (Some (default JNull instr)) out None None None)).
  { by eapply (runs_nonempty _ _ _ _ "output"); [done|done|intros ->]. }
  eapply (runs_app _ _ _ (mkAction nm ins ac (Some (default JNull instr)) out con None None)).
  { eapply (runs_member _ _ _ _ "concurrency"); [done|]. destruct con as [k|]; [|done]. unfold int_json, fld, dec_ptr, dec_int. cbn [act_concurrency default].
    by rewrite lit_int_dec by by apply Hcon. }
  eapply (runs_app _ _ _ (mkAction nm ins ac (Some (default JNull instr)) out con mx None)).
  { eapply (runs_member _ _ _ _ "max_attempts"); [done|]. destruct mx as [k|]; [|done]. unfold int_json, fld, dec_ptr, dec_int. cbn [act_max_attempts default].
    by rewrite lit_int_dec by by apply Hmx. }
  eapply (runs_member _ _ _ _ "join_timeout"); [done|]. destruct jt as [k|]; [|done]. unfold duration_json, fld, dec_ptr, Duration_UnmarshalJSON. cbn [act_join_timeout default].
  by rewrite ParseDuration_String by by apply Hjt.
Qed.

Lemma member_good {A} n k (o : option A) f : utf8 k -> (forall x, o = Some x -> good n (f x)) -> List.Forall (good_member n) (member k o f).
Proof. intros Hk Hf. destruct o as [x|]; simpl; repeat constructor; [done|by apply Hf]. Qed.

Lemma nonempty_good n k s : utf8 k -> utf8 s -> List.Forall (good_member n) (member k (nonempty s) JStr).
Proof. intros Hk Hs. apply member_good; [done|]. unfold nonempty. destruct (String.eqb s ""); [done|]. by intros x [= <-]. Qed.

Ltac ascii_utf8 := repeat (first [apply utf8_nil | apply utf8_1; [reflexivity|]]).

Lemma action_json_good a : action_ok (max_nesting - 1) a -> good max_nesting (action_json a).
Proof.
  intros [H1 H2 H3 H4 H5 H6 H7 H8]. apply good_obj. split; [done|]. constructor; [split; [simpl; ascii_utf8|done]|].
  repeat (apply List.Forall_app; split).
  - destruct (act_inputs a) as [|i ins] eqn:Ei; [constructor|]. rewrite <- Ei in *. constructor; [|constructor]. split; [simpl; ascii_utf8|]. apply good_arr. split; [done|].
    apply List.Forall_map. eapply List.Forall_impl; [|exact H2]. intros x [Hq Hf Hc]. apply good_obj. split; [done|]. unfold input_json. rewrite <- app_comm_cons.
    constructor; [split; [simpl; ascii_utf8|done]|]. apply List.Forall_app. split; (apply nonempty_good; [ascii_utf8|done]).
  - constructor; [split; [simpl; ascii_utf8|done]|]. constructor; [|constructor]. split; [simpl; ascii_utf8|]. simpl. destruct (act_instructions a) as [j|]; [by apply H4|done].
  - apply nonempty_good; [ascii_utf8|done].
  - apply member_good; [ascii_utf8|]. intros x _. apply dec_num_lit.
  - apply member_good; [ascii_utf8|]. intros x _. apply dec_num_lit.
  - apply member_good; [ascii_utf8|]. intros x _. apply Duration_utf8.
Qed.

Lemma more_after_nil : more_after "" = false.
Proof. done. Qed.

Section RoundTrip.
Context `{CelLib}.

(** What ParseJSON accepts is well formed and has instructions. *)
Lemma ParseJSON_ok data a : ParseJSON data = Ok a ->
  action_ok (max_nesting - 1) a /\ Validate a = Ok tt /\ exists j, act_instructions a = Some j.
Proof.
  unfold ParseJSON. destruct (strictUnmarshal _ _ data) as [a0|e] eqn:Es; [|done]. apply strict_action_ok in Es. intros Hp.
  apply rbind_Ok in Hp as (a1 & Hn & Hp). apply rbind_Ok in Hp as ([] & Hv & [= <-]).
  assert (action_ok (max_nesting - 1) a1) as Hok.
  { destruct Es as [H1 H2 H3 H4 H5 H6 H7 H8]. unfold normalize in Hn.
    assert (forall i, opt_ok (good (max_nesting - 1)) i -> action_ok (max_nesting - 1)
      (mkAction (act_name a0) (act_inputs a0) (act_actor a0) i (act_output a0) (act_concurrency a0) (act_max_attempts a0) (act_join_timeout a0))) as Hset by (intros i Hi; by split).
    destruct (act_instructions a0) as [j|] eqn:Ej; [|injection Hn as <-; by apply Hset].
    destruct j; try (injection Hn as <-; by apply Hset);
      (match type of Hn with context [any ?j] => destruct (any j) as [v|e] eqn:Ea; [|done] end; injection Hn as <-; apply Hset; intros x [= <-];
       apply (any_good _ _ _ Ea); by apply H4). }
  split_and!; [done|done|]. apply Validate_checks in Hv. destruct (spec_instructions _ Hv) as [(si & c & cs & Hd & _)].
  destruct (act_instructions a1) as [j|]; [by exists j|done].
Qed.

(** The printed form of an accepted definition decodes to it. *)
Lemma ParseJSON_reads data a : ParseJSON data = Ok a ->
  parse_first (print (action_json a)) = Some (action_json a, "") /\
  parse (print (action_json a)) = Some (action_json a) /\ forall strict, dec_Action strict zero_Action (action_json a) = Ok a.
Proof.
  intros Hp. destruct (ParseJSON_ok data a Hp) as (Hok & _ & j & Hj). destruct (parse_print _ (action_json_good a Hok)) as [Hpp Hpf].
  split_and!; [done|done|]. intros strict. rewrite (action_runs strict _ a Hok), Hj.
  destruct a as [nm ins ac instr out con mx jt]. simpl in Hj |- *. by rewrite Hj.
Qed.

Lemma ParseJSON_errors data : cel_env = Ok tt -> errs_are ErrInvalidAction (ParseJSON data).
Proof.
  intros Henv. unfold ParseJSON. destruct (strictUnmarshal _ _ data) as [a|e]; [|apply errs_are_err].
  apply errs_are_bind; [|intros a'; apply errs_are_bind; [by apply Validate_errors|intros _; apply errs_are_ok]].
  unfold normalize. destruct (act_instructions a) as [j|]; [|apply errs_are_ok].
  destruct j; try apply errs_are_ok; match goal with |- context [any ?v] => destruct (any v) end; (apply errs_are_ok || apply errs_are_err).
Qed.

(** C19. The stored form of an accepted definition - its canonical text - decodes to
    exactly that definition, both under the lenient decoding the scheduler and
    fan-out use and under the strict one; so two accepted definitions with the
    same canonical text are the same definition, which is what makes a re-apply
    a no-op exactly when nothing changed. *)
Theorem Canonical_round_trip data a :
  ParseJSON data = Ok a ->
  exists c, Canonical a = Ok c /\ valid c = true /\ unmarshal_Action c = Ok a /\
    strictUnmarshal (dec_Action true) zero_Action c = Ok a /\
    forall data' b, ParseJSON data' = Ok b -> (Canonical b = Ok c <-> b = a).
Proof.
  intros Hp. destruct (ParseJSON_reads _ _ Hp) as (Hf & Hpr & Hd). exists (print (action_json a)). split_and!.
  - done.
  - unfold valid. by rewrite Hpr.
  - unfold unmarshal_Action, unmarshal. by rewrite Hpr, Hd.
  - unfold strictUnmarshal. by rewrite Hf, Hd.
  - intros data' b Hb. destruct (ParseJSON_reads _ _ Hb) as (_ & Hprb & Hdb). split; [|by intros ->]. intros He.
    assert (print (action_json b) = print (action_json a)) as He' by (unfold Canonical in He; congruence). rewrite He', Hpr in Hprb. assert (action_json a = action_json b) as Hj by congruence. specialize (Hd true). specialize (Hdb true). rewrite <- Hj, Hd in Hdb. congruence.
Qed.
End RoundTrip.

Definition canon_input : string :=
  "{" +:+ dq "name" +:+ ":" +:+ dq "sum" +:+ ", " +:+ dq "inputs" +:+ ":[{" +:+ dq "queue" +:+ ":" +:+ dq "raw" +:+ "}]," +:+
  dq "actor" +:+ ":" +:+ dq "subprocess" +:+ "," +:+ dq "instructions" +:+ ":{" +:+ dq "timeout" +:+ ":" +:+ dq "90s" +:+ "," +:+
  dq "command" +:+ ":[" +:+ dq "./run.sh" +:+ "]}," +:+ dq "max_attempts" +:+ ": 5}".

Definition canon_action : Action :=
  mkAction "sum" [mkInput "raw" "" ""] "subprocess"
    (Some (JObj [("command", JArr [JStr "./run.sh"]); ("timeout", JStr "90s")])) "" None (Some 5) None.

Lemma Canonical_round_trip_witness :
  ParseJSON (H := toy_cel) canon_input = Ok canon_action /\
  exists c, Canonical canon_action = Ok c /\ unmarshal_Action c = Ok canon_action.
Proof.
  assert (ParseJSON (H := toy_cel) canon_input = Ok canon_action) as Hp by (vm_compute; reflexivity). split; [exact Hp|].
  destruct (Canonical_round_trip (H := toy_cel) canon_input canon_action Hp) as (c & Hc & _ & Hu & _). exists c. split; [exact Hc|exact Hu].
Defined.
