(* ===== verification/Db.v ===== *)
(** The database: tables of the migrations, transactions of internal/store/store.go.

    A table is the list of its rows.  A statement that fails leaves the
    transaction; [write] rolls the database back then, but not the process-wide
    identifier generator.  SQLite itself may refuse to begin, read or commit:
    [w_faults] is the sequence of those outcomes still to come (none when it is
    exhausted), consumed one per database round trip. *)
From S2P Require Import Prelude GoTime Json Ids.

(** ** Rows *)

(** [T] is [time] for the Go struct and [string] for the stored row. *)
Record message_of (T : Type) := mkMessage {
  msg_id : string;
  msg_queue : string;
  msg_payload : string;
  msg_headers : string;
  msg_trace_id : string;
  msg_origin_action : option string;
  msg_origin_version : option Z;
  msg_origin_message : option string;
  msg_created_at : T
}.
Arguments mkMessage {T}.
Arguments msg_id {T}. Arguments msg_queue {T}. Arguments msg_payload {T}.
Arguments msg_headers {T}. Arguments msg_trace_id {T}. Arguments msg_origin_action {T}.
Arguments msg_origin_version {T}. Arguments msg_origin_message {T}. Arguments msg_created_at {T}.
Abbreviation message := (message_of time).
Abbreviation mrow := (message_of string).

Record action_of (T : Type) := mkAct {
  ac_name : string;
  ac_version : Z;
  ac_definition : string;
  ac_enabled : bool;
  ac_created_at : T
}.
Arguments mkAct {T}.
Arguments ac_name {T}. Arguments ac_version {T}. Arguments ac_definition {T}.
Arguments ac_enabled {T}. Arguments ac_created_at {T}.
Abbreviation action := (action_of time).
Abbreviation arow := (action_of string).

(** The values of the [state] column. *)
Inductive dstate :=
| StatePending | StateClaimed | StateDone | StateFailed | StateFiltered | StateDead | StateCancelled.

#[global] Instance dstate_eq_dec : EqDecision dstate.
Proof. solve_decision. Defined.

Definition state_text (s : dstate) : string :=
  match s with
  | StatePending => "pending" | StateClaimed => "claimed" | StateDone => "done"
  | StateFailed => "failed" | StateFiltered => "filtered" | StateDead => "dead"
  | StateCancelled => "cancelled"
  end.

Record delivery_of (T : Type) := mkDelivery {
  d_id : string;
  d_message_id : option string;
  d_action_name : string;
  d_action_version : option Z;
  d_state : dstate;
  d_attempt : Z;
  d_not_before : option T;
  d_pgid : option Z;
  d_stderr_tail : option string;
  d_error : option string;
  d_claimed_at : option T;
  d_completed_at : option T
}.
Arguments mkDelivery {T}.
Arguments d_id {T}. Arguments d_message_id {T}. Arguments d_action_name {T}.
Arguments d_action_version {T}. Arguments d_state {T}. Arguments d_attempt {T}.
Arguments d_not_before {T}. Arguments d_pgid {T}. Arguments d_stderr_tail {T}.
Arguments d_error {T}. Arguments d_claimed_at {T}. Arguments d_completed_at {T}.
Abbreviation delivery := (delivery_of time).
Abbreviation drow := (delivery_of string).

Record db := mkDb {
  t_messages : list mrow;
  t_actions : list arow;
  t_deliveries : list drow
}.

Definition set_messages (t : list mrow) (d : db) : db := mkDb t (t_actions d) (t_deliveries d).
Definition set_actions (t : list arow) (d : db) : db := mkDb (t_messages d) t (t_deliveries d).
Definition set_deliveries (t : list drow) (d : db) : db := mkDb (t_messages d) (t_actions d) t.

Definition empty_db : db := mkDb [] [] [].

(** ** Statements on a table *)

(** Rows matching a WHERE clause. *)
Definition rows {A} (p : A -> bool) (t : list A) : list A := List.filter p t.

(** Number of rows an UPDATE affects, and the updated table. *)
Definition affected {A} (p : A -> bool) (t : list A) : nat := length (rows p t).
Definition update {A} (p : A -> bool) (f : A -> A) (t : list A) : list A :=
  map (fun r => if p r then f r else r) t.

(** ORDER BY a TEXT key, ascending (stable insertion). *)
Fixpoint insert_by {A} (key : A -> string) (x : A) (l : list A) : list A :=
  match l with
  | [] => [x]
  | y :: l' => if decide (str_le (key x) (key y)) then x :: l else y :: insert_by key x l'
  end.
Definition order_by {A} (key : A -> string) (l : list A) : list A := foldr (insert_by key) [] l.

(** ** Transactions *)

Section Tx.
Context {G : Type} `{IdSource G}.

Record world := mkWorld {
  w_db : db;
  w_gen : G;
  w_faults : list (option string)
}.

Definition set_db (d : db) (w : world) : world := mkWorld d (w_gen w) (w_faults w).

(** The outcome of the next database round trip. *)
Definition next_fault (w : world) : option string * world :=
  match w_faults w with
  | f :: fs => (f, mkWorld (w_db w) (w_gen w) fs)
  | [] => (None, w)
  end.

(** A statement sequence inside a transaction. *)
Definition tx (A : Type) : Type := db -> G -> result (A * db) * G.

Definition tx_ret {A} (a : A) : tx A := fun d g => (Ok (a, d), g).
Definition tx_fail {A} (e : err) : tx A := fun _ g => (Err e, g).
Definition tx_bind {A B} (m : tx A) (k : A -> tx B) : tx B := fun d g =>
  match m d g with
  | (Ok (a, d'), g') => k a d' g'
  | (Err e, g') => (Err e, g')
  end.
Definition tx_of {A} (m : result A) : tx A := fun d g =>
  match m with Ok a => (Ok (a, d), g) | Err e => (Err e, g) end.
(** A query of the current state of the transaction. *)
Definition tx_query {A} (q : db -> result A) : tx A := fun d g => tx_of (q d) d g.
Definition tx_modify (f : db -> db) : tx unit := fun d g => (Ok (tt, f d), g).
Definition tx_new_id : tx string := fun d g => let '(s, g') := new_id g in (Ok (s, d), g').

(** What a caller of the store performs. *)
Definition M (A : Type) : Type := world -> result A * world.

(** Store.write: BEGIN IMMEDIATE, the statements, COMMIT or ROLLBACK. *)
Definition write {A} (fn : tx A) : M A := fun w =>
  let '(f, w) := next_fault w in
  match f with
  | Some e => (Err (wrapf "begin write" (errorf e)), w)
  | None =>
      match fn (w_db w) (w_gen w) with
      | (Err e, g) => (Err e, mkWorld (w_db w) g (w_faults w))
      | (Ok (a, d), g) =>
          let '(f, w') := next_fault (mkWorld (w_db w) g (w_faults w)) in
          match f with
          | Some e => (Err (wrapf "commit" (errorf e)), w')
          | None => (Ok a, set_db d w')
          end
      end
  end.

(** A query on the read handle. *)
Definition read {A} (ctx : string) (q : db -> result A) : M A := fun w =>
  let '(f, w) := next_fault w in
  match f with
  | Some e => (Err (wrapf ctx (errorf e)), w)
  | None => (q (w_db w), w)
  end.

(** A failed write leaves the database as it was. *)
Lemma write_error {A} (fn : tx A) w e w' :
  write fn w = (Err e, w') -> w_db w' = w_db w.
Proof.
  unfold write, next_fault. destruct w as [d g fs]; simpl.
  destruct fs as [|[f|] fs]; simpl; [|by intros [= _ <-]|];
    destruct (fn d g) as [[[a d']|e'] g']; simpl; try by intros [= _ <-].
  destruct fs as [|[f'|] fs']; simpl; by intros [= _ <-].
Qed.

(** A successful write is the transaction's effect, whole. *)
Lemma write_ok {A} (fn : tx A) w a w' :
  write fn w = (Ok a, w') -> fn (w_db w) (w_gen w) = (Ok (a, w_db w'), w_gen w').
Proof.
  unfold write, next_fault. destruct w as [d g fs]; simpl.
  destruct fs as [|[f|] fs]; simpl; [|intros [=]|];
    destruct (fn d g) as [[[b d']|e'] g']; simpl; try by intros [=].
  - by intros [= <- <-].
  - destruct fs as [|[f'|] fs']; simpl; by intros [= <- <-].
Qed.

(** Without a fault the transaction decides. *)
Lemma write_no_fault {A} (fn : tx A) d g :
  write fn (mkWorld d g []) =
  match fn d g with
  | (Ok (a, d'), g') => (Ok a, mkWorld d' g' [])
  | (Err e, g') => (Err e, mkWorld d g' [])
  end.
Proof. unfold write; simpl. destruct (fn d g) as [[[a d']|e] g']; done. Qed.

(** A transaction that succeeds is committed, unless the database fails. *)
Lemma write_done {A} (fn : tx A) w a d' g' :
  fn (w_db w) (w_gen w) = (Ok (a, d'), g') ->
  (exists w', write fn w = (Ok a, w') /\ w_db w' = d' /\ w_gen w' = g') \/
  (exists e w', write fn w = (Err e, w') /\ w_db w' = w_db w /\ w_faults w <> []).
Proof.
  unfold write, next_fault. destruct w as [d g fs]; simpl. intros Hfn.
  destruct fs as [|[f|] fs]; simpl; [rewrite Hfn; left; eauto|right; eauto 10|]. rewrite Hfn.
  destruct fs as [|[f'|] fs']; simpl; [left; eauto|right; eauto 10|left; eauto].
Qed.

(** A transaction that fails is rolled back. *)
Lemma write_fails {A} (fn : tx A) w e g' :
  fn (w_db w) (w_gen w) = (Err e, g') ->
  exists e' w', write fn w = (Err e', w') /\ w_db w' = w_db w /\ (e' = e \/ w_faults w <> []).
Proof.
  unfold write, next_fault. destruct w as [d g fs]; simpl. intros Hfn.
  destruct fs as [|[f|] fs]; simpl; [rewrite Hfn; eauto 10|eauto 10|]. rewrite Hfn. eauto 10.
Qed.

Lemma read_db {A} ctx (q : db -> result A) w r w' :
  read ctx q w = (r, w') -> w_db w' = w_db w /\ w_gen w' = w_gen w.
Proof.
  unfold read, next_fault. destruct w as [d g fs]; destruct fs as [|[f|] fs]; simpl; by intros [= _ <-].
Qed.

Lemma read_ok {A} ctx (q : db -> result A) w a w' :
  read ctx q w = (Ok a, w') -> q (w_db w) = Ok a.
Proof.
  unfold read, next_fault. destruct w as [d g fs]; destruct fs as [|[f|] fs]; simpl; by intros [=].
Qed.

Lemma read_err {A} ctx (q : db -> result A) w e w' :
  read ctx q w = (Err e, w') -> w_faults w <> [] \/ q (w_db w) = Err e.
Proof.
  unfold read, next_fault. destruct w as [d g fs]; destruct fs as [|[f|] fs]; simpl; intros [=]; auto.
Qed.

Lemma tx_bind_ok {A B} (m : tx A) (k : A -> tx B) d g r g' :
  tx_bind m k d g = (Ok r, g') ->
  exists a d1 g1, m d g = (Ok (a, d1), g1) /\ k a d1 g1 = (Ok r, g').
Proof. unfold tx_bind. destruct (m d g) as [[[a d1]|e] g1]; [eauto|done]. Qed.
End Tx.
Arguments world : clear implicits.
Arguments tx : clear implicits.
Arguments M : clear implicits.

Notation "x <-t m ;; k" := (tx_bind m (fun x => k))
  (at level 100, m at next level, right associativity) : sonata_scope.

(** ** Lemmas on tables *)

Lemma rows_update {A} (p q : A -> bool) f t :
  (forall r, p r = true -> q (f r) = q r) -> affected q (update p f t) = affected q t.
Proof.
  intros Hq. unfold affected, rows, update. induction t as [|r t IH]; simpl; [done|].
  destruct (p r) eqn:E; [rewrite Hq by done|]; destruct (q r); simpl; lia.
Qed.

(** Rows that leave the set [q] by an update are subtracted once each. *)
Lemma rows_update_out {A} (p q : A -> bool) f t :
  (forall r, p r = true -> q r = true /\ q (f r) = false) ->
  affected q t = (affected q (update p f t) + affected p t)%nat.
Proof.
  intros Hq. unfold affected, rows, update. induction t as [|r t IH]; simpl; [done|].
  destruct (p r) eqn:E; [destruct (Hq r E) as [-> ->]|destruct (q r)]; simpl; lia.
Qed.

Lemma rows_update_in {A} (p q : A -> bool) f t :
  (forall r, p r = true -> q r = false /\ q (f r) = true) ->
  affected q (update p f t) = (affected q t + affected p t)%nat.
Proof.
  intros Hq. unfold affected, rows, update. induction t as [|r t IH]; simpl; [done|].
  destruct (p r) eqn:E; [destruct (Hq r E) as [-> ->]|destruct (q r)]; simpl; lia.
Qed.

Lemma rows_update_comm {A} (p q : A -> bool) f t :
  (forall r, q (f r) = q r) -> rows q (update p f t) = update p f (rows q t).
Proof.
  intros Hq. unfold rows, update. induction t as [|r t IH]; simpl; [done|].
  assert (q (if p r then f r else r) = q r) as -> by (destruct (p r); auto).
  destruct (q r); simpl; by rewrite IH.
Qed.

Lemma affected_app {A} (p : A -> bool) t1 t2 : affected p (t1 ++ t2) = (affected p t1 + affected p t2)%nat.
Proof. unfold affected, rows. by rewrite List.filter_app, length_app. Qed.

Lemma update_none {A} (p : A -> bool) f t : affected p t = 0%nat -> update p f t = t.
Proof.
  unfold affected, rows, update. induction t as [|r t IH]; simpl; [done|].
  destruct (p r); simpl; [done|]. intros. by rewrite IH.
Qed.

Lemma map_update {A B} (key : A -> B) p f t :
  (forall r, key (f r) = key r) -> map key (update p f t) = map key t.
Proof.
  intros Hk. unfold update. rewrite map_map. apply map_ext. intros r. by destruct (p r).
Qed.

(** A clause that pins the primary key matches at most one row. *)
Lemma affected_key {A} (key : A -> string) (p : A -> bool) k t :
  NoDup (map key t) -> (forall r, p r = true -> key r = k) -> (affected p t <= 1)%nat.
Proof.
  intros Hnd Hk. unfold affected, rows. induction t as [|r t IH]; simpl in *; [lia|].
  apply NoDup_cons in Hnd as [Hni Hnd]. specialize (IH Hnd).
  destruct (p r) eqn:E; [|done]. simpl. enough (List.filter p t = []) as -> by (simpl; lia).
  destruct (List.filter p t) as [|x l] eqn:Ef; [done|]. exfalso.
  assert (List.In x (List.filter p t)) as Hx by (rewrite Ef; by left).
  apply List.filter_In in Hx as [Hx Hpx]. apply Hni. apply list_elem_of_In, List.in_map_iff.
  exists x. split; [|done]. rewrite (Hk r E). by apply Hk.
Qed.

Lemma filter_false {A} (t : list A) : List.filter (fun _ => false) t = [].
Proof. by induction t. Qed.

Lemma rows_unique {A B} (key : A -> B) (p : A -> bool) r t :
  NoDup (map key t) -> In r t -> (forall x, In x t -> p x = true <-> key x = key r) -> rows p t = [r].
Proof.
  unfold rows. induction t as [|x t IH]; intros Hnd Hin Hp; [done|]. simpl in *.
  apply NoDup_cons in Hnd as [Hni Hnd]. destruct (decide (p x = true)) as [Hx|Hx].
  - rewrite Hx. apply Hp in Hx; [|by left]. destruct Hin as [->|Hin].
    + f_equal. rewrite (filter_ext_in _ (fun _ => false)); [by apply filter_false|].
      intros y Hy. apply not_true_is_false. intros Hpy. apply Hp in Hpy; [|by right].
      apply Hni, list_elem_of_In. rewrite <- Hpy. by apply in_map.
    + exfalso. apply Hni, list_elem_of_In. rewrite Hx. by apply in_map.
  - apply not_true_is_false in Hx as Hx'. rewrite Hx'. apply IH; [done| |auto].
    destruct Hin as [->|]; [|done]. exfalso. apply Hx, Hp; [by left|done].
Qed.

Lemma rows_rows {A} (p q : A -> bool) t : rows p (rows q t) = rows (fun x => q x && p x) t.
Proof.
  unfold rows. induction t as [|x t IH]; [done|]. simpl. destruct (q x); simpl; [|done].
  destruct (p x); [f_equal|]; done.
Qed.

Lemma rows_ext_in {A} (p q : A -> bool) t : (forall x, In x t -> p x = q x) -> rows p t = rows q t.
Proof. apply filter_ext_in. Qed.

(** A column with at most one row per value has no duplicates. *)
Lemma NoDup_rows {A} (key : A -> string) t :
  (forall k, (length (rows (fun x => String.eqb (key x) k) t) <= 1)%nat) -> NoDup (map key t).
Proof.
  induction t as [|x t IH]; intros Hk; simpl; [constructor|]. apply NoDup_cons. split.
  - intros Hin. apply list_elem_of_In, in_map_iff in Hin as (y & Hy & Hin).
    specialize (Hk (key x)). simpl in Hk. rewrite String.eqb_refl in Hk. simpl in Hk.
    enough (0 < affected (fun z => String.eqb (key z) (key x)) t)%nat by (unfold affected in *; lia).
    unfold affected, rows. destruct (List.filter _ t) as [|z l] eqn:E; simpl; [|lia].
    assert (In y []) as []. rewrite <- E. apply List.filter_In. split; [done|by apply String.eqb_eq].
  - apply IH. intros k. specialize (Hk k). simpl in Hk. destruct (String.eqb _ _); simpl in Hk; unfold rows in *; lia.
Qed.

Lemma affected_pos {A} (p : A -> bool) t : (0 < affected p t)%nat <-> exists r, In r t /\ p r = true.
Proof.
  unfold affected, rows. split.
  - destruct (List.filter p t) as [|x l] eqn:E; simpl; [lia|]. intros _.
    exists x. apply List.filter_In. rewrite E. by left.
  - intros (r & Hr). apply List.filter_In in Hr. destruct (List.filter p t); [done|simpl; lia].
Qed.

Lemma insert_by_perm {A} (key : A -> string) x l : insert_by key x l ≡ₚ x :: l.
Proof.
  induction l as [|y l IH]; simpl; [done|]. case_decide; [done|]. rewrite IH. constructor.
Qed.

Lemma order_by_perm {A} (key : A -> string) l : order_by key l ≡ₚ l.
Proof. induction l as [|x l IH]; simpl; [done|]. by rewrite insert_by_perm, IH. Qed.

Lemma insert_by_sorted {A} (key : A -> string) x l :
  Sorted.StronglySorted (fun a b => str_le (key a) (key b)) l ->
  Sorted.StronglySorted (fun a b => str_le (key a) (key b)) (insert_by key x l).
Proof.
  induction l as [|y l IH]; simpl; intros Hs; [by repeat constructor|].
  inversion_clear Hs as [|? ? Hs' Hf]. case_decide as Hle.
  - constructor; [by constructor|]. constructor; [done|].
    eapply Forall_impl; [exact Hf|]. intros z Hz. simpl. by etrans.
  - constructor; [auto|]. rewrite insert_by_perm. constructor; [|done].
    destruct (total str_le (key x) (key y)); done.
Qed.

Lemma order_by_sorted {A} (key : A -> string) l :
  Sorted.StronglySorted (fun a b => str_le (key a) (key b)) (order_by key l).
Proof. induction l; simpl; [constructor|by apply insert_by_sorted]. Qed.

(** Sorted by a key without duplicates: strictly sorted. *)
Lemma order_by_strict {A} (key : A -> string) l :
  NoDup (map key l) -> Sorted.StronglySorted str_lt (map key (order_by key l)).
Proof.
  intros Hnd. assert (NoDup (map key (order_by key l))) as Hnd'.
  { assert (map key (order_by key l) ≡ₚ map key l) as -> by apply Permutation_map, order_by_perm. done. }
  pose proof (order_by_sorted key l) as Hs. revert Hnd' Hs. generalize (order_by key l). clear.
  induction l as [|x l IH]; intros Hnd Hs; simpl in *; [constructor|].
  apply NoDup_cons in Hnd as [Hni Hnd]. inversion_clear Hs as [|? ? Hs' Hf]. constructor; [by apply IH|].
  apply List.Forall_forall. intros k Hk. apply in_map_iff in Hk as (y & <- & Hy).
  apply list_elem_of_In in Hy. rewrite Forall_forall in Hf. specialize (Hf y Hy). apply str_le_lteq in Hf as [|He]; [done|].
  exfalso. apply Hni. rewrite He. apply list_elem_of_In, in_map. by apply list_elem_of_In.
Qed.

(** [ORDER BY key LIMIT 1] is a minimal row. *)
Lemma order_by_head {A} (key : A -> string) l x :
  head (order_by key l) = Some x -> In x l /\ forall y, In y l -> str_le (key x) (key y).
Proof.
  intros Hh. pose proof (order_by_sorted key l) as Hs. pose proof (order_by_perm key l) as Hp.
  destruct (order_by key l) as [|z l'] eqn:E; simplify_eq/=.
  split.
  - apply list_elem_of_In. rewrite <- Hp. left.
  - intros y Hy. apply list_elem_of_In in Hy. rewrite <- Hp in Hy.
    inversion_clear Hs as [|? ? _ Hf]. apply elem_of_cons in Hy as [->|Hy]; [reflexivity|].
    rewrite Forall_forall in Hf. by apply Hf.
Qed.

Lemma order_by_head_none {A} (key : A -> string) l : head (order_by key l) = None <-> l = [].
Proof.
  pose proof (order_by_perm key l) as Hp. split.
  - destruct (order_by key l) eqn:E; [|done]. intros _. by apply Permutation_nil_l in Hp.
  - by intros ->.
Qed.
