(* ===== verification/Registry.v ===== *)
(** The action registry: internal/store/actions.go.

    A definition is an immutable version row; the row of greatest version is
    current and its [enabled] flag governs.  The invariant [dense] - the
    versions of a name are 1, 2, ..., n - is kept by every operation. *)
From S2P Require Import Prelude GoTime Json Ids Db.

(** [LatestVersion]. *)
Definition LatestVersion : Z := 0.

Definition named (name : string) (r : arow) : bool := String.eqb (ac_name r) name.

(** [ORDER BY version DESC LIMIT 1] among the rows of a name. *)
Fixpoint max_version (l : list arow) : option arow :=
  match l with
  | [] => None
  | r :: l =>
      match max_version l with
      | Some r' => if ac_version r <=? ac_version r' then Some r' else Some r
      | None => Some r
      end
  end.
Definition latest (name : string) (t : list arow) : option arow := max_version (rows (named name) t).

(** scanAction: the row with its creation time parsed. *)
Definition scanAction (r : arow) : result action :=
  match parse_time (ac_created_at r) with
  | Some t => Ok (mkAct (ac_name r) (ac_version r) (ac_definition r) (ac_enabled r) t)
  | None => Err (errorf ("parse created_at " +:+ ac_created_at r))
  end.

Fixpoint scan_all {A B} (scan : A -> result B) (l : list A) : result (list B) :=
  match l with
  | [] => Ok []
  | r :: l => x <-! scan r ;; xs <-! scan_all scan l ;; Ok (x :: xs)
  end.

Definition wrap_errors {A} (ctx : string) (m : result A) : result A :=
  match m with Ok a => Ok a | Err e => Err (wrapf ctx e) end.

(** The row is the current version of its name (the join with MAX(version)). *)
Lemma last_fmap_map {A B} (f : A -> B) l : last (map f l) = option_map f (last l).
Proof. induction l as [|x [|y l] IH]; [done..|]. exact IH. Qed.

Definition is_current (t : list arow) (r : arow) : bool :=
  forallb (fun r' => negb (String.eqb (ac_name r') (ac_name r)) || (ac_version r' <=? ac_version r)) t.

Definition not_found (msg : string) : err := mkErr ErrNotFound (msg +:+ ": not found").

(** The row a read of (name, version) selects. *)
Definition selected (name : string) (version : Z) (t : list arow) : option arow :=
  if version =? LatestVersion then latest name t
  else head (rows (fun r => named name r && (ac_version r =? version)) t).

Section Registry.
Context {G : Type} `{IdSource G}.

(** The INSERT: (name, version) is the primary key. *)
Definition insertAction (a : action) : tx G unit := fun d g =>
  let r := mkAct (ac_name a) (ac_version a) (ac_definition a) (ac_enabled a) (fmt_time (ac_created_at a)) in
  if existsb (fun r' => String.eqb (ac_name r') (ac_name r) && (ac_version r' =? ac_version r)) (t_actions d)
  then (Err (errorf ("insert action " +:+ ac_name a +:+ ": constraint failed")), g)
  else (Ok (tt, set_actions (t_actions d ++ [r]) d), g).

Definition applyInsert (name definition : string) (now : time) (cur : action) : tx G (action * bool) :=
  let next := mkAct name (ac_version cur + 1) definition (ac_enabled cur) now in
  _ <-t insertAction next ;;
  tx_ret (next, true).

Definition ApplyAction (name definition : string) (now : time) : M G (action * bool) :=
  write (
    o <-t tx_query (fun d =>
      match latest name (t_actions d) with
      | None => Ok None
      | Some r => a <-! wrap_errors ("read current action " +:+ name) (scanAction r) ;; Ok (Some a)
      end) ;;
    match o with
    | None => applyInsert name definition now (mkAct name 0 "" true 0)
    | Some cur =>
        if String.eqb (ac_definition cur) definition then tx_ret (cur, false)
        else applyInsert name definition now cur
    end).

Definition GetAction (name : string) (version : Z) : M G action :=
  read "get action" (fun d =>
    match selected name version (t_actions d) with
    | Some r => wrap_errors "get action" (scanAction r)
    | None =>
        if version =? LatestVersion then Err (not_found ("action " +:+ name))
        else Err (not_found ("action " +:+ name +:+ " version " +:+ dec version))
    end).

Definition ListActions : M G (list action) :=
  read "list actions" (fun d =>
    wrap_errors "list actions"
      (scan_all scanAction (order_by ac_name (rows (is_current (t_actions d)) (t_actions d))))).

(** [ORDER BY version DESC]. *)
Fixpoint insert_desc (r : arow) (l : list arow) : list arow :=
  match l with
  | [] => [r]
  | r' :: l' => if ac_version r' <=? ac_version r then r :: l else r' :: insert_desc r l'
  end.

Definition ListActionVersions (name : string) : M G (list action) :=
  read "list action versions" (fun d =>
    out <-! wrap_errors "list action versions"
              (scan_all scanAction (foldr insert_desc [] (rows (named name) (t_actions d)))) ;;
    match out with
    | [] => Err (not_found ("action " +:+ name))
    | _ => Ok out
    end).

Definition SetActionEnabled (name : string) (enabled : bool) : M G action :=
  write (
    v <-t tx_query (fun d => Ok (ac_version <$> latest name (t_actions d))) ;;
    match v with
    | None => tx_fail (not_found ("action " +:+ name))
    | Some v =>
        let p := fun r => named name r && (ac_version r =? v) in
        _ <-t tx_modify (fun d => set_actions
                (update p (fun r => mkAct (ac_name r) (ac_version r) (ac_definition r) enabled (ac_created_at r))
                   (t_actions d)) d) ;;
        tx_query (fun d =>
          match head (rows p (t_actions d)) with
          | Some r => wrap_errors ("read back action " +:+ name) (scanAction r)
          | None => Err (errorf ("read back action " +:+ name +:+ ": no rows"))
          end)
    end).
End Registry.

(** ** The invariant *)

Definition versions (name : string) (t : list arow) : list Z := map ac_version (rows (named name) t).

(** Versions 1, 2, ..., n, in the order they were stored. *)
Definition dense (t : list arow) : Prop :=
  forall name, versions name t = seqZ 1 (Z.of_nat (length (versions name t))).

(** Stored creation times parse. *)
Definition times_ok (t : list arow) : Prop :=
  Forall (fun r => parse_time (ac_created_at r) <> None) t.

Lemma rows_app {A} (p : A -> bool) t1 t2 : rows p (t1 ++ t2) = rows p t1 ++ rows p t2.
Proof. apply List.filter_app. Qed.

Lemma versions_app name t r :
  versions name (t ++ [r]) = versions name t ++ (if named name r then [ac_version r] else []).
Proof. unfold versions. rewrite rows_app, map_app. simpl. by destruct (named name r). Qed.

Lemma max_version_spec l r :
  max_version l = Some r -> In r l /\ forall r', In r' l -> ac_version r' <= ac_version r.
Proof.
  revert r; induction l as [|x l IH]; intros r; simpl; [done|].
  destruct (max_version l) as [r'|] eqn:E.
  - destruct (IH r' eq_refl) as [Hin Hmax].
    destruct (Z.leb_spec (ac_version x) (ac_version r')); intros [= <-].
    + split; [by right|]. intros y [->|Hy]; [done|auto].
    + split; [by left|]. intros y [->|Hy]; [lia|]. specialize (Hmax y Hy). lia.
  - intros [= <-]. split; [by left|]. intros y [->|Hy]; [lia|].
    destruct l as [|z l]; [done|]. simpl in E. repeat case_match; done.
Qed.

Lemma max_version_none l : max_version l = None <-> l = [].
Proof. destruct l; simpl; [done|]. repeat case_match; done. Qed.

Lemma latest_spec name t r :
  latest name t = Some r -> In r t /\ ac_name r = name /\
    forall r', In r' t -> ac_name r' = name -> ac_version r' <= ac_version r.
Proof.
  unfold latest. intros Hl. apply max_version_spec in Hl as [Hin Hmax].
  apply List.filter_In in Hin as [Hin Hn]. apply String.eqb_eq in Hn.
  split_and!; try done. intros r' Hr' Hn'. apply Hmax. apply List.filter_In.
  split; [done|]. by apply String.eqb_eq.
Qed.

Lemma versions_elem name t v :
  v ∈ versions name t <-> exists r, In r t /\ ac_name r = name /\ ac_version r = v.
Proof.
  unfold versions. rewrite list_elem_of_In, List.in_map_iff. split.
  - intros (r & Hv & Hin). apply List.filter_In in Hin as [Hin Hn].
    apply String.eqb_eq in Hn. eauto.
  - intros (r & Hin & Hn & Hv). exists r. split; [done|]. apply List.filter_In.
    split; [done|]. by apply String.eqb_eq.
Qed.

(** With dense versions the latest one is the number of versions. *)
Lemma dense_latest name t :
  dense t ->
  match latest name t with
  | Some r => ac_version r = Z.of_nat (length (versions name t)) /\ versions name t <> []
  | None => versions name t = []
  end.
Proof.
  intros Hd. specialize (Hd name). destruct (latest name t) as [r|] eqn:E.
  - apply latest_spec in E as (Hin & Hn & Hmax).
    assert (ac_version r ∈ versions name t) as Hv by (apply versions_elem; eauto).
    split; [|by intros He; rewrite He in Hv; inversion Hv].
    pose proof Hv as Hv'. rewrite Hd, elem_of_seqZ in Hv.
    assert (Z.of_nat (length (versions name t)) ∈ versions name t) as Hlast.
    { revert Hd Hv. generalize (versions name t). intros l Hl Hv.
      assert (Z.of_nat (length l) ∈ seqZ 1 (Z.of_nat (length l))) as Hx by (apply elem_of_seqZ; lia).
      by rewrite <- Hl in Hx. }
    apply versions_elem in Hlast as (r' & Hin' & Hn' & Hv2). specialize (Hmax r' Hin' Hn'). lia.
  - unfold latest in E. apply max_version_none in E. unfold versions. by rewrite E.
Qed.

Lemma dense_fresh name t v :
  dense t -> v = Z.of_nat (length (versions name t)) + 1 ->
  existsb (fun r => String.eqb (ac_name r) name && (ac_version r =? v)) t = false.
Proof.
  intros Hd Hv. apply not_true_is_false. intros He. apply existsb_exists in He as (r & Hin & Hr).
  bool_to_prop. assert (v ∈ versions name t) as Hin' by (apply versions_elem; exists r; split_and!; [done|by apply String.eqb_eq|done]).
  rewrite (Hd name), elem_of_seqZ in Hin'. lia.
Qed.

Lemma dense_snoc t r :
  dense t -> ac_version r = Z.of_nat (length (versions (ac_name r) t)) + 1 -> dense (t ++ [r]).
Proof.
  intros Hd Hv name. rewrite versions_app. unfold named. destruct (String.eqb_spec (ac_name r) name) as [<-|Hne].
  - specialize (Hd (ac_name r)). rewrite length_app. simpl. revert Hv Hd.
    generalize (versions (ac_name r) t). intros l -> Hd.
    replace (Z.of_nat (length l + 1)) with (Z.of_nat (length l) + 1) by lia.
    rewrite seqZ_app, <- Hd by lia. rewrite (seqZ_cons (1 + _)) by lia. do 2 f_equal. lia.
  - rewrite app_nil_r. apply Hd.
Qed.

(** Updates that keep name and version keep the versions. *)
Lemma versions_update name p f t :
  (forall r, ac_name (f r) = ac_name r /\ ac_version (f r) = ac_version r) ->
  versions name (update p f t) = versions name t.
Proof.
  intros Hf. unfold versions, rows, update. induction t as [|r t IH]; simpl; [done|].
  assert (named name (if p r then f r else r) = named name r) as ->.
  { destruct (p r); [|done]. unfold named. by destruct (Hf r) as [-> _]. }
  destruct (named name r); simpl; [|done]. f_equal; [|done].
  destruct (p r); [|done]. apply Hf.
Qed.

(** ** The abstract registry

    What the registry promises its clients: per name the list of definitions
    ever applied, oldest first, and one enabled flag. *)
Record entry := mkEntry { e_defs : list string; e_on : bool }.

Definition spec_apply (definition : string) (o : option entry) : entry * bool :=
  match o with
  | None => (mkEntry [definition] true, true)
  | Some e =>
      if decide (last (e_defs e) = Some definition) then (e, false)
      else (mkEntry (e_defs e ++ [definition]) (e_on e), true)
  end.

Definition abs (t : list arow) (name : string) : option entry :=
  match last (rows (named name) t) with
  | None => None
  | Some r => Some (mkEntry (map ac_definition (rows (named name) t)) (ac_enabled r))
  end.

(** Applying what is current changes nothing. *)
Lemma spec_apply_again definition o :
  spec_apply definition (Some (fst (spec_apply definition o))) = (fst (spec_apply definition o), false).
Proof.
  unfold spec_apply at 2 3. destruct o as [e|]; [|simpl; by rewrite decide_True].
  destruct (decide (last (e_defs e) = Some definition)) as [Hl|Hl]; simpl.
  - by rewrite decide_True.
  - rewrite decide_True; [done|]. simpl. by rewrite last_snoc.
Qed.

(** The concrete invariant. *)
Definition registry_wf (t : list arow) : Prop := dense t /\ times_ok t.

Lemma max_version_seq (l : list arow) a :
  map ac_version l = seqZ a (Z.of_nat (length l)) -> max_version l = last l.
Proof.
  revert a; induction l as [|r l IH]; intros a; [done|].
  simpl. rewrite seqZ_cons by lia. intros [= Ha Hl].
  assert (map ac_version l = seqZ (a + 1) (Z.of_nat (length l))) as Hl'.
  { rewrite Hl. f_equal; lia. }
  rewrite (IH _ Hl'). destruct (last l) as [x|] eqn:E.
  - assert (ac_version x ∈ map ac_version l) as Hx.
    { apply list_elem_of_In, List.in_map, list_elem_of_In. apply last_Some in E as [l' ->]. set_solver. }
    rewrite Hl', elem_of_seqZ in Hx. destruct (Z.leb_spec (ac_version r) (ac_version x)); [|lia].
    destruct l; [done|]. done.
  - apply last_None in E as ->. done.
Qed.

Lemma latest_last name t : dense t -> latest name t = last (rows (named name) t).
Proof.
  intros Hd. unfold latest. apply (max_version_seq _ 1). specialize (Hd name).
  unfold versions in Hd. by rewrite length_map in Hd.
Qed.

Lemma latest_version name t r :
  dense t -> latest name t = Some r -> ac_version r = Z.of_nat (length (rows (named name) t)).
Proof.
  intros Hd Hl. pose proof (dense_latest name t Hd) as H'. rewrite Hl in H'.
  destruct H' as [-> _]. unfold versions. by rewrite length_map.
Qed.

Lemma scanAction_ok t r :
  times_ok t -> In r t -> exists a, scanAction r = Ok a /\ ac_name a = ac_name r /\
    ac_version a = ac_version r /\ ac_definition a = ac_definition r /\ ac_enabled a = ac_enabled r.
Proof.
  intros Ht Hin. unfold times_ok in Ht. rewrite List.Forall_forall in Ht. specialize (Ht r Hin). unfold scanAction.
  destruct (parse_time (ac_created_at r)); [|done]. eauto 10.
Qed.

Lemma abs_app name t r :
  abs (t ++ [r]) name =
  if named name r then Some (mkEntry (map ac_definition (rows (named name) t) ++ [ac_definition r]) (ac_enabled r))
  else abs t name.
Proof.
  unfold abs. rewrite rows_app. simpl. destruct (named name r).
  - rewrite last_snoc, map_app. done.
  - by rewrite app_nil_r.
Qed.

Lemma abs_latest name t r :
  dense t -> latest name t = Some r ->
  abs t name = Some (mkEntry (map ac_definition (rows (named name) t)) (ac_enabled r)) /\
  last (map ac_definition (rows (named name) t)) = Some (ac_definition r).
Proof.
  intros Hd Hl. rewrite latest_last in Hl by done. unfold abs. rewrite Hl.
  split; [done|]. apply last_Some in Hl as [l ->]. rewrite map_app. simpl. by rewrite last_snoc.
Qed.

(** A new row for a name, its version the next one. *)
Lemma registry_wf_snoc t r :
  registry_wf t -> parse_time (ac_created_at r) <> None ->
  ac_version r = Z.of_nat (length (versions (ac_name r) t)) + 1 -> registry_wf (t ++ [r]).
Proof.
  intros [Hd Ht] Hp Hv. split; [by apply dense_snoc|].
  apply Forall_app_2; [done|]. by constructor.
Qed.

(** What a successful apply promises, from [d] to [d']. *)
Definition applied (name definition : string) (d d' : db) (a : action) (changed : bool) : Prop :=
  let e := spec_apply definition (abs (t_actions d) name) in
  registry_wf (t_actions d') /\
  abs (t_actions d') name = Some (fst e) /\
  (forall n, n <> name -> abs (t_actions d') n = abs (t_actions d) n) /\
  changed = snd e /\ (changed = false -> d' = d) /\
  t_messages d' = t_messages d /\ t_deliveries d' = t_deliveries d /\
  ac_name a = name /\ ac_definition a = definition /\
  ac_version a = Z.of_nat (length (e_defs (fst e))) /\ ac_enabled a = e_on (fst e).

(** The row an apply inserts. *)
Lemma applied_insert name definition now d v on :
  registry_wf (t_actions d) -> time_ok now ->
  v = Z.of_nat (length (versions name (t_actions d))) + 1 ->
  spec_apply definition (abs (t_actions d) name) =
    (mkEntry (map ac_definition (rows (named name) (t_actions d)) ++ [definition]) on, true) ->
  applied name definition d (set_actions (t_actions d ++ [mkAct name v definition on (fmt_time now)]) d)
    (mkAct name v definition on now) true.
Proof.
  intros Hwf Hnow Hv Hs. unfold applied. rewrite Hs. simpl.
  rewrite !abs_app. unfold named at 1; simpl. rewrite String.eqb_refl. split_and!; try done.
  - apply registry_wf_snoc; simpl; [done|by rewrite parse_fmt_time|done].
  - intros n Hn. rewrite abs_app. unfold named; simpl. by destruct (String.eqb_spec name n).
  - rewrite length_app, length_map, Hv. unfold versions. rewrite length_map. simpl. lia.
Qed.

(** What a successful change of the enabled flag promises. *)
Definition enabled_set (name : string) (on : bool) (d d' : db) (a : action) : Prop :=
  registry_wf (t_actions d') /\
  (exists e, abs (t_actions d) name = Some e /\ abs (t_actions d') name = Some (mkEntry (e_defs e) on) /\
     last (e_defs e) = Some (ac_definition a) /\ ac_version a = Z.of_nat (length (e_defs e))) /\
  (forall n, n <> name -> abs (t_actions d') n = abs (t_actions d) n) /\
  t_messages d' = t_messages d /\ t_deliveries d' = t_deliveries d /\
  ac_name a = name /\ ac_enabled a = on.

Definition with_enabled (on : bool) (r : arow) : arow :=
  mkAct (ac_name r) (ac_version r) (ac_definition r) on (ac_created_at r).
Definition version_row (name : string) (v : Z) (r : arow) : bool := named name r && (ac_version r =? v).

Lemma abs_with_enabled name on t r n :
  dense t -> latest name t = Some r ->
  abs (update (version_row name (ac_version r)) (with_enabled on) t) n =
  if String.eqb name n then Some (mkEntry (map ac_definition (rows (named name) t)) on) else abs t n.
Proof.
  intros Hd Hl. unfold abs. rewrite rows_update_comm by done. unfold update.
  rewrite map_map, (map_ext _ ac_definition) by (intros x; by destruct (version_row _ _ x)).
  rewrite last_fmap_map. destruct (String.eqb_spec name n) as [<-|Hne].
  - rewrite <- latest_last, Hl by done. simpl. unfold version_row, named.
    destruct (latest_spec _ _ _ Hl) as (_ & -> & _). by rewrite String.eqb_refl, Z.eqb_refl.
  - destruct (last (rows (named n) t)) as [x|] eqn:E; [|done]. simpl. unfold version_row.
    assert (named n x = true) as Hx.
    { apply last_Some in E as [l Hl']. assert (In x (rows (named n) t)) as Hin by (rewrite Hl'; apply in_or_app; right; by left).
      by apply List.filter_In in Hin as [_ ?]. }
    unfold named in *. apply String.eqb_eq in Hx as <-.
    by destruct (String.eqb_spec (ac_name x) name).
Qed.

(** The row (name, version of the latest) is the latest row alone. *)
Lemma version_row_latest name t r :
  dense t -> latest name t = Some r -> rows (version_row name (ac_version r)) t = [r].
Proof.
  intros Hd Hl. destruct (latest_spec _ _ _ Hl) as (Hin & Hn & _).
  assert (rows (version_row name (ac_version r)) t = rows (fun x => ac_version x =? ac_version r) (rows (named name) t)) as ->.
  { clear. unfold rows, version_row. induction t as [|x l IH]; [done|]. simpl. destruct (named name x); simpl; [|done].
    destruct (_ =? _); [f_equal|]; apply IH. }
  apply (rows_unique ac_version).
  - fold (versions name t). rewrite (Hd name). apply NoDup_seqZ.
  - apply List.filter_In. split; [done|]. unfold named. by rewrite Hn, String.eqb_refl.
  - intros x _. apply Z.eqb_eq.
Qed.

Lemma current_latest t r : dense t -> In r t -> (is_current t r = true <-> latest (ac_name r) t = Some r).
Proof.
  intros Hd Hin. unfold is_current. rewrite forallb_forall. split.
  - intros Hcur. destruct (latest (ac_name r) t) as [x|] eqn:E.
    + pose proof (version_row_latest _ _ _ Hd E) as Hrow. destruct (latest_spec _ _ _ E) as (Hx & Hn & Hmax).
      assert (In r (rows (version_row (ac_name r) (ac_version x)) t)) as Hr; [|rewrite Hrow in Hr; destruct Hr as [->|[]]; done].
      apply List.filter_In. split; [done|]. unfold version_row, named. rewrite String.eqb_refl. simpl.
      specialize (Hcur x Hx). rewrite Hn, String.eqb_refl in Hcur. simpl in Hcur. bool_to_prop.
      specialize (Hmax r Hin eq_refl). apply Z.eqb_eq. lia.
    + unfold latest in E. apply max_version_none in E. exfalso.
      assert (In r []) as []. rewrite <- E. apply List.filter_In. split; [done|apply String.eqb_refl].
  - intros Hl x Hx. destruct (latest_spec _ _ _ Hl) as (_ & _ & Hmax).
    destruct (String.eqb_spec (ac_name x) (ac_name r)); simpl; [|done]. apply Z.leb_le. auto.
Qed.

Lemma current_NoDup t : dense t -> NoDup (map ac_name (rows (is_current t) t)).
Proof.
  intros Hd. apply NoDup_rows. intros k. rewrite rows_rows.
  destruct (latest k t) as [r|] eqn:E.
  - transitivity (length (rows (version_row k (ac_version r)) t)); [|by rewrite version_row_latest].
    apply Nat.eq_le_incl. f_equal. apply rows_ext_in. intros x Hx. unfold version_row, named.
    destruct (String.eqb_spec (ac_name x) k) as [<-|]; [|by rewrite andb_false_r]. rewrite andb_true_r. simpl.
    destruct (is_current t x) eqn:Ec.
    + apply current_latest in Ec; [|done..]. rewrite E in Ec. injection Ec as ->. by rewrite Z.eqb_refl.
    + symmetry. apply not_true_is_false. intros Hv. apply Z.eqb_eq in Hv. apply not_true_iff_false in Ec. apply Ec.
      apply current_latest; [done..|]. rewrite E. f_equal.
      assert (In x (rows (version_row (ac_name x) (ac_version r)) t)) as Hr.
      { apply List.filter_In. split; [done|]. unfold version_row, named. by rewrite String.eqb_refl, Hv, Z.eqb_refl. }
      rewrite version_row_latest in Hr by done. by destruct Hr as [|[]].
  - rewrite (rows_ext_in _ (fun _ => false)); [unfold rows; rewrite filter_false; simpl; lia|].
    intros x Hx. destruct (String.eqb_spec (ac_name x) k) as [<-|]; [|by rewrite andb_false_r].
    unfold latest in E. apply max_version_none in E. exfalso.
    assert (In x []) as []. rewrite <- E. apply List.filter_In. split; [done|apply String.eqb_refl].
Qed.

Lemma scan_all_ok {A B} (scan : A -> result B) l :
  (forall r, In r l -> exists a, scan r = Ok a) ->
  exists l', scan_all scan l = Ok l' /\ List.Forall2 (fun r a => scan r = Ok a) l l'.
Proof.
  induction l as [|r l IH]; intros Hl; simpl; [eauto|].
  destruct (Hl r ltac:(by left)) as [a Ha]. rewrite Ha. simpl.
  destruct IH as (l' & -> & ?); [intros; apply Hl; by right|]. simpl. eauto.
Qed.

(** Row of a version number. *)
Lemma version_row_nth name v t :
  dense t -> rows (version_row name v) t =
  match rows (named name) t !! Z.to_nat (v - 1) with Some r => if (1 <=? v) then [r] else [] | None => [] end.
Proof.
  intros Hd. assert (rows (version_row name v) t = rows (fun x => ac_version x =? v) (rows (named name) t)) as ->
    by (rewrite rows_rows; done).
  specialize (Hd name). unfold versions in Hd. rewrite length_map in Hd.
  assert (forall x, In x (rows (named name) t) -> 1 <= ac_version x < 1 + Z.of_nat (length (rows (named name) t))) as Hb.
  { intros x Hx. assert (ac_version x ∈ map ac_version (rows (named name) t)) as Hx' by by apply list_elem_of_In, in_map.
    rewrite Hd, elem_of_seqZ in Hx'. lia. }
  destruct (rows (named name) t !! Z.to_nat (v - 1)) as [r|] eqn:E.
  - assert (ac_version r = 1 + Z.of_nat (Z.to_nat (v - 1))) as Hr.
    { assert (map ac_version (rows (named name) t) !! Z.to_nat (v - 1) = Some (ac_version r)) as Hm by by rewrite list_lookup_fmap, E.
      rewrite Hd in Hm. apply lookup_seqZ in Hm as [-> _]. lia. }
    destruct (Z.leb_spec 1 v).
    + apply (rows_unique ac_version).
      * rewrite Hd. apply NoDup_seqZ.
      * apply list_elem_of_In. by eapply list_elem_of_lookup_2.
      * intros x _. rewrite Z.eqb_eq. lia.
    + rewrite (rows_ext_in _ (fun _ => false)); [apply filter_false|]. intros x Hx. specialize (Hb x Hx). apply Z.eqb_neq. lia.
  - apply lookup_ge_None in E. rewrite (rows_ext_in _ (fun _ => false)); [apply filter_false|].
    intros x Hx. specialize (Hb x Hx). apply Z.eqb_neq. lia.
Qed.

Lemma selected_history name v t :
  dense t ->
  match selected name v t with
  | Some r => In r t /\ ac_name r = name /\
      exists e, abs t name = Some e /\
        ac_version r = (if v =? LatestVersion then Z.of_nat (length (e_defs e)) else v) /\
        e_defs e !! Z.to_nat (ac_version r - 1) = Some (ac_definition r) /\
        (v = LatestVersion -> ac_enabled r = e_on e)
  | None => forall x, abs t name = Some x -> v <> LatestVersion /\ ~ (1 <= v <= Z.of_nat (length (e_defs x)))
  end.
Proof.
  intros Hd. unfold selected. fold (version_row name v). destruct (Z.eqb_spec v LatestVersion) as [Hv|Hv].
  - destruct (latest name t) as [r|] eqn:El.
    + destruct (latest_spec _ _ _ El) as (Hin & Hn & _). split_and!; [done..|].
      destruct (abs_latest _ _ _ Hd El) as [Habs Hlast]. eexists; split; [exact Habs|]. simpl.
      pose proof (latest_version _ _ _ Hd El) as Hver. rewrite length_map. split_and!; [done| |done].
      rewrite last_lookup, length_map in Hlast. rewrite <- Hlast. f_equal. lia.
    + intros x. unfold latest in El. apply max_version_none in El. unfold abs. by rewrite El.
  - rewrite version_row_nth by done. unfold abs.
    destruct (rows (named name) t !! Z.to_nat (v - 1)) as [r|] eqn:El; [destruct (Z.leb_spec 1 v)|].
    + assert (In r (rows (version_row name v) t)) as Hr.
      { rewrite version_row_nth, El by done. destruct (Z.leb_spec 1 v); [by left|lia]. }
      apply List.filter_In in Hr as [Hin Hp]. unfold version_row, named in Hp. bool_to_prop. simpl.
      split_and!; [done|by apply String.eqb_eq|].
      destruct (last (rows (named name) t)) as [l|] eqn:E; [|apply last_None in E; by rewrite E in El].
      eexists; split; [done|]. simpl. split_and!; [done| |done].
      replace (ac_version r) with v. by rewrite list_lookup_fmap, El.
    + intros x Hx. destruct (last (rows (named name) t)) as [l|] eqn:E; simplify_eq/=. rewrite length_map. split; [done|lia].
    + apply lookup_ge_None in El. intros x Hx. destruct (last (rows (named name) t)) as [l|] eqn:E; simplify_eq/=.
      rewrite length_map. split; [done|lia].
Qed.

Lemma listing_current t :
  dense t -> times_ok t ->
  exists l, scan_all scanAction (order_by ac_name (rows (is_current t) t)) = Ok l /\
    Sorted.StronglySorted str_lt (map ac_name l) /\
    (forall name, (exists a, In a l /\ ac_name a = name) <-> abs t name <> None) /\
    (forall a, In a l -> exists e, abs t (ac_name a) = Some e /\
       last (e_defs e) = Some (ac_definition a) /\ ac_version a = Z.of_nat (length (e_defs e)) /\ ac_enabled a = e_on e).
Proof.
  intros Hd Ht.
  assert (forall r, In r (order_by ac_name (rows (is_current t) t)) <-> In r t /\ latest (ac_name r) t = Some r) as Hin.
  { intros r. rewrite <- !list_elem_of_In, order_by_perm, list_elem_of_In. unfold rows. rewrite List.filter_In.
    rewrite <- list_elem_of_In. split; intros [H1 H2]; (split; [done|]); apply current_latest; try done; by apply list_elem_of_In. }
  destruct (scan_all_ok scanAction (order_by ac_name (rows (is_current t) t))) as (l & Hl & Hf).
  { intros r Hr. apply Hin in Hr as [Hr _]. destruct (scanAction_ok _ _ Ht Hr) as (a & Ha & _). eauto. }
  exists l. split; [exact Hl|].
  assert (List.Forall2 (fun r a => In r t /\ latest (ac_name r) t = Some r /\ ac_name a = ac_name r /\ ac_version a = ac_version r /\
    ac_definition a = ac_definition r /\ ac_enabled a = ac_enabled r) (order_by ac_name (rows (is_current t) t)) l) as Hf'.
  { clear Hl. revert Hin Hf. generalize (order_by ac_name (rows (is_current t) t)). intros lr Hin Hf.
    assert (forall r, In r lr -> In r t /\ latest (ac_name r) t = Some r) as Hin' by (intros; by apply Hin). clear Hin.
    induction Hf as [|r a lr l Hra Hf IH]; constructor; [|apply IH; intros; apply Hin'; by right].
    destruct (Hin' r ltac:(by left)) as [Hr Hlat]. destruct (scanAction_ok _ _ Ht Hr) as (a' & Ha & ?).
    rewrite Ha in Hra. injection Hra as <-. auto. }
  clear Hl Hf. split_and!.
  - assert (map ac_name l = map ac_name (order_by ac_name (rows (is_current t) t))) as ->.
    { clear Hin. induction Hf' as [|r a lr l Hra Hf IH]; [done|]. simpl. f_equal; [|done]. by destruct Hra as (_ & _ & -> & _). }
    apply order_by_strict. by apply current_NoDup.
  - intros name. split.
    + intros (a & Ha & <-). destruct (Forall2_In_r Hf' Ha) as (r & _ & Hr & Hlat & -> & _).
      destruct (abs_latest _ _ _ Hd Hlat) as [-> _]. done.
    + intros Habs. unfold abs in Habs. destruct (last (rows (named name) t)) as [r|] eqn:E; [|done].
      rewrite <- latest_last in E by done. destruct (latest_spec _ _ _ E) as (Hr & <- & _).
      destruct (Forall2_In_l Hf' (proj2 (Hin r) (conj Hr E))) as (a & Ha & _ & _ & Hn & _). eauto.
  - intros a Ha. destruct (Forall2_In_r Hf' Ha) as (r & _ & Hr & Hlat & -> & -> & -> & ->).
    destruct (abs_latest _ _ _ Hd Hlat) as [-> Hlast]. eexists; split; [done|]. simpl. split_and!; [done| |done].
    rewrite length_map. by apply latest_version.
Qed.

Section Claims.
Context {G : Type} `{IdSource G}.

(** The transaction of an apply always succeeds on a well-formed registry. *)
Lemma apply_applied name definition now d (g : G) :
  registry_wf (t_actions d) -> time_ok now ->
  exists a changed d', ApplyAction name definition now (mkWorld d g []) =
    (Ok (a, changed), mkWorld d' g []) /\ applied name definition d d' a changed.
Proof.
  intros [Hd Ht] Hnow. unfold ApplyAction. rewrite write_no_fault.
  unfold tx_bind, tx_query, tx_of, applyInsert, insertAction, tx_bind, tx_ret; simpl.
  pose proof (dense_latest name _ Hd) as Hl. destruct (latest name (t_actions d)) as [r|] eqn:E; simpl.
  - destruct Hl as [Hv _]. destruct (latest_spec _ _ _ E) as (Hin & Hn & _).
    destruct (abs_latest name _ _ Hd E) as [Habs Hlast].
    destruct (scanAction_ok _ _ Ht Hin) as (a & Ha & Hna & Hva & Hdef & Hen). rewrite Ha. simpl.
    rewrite Hdef. destruct (String.eqb_spec (ac_definition r) definition) as [He|He]; simpl.
    + eexists _, _, _. split; [done|]. unfold applied. rewrite Habs. simpl.
      rewrite decide_True by congruence. simpl. rewrite length_map, <- (latest_version name _ r) by done.
      split_and!; congruence || done.
    + rewrite Hva, (dense_fresh name) by (done || lia). eexists _, _, _. split; [done|].
      apply applied_insert; [done|done|lia|]. rewrite Habs. simpl. rewrite decide_False by congruence.
      by rewrite Hen.
  - rewrite (dense_fresh name _ (0 + 1) Hd) by by rewrite Hl. eexists _, _, _. split; [done|].
    apply applied_insert; [done|done|by rewrite Hl|].
    unfold latest in E. apply max_version_none in E. unfold abs. by rewrite E.
Qed.

(** What an apply does, whatever the database answers. *)
Lemma ApplyAction_cases name definition now (w : world G) :
  registry_wf (t_actions (w_db w)) -> time_ok now ->
  match ApplyAction name definition now w with
  | (Ok (a, changed), w') => applied name definition (w_db w) (w_db w') a changed
  | (Err _, w') => w_db w' = w_db w /\ w_faults w <> []
  end.
Proof.
  intros Hwf Hnow. destruct (apply_applied name definition now (w_db w) (w_gen w) Hwf Hnow) as (a & c & d' & Hr & Ha).
  unfold ApplyAction in Hr |- *. apply write_ok in Hr. simpl in Hr.
  destruct (write_done _ w _ _ _ Hr) as [(w' & -> & -> & _)|(e & w' & -> & Hdb & Hf)]; done.
Qed.

(** C30. Applying a definition refines the abstract registry, whatever
    the database answers: on success the history of the name is
    [spec_apply]'s (unchanged, nothing written and [changed] false when the
    definition is the current one; one longer otherwise, with the current
    enabled flag inherited), the returned version is its length, no other name
    changes and versions stay dense; on failure the database is untouched.
    Without a database fault it succeeds. *)
Theorem ApplyAction_refines name definition now (w : world G) :
  registry_wf (t_actions (w_db w)) -> time_ok now ->
  match ApplyAction name definition now w with
  | (Ok (a, changed), w') => applied name definition (w_db w) (w_db w') a changed
  | (Err _, w') => w_db w' = w_db w /\ w_faults w <> []
  end.
Proof. exact (ApplyAction_cases name definition now w). Qed.
Lemma set_enabled_done name on d (g : G) :
  registry_wf (t_actions d) ->
  match latest name (t_actions d) with
  | Some _ => exists a d', SetActionEnabled name on (mkWorld d g []) = (Ok a, mkWorld d' g []) /\ enabled_set name on d d' a
  | None => SetActionEnabled name on (mkWorld d g []) = (Err (not_found ("action " +:+ name)), mkWorld d g [])
  end.
Proof.
  intros [Hd Ht]. unfold SetActionEnabled. rewrite write_no_fault.
  unfold tx_bind, tx_query, tx_of, tx_modify, tx_fail; simpl.
  destruct (latest name (t_actions d)) as [r|] eqn:E; simpl; [|done].
  fold (version_row name (ac_version r)). fold (with_enabled on).
  rewrite rows_update_comm by done. rewrite version_row_latest by done.
  destruct (latest_spec _ _ _ E) as (Hin & Hn & _).
  destruct (scanAction_ok _ _ Ht Hin) as (a & Ha & Hna & Hva & Hdef & Hen).
  assert (version_row name (ac_version r) r = true) as Hp by (unfold version_row, named; by rewrite Hn, String.eqb_refl, Z.eqb_refl).
  simpl. rewrite Hp. unfold scanAction in *. simpl. destruct (parse_time (ac_created_at r)) as [tm|]; [|done].
  eexists _, _. split; [done|]. destruct (abs_latest name _ _ Hd E) as [Habs Hlast]. unfold enabled_set; simpl.
  split_and!; try done.
  - split.
    + intros n. rewrite versions_update by done. apply Hd.
    + unfold times_ok, update in *. apply List.Forall_map. eapply List.Forall_impl; [|exact Ht].
      intros x Hx. by destruct (version_row _ _ x).
  - eexists. split; [exact Habs|]. simpl. rewrite abs_with_enabled, String.eqb_refl by done.
    split_and!; try done. rewrite length_map. by apply latest_version.
  - intros n Hne. rewrite abs_with_enabled by done. by destruct (String.eqb_spec name n).
Qed.

(** What enabling or disabling does, whatever the database answers. *)
Lemma SetActionEnabled_cases name on (w : world G) :
  registry_wf (t_actions (w_db w)) ->
  match SetActionEnabled name on w with
  | (Ok a, w') => enabled_set name on (w_db w) (w_db w') a
  | (Err e, w') => w_db w' = w_db w /\
      (w_faults w <> [] \/ abs (t_actions (w_db w)) name = None /\ err_is e = ErrNotFound)
  end.
Proof.
  intros Hwf. pose proof (set_enabled_done name on (w_db w) (w_gen w) Hwf) as H'.
  unfold SetActionEnabled in H' |- *. rewrite write_no_fault in H'.
  destruct (latest name (t_actions (w_db w))) as [r|] eqn:E.
  - destruct H' as (a & d' & Hr & Ha).
    match type of Hr with (match ?m with _ => _ end = _) => destruct m as [[[a' d'']|e] g'] eqn:Em end; simplify_eq.
    destruct (write_done _ w _ _ _ Em) as [(w' & -> & -> & _)|(e & w' & -> & Hdb & Hf)]; auto.
  - match type of H' with (match ?m with _ => _ end = _) => destruct m as [[[a' d'']|e] g'] eqn:Em end; simplify_eq.
    destruct (write_fails _ w _ _ Em) as (e & w' & -> & Hdb & [->|Hf]); [|by auto]. split; [done|]. right.
    split; [|done]. unfold latest in E. apply max_version_none in E. unfold abs. by rewrite E.
Qed.

(** Enabling or disabling an action flips the flag of the row that
    governs and nothing else: definitions, versions, other names and other
    tables stay; an unknown name is [ErrNotFound]; on any error the database is
    untouched. *)
Theorem SetActionEnabled_refines name on (w : world G) :
  registry_wf (t_actions (w_db w)) ->
  match SetActionEnabled name on w with
  | (Ok a, w') => enabled_set name on (w_db w) (w_db w') a
  | (Err e, w') => w_db w' = w_db w /\
      (w_faults w <> [] \/ abs (t_actions (w_db w)) name = None /\ err_is e = ErrNotFound)
  end.
Proof. exact (SetActionEnabled_cases name on w). Qed.

(** Reading an action by version number reads that entry of its
    history, and [LatestVersion] the last one, with the enabled flag; a name or
    version that was never applied is [ErrNotFound]; nothing is written. *)
Theorem GetAction_history name v (w : world G) :
  registry_wf (t_actions (w_db w)) ->
  match GetAction name v w with
  | (Ok a, w') => w_db w' = w_db w /\ ac_name a = name /\
      exists e, abs (t_actions (w_db w)) name = Some e /\
        ac_version a = (if v =? LatestVersion then Z.of_nat (length (e_defs e)) else v) /\
        e_defs e !! Z.to_nat (ac_version a - 1) = Some (ac_definition a) /\
        (v = LatestVersion -> ac_enabled a = e_on e)
  | (Err e, w') => w_db w' = w_db w /\
      (w_faults w <> [] \/ err_is e = ErrNotFound /\
        forall x, abs (t_actions (w_db w)) name = Some x -> v <> LatestVersion /\ ~ (1 <= v <= Z.of_nat (length (e_defs x))))
  end.
Proof.
  intros [Hd Ht]. unfold GetAction. pose proof (selected_history name v _ Hd) as Hs.
  match goal with |- context [read ?c ?q w] => destruct (read c q w) as [r w'] eqn:E end.
  destruct (read_db _ _ _ _ _ E) as [-> _]. destruct r as [a|e]; (split; [done|]).
  - apply read_ok in E. destruct (selected name v _) as [r|]; [|by destruct (v =? LatestVersion)].
    destruct Hs as (Hin & Hn & e & He). destruct (scanAction_ok _ _ Ht Hin) as (a' & Ha & H1 & H2 & H3 & H4).
    rewrite Ha in E. simplify_eq/=. rewrite H1, H2, H3, H4. eauto.
  - apply read_err in E as [?|E]; [by left|]. right.
    destruct (selected name v _) as [r|]; [|by destruct (v =? LatestVersion); simplify_eq].
    destruct Hs as (Hin & _). destruct (scanAction_ok _ _ Ht Hin) as (a' & Ha & _). by rewrite Ha in E.
Qed.

(** A listing names every registered action exactly once, in strictly
    increasing order of name, each with its current definition, version and
    enabled flag. *)
Theorem ListActions_current (w : world G) :
  registry_wf (t_actions (w_db w)) ->
  match ListActions w with
  | (Ok l, w') => w_db w' = w_db w /\
      Sorted.StronglySorted str_lt (map ac_name l) /\
      (forall name, (exists a, In a l /\ ac_name a = name) <-> abs (t_actions (w_db w)) name <> None) /\
      (forall a, In a l -> exists e, abs (t_actions (w_db w)) (ac_name a) = Some e /\
         last (e_defs e) = Some (ac_definition a) /\ ac_version a = Z.of_nat (length (e_defs e)) /\ ac_enabled a = e_on e)
  | (Err _, w') => w_db w' = w_db w /\ w_faults w <> []
  end.
Proof.
  intros [Hd Ht]. unfold ListActions.
  match goal with |- context [read ?c ?q w] => destruct (read c q w) as [r w'] eqn:E end.
  destruct (read_db _ _ _ _ _ E) as [-> _].
  destruct (listing_current _ Hd Ht) as (l' & Hl' & Hok).
  destruct r as [l|e]; (split; [done|]).
  - apply read_ok in E. rewrite Hl' in E. injection E as <-. exact Hok.
  - apply read_err in E as [?|E]; [done|]. by rewrite Hl' in E.
Qed.
End Claims.

(** ** Witnesses: a registry of two versions of one action, disabled *)

Definition demo_registry : list arow :=
  [mkAct "resize" 1 "v1" true (fmt_time 0); mkAct "resize" 2 "v2" false (fmt_time 5)].

Definition demo_world : world id_stream := mkWorld (mkDb [] demo_registry []) demo_gen [].

Lemma demo_registry_wf : registry_wf (t_actions (w_db demo_world)).
Proof.
  split.
  - intros name. unfold versions, demo_world, demo_registry, rows, named. cbn -[String.eqb].
    destruct (String.eqb "resize" name); reflexivity.
  - repeat constructor; simpl; rewrite parse_fmt_time by (unfold time_ok; vm_compute; intuition congruence); done.
Qed.

(** Re-applying the current text, and applying a new one, which stays disabled. *)
Lemma ApplyAction_refines_witness :
  match ApplyAction "resize" "v3" 7 demo_world with
  | (Ok (a, changed), w') => applied "resize" "v3" (w_db demo_world) (w_db w') a changed
  | (Err _, w') => w_db w' = w_db demo_world /\ w_faults demo_world <> []
  end /\
  abs (t_actions (w_db (snd (ApplyAction "resize" "v3" 7 demo_world)))) "resize" = Some (mkEntry ["v1"; "v2"; "v3"] false).
Proof.
  split; [|vm_compute; reflexivity].
  apply (ApplyAction_refines "resize" "v3" 7 demo_world); [apply demo_registry_wf|].
  unfold time_ok. vm_compute. intuition congruence.
Defined.

Lemma SetActionEnabled_refines_witness :
  match SetActionEnabled "resize" true demo_world with
  | (Ok a, w') => enabled_set "resize" true (w_db demo_world) (w_db w') a
  | (Err e, w') => w_db w' = w_db demo_world /\
      (w_faults demo_world <> [] \/ abs (t_actions (w_db demo_world)) "resize" = None /\ err_is e = ErrNotFound)
  end.
Proof. apply (SetActionEnabled_refines "resize" true demo_world), demo_registry_wf. Defined.

Lemma GetAction_history_witness :
  match GetAction "resize" 1 demo_world with
  | (Ok a, w') => w_db w' = w_db demo_world /\ ac_name a = "resize" /\
      exists e, abs (t_actions (w_db demo_world)) "resize" = Some e /\
        ac_version a = (if 1 =? LatestVersion then Z.of_nat (length (e_defs e)) else 1) /\
        e_defs e !! Z.to_nat (ac_version a - 1) = Some (ac_definition a) /\
        (1 = LatestVersion -> ac_enabled a = e_on e)
  | (Err e, w') => w_db w' = w_db demo_world /\
      (w_faults demo_world <> [] \/ err_is e = ErrNotFound /\
        forall x, abs (t_actions (w_db demo_world)) "resize" = Some x ->
          1 <> LatestVersion /\ ~ (1 <= 1 <= Z.of_nat (length (e_defs x))))
  end.
Proof. apply (GetAction_history "resize" 1 demo_world), demo_registry_wf. Defined.

Lemma ListActions_current_witness :
  match ListActions demo_world with
  | (Ok l, w') => w_db w' = w_db demo_world /\
      Sorted.StronglySorted str_lt (map ac_name l) /\
      (forall name, (exists a, In a l /\ ac_name a = name) <-> abs (t_actions (w_db demo_world)) name <> None) /\
      (forall a, In a l -> exists e, abs (t_actions (w_db demo_world)) (ac_name a) = Some e /\
         last (e_defs e) = Some (ac_definition a) /\ ac_version a = Z.of_nat (length (e_defs e)) /\ ac_enabled a = e_on e)
  | (Err _, w') => w_db w' = w_db demo_world /\ w_faults demo_world <> []
  end.
Proof. apply (ListActions_current demo_world), demo_registry_wf. Defined.
