(* ===== verification/Deliveries.v ===== *)
(** Deliveries: internal/store/deliveries.go, with the message insert of
    messages.go that shares its transactions.

    A delivery is the processing state of one (message, action) pair.  Every
    UPDATE is a predicate (its WHERE clause) and a row function (its SET
    clause); a guarded transition is refused when no row matches. *)
From S2P Require Import Prelude GoTime Json Action Ids Db Registry.

(** ** Fan-out *)

(** What materialization decodes of a definition. *)
Record sub_input := mkSubInput { sub_queue : string; sub_correlate_on : string }.
Record subscription := mkSubscription { sub_inputs : list sub_input }.

Definition zero_sub_input : sub_input := mkSubInput "" "".

Definition sub_input_field (key : string) : option (decoder sub_input) :=
  if field_is "queue" key then Some (fld dec_string sub_queue (fun x i => mkSubInput x (sub_correlate_on i)))
  else if field_is "correlate_on" key then
    Some (fld dec_string sub_correlate_on (fun x i => mkSubInput (sub_queue i) x))
  else None.

Definition subscription_field (key : string) : option (decoder subscription) :=
  if field_is "inputs" key then
    Some (fld (dec_slice zero_sub_input (dec_struct false sub_input_field)) sub_inputs (fun x _ => mkSubscription x))
  else None.

Definition decode_subscription (definition : string) : result subscription :=
  unmarshal (dec_struct false subscription_field) (mkSubscription []) definition.

(** The loop over the inputs: a correlating input stops it, so does a match. *)
Fixpoint subscribed (queue : string) (ins : list sub_input) : bool :=
  match ins with
  | [] => false
  | i :: ins =>
      if negb (String.eqb (sub_correlate_on i) "") then false
      else if String.eqb (sub_queue i) queue then true
      else subscribed queue ins
  end.

(** The names to materialize for, of the current and enabled rows. *)
Fixpoint subscriber_names (queue : string) (l : list arow) : result (list string) :=
  match l with
  | [] => Ok []
  | r :: l =>
      match decode_subscription (ac_definition r) with
      | Err e => Err (wrapf ("decode definition of " +:+ ac_name r) e)
      | Ok sub =>
          names <-! subscriber_names queue l ;;
          Ok (if subscribed queue (sub_inputs sub) then ac_name r :: names else names)
      end
  end.

Definition enabled_current (t : list arow) : list arow :=
  order_by ac_name (rows (fun r => is_current t r && ac_enabled r) t).

(** ** Times in rows *)

Definition nullTime (s : option string) : result (option time) :=
  match s with
  | None => Ok None
  | Some s => match parse_time s with Some t => Ok (Some t) | None => Err (errorf ("parse time " +:+ s)) end
  end.

Definition scanDelivery (r : drow) : result delivery :=
  nb <-! nullTime (d_not_before r) ;;
  ca <-! nullTime (d_claimed_at r) ;;
  co <-! nullTime (d_completed_at r) ;;
  Ok (mkDelivery (d_id r) (d_message_id r) (d_action_name r) (d_action_version r) (d_state r)
        (d_attempt r) nb (d_pgid r) (d_stderr_tail r) (d_error r) ca co).

Definition scanMessage (m : mrow) : result message :=
  match parse_time (msg_created_at m) with
  | Some t => Ok (mkMessage (msg_id m) (msg_queue m) (msg_payload m) (msg_headers m) (msg_trace_id m)
                    (msg_origin_action m) (msg_origin_version m) (msg_origin_message m) t)
  | None => Err (errorf ("parse created_at " +:+ msg_created_at m))
  end.

(** The row an INSERT stores for a message. *)
Definition row_of_message (m : message) : mrow :=
  mkMessage (msg_id m) (msg_queue m) (msg_payload m) (msg_headers m) (msg_trace_id m)
    (msg_origin_action m) (msg_origin_version m) (msg_origin_message m) (fmt_time (msg_created_at m)).

(** A freshly materialized row. *)
Definition pending_row (id message_id name : string) : drow :=
  mkDelivery id (Some message_id) name None StatePending 0 None None None None None None.

(** [NULLIF(s, '')]. *)
Definition nullif (s : string) : option string := if String.eqb s "" then None else Some s.

(** Work: a claimable delivery joined with its message. *)
Record Work := mkWork { wk_delivery : delivery; wk_message : message }.

Record DeliveryListOptions := mkDeliveryListOptions {
  dlo_action : string; dlo_state : string; dlo_message_id : string; dlo_limit : Z; dlo_before_id : string
}.

Definition defaultListLimit : Z := 50.
Definition maxListLimit : Z := 1000.

(** The limit of a listing. *)
Definition clamp_limit (limit : Z) : Z :=
  let limit := if limit <=? 0 then defaultListLimit else limit in
  if limit >? maxListLimit then maxListLimit else limit.

(** ** WHERE and SET clauses *)

Definition with_id (id : string) (r : drow) : bool := String.eqb (d_id r) id.
Definition in_state (l : list dstate) (r : drow) : bool := bool_decide (d_state r ∈ l).

(** The states that keep the daemon alive. *)
Definition is_active (r : drow) : bool := in_state [StatePending; StateFailed; StateClaimed] r.

Definition is_eligible (action now : string) (r : drow) : bool :=
  String.eqb (d_action_name r) action &&
  (in_state [StatePending] r ||
   (in_state [StateFailed] r && match d_not_before r with Some g => bool_decide (str_le g now) | None => false end)).

Definition claim_row (version : Z) (now : string) (r : drow) : drow :=
  mkDelivery (d_id r) (d_message_id r) (d_action_name r) (Some version) StateClaimed (d_attempt r + 1)
    None (d_pgid r) (d_stderr_tail r) (d_error r) (Some now) (d_completed_at r).

Definition resolve_row (state : dstate) (errMsg now : string) (r : drow) : drow :=
  mkDelivery (d_id r) (d_message_id r) (d_action_name r) (d_action_version r) state (d_attempt r)
    (d_not_before r) None (d_stderr_tail r) (nullif errMsg) (d_claimed_at r) (Some now).

Definition pgid_row (pgid : Z) (r : drow) : drow :=
  mkDelivery (d_id r) (d_message_id r) (d_action_name r) (d_action_version r) (d_state r) (d_attempt r)
    (d_not_before r) (Some pgid) (d_stderr_tail r) (d_error r) (d_claimed_at r) (d_completed_at r).

Definition done_row (stderrTail now : string) (r : drow) : drow :=
  mkDelivery (d_id r) (d_message_id r) (d_action_name r) (d_action_version r) StateDone (d_attempt r)
    (d_not_before r) None (nullif stderrTail) (d_error r) (d_claimed_at r) (Some now).

Definition failed_row (dead : bool) (notBefore errMsg stderrTail now : string) (r : drow) : drow :=
  mkDelivery (d_id r) (d_message_id r) (d_action_name r) (d_action_version r)
    (if dead then StateDead else StateFailed) (d_attempt r)
    (if dead then None else Some notBefore) None (nullif stderrTail) (Some errMsg) (d_claimed_at r) (Some now).

Definition replay_row (r : drow) : drow :=
  mkDelivery (d_id r) (d_message_id r) (d_action_name r) None StatePending 0
    None (d_pgid r) None None None None.

Definition cancel_row (reason now : string) (r : drow) : drow :=
  mkDelivery (d_id r) (d_message_id r) (d_action_name r) (d_action_version r) StateCancelled (d_attempt r)
    None (d_pgid r) (d_stderr_tail r) (Some reason) (d_claimed_at r) (Some now).

Definition orphan_row (now : string) (r : drow) : drow :=
  mkDelivery (d_id r) (d_message_id r) (d_action_name r) (d_action_version r) StateFailed (d_attempt r)
    (Some now) None (d_stderr_tail r) (Some "daemon restarted") (d_claimed_at r) (d_completed_at r).

(** [MIN(not_before)] over TEXT. *)
Fixpoint min_text (l : list string) : option string :=
  match l with
  | [] => None
  | s :: l =>
      match min_text l with
      | None => Some s
      | Some s' => Some (if decide (str_le s s') then s else s')
      end
  end.

(** The join with messages. *)
Definition message_for (t : list mrow) (r : drow) : option mrow :=
  match d_message_id r with
  | Some i => head (rows (fun m => String.eqb (msg_id m) i) t)
  | None => None
  end.

Definition joined (t : list mrow) (r : drow) : bool :=
  match message_for t r with Some _ => true | None => false end.

(** The candidates of an action, before ORDER BY id LIMIT 1. *)
Definition eligible_rows (action now : string) (d : db) : list drow :=
  rows (fun r => is_eligible action now r && joined (t_messages d) r) (t_deliveries d).

(** ** Operations *)

Section Deliveries.
Context {G : Type} `{IdSource G}.

(** INSERT INTO messages: a primary key, and the origin must exist. *)
Definition insertMessage (m : message) : tx G unit := fun d g =>
  let exists_id i := existsb (fun r => String.eqb (msg_id r) i) (t_messages d) in
  if exists_id (msg_id m) ||
     match msg_origin_message m with Some o => negb (exists_id o || String.eqb o (msg_id m)) | None => false end
  then (Err (errorf "insert message: constraint failed"), g)
  else (Ok (tt, set_messages (t_messages d ++ [row_of_message m]) d), g).

(** INSERT INTO deliveries: the id and (message, action) are unique, the message
    must exist. *)
Definition insertDelivery (id message_id name : string) : tx G unit := fun d g =>
  if existsb (with_id id) (t_deliveries d) ||
     existsb (fun r => bool_decide (d_message_id r = Some message_id) && String.eqb (d_action_name r) name) (t_deliveries d) ||
     negb (existsb (fun m => String.eqb (msg_id m) message_id) (t_messages d))
  then (Err (errorf ("materialize delivery for " +:+ name +:+ ": constraint failed")), g)
  else (Ok (tt, set_deliveries (t_deliveries d ++ [pending_row id message_id name]) d), g).

Fixpoint insert_deliveries (message_id : string) (names : list string) : tx G unit :=
  match names with
  | [] => tx_ret tt
  | name :: names =>
      id <-t tx_new_id ;;
      _ <-t insertDelivery id message_id name ;;
      insert_deliveries message_id names
  end.

Definition materializeDeliveries (m : message) : tx G Z :=
  names <-t tx_query (fun d => subscriber_names (msg_queue m) (enabled_current (t_actions d))) ;;
  _ <-t insert_deliveries (msg_id m) names ;;
  tx_ret (Z.of_nat (length names)).

(** UPDATE deliveries: the number of rows affected. *)
Definition update_deliveries (p : drow -> bool) (f : drow -> drow) : tx G nat := fun d g =>
  (Ok (affected p (t_deliveries d), set_deliveries (update p f (t_deliveries d)) d), g).

Definition mustAffect (n : nat) (op id : string) : tx G unit :=
  match n with
  | O => tx_fail (errorf (op +:+ " delivery " +:+ id +:+ ": row missing or in unexpected state"))
  | S _ => tx_ret tt
  end.

(** A guarded transition of one row. *)
Definition transition (op id : string) (p : drow -> bool) (f : drow -> drow) : tx G unit :=
  n <-t update_deliveries p f ;; mustAffect n op id.

Definition NextEligible (action : string) (now : time) : M G Work :=
  read ("next eligible for " +:+ action) (fun d =>
    match head (order_by d_id (eligible_rows action (fmt_time now) d)) with
    | None => Err (mkErr ErrNotFound "not found")
    | Some r =>
        match message_for (t_messages d) r with
        | None => Err (mkErr ErrNotFound "not found")
        | Some m =>
            msg <-! match scanMessage m with Ok m => Ok m | Err e => Err (wrapf "parse created_at" e) end ;;
            nb <-! nullTime (d_not_before r) ;;
            Ok (mkWork (mkDelivery (d_id r) (d_message_id r) (d_action_name r) (d_action_version r) (d_state r)
                          (d_attempt r) nb (d_pgid r) (d_stderr_tail r) (d_error r) None None) msg)
        end
    end).

Definition ClaimDelivery (id : string) (version : Z) (now : time) : M G unit :=
  write (transition "claim" id (fun r => with_id id r && in_state [StatePending; StateFailed] r)
           (claim_row version (fmt_time now))).

Definition ResolveDelivery (id : string) (state : dstate) (errMsg : string) (now : time) : M G unit :=
  write (transition "resolve" id (with_id id) (resolve_row state errMsg (fmt_time now))).

Definition SetDeliveryPgid (id : string) (pgid : Z) : M G unit :=
  write (_ <-t update_deliveries (fun r => with_id id r && in_state [StateClaimed] r) (pgid_row pgid) ;; tx_ret tt).

(** The outputs of a completion, each with its deliveries. *)
Fixpoint append_outputs (outputs : list message) : tx G Z :=
  match outputs with
  | [] => tx_ret 0
  | m :: outputs =>
      _ <-t insertMessage m ;;
      n <-t materializeDeliveries m ;;
      k <-t append_outputs outputs ;;
      tx_ret (n + k)
  end.

Definition complete_tx (id stderrTail : string) (outputs : list message) (now : time) : tx G Z :=
  _ <-t transition "complete" id (fun r => with_id id r && in_state [StateClaimed] r)
          (done_row stderrTail (fmt_time now)) ;;
  append_outputs outputs.

Definition CompleteDelivery (id stderrTail : string) (outputs : list message) (now : time) : M G Z :=
  write (complete_tx id stderrTail outputs now).

Definition FailDelivery (id : string) (dead : bool) (notBefore : time) (errMsg stderrTail : string) (now : time) : M G unit :=
  write (transition "fail" id (fun r => with_id id r && in_state [StateClaimed] r)
           (failed_row dead (fmt_time notBefore) errMsg stderrTail (fmt_time now))).

Definition getDelivery (id : string) (d : db) : result delivery :=
  match head (rows (with_id id) (t_deliveries d)) with
  | Some r => scanDelivery r
  | None => Err (errorf "no rows in result set")
  end.

Definition ReplayDelivery (id : string) : M G delivery :=
  write (
    n <-t update_deliveries (fun r => with_id id r && in_state [StateDead] r) replay_row ;;
    match n with
    | O =>
        tx_query (fun d =>
          match head (rows (with_id id) (t_deliveries d)) with
          | None => Err (mkErr ErrNotFound ("delivery " +:+ id +:+ ": not found"))
          | Some r => Err (mkErr ErrNotDead ("delivery " +:+ id +:+ " is " +:+ state_text (d_state r) +:+ ": delivery is not dead"))
          end)
    | S _ => tx_query (getDelivery id)
    end).

Definition CancelDeliveries (action reason : string) (now : time) : M G Z :=
  write (
    n <-t update_deliveries (fun r => String.eqb (d_action_name r) action && in_state [StatePending; StateFailed] r)
            (cancel_row reason (fmt_time now)) ;;
    tx_ret (Z.of_nat n)).

Definition listDeliveries (sel : list drow -> list drow) : M G (list delivery) :=
  read "list deliveries" (fun d => wrap_errors "list deliveries" (scan_all scanDelivery (sel (t_deliveries d)))).

Definition ClaimedDeliveries : M G (list delivery) :=
  listDeliveries (fun t => order_by d_id (rows (in_state [StateClaimed]) t)).

Definition ResetOrphan (id : string) (now : time) : M G unit :=
  write (_ <-t update_deliveries (fun r => with_id id r && in_state [StateClaimed] r) (orphan_row (fmt_time now)) ;; tx_ret tt).

Definition CountActiveDeliveries : M G Z :=
  read "count active deliveries" (fun d => Ok (Z.of_nat (affected is_active (t_deliveries d)))).

Definition NextRetryAt : M G time :=
  read "next retry" (fun d =>
    match min_text (omap d_not_before (rows (in_state [StateFailed]) (t_deliveries d))) with
    | None => Err (mkErr ErrNotFound "not found")
    | Some gate => match parse_time gate with Some t => Ok t | None => Err (errorf ("parse not_before " +:+ gate)) end
    end).

Definition GetDelivery (id : string) : M G delivery :=
  read "get delivery" (fun d =>
    match head (rows (with_id id) (t_deliveries d)) with
    | Some r => wrap_errors "get delivery" (scanDelivery r)
    | None => Err (mkErr ErrNotFound ("delivery " +:+ id +:+ ": not found"))
    end).

(** The WHERE clause of a listing: an empty option does not filter. *)
Definition listed (opts : DeliveryListOptions) (r : drow) : bool :=
  (String.eqb (dlo_action opts) "" || String.eqb (d_action_name r) (dlo_action opts)) &&
  (String.eqb (dlo_state opts) "" || String.eqb (state_text (d_state r)) (dlo_state opts)) &&
  (String.eqb (dlo_message_id opts) "" || bool_decide (d_message_id r = Some (dlo_message_id opts))) &&
  (String.eqb (dlo_before_id opts) "" || bool_decide (str_lt (d_id r) (dlo_before_id opts))).

Definition ListDeliveries (opts : DeliveryListOptions) : M G (list delivery) :=
  listDeliveries (fun t => take (Z.to_nat (clamp_limit (dlo_limit opts))) (rev (order_by d_id (rows (listed opts) t)))).

(** messages.go: a message and its eager deliveries, in one transaction. *)
Definition append_tx (m : message) : tx G Z :=
  _ <-t insertMessage m ;; materializeDeliveries m.

Definition AppendMessage (m : message) : M G Z := write (append_tx m).
End Deliveries.

(** ** Rows by identifier *)

Definition find_row (id : string) (t : list drow) : option drow := head (rows (with_id id) t).

(** The WHERE and SET clauses of one row: the id is pinned, and kept. *)
Definition pinned (id : string) (q : drow -> bool) (p : drow -> bool) : Prop :=
  forall r, p r = with_id id r && q r.
Definition keeps_id (f : drow -> drow) : Prop := forall r, d_id (f r) = d_id r.

Lemma find_row_Some id t r : find_row id t = Some r -> In r t /\ d_id r = id.
Proof.
  unfold find_row. destruct (rows (with_id id) t) as [|x l] eqn:E; simpl; [done|]. intros [= ->].
  assert (In r (rows (with_id id) t)) as Hr by (rewrite E; by left).
  apply List.filter_In in Hr as [Hr Hi]. split; [done|]. by apply String.eqb_eq.
Qed.

Lemma find_row_None id t : find_row id t = None <-> forall r, In r t -> d_id r <> id.
Proof.
  unfold find_row. destruct (rows (with_id id) t) as [|x l] eqn:E; simpl; split; try done.
  - intros _ r Hr Hi. assert (In r []) as []. rewrite <- E. apply List.filter_In.
    split; [done|]. by apply String.eqb_eq.
  - intros Hn. exfalso. assert (In x (rows (with_id id) t)) as Hr by (rewrite E; by left).
    apply List.filter_In in Hr as [Hr Hi]. apply String.eqb_eq in Hi. by apply (Hn x).
Qed.

Lemma find_row_in id t r : NoDup (map d_id t) -> In r t -> d_id r = id -> find_row id t = Some r.
Proof.
  intros Hnd Hin Hi. unfold find_row. rewrite (rows_unique d_id (with_id id) r); [done..|].
  intros x _. unfold with_id. rewrite Hi. apply String.eqb_eq.
Qed.

Lemma find_row_update id q p f t j :
  pinned id q p -> keeps_id f ->
  find_row j (update p f t) =
    option_map (fun r => if String.eqb id j && q r then f r else r) (find_row j t).
Proof.
  intros Hp Hf. unfold find_row. rewrite rows_update_comm by (intros r; unfold with_id; by rewrite Hf).
  destruct (rows (with_id j) t) as [|x l] eqn:E; [done|]. simpl. f_equal. rewrite Hp.
  assert (In x (rows (with_id j) t)) as Hr by (rewrite E; by left).
  apply List.filter_In in Hr as [Hr Hi]. unfold with_id in *. apply String.eqb_eq in Hi as <-.
  by rewrite (String.eqb_sym (d_id x) id).
Qed.

Lemma affected_pinned id q p t :
  NoDup (map d_id t) -> pinned id q p ->
  affected p t = match find_row id t with Some r => if q r then 1%nat else 0%nat | None => 0%nat end.
Proof.
  intros Hnd Hp. unfold affected. rewrite (rows_ext_in _ (fun r => with_id id r && q r)) by (intros; apply Hp).
  rewrite <- rows_rows. destruct (find_row id t) as [r|] eqn:E.
  - destruct (find_row_Some _ _ _ E) as [Hin Hi]. rewrite (rows_unique d_id (with_id id) r); [|done..|].
    + simpl. by destruct (q r).
    + intros x _. unfold with_id. rewrite Hi. apply String.eqb_eq.
  - unfold find_row in E. by destruct (rows (with_id id) t).
Qed.

(** What a guarded transition of one row does to the table. *)
Definition guarded (id : string) (q : drow -> bool) (f : drow -> drow) (t t' : list drow) : Prop :=
  exists r, find_row id t = Some r /\ q r = true /\ find_row id t' = Some (f r) /\
    (forall j, j <> id -> find_row j t' = find_row j t) /\ map d_id t' = map d_id t.

Definition refused (id : string) (q : drow -> bool) (t : list drow) : Prop :=
  forall r, find_row id t = Some r -> q r = false.

Section Transition.
Context {G : Type} `{IdSource G} (op id : string) (q p : drow -> bool) (f : drow -> drow).
Context (Hp : pinned id q p) (Hf : keeps_id f).

Lemma guarded_update t :
  (0 < affected p t)%nat -> NoDup (map d_id t) -> guarded id q f t (update p f t).
Proof.
  intros Ha Hnd. rewrite (affected_pinned id q) in Ha by done.
  destruct (find_row id t) as [r|] eqn:E; [|lia]. destruct (q r) eqn:Eq; [|lia].
  exists r. split_and!; [done|done| | |by apply map_update].
  - rewrite (find_row_update id q), E by done. simpl. by rewrite String.eqb_refl, Eq.
  - intros j Hj. rewrite (find_row_update id q) by done. destruct (String.eqb_spec id j); [congruence|].
    by destruct (find_row j t).
Qed.

Lemma transition_cases d (g : G) :
  NoDup (map d_id (t_deliveries d)) ->
  (transition op id p f d g = (Ok (tt, set_deliveries (update p f (t_deliveries d)) d), g) /\
   guarded id q f (t_deliveries d) (update p f (t_deliveries d))) \/
  (exists e, transition op id p f d g = (Err e, g) /\ refused id q (t_deliveries d)).
Proof.
  intros Hnd. unfold transition, tx_bind, update_deliveries, mustAffect, tx_fail, tx_ret.
  destruct (affected p (t_deliveries d)) eqn:Ha.
  - right. eexists. split; [done|]. intros r Hr. rewrite (affected_pinned id q), Hr in Ha by done.
    by destruct (q r).
  - left. split; [done|]. apply guarded_update; [lia|done].
Qed.

(** A committed guarded transition, or an unchanged database. *)
Lemma write_transition (w : world G) :
  NoDup (map d_id (t_deliveries (w_db w))) ->
  match write (transition op id p f) w with
  | (Ok _, w') => guarded id q f (t_deliveries (w_db w)) (t_deliveries (w_db w')) /\
      w_db w' = set_deliveries (update p f (t_deliveries (w_db w))) (w_db w)
  | (Err _, w') => w_db w' = w_db w /\ (w_faults w <> [] \/ refused id q (t_deliveries (w_db w)))
  end.
Proof.
  intros Hnd. destruct (transition_cases (w_db w) (w_gen w) Hnd) as [[Ht Hg]|(e & Ht & Hr)].
  - destruct (write_done _ w _ _ _ Ht) as [(w' & -> & Hdb & _)|(e & w' & -> & ? & ?)]; [|auto]. by rewrite Hdb.
  - destruct (write_fails _ w _ _ Ht) as (e' & w' & -> & Hdb & [_|Hf']); auto.
Qed.
End Transition.

#[export] Hint Unfold pinned keeps_id : core.

(** ** Fan-out, as a specification *)

(** [m] and its deliveries appended to [d]: one pending row per subscriber, in
    order, under the identifiers [ids]. *)
Definition appended (m : message) (ids names : list string) (d d' : db) : Prop :=
  subscriber_names (msg_queue m) (enabled_current (t_actions d)) = Ok names /\
  length ids = length names /\
  d' = mkDb (t_messages d ++ [row_of_message m]) (t_actions d)
         (t_deliveries d ++ zip_with (fun i n => pending_row i (msg_id m) n) ids names).

(** A sequence of messages appended one after the other; [n] counts deliveries. *)
Inductive appended_all : list message -> Z -> db -> db -> Prop :=
| appended_nil d : appended_all [] 0 d d
| appended_cons m ms ids names n d d1 d' :
    appended m ids names d d1 -> appended_all ms n d1 d' ->
    appended_all (m :: ms) (Z.of_nat (length names) + n) d d'.

(** What an INSERT of a message or of deliveries checks. *)
Definition message_fresh (m : message) (d : db) : Prop :=
  ~ (msg_id m ∈ map msg_id (t_messages d)) /\
  forall o, msg_origin_message m = Some o -> o ∈ map msg_id (t_messages d) \/ o = msg_id m.

Lemma existsb_key {A} (key : A -> string) k t : existsb (fun r => String.eqb (key r) k) t = true <-> k ∈ map key t.
Proof.
  rewrite existsb_exists, list_elem_of_In, in_map_iff. split.
  - intros (x & Hx & He). apply String.eqb_eq in He. eauto.
  - intros (x & He & Hx). exists x. split; [done|]. by apply String.eqb_eq.
Qed.

Section Fanout.
Context {G : Type} `{IdSource G}.

Lemma insertMessage_cases m d (g : G) :
  (message_fresh m d /\ insertMessage m d g = (Ok (tt, set_messages (t_messages d ++ [row_of_message m]) d), g)) \/
  (~ message_fresh m d /\ exists e, insertMessage m d g = (Err e, g)).
Proof.
  unfold insertMessage, message_fresh. match goal with |- context [if ?c then _ else _] => destruct c eqn:E end.
  - right. split; [|eauto]. intros [Hn Ho]. apply orb_true_iff in E as [E|E].
    + by apply existsb_key in E.
    + destruct (msg_origin_message m) as [o|]; [|done]. destruct (Ho o eq_refl) as [Hin| ->].
      * apply existsb_key in Hin. by rewrite Hin in E.
      * by rewrite String.eqb_refl, orb_true_r in E.
  - left. split; [|done]. apply orb_false_iff in E as [E1 E2]. split.
    + intros Hin. apply existsb_key in Hin. congruence.
    + intros o Ho. rewrite Ho in E2. apply negb_false_iff, orb_true_iff in E2 as [E2|E2].
      * left. by apply existsb_key in E2.
      * right. by apply String.eqb_eq.
Qed.

Lemma insert_deliveries_ok mid names d (g : G) d' g' :
  insert_deliveries mid names d g = (Ok (tt, d'), g') ->
  exists ids, length ids = length names /\
    d' = set_deliveries (t_deliveries d ++ zip_with (fun i n => pending_row i mid n) ids names) d.
Proof.
  revert d g; induction names as [|name names IH]; intros d g; simpl.
  - intros [= <- <-]. exists []. split; [done|]. destruct d. unfold set_deliveries; simpl. by rewrite app_nil_r.
  - unfold tx_bind at 1, tx_new_id. destruct (new_id g) as [id g1]. unfold tx_bind, insertDelivery.
    match goal with |- context [if ?c then _ else _] => destruct c end; [by intros [=]|].
    intros Hr. destruct (IH _ _ Hr) as (ids & Hl & ->). exists (id :: ids). simpl. split; [lia|].
    unfold set_deliveries; simpl. by rewrite <- app_assoc.
Qed.

Lemma materialize_ok m d (g : G) n d' g' :
  materializeDeliveries m d g = (Ok (n, d'), g') ->
  exists ids names, subscriber_names (msg_queue m) (enabled_current (t_actions d)) = Ok names /\
    n = Z.of_nat (length names) /\ length ids = length names /\
    d' = set_deliveries (t_deliveries d ++ zip_with (fun i n => pending_row i (msg_id m) n) ids names) d.
Proof.
  unfold materializeDeliveries. intros Hr. apply tx_bind_ok in Hr as (names & d1 & g1 & Hq & Hr).
  unfold tx_query, tx_of in Hq. destruct (subscriber_names _ _) as [names'|] eqn:Es; [|done]. injection Hq as -> -> ->.
  apply tx_bind_ok in Hr as ([] & d2 & g2 & Hi & Hr). unfold tx_ret in Hr. injection Hr as <- <- <-.
  destruct (insert_deliveries_ok _ _ _ _ _ _ Hi) as (ids & Hl & ->). eauto 10.
Qed.

Lemma append_ok m d (g : G) n d' g' :
  append_tx m d g = (Ok (n, d'), g') ->
  exists ids names, n = Z.of_nat (length names) /\ message_fresh m d /\ appended m ids names d d'.
Proof.
  unfold append_tx. intros Hr. apply tx_bind_ok in Hr as ([] & d1 & g1 & Hi & Hr).
  destruct (insertMessage_cases m d g) as [(Hf & Hi')|(_ & e & Hi')]; rewrite Hi' in Hi; [|done]. injection Hi as <- <-.
  destruct (materialize_ok _ _ _ _ _ _ Hr) as (ids & names & Hs & -> & Hl & ->). exists ids, names.
  split_and!; [done|done|]. split_and!; done.
Qed.

Lemma append_outputs_ok outs d (g : G) n d' g' :
  append_outputs outs d g = (Ok (n, d'), g') -> appended_all outs n d d'.
Proof.
  revert d g n; induction outs as [|m outs IH]; intros d g n; cbn [append_outputs].
  - unfold tx_ret. intros [= <- <- <-]. constructor.
  - intros Hr. apply tx_bind_ok in Hr as ([] & d1 & g1 & Hi & Hr). apply tx_bind_ok in Hr as (k & d2 & g2 & Hm & Hr).
    apply tx_bind_ok in Hr as (j & d3 & g3 & Ho & Hr). unfold tx_ret in Hr. injection Hr as <- <- <-.
    assert (append_tx m d g = (Ok (k, d2), g2)) as Ha by (unfold append_tx, tx_bind; by rewrite Hi).
    destruct (append_ok _ _ _ _ _ _ Ha) as (ids & names & -> & _ & Happ). econstructor; [exact Happ|eauto].
Qed.
End Fanout.

(** An order of events: appending keeps what is there. *)
Lemma appended_all_prefix outs n d d' :
  appended_all outs n d d' ->
  t_actions d' = t_actions d /\ t_messages d' = t_messages d ++ map row_of_message outs /\
  exists news, t_deliveries d' = t_deliveries d ++ news /\ Z.of_nat (length news) = n /\
    Forall (fun r => d_state r = StatePending /\ d_attempt r = 0 /\ exists m, In m outs /\ d_message_id r = Some (msg_id m)) news.
Proof.
  induction 1 as [d|m ms ids names n d d1 d' Ha Hs IH].
  - rewrite app_nil_r. split_and!; [done..|]. exists []. rewrite app_nil_r. by split_and!.
  - destruct Ha as (_ & Hl & ->). simpl in IH. destruct IH as (-> & -> & news & -> & <- & Hf).
    rewrite <- app_assoc. split_and!; [done..|].
    exists (zip_with (fun i n => pending_row i (msg_id m) n) ids names ++ news).
    rewrite <- app_assoc, length_app, length_zip_with. split_and!; [done|lia|].
    apply Forall_app. split.
    + apply Forall_forall. intros r Hr. apply elem_of_zip_with in Hr as (i & x & -> & _). simpl.
      split_and!; [done..|]. exists m. auto.
    + eapply Forall_impl; [exact Hf|]. intros r (Hst & Hat & m' & Hin & Hm). split_and!; [done..|]. exists m'. simpl; auto.
Qed.

(** ** Inserting cannot fail on a well-formed database *)

(** All stored delivery identifiers are older than what [g] will issue. *)
Definition ids_below {G} `{IdSource G} (g : G) (t : list drow) : Prop := forall r, In r t -> id_below g (d_id r).

Section Total.
Context {G : Type} `{IdSource G}.

Lemma draw_live n (g : G) : id_wf g -> id_live (snd (draw n g)) -> id_live g.
Proof.
  revert g; induction n as [|n IH]; intros g Hwf; simpl; [done|].
  pose proof (new_id_wf g Hwf) as Hwf'. pose proof (new_id_live g Hwf) as Hlv.
  destruct (new_id g) as [s g1]. simpl in *. specialize (IH g1 Hwf').
  destruct (draw n g1) as [l g2]. simpl in *. auto.
Qed.

Lemma insertDelivery_fresh id mid name d (g : G) :
  (forall r, In r (t_deliveries d) -> d_id r <> id) ->
  (forall r, In r (t_deliveries d) -> d_message_id r = Some mid -> d_action_name r <> name) ->
  mid ∈ map msg_id (t_messages d) ->
  insertDelivery id mid name d g = (Ok (tt, set_deliveries (t_deliveries d ++ [pending_row id mid name]) d), g).
Proof.
  intros Hid Hpair Hm. unfold insertDelivery.
  assert (existsb (with_id id) (t_deliveries d) = false) as ->.
  { apply not_true_is_false. intros He. apply existsb_exists in He as (r & Hr & He).
    apply String.eqb_eq in He. by apply (Hid r). }
  match goal with |- context [existsb ?p (t_deliveries d)] => assert (existsb p (t_deliveries d) = false) as -> end.
  { apply not_true_is_false. intros He. apply existsb_exists in He as (r & Hr & He). bool_to_prop.
    apply (Hpair r); [done|done|]. by apply String.eqb_eq. }
  by rewrite (proj2 (existsb_key msg_id mid (t_messages d)) Hm).
Qed.

Lemma insert_deliveries_total mid names d (g : G) :
  id_wf g -> id_live (snd (draw (length names) g)) -> ids_below g (t_deliveries d) ->
  mid ∈ map msg_id (t_messages d) -> NoDup names ->
  (forall r, In r (t_deliveries d) -> d_message_id r = Some mid -> d_action_name r ∉ names) ->
  insert_deliveries mid names d g =
    (Ok (tt, set_deliveries (t_deliveries d ++ zip_with (fun i n => pending_row i mid n) (fst (draw (length names) g)) names) d),
     snd (draw (length names) g)).
Proof.
  revert d g; induction names as [|name names IH]; intros d g Hwf Hlv Hb Hm Hnd Hp.
  { simpl. destruct d. unfold tx_ret, set_deliveries; simpl. by rewrite app_nil_r. }
  apply NoDup_cons in Hnd as [Hni Hnd]. simpl in Hlv |- *. unfold tx_bind at 1, tx_new_id.
  pose proof (new_id_wf g Hwf) as Hwf'. pose proof (new_id_above g) as Habv. pose proof (new_id_below g Hwf) as Hbel.
  pose proof (id_below_mono g) as Hmono. destruct (new_id g) as [id g1] eqn:Eg. simpl in *.
  destruct (draw (length names) g1) as [l g2] eqn:Ed. simpl in Hlv.
  assert (id_live g1) as Hlv1 by (apply (draw_live (length names)); [done|]; by rewrite Ed).
  assert (forall r, In r (t_deliveries d) -> d_id r <> id) as Hid.
  { intros r Hr He. apply (str_lt_irrefl id). apply Habv; [done|done|]. rewrite <- He. by apply Hb. }
  unfold tx_bind. rewrite insertDelivery_fresh; [|done| |done].
  2:{ intros r Hr Hm' He. apply (Hp r Hr Hm'). rewrite He. left. }
  specialize (IH (set_deliveries (t_deliveries d ++ [pending_row id mid name]) d) g1). rewrite Ed in IH.
  simpl in IH. rewrite IH; try done.
  - unfold set_deliveries; simpl. by rewrite <- app_assoc.
  - intros r Hr. apply in_app_iff in Hr as [Hr|[<-|[]]]; simpl; [apply Hmono; auto|auto].
  - intros r Hr Hm' Hin. apply in_app_iff in Hr as [Hr|[<-|[]]]; [|done].
    apply (Hp r Hr Hm'). by right.
Qed.
End Total.

(** Subscribers come in order of name, without duplicates. *)
Lemma subscriber_names_sublist queue l names :
  subscriber_names queue l = Ok names -> sublist names (map ac_name l).
Proof.
  revert names; induction l as [|r l IH]; intros names; simpl; [intros [= <-]; constructor|].
  destruct (decode_subscription (ac_definition r)) as [sub|]; [|done].
  rewrite rbind_ok. intros (ns & Hns & [= <-]). specialize (IH _ Hns).
  destruct (subscribed queue (sub_inputs sub)); by constructor.
Qed.

Lemma enabled_current_NoDup t : dense t -> NoDup (map ac_name (enabled_current t)).
Proof.
  intros Hd. unfold enabled_current.
  assert (map ac_name (order_by ac_name (rows (fun r => is_current t r && ac_enabled r) t)) ≡ₚ
    map ac_name (rows ac_enabled (rows (is_current t) t))) as ->.
  { apply Permutation_map. rewrite order_by_perm. by rewrite rows_rows. }
  pose proof (current_NoDup t Hd) as Hnd. revert Hnd. generalize (rows (is_current t) t). clear.
  induction l as [|r l IH]; intros Hnd; simpl in *; [done|]. apply NoDup_cons in Hnd as [Hni Hnd].
  unfold rows. simpl. fold (rows ac_enabled l). destruct (ac_enabled r); [|auto]. simpl. apply NoDup_cons. split; [|auto].
  intros Hin. apply Hni. apply list_elem_of_In, in_map_iff in Hin as (x & Hx & Hin).
  apply List.filter_In in Hin as [Hin _]. rewrite <- Hx. apply list_elem_of_In. by apply in_map.
Qed.

(** ** Two decoders of one definition

    The scheduler decodes a stored definition into an [Action], fan-out into a
    [subscription].  The second is the image of the first. *)
Definition sub_of (i : Input) : sub_input := mkSubInput (in_queue i) (in_correlate_on i).

(** [d2] decodes the image under [h] of what [d1] decodes. *)
Definition tracks {A B} (h : A -> B) (d1 : decoder A) (d2 : decoder B) : Prop :=
  forall a j a', d1 a j = Ok a' -> d2 (h a) j = Ok (h a').

Lemma tracks_id {A} (d : decoder A) : tracks id d d.
Proof. by intros a j a' Ha. Qed.

Lemma dec_elems_tracks {A B} (h : A -> B) d1 d2 z js prev l :
  tracks h d1 d2 -> dec_elems z d1 prev js = Ok l -> dec_elems (h z) d2 (map h prev) js = Ok (map h l).
Proof.
  intros Ht. revert prev l; induction js as [|j js IH]; intros prev l; simpl; [by intros [= <-]|].
  rewrite rbind_ok. intros (x & Hx & Hl). rewrite rbind_ok in Hl. destruct Hl as (xs & Hxs & [= <-]).
  apply Ht in Hx. apply IH in Hxs. destruct prev as [|p prev]; simpl in *; rewrite Hx; simpl; by rewrite Hxs.
Qed.

Lemma dec_slice_tracks {A B} (h : A -> B) d1 d2 z :
  tracks h d1 d2 -> tracks (map h) (dec_slice z d1) (dec_slice (h z) d2).
Proof.
  intros Ht a j a'. unfold dec_slice. destruct j; try done.
  - by intros [= <-].
  - by apply dec_elems_tracks.
Qed.

(** Each field of the first is the field of the second, or one it skips. *)
Lemma dec_struct_tracks {A B} (h : A -> B) f1 f2 :
  (forall key, match f1 key with
     | Some d1 => match f2 key with Some d2 => tracks h d1 d2 | None => forall a j a', d1 a j = Ok a' -> h a' = h a end
     | None => f2 key = None
     end) ->
  tracks h (dec_struct false f1) (dec_struct false f2).
Proof.
  intros Hf a j a'. unfold dec_struct. destruct j as [| | | | |kvs]; try done; [by intros [= <-]|].
  intros Hr. revert a Hr. induction kvs as [|[key v] kvs IH]; intros a Hr; simpl in *; [by injection Hr as ->|].
  specialize (Hf key). destruct (f1 key) as [d1|].
  - destruct (d1 a v) as [a1|e] eqn:E1.
    2:{ exfalso. clear -Hr. induction kvs as [|kv kvs IH]; simpl in *; [done|auto]. }
    specialize (IH _ Hr). destruct (f2 key) as [d2|].
    + by rewrite (Hf _ _ _ E1).
    + by rewrite <- (Hf _ _ _ E1).
  - rewrite Hf. auto.
Qed.

Lemma field_is_fold n k : field_is n k = true -> fold_name n = fold_name k.
Proof.
  unfold field_is. rewrite orb_true_iff, !String.eqb_eq. by intros [-> | ->].
Qed.

(** A member name denotes at most one field. *)
Lemma field_is_other n1 n2 k : field_is n1 k = true -> fold_name n1 <> fold_name n2 -> field_is n2 k = false.
Proof.
  intros H1 Hn. apply not_true_is_false. intros H2. apply field_is_fold in H1, H2. congruence.
Qed.

Lemma fld_tracks {A B C D} (h : A -> B) (k : C -> D) d1 d2 (g1 : A -> C) (s1 : C -> A -> A) (g2 : B -> D) (s2 : D -> B -> B) :
  tracks k d1 d2 -> (forall a, g2 (h a) = k (g1 a)) -> (forall x a, h (s1 x a) = s2 (k x) (h a)) ->
  tracks h (fld d1 g1 s1) (fld d2 g2 s2).
Proof.
  intros Ht Hg Hs a j a'. unfold fld. rewrite rbind_ok. intros (x & Hx & [= <-]). rewrite Hg, (Ht _ _ _ Hx). simpl. by rewrite Hs.
Qed.

Lemma fld_skips {A B C} (h : A -> B) (d1 : decoder C) (g1 : A -> C) (s1 : C -> A -> A) :
  (forall x a, h (s1 x a) = h a) -> forall a j a', fld d1 g1 s1 a j = Ok a' -> h a' = h a.
Proof. intros Hs a j a'. unfold fld. rewrite rbind_ok. intros (x & _ & [= <-]). apply Hs. Qed.

(** The other fields a name could have denoted are excluded. *)
Ltac other_fields E :=
  repeat match goal with
  | |- context [field_is ?n ?k] =>
      lazymatch type of E with field_is n k = _ => rewrite E | _ => rewrite (field_is_other _ n _ E) by done end
  end.

Lemma input_tracks : tracks sub_of (dec_struct false Input_field) (dec_struct false sub_input_field).
Proof.
  apply dec_struct_tracks. intros key. unfold Input_field, sub_input_field.
  destruct (field_is "queue" key) eqn:E1; [apply (fld_tracks _ id); auto using tracks_id|].
  destruct (field_is "filter" key) eqn:E2; [other_fields E2; by apply fld_skips|].
  destruct (field_is "correlate_on" key) eqn:E3; [apply (fld_tracks _ id); auto using tracks_id|done].
Qed.

Definition subscription_of (a : Action) : subscription := mkSubscription (map sub_of (act_inputs a)).

Lemma action_tracks : tracks subscription_of (dec_Action false) (dec_struct false subscription_field).
Proof.
  apply dec_struct_tracks. intros key. unfold Action_field, subscription_field.
  destruct (field_is "name" key) eqn:E1; [other_fields E1; apply fld_skips; by intros x []|].
  destruct (field_is "inputs" key) eqn:E2.
  { apply (fld_tracks _ (map sub_of)); [|done|by intros x []]. apply (dec_slice_tracks sub_of _ _ zero_Input), input_tracks. }
  repeat (match goal with |- context [field_is ?n key] => destruct (field_is n key) end; [apply fld_skips; by intros x []|]).
  done.
Qed.

Lemma decode_agree definition a :
  unmarshal_Action definition = Ok a -> decode_subscription definition = Ok (subscription_of a).
Proof.
  unfold unmarshal_Action, decode_subscription, unmarshal. destruct (parse definition) as [j|]; [|done].
  intros Ha. by apply (action_tracks _ _ _ Ha).
Qed.

(** On all-or-nothing inputs the loop answers: not a join, and the queue is an input. *)
Lemma subscribed_plain queue ins :
  Forall (fun i => in_correlate_on i = "") ins ->
  subscribed queue (map sub_of ins) = existsb (fun i => String.eqb (in_queue i) queue) ins.
Proof.
  induction 1 as [|i ins Hi Hf IH]; [done|]. simpl. rewrite Hi. simpl. rewrite IH. by destruct (String.eqb _ _).
Qed.

(** Fan-out and scheduling read the same thing in a stored
    definition: where the scheduler decodes an action, fan-out decodes its
    inputs, and for inputs that are all or none correlated a queue is
    subscribed exactly when the action is no join and lists it. *)
Theorem subscription_agrees definition a queue :
  unmarshal_Action definition = Ok a ->
  Forall (fun i => in_correlate_on i <> "") (act_inputs a) \/ Forall (fun i => in_correlate_on i = "") (act_inputs a) ->
  exists sub, decode_subscription definition = Ok sub /\
    (subscribed queue (sub_inputs sub) = true <-> IsJoin a = false /\ queue ∈ Queues a).
Proof.
  intros Ha Hj. exists (subscription_of a). split; [by apply decode_agree|]. simpl. unfold IsJoin, Queues.
  destruct Hj as [Hj|Hj].
  - destruct (act_inputs a) as [|i ins]; simpl.
    + split; [done|]. intros [_ Hq]. inversion Hq.
    + apply Forall_cons in Hj as [Hi _]. destruct (String.eqb_spec (in_correlate_on i) ""); [done|]. simpl. by split; intros; destruct_and?.
  - rewrite subscribed_plain by done. rewrite existsb_exists. split.
    + intros (i & Hi & Hq). apply String.eqb_eq in Hq as <-. split.
      * destruct (act_inputs a) as [|x ins]; [done|]. apply Forall_cons in Hj as [Hx _]. by rewrite Hx.
      * apply list_elem_of_fmap. exists i. split; [done|]. by apply list_elem_of_In.
    + intros [_ Hq]. apply list_elem_of_fmap in Hq as (i & -> & Hi). exists i. split; [by apply list_elem_of_In|apply String.eqb_refl].
Qed.

Lemma subscription_agrees_witness :
  exists sub, decode_subscription sample_def = Ok sub /\
    (subscribed "raw" (sub_inputs sub) = true <-> IsJoin sample_action = false /\ "raw" ∈ Queues sample_action).
Proof.
  apply (subscription_agrees sample_def sample_action "raw"); [vm_compute; reflexivity|].
  right. repeat constructor.
Defined.

(** ** Properties of the operations *)

Definition unclaimed : drow -> bool := in_state [StatePending; StateFailed].
Definition claimed : drow -> bool := in_state [StateClaimed].
Definition dead : drow -> bool := in_state [StateDead].

(** Only the deliveries table changes. *)
Definition only_deliveries (d d' : db) : Prop := t_messages d' = t_messages d /\ t_actions d' = t_actions d.

Section Operations.
Context {G : Type} `{IdSource G}.

(** A claim succeeds exactly on a pending or failed delivery (given
    a working database): that row becomes claimed under the given version with
    one more attempt, nothing else changes, and until the row is released no
    other claim of it succeeds. *)
Theorem ClaimDelivery_exclusive id version now (w : world G) :
  NoDup (map d_id (t_deliveries (w_db w))) ->
  match ClaimDelivery id version now w with
  | (Ok _, w') =>
      guarded id unclaimed (claim_row version (fmt_time now)) (t_deliveries (w_db w)) (t_deliveries (w_db w')) /\
      only_deliveries (w_db w) (w_db w') /\
      forall v2 now2 (w2 : world G), w_db w2 = w_db w' -> is_ok (fst (ClaimDelivery id v2 now2 w2)) = false
  | (Err _, w') => w_db w' = w_db w /\ (w_faults w <> [] \/ refused id unclaimed (t_deliveries (w_db w)))
  end.
Proof.
  intros Hnd. unfold ClaimDelivery.
  assert (forall v t, keeps_id (claim_row v t)) as Hk by done.
  pose proof (write_transition "claim" id unclaimed _ _ (fun r => eq_refl) (Hk version (fmt_time now)) w Hnd) as Hw.
  fold unclaimed. destruct (write _ w) as [[[]|e] w']; [|done]. destruct Hw as [Hg Hdb].
  split; [done|]. split; [by rewrite Hdb|]. intros v2 now2 w2 Hw2.
  destruct Hg as (r & _ & _ & Hr & _ & Hids).
  pose proof (write_transition "claim" id unclaimed _ _ (fun r => eq_refl) (Hk v2 (fmt_time now2)) w2) as H2.
  fold unclaimed. destruct (write _ w2) as [[[]|e] w2']; [|done]. exfalso.
  destruct H2 as ((r2 & Hr2 & Hq & _) & _); [by rewrite Hw2, Hids|].
  rewrite Hw2, Hr in Hr2. injection Hr2 as <-. done.
Qed.

(** Recording a failed execution succeeds exactly on a claimed
    delivery: it becomes dead without a gate, or failed behind the gate, the
    process group cleared and the error recorded; nothing else changes. *)
Theorem FailDelivery_outcome id isdead notBefore errMsg tail now (w : world G) :
  NoDup (map d_id (t_deliveries (w_db w))) ->
  match FailDelivery id isdead notBefore errMsg tail now w with
  | (Ok _, w') => only_deliveries (w_db w) (w_db w') /\
      guarded id claimed (failed_row isdead (fmt_time notBefore) errMsg tail (fmt_time now))
        (t_deliveries (w_db w)) (t_deliveries (w_db w')) /\
      exists r, find_row id (t_deliveries (w_db w')) = Some r /\ d_pgid r = None /\ d_error r = Some errMsg /\
        (if isdead then d_state r = StateDead /\ d_not_before r = None
         else d_state r = StateFailed /\ d_not_before r = Some (fmt_time notBefore))
  | (Err _, w') => w_db w' = w_db w /\ (w_faults w <> [] \/ refused id claimed (t_deliveries (w_db w)))
  end.
Proof.
  intros Hnd. unfold FailDelivery. fold claimed.
  assert (keeps_id (failed_row isdead (fmt_time notBefore) errMsg tail (fmt_time now))) as Hk by done.
  pose proof (write_transition "fail" id claimed _ _ (fun r => eq_refl) Hk w Hnd) as Hw.
  destruct (write _ w) as [[[]|e] w']; [|done]. destruct Hw as [Hg Hdb].
  split; [by rewrite Hdb|]. split; [done|]. destruct Hg as (r & _ & _ & Hr & _). eexists; split; [exact Hr|].
  by destruct isdead.
Qed.

(** What a replay does, whatever the database answers. *)
Lemma ReplayDelivery_cases id (w : world G) :
  NoDup (map d_id (t_deliveries (w_db w))) ->
  match ReplayDelivery id w with
  | (Ok v, w') => only_deliveries (w_db w) (w_db w') /\
      guarded id dead replay_row (t_deliveries (w_db w)) (t_deliveries (w_db w')) /\
      d_id v = id /\ d_state v = StatePending /\ d_attempt v = 0 /\ d_action_version v = None /\ d_error v = None
  | (Err e, w') => w_db w' = w_db w /\
      (w_faults w <> [] \/
       match find_row id (t_deliveries (w_db w)) with
       | None => err_is e = ErrNotFound
       | Some r => d_state r <> StateDead /\ err_is e = ErrNotDead
       end)
  end.
Proof.
  intros Hnd. unfold ReplayDelivery. fold dead.
  assert (Hk : keeps_id replay_row) by done.
  pose proof (affected_pinned id dead (fun r => with_id id r && dead r) _ Hnd (fun r => eq_refl)) as Ha.
  destruct (find_row id (t_deliveries (w_db w))) as [r|] eqn:Er.
  - destruct (find_row_Some _ _ _ Er) as [Hin Hid]. destruct (dead r) eqn:Ed.
    + assert (0 < affected (fun r => with_id id r && dead r) (t_deliveries (w_db w)))%nat as Hpos by lia.
      pose proof (guarded_update id dead _ replay_row (fun r => eq_refl) Hk _ Hpos Hnd) as Hg.
      pose proof Hg as (r0 & Hr0 & _ & Hr' & _). rewrite Er in Hr0. injection Hr0 as <-.
      match goal with |- context [write ?m w] =>
        assert (m (w_db w) (w_gen w) = (Ok (mkDelivery (d_id r) (d_message_id r) (d_action_name r) None StatePending 0 None (d_pgid r) None None None None,
          set_deliveries (update (fun r => with_id id r && dead r) replay_row (t_deliveries (w_db w))) (w_db w)), w_gen w)) as Hm end.
      { unfold tx_bind, update_deliveries. rewrite Ha. unfold tx_query, tx_of, getDelivery, set_deliveries; simpl.
        fold (find_row id (update (fun r => with_id id r && dead r) replay_row (t_deliveries (w_db w)))). by rewrite Hr'. }
      destruct (write_done _ w _ _ _ Hm) as [(w' & -> & Hdb & _)|(e & w' & -> & ? & ?)]; [|auto]. by rewrite Hdb.
    + match goal with |- context [write ?m w] => assert (exists msg, m (w_db w) (w_gen w) = (Err (mkErr ErrNotDead msg), w_gen w)) as [msg Hm] end.
      { unfold tx_bind, update_deliveries. rewrite Ha. unfold tx_query, tx_of. simpl.
        fold (find_row id (update (fun r => with_id id r && dead r) replay_row (t_deliveries (w_db w)))).
        rewrite (find_row_update id dead), Er by done. simpl. eauto. }
      destruct (write_fails _ w _ _ Hm) as (e' & w' & -> & Hdb & [->|Hf']); (split; [done|]); [|by left].
      right. split; [|done]. intros Hst. unfold dead, in_state in Ed. rewrite Hst in Ed. done.
  - match goal with |- context [write ?m w] => assert (exists msg, m (w_db w) (w_gen w) = (Err (mkErr ErrNotFound msg), w_gen w)) as [msg Hm] end.
    { unfold tx_bind, update_deliveries. rewrite Ha. unfold tx_query, tx_of. simpl.
      fold (find_row id (update (fun r => with_id id r && dead r) replay_row (t_deliveries (w_db w)))).
      rewrite (find_row_update id dead), Er by done. simpl. eauto. }
    destruct (write_fails _ w _ _ Hm) as (e' & w' & -> & Hdb & [->|Hf']); (split; [done|]); [|by left]. by right.
Qed.

(** A replay resets exactly a dead delivery - pending, attempt 0,
    no version, no error - and answers the reset row; otherwise the database is
    untouched and the error says whether the delivery is missing
    ([ErrNotFound]) or in another state ([ErrNotDead]). *)
Theorem ReplayDelivery_outcome id (w : world G) :
  NoDup (map d_id (t_deliveries (w_db w))) ->
  match ReplayDelivery id w with
  | (Ok v, w') => only_deliveries (w_db w) (w_db w') /\
      guarded id dead replay_row (t_deliveries (w_db w)) (t_deliveries (w_db w')) /\
      d_id v = id /\ d_state v = StatePending /\ d_attempt v = 0 /\ d_action_version v = None /\ d_error v = None
  | (Err e, w') => w_db w' = w_db w /\
      (w_faults w <> [] \/
       match find_row id (t_deliveries (w_db w)) with
       | None => err_is e = ErrNotFound
       | Some r => d_state r <> StateDead /\ err_is e = ErrNotDead
       end)
  end.
Proof. exact (ReplayDelivery_cases id w). Qed.
End Operations.

(** ** Selection *)

(** The gates of a table are texts of instants. *)
Definition gates_ok (t : list drow) : Prop :=
  forall r s, In r t -> d_not_before r = Some s -> exists g, time_ok g /\ s = fmt_time g.

(** Stored messages scan. *)
Definition messages_ok (t : list mrow) : Prop := forall m, In m t -> parse_time (msg_created_at m) <> None.

(** A delivery of [action] whose message exists. *)
Definition waiting (action : string) (d : db) (r : drow) : Prop :=
  In r (t_deliveries d) /\ d_action_name r = action /\ exists m, message_for (t_messages d) r = Some m.

(** Claimable whatever the fraction of the second: pending, or the gate lies in
    an earlier second. *)
Definition surely_eligible (action : string) (now : time) (d : db) (r : drow) : Prop :=
  waiting action d r /\
  (d_state r = StatePending \/
   d_state r = StateFailed /\ exists g, time_ok g /\ d_not_before r = Some (fmt_time g) /\ g / Second < now / Second).

Lemma in_state_In l r : in_state l r = true <-> d_state r ∈ l.
Proof. apply bool_decide_eq_true. Qed.

Lemma message_for_In t r m : message_for t r = Some m -> In m t /\ d_message_id r = Some (msg_id m).
Proof.
  unfold message_for. destruct (d_message_id r) as [i|]; [|done].
  destruct (rows _ t) as [|x l] eqn:E; simpl; [done|]. intros [= ->].
  assert (In m (rows (fun m => String.eqb (msg_id m) i) t)) as Hm by (rewrite E; by left).
  apply List.filter_In in Hm as [Hm Hi]. apply String.eqb_eq in Hi. by subst.
Qed.

(** The WHERE clause between its certain and its possible meaning. *)
Lemma eligible_bounds action now d r :
  gates_ok (t_deliveries d) -> time_ok now -> In r (t_deliveries d) ->
  (d_action_name r = action ->
   (d_state r = StatePending \/
    d_state r = StateFailed /\ exists g, time_ok g /\ d_not_before r = Some (fmt_time g) /\ g / Second < now / Second) ->
   is_eligible action (fmt_time now) r = true) /\
  (is_eligible action (fmt_time now) r = true -> d_action_name r = action /\
   (d_state r = StatePending \/
    d_state r = StateFailed /\ exists g, time_ok g /\ d_not_before r = Some (fmt_time g) /\ g / Second <= now / Second)).
Proof.
  intros Hg Hnow Hin. unfold is_eligible. rewrite andb_true_iff, orb_true_iff, andb_true_iff, String.eqb_eq, !in_state_In.
  split.
  - intros -> [Hs|(Hs & g & Hok & Hnb & Hlt)]; (split; [done|]); rewrite Hs; [left; by left|right].
    split; [by left|]. rewrite Hnb. apply bool_decide_eq_true, str_le_lteq. left. by apply fmt_time_lt_secs.
  - intros [Ha Hs]. split; [done|]. destruct Hs as [Hs|[Hs Hle]].
    + left. by apply list_elem_of_singleton in Hs.
    + right. split; [by apply list_elem_of_singleton in Hs|]. destruct (d_not_before r) as [s|] eqn:E; [|done].
      destruct (Hg r s Hin E) as (g & Hok & ->). apply bool_decide_eq_true in Hle. exists g. split_and!; [done..|].
      by apply fmt_time_le_secs.
Qed.

Section Selection.
Context {G : Type} `{IdSource G}.

(** The selected delivery belongs to the action and is pending, or failed with a
    gate that has passed up to the current second; it is the oldest: no
    delivery that is surely claimable has a smaller identifier.  Answering
    "none" means there is none that is surely claimable.  (Within the second of
    the gate the comparison of texts may err either way.) *)
Theorem NextEligible_oldest action now (w : world G) :
  gates_ok (t_deliveries (w_db w)) -> messages_ok (t_messages (w_db w)) -> time_ok now ->
  match NextEligible action now w with
  | (Ok wk, w') => w_db w' = w_db w /\
      exists r, waiting action (w_db w) r /\ d_id r = d_id (wk_delivery wk) /\ d_state r = d_state (wk_delivery wk) /\
        d_attempt r = d_attempt (wk_delivery wk) /\ d_message_id r = Some (msg_id (wk_message wk)) /\
        (d_state r = StatePending \/
         d_state r = StateFailed /\ exists g, time_ok g /\ d_not_before r = Some (fmt_time g) /\ g / Second <= now / Second) /\
        forall r', surely_eligible action now (w_db w) r' -> str_le (d_id r) (d_id r')
  | (Err e, w') => w_db w' = w_db w /\
      (w_faults w <> [] \/ err_is e = ErrNotFound /\ forall r', ~ surely_eligible action now (w_db w) r')
  end.
Proof.
  intros Hg Hm Hnow. unfold NextEligible.
  match goal with |- context [read ?c ?q w] => destruct (read c q w) as [r w'] eqn:E end.
  destruct (read_db _ _ _ _ _ E) as [-> _].
  set (found := eligible_rows action (fmt_time now) (w_db w)) in *.
  assert (forall x, surely_eligible action now (w_db w) x -> In x found) as Hsure.
  { intros x [(Hin & Ha & m & Hmx) Hs]. apply List.filter_In. split; [done|].
    apply andb_true_iff. split; [by apply (eligible_bounds action now (w_db w))|]. unfold joined. by rewrite Hmx. }
  assert (forall x, In x found -> waiting action (w_db w) x /\ is_eligible action (fmt_time now) x = true) as Hfound.
  { intros x Hx. apply List.filter_In in Hx as [Hin Hx]. apply andb_true_iff in Hx as [He Hj]. split; [|done].
    destruct (proj2 (eligible_bounds action now (w_db w) x Hg Hnow Hin) He) as [Ha _].
    split_and!; [done..|]. unfold joined in Hj. destruct (message_for _ x); [eauto|done]. }
  destruct (head (order_by d_id found)) as [x|] eqn:Eh.
  - destruct (order_by_head _ _ _ Eh) as [Hin Hmin]. destruct (Hfound x Hin) as [Hw He].
    pose proof Hw as (Hinx & _ & m & Hmx). destruct (proj2 (eligible_bounds action now (w_db w) x Hg Hnow Hinx) He) as [_ Hst].
    destruct (message_for_In _ _ _ Hmx) as [Hm' Hid].
    assert (exists msg, scanMessage m = Ok msg /\ msg_id msg = msg_id m) as (msg & Hmsg & Hmid).
    { unfold scanMessage. specialize (Hm m Hm'). destruct (parse_time (msg_created_at m)); [eauto|done]. }
    assert (exists nb, nullTime (d_not_before x) = Ok nb) as [nb Hnb].
    { unfold nullTime. destruct (d_not_before x) as [s|] eqn:Es; [|eauto].
      destruct (Hg x s Hinx Es) as (g & Hok & ->). rewrite parse_fmt_time by done. eauto. }
    destruct r as [wk|e].
    + apply read_ok in E. fold found in E. rewrite Eh, Hmx, Hmsg in E. simpl in E. rewrite Hnb in E. simpl in E.
      injection E as <-. split; [done|]. exists x. simpl. rewrite Hmid. split_and!; try done. intros r' Hr'. apply Hmin. auto.
    + apply read_err in E as [?|E]; [by auto|]. fold found in E. rewrite Eh, Hmx, Hmsg in E. simpl in E.
      by rewrite Hnb in E.
  - apply order_by_head_none in Eh as Hnil. destruct r as [wk|e].
    + apply read_ok in E. fold found in E. by rewrite Eh in E.
    + split; [done|]. apply read_err in E as [?|E]; [by left|right]. fold found in E. rewrite Eh in E.
      injection E as <-. split; [done|]. intros r' Hr'. specialize (Hsure r' Hr'). by rewrite Hnil in Hsure.
Qed.
End Selection.

Lemma min_text_spec l s : min_text l = Some s -> In s l /\ forall s', In s' l -> str_le s s'.
Proof.
  revert s; induction l as [|x l IH]; intros s; simpl; [done|].
  destruct (min_text l) as [y|] eqn:E.
  - destruct (IH y eq_refl) as [Hy Hmin]. destruct (decide (str_le x y)) as [Hle|Hle]; intros [= <-].
    + split; [by left|]. intros s' [->|Hs']; [reflexivity|]. etrans; [exact Hle|auto].
    + split; [by right|]. intros s' [<-|Hs']; [|auto]. by destruct (total str_le x y).
  - intros [= <-]. split; [by left|]. intros s' [->|Hs']; [reflexivity|]. destruct l; [done|].
    simpl in E. by destruct (min_text l).
Qed.

Lemma min_text_none l : min_text l = None <-> l = [].
Proof. destruct l; simpl; [done|]. by destruct (min_text l). Qed.

(** A failed delivery behind the gate [g]. *)
Definition gated (d : db) (r : drow) (g : time) : Prop :=
  In r (t_deliveries d) /\ d_state r = StateFailed /\ time_ok g /\ d_not_before r = Some (fmt_time g).

Lemma gated_omap d r g : gated d r g -> In (fmt_time g) (omap d_not_before (rows (in_state [StateFailed]) (t_deliveries d))).
Proof.
  intros (Hin & Hs & _ & Hg). apply list_elem_of_In, list_elem_of_omap. exists r. split; [|done].
  apply list_elem_of_In, List.filter_In. split; [done|]. apply in_state_In. rewrite Hs. by left.
Qed.

Section Retry.
Context {G : Type} `{IdSource G}.

Lemma NextRetryAt_cases (w : world G) :
  gates_ok (t_deliveries (w_db w)) ->
  match NextRetryAt w with
  | (Ok t, w') => w_db w' = w_db w /\ (exists r, gated (w_db w) r t) /\
      forall r g, gated (w_db w) r g -> t / Second <= g / Second /\ t < g + Second
  | (Err e, w') => w_db w' = w_db w /\
      (w_faults w <> [] \/ err_is e = ErrNotFound /\ forall r g, ~ gated (w_db w) r g)
  end.
Proof.
  intros Hg. unfold NextRetryAt. set (gates := omap d_not_before (rows (in_state [StateFailed]) (t_deliveries (w_db w)))).
  match goal with |- context [read ?c ?q w] => destruct (read c q w) as [r w'] eqn:E end.
  destruct (read_db _ _ _ _ _ E) as [-> _].
  assert (forall s, In s gates -> exists r g, s = fmt_time g /\ gated (w_db w) r g) as Hgates.
  { intros s Hs. apply list_elem_of_In, list_elem_of_omap in Hs as (x & Hx & Hs). apply list_elem_of_In, List.filter_In in Hx as [Hx Hst].
    apply in_state_In, list_elem_of_singleton in Hst. destruct (Hg x s Hx Hs) as (g & Hok & ->). exists x, g. done. }
  destruct (min_text gates) as [s|] eqn:Em.
  - destruct (min_text_spec _ _ Em) as [Hin Hmin]. destruct (Hgates s Hin) as (x & g & -> & Hx).
    pose proof Hx as (_ & _ & Hok & _). destruct r as [t|e].
    + apply read_ok in E. fold gates in E. rewrite Em, parse_fmt_time in E by done. injection E as <-. split_and!; [done|eauto|].
      intros r' g' Hr'. pose proof (gated_omap _ _ _ Hr') as Hle. apply Hmin in Hle. destruct Hr' as (_ & _ & Hok' & _).
      apply fmt_time_le_secs in Hle; [|done..]. unfold Second in *. split; [done|zdiv].
    + apply read_err in E as [?|E]; [by auto|]. fold gates in E. by rewrite Em, parse_fmt_time in E by done.
  - apply min_text_none in Em as Hnil. destruct r as [t|e].
    + apply read_ok in E. fold gates in E. by rewrite Em in E.
    + split; [done|]. apply read_err in E as [?|E]; [by left|right]. fold gates in E. rewrite Em in E. injection E as <-.
      split; [done|]. intros r g Hr. apply gated_omap in Hr. fold gates in Hr. by rewrite Hnil in Hr.
Qed.

(** The next retry time is the gate of some failed delivery and lies in the
    earliest second any failed delivery waits for, so that no gate is more than
    one second earlier; [ErrNotFound] means nothing waits. *)
Theorem NextRetryAt_earliest (w : world G) :
  gates_ok (t_deliveries (w_db w)) ->
  match NextRetryAt w with
  | (Ok t, w') => w_db w' = w_db w /\ (exists r, gated (w_db w) r t) /\
      forall r g, gated (w_db w) r g -> t / Second <= g / Second /\ t < g + Second
  | (Err e, w') => w_db w' = w_db w /\
      (w_faults w <> [] \/ err_is e = ErrNotFound /\ forall r g, ~ gated (w_db w) r g)
  end.
Proof. apply NextRetryAt_cases. Qed.

(** What a cancellation does, whatever the database answers. *)
Lemma CancelDeliveries_cases action reason now (w : world G) :
  match CancelDeliveries action reason now w with
  | (Ok n, w') => only_deliveries (w_db w) (w_db w') /\
      List.Forall2 (fun r r' =>
        if String.eqb (d_action_name r) action && unclaimed r then r' = cancel_row reason (fmt_time now) r else r' = r)
        (t_deliveries (w_db w)) (t_deliveries (w_db w')) /\
      n = Z.of_nat (affected (fun r => String.eqb (d_action_name r) action && unclaimed r) (t_deliveries (w_db w))) /\
      (forall r, In r (t_deliveries (w_db w')) -> d_action_name r = action -> d_state r <> StatePending /\ d_state r <> StateFailed)
  | (Err _, w') => w_db w' = w_db w /\ w_faults w <> []
  end.
Proof.
  unfold CancelDeliveries. fold unclaimed. set (p := fun r => String.eqb (d_action_name r) action && unclaimed r).
  match goal with |- context [write ?m w] => assert (m (w_db w) (w_gen w) = (Ok (Z.of_nat (affected p (t_deliveries (w_db w))),
    set_deliveries (update p (cancel_row reason (fmt_time now)) (t_deliveries (w_db w))) (w_db w)), w_gen w)) as Hm by done end.
  destruct (write_done _ w _ _ _ Hm) as [(w' & -> & -> & _)|(e & w' & -> & ? & ?)]; [|done].
  split_and!; [done| |done|].
  - simpl. unfold update. generalize (t_deliveries (w_db w)). intros t. induction t as [|r t IH]; simpl; constructor; [|done].
    fold (p r). by destruct (p r).
  - simpl. intros r Hr Ha. apply in_map_iff in Hr as (x & <- & Hx). destruct (p x) eqn:Ep; [done|].
    unfold p in Ep. rewrite Ha, String.eqb_refl in Ep. unfold unclaimed in Ep. simpl in Ep.
    split; intros Hs; apply not_true_iff_false in Ep; apply Ep, in_state_In; rewrite Hs; set_solver.
Qed.

(** Cancelling the deliveries of an action moves exactly its pending and
    retry-waiting rows to cancelled and reports their number; claimed rows, other
    actions and other tables keep their state, and afterwards no pending or
    failed row of the action is left. *)
Theorem CancelDeliveries_exact action reason now (w : world G) :
  match CancelDeliveries action reason now w with
  | (Ok n, w') => only_deliveries (w_db w) (w_db w') /\
      List.Forall2 (fun r r' =>
        if String.eqb (d_action_name r) action && unclaimed r then r' = cancel_row reason (fmt_time now) r else r' = r)
        (t_deliveries (w_db w)) (t_deliveries (w_db w')) /\
      n = Z.of_nat (affected (fun r => String.eqb (d_action_name r) action && unclaimed r) (t_deliveries (w_db w))) /\
      (forall r, In r (t_deliveries (w_db w')) -> d_action_name r = action -> d_state r <> StatePending /\ d_state r <> StateFailed)
  | (Err _, w') => w_db w' = w_db w /\ w_faults w <> []
  end.
Proof. exact (CancelDeliveries_cases action reason now w). Qed.
End Retry.

(** The one-second tolerance is real: [RFC3339Nano] drops trailing zeros,
    so that the text of 1.5 s sorts before the text of 1 s.  A delivery gated
    until 1.5 s is claimable at 1 s, and one gated until 2 s is not delayed. *)
Theorem gate_text_misorders action :
  let r g := mkDelivery "d" (Some "m") action (Some 1) StateFailed 1 (Some (fmt_time g)) None None None None None in
  is_eligible action (fmt_time Second) (r (Second + 500 * Millisecond)) = true /\
  is_eligible action (fmt_time (Second + 500 * Millisecond)) (r Second) = false /\
  is_eligible action (fmt_time Second) (r (2 * Second)) = false.
Proof.
  unfold is_eligible; cbn [d_action_name d_state d_not_before]. rewrite String.eqb_refl.
  split_and!; vm_compute; reflexivity.
Qed.

(** ** The outbox *)

Lemma find_row_app id t u r : find_row id t = Some r -> find_row id (t ++ u) = Some r.
Proof. unfold find_row. rewrite rows_app. by destruct (rows (with_id id) t). Qed.

(** Appended rows are pending: they add nothing to a count of claimed rows, and
    one each to the active ones. *)
Lemma affected_pending p (t : list drow) (b : bool) :
  (forall r, In r t -> p r = b) -> affected p t = if b then length t else 0%nat.
Proof.
  intros Hp. unfold affected, rows. destruct b.
  - rewrite (filter_ext_in _ (fun _ => true)) by done. by rewrite List.filter_true.
  - rewrite (filter_ext_in _ (fun _ => false)) by done. by rewrite filter_false.
Qed.

Definition active (d : db) : Z := Z.of_nat (affected is_active (t_deliveries d)).

Lemma appended_all_active outs n d d' : appended_all outs n d d' -> active d' = active d + n.
Proof.
  intros Ha. destruct (appended_all_prefix _ _ _ _ Ha) as (_ & _ & news & Hd & Hn & Hf).
  unfold active. rewrite Hd, affected_app, (affected_pending is_active news true); [lia|].
  intros r Hr. rewrite List.Forall_forall in Hf. destruct (Hf r Hr) as [Hs _]. unfold is_active, in_state. by rewrite Hs.
Qed.

(** A guarded update between active states, or out of them, or into them. *)
Lemma guarded_active id q p f t :
  pinned id q p -> (forall r, q r = true -> is_active (f r) = is_active r) ->
  affected is_active (update p f t) = affected is_active t.
Proof. intros Hp Hq. apply rows_update. intros r Hr. rewrite Hp in Hr. apply andb_true_iff in Hr as [_ Hr]. auto. Qed.

Lemma guarded_leaves id q p f t :
  NoDup (map d_id t) -> pinned id q p -> (0 < affected p t)%nat ->
  (forall r, q r = true -> is_active r = true /\ is_active (f r) = false) ->
  affected is_active t = S (affected is_active (update p f t)).
Proof.
  intros Hnd Hp Hpos Hq. rewrite (rows_update_out p is_active f).
  - rewrite (affected_pinned id q p) in Hpos |- * by done. destruct (find_row id t) as [r|]; [|lia]. destruct (q r); lia.
  - intros r Hr. rewrite Hp in Hr. apply andb_true_iff in Hr as [_ Hr]. auto.
Qed.

Lemma guarded_pos id q p t :
  NoDup (map d_id t) -> pinned id q p -> (exists r, find_row id t = Some r /\ q r = true) -> (0 < affected p t)%nat.
Proof. intros Hnd Hp (r & Hr & Hq). rewrite (affected_pinned id q), Hr, Hq by done. lia. Qed.

Section Outbox.
Context {G : Type} `{IdSource G}.

(** Completing a claimed delivery is all or nothing: on success the
    row is done and every output message is appended after it with one pending
    delivery per subscriber, the reported number being what the active count
    gains beyond the completed row; on failure the database is as before.  It
    needs a claimed row, so a second completion of the same delivery never
    emits again. *)
Theorem CompleteDelivery_outbox id tail outs now (w : world G) :
  NoDup (map d_id (t_deliveries (w_db w))) ->
  match CompleteDelivery id tail outs now w with
  | (Ok n, w') =>
      (exists d1, only_deliveries (w_db w) d1 /\
        guarded id claimed (done_row tail (fmt_time now)) (t_deliveries (w_db w)) (t_deliveries d1) /\
        appended_all outs n d1 (w_db w')) /\
      active (w_db w') = active (w_db w) - 1 + n /\
      forall tail2 outs2 now2 (w2 : world G), w_db w2 = w_db w' ->
        is_ok (fst (CompleteDelivery id tail2 outs2 now2 w2)) = false
  | (Err _, w') => w_db w' = w_db w
  end.
Proof.
  intros Hnd. set (p := fun r => with_id id r && claimed r).
  assert (forall t n, keeps_id (done_row t n)) as Hk by done.
  destruct (CompleteDelivery id tail outs now w) as [[n|e] w'] eqn:E; [|by apply write_error in E].
  unfold CompleteDelivery in E. apply write_ok in E. unfold complete_tx in E. fold claimed in E. fold p in E.
  apply tx_bind_ok in E as ([] & d1 & g1 & Ht & Ho). apply append_outputs_ok in Ho.
  destruct (transition_cases "complete" id claimed p _ (fun r => eq_refl) (Hk tail (fmt_time now)) (w_db w) (w_gen w) Hnd)
    as [[Ht' Hg]|(e & Ht' & _)]; rewrite Ht' in Ht; [|done].
  injection Ht as <- <-. split; [eexists; split_and!; [| |exact Ho]; done|].
  pose proof Hg as (r & Hr & Hc & Hr' & _ & Hids). split.
  - rewrite (appended_all_active _ _ _ _ Ho). unfold active; simpl.
    rewrite (guarded_leaves id claimed p (done_row tail (fmt_time now)) (t_deliveries (w_db w)));
      [lia|done|done|by eapply (guarded_pos id claimed); eauto|].
    intros x Hx. unfold is_active, claimed in *. apply in_state_In, list_elem_of_singleton in Hx. unfold in_state. by rewrite Hx.
  - intros tail2 outs2 now2 w2 Hw2. destruct (CompleteDelivery id tail2 outs2 now2 w2) as [[n2|e] w3] eqn:E; [|done]. exfalso.
    unfold CompleteDelivery in E. apply write_ok in E. unfold complete_tx in E. fold claimed in E. fold p in E.
    apply tx_bind_ok in E as ([] & d2 & g2 & Ht2 & _). revert Ht2.
    unfold transition, tx_bind, update_deliveries, mustAffect, tx_fail.
    enough (affected p (t_deliveries (w_db w2)) = 0%nat) as -> by done.
    destruct (appended_all_prefix _ _ _ _ Ho) as (_ & _ & news & Hd & _ & Hf). rewrite Hw2, Hd, affected_app; simpl.
    rewrite (affected_pinned id claimed), Hr' by (rewrite ?Hids; done). rewrite (affected_pending p news false); [done|].
    intros x Hx. rewrite List.Forall_forall in Hf. destruct (Hf x Hx) as [Hs _]. unfold p, claimed, in_state. rewrite Hs. apply andb_false_r.
Qed.

(** The subscribers of a queue: current, enabled, and subscribed. *)
Definition subscriber (queue name : string) (t : list arow) : Prop :=
  exists r sub, latest name t = Some r /\ ac_enabled r = true /\
    decode_subscription (ac_definition r) = Ok sub /\ subscribed queue (sub_inputs sub) = true.

Lemma subscriber_names_In queue l names name :
  subscriber_names queue l = Ok names ->
  (In name names <-> exists r sub, In r l /\ ac_name r = name /\ decode_subscription (ac_definition r) = Ok sub /\
     subscribed queue (sub_inputs sub) = true).
Proof.
  revert names; induction l as [|x l IH]; intros names; simpl.
  - intros [= <-]. split; [done|]. by intros (? & ? & [] & _).
  - destruct (decode_subscription (ac_definition x)) as [sub|] eqn:Ed; [|done]. rewrite rbind_ok. intros (ns & Hns & [= <-]).
    specialize (IH _ Hns). transitivity ((subscribed queue (sub_inputs sub) = true /\ ac_name x = name) \/ In name ns).
    { destruct (subscribed queue (sub_inputs sub)); simpl; [tauto|]. split; [auto|]. by intros [[]|]. }
    rewrite IH. split.
    + intros [[Hs Hn]|(r & s & Hr & H1)]; eauto 10.
    + intros (r & s & [<-|Hr] & Hn & Hd & Hs); [left|right; eauto 10]. rewrite Ed in Hd. by simplify_eq.
Qed.

Lemma enabled_current_In t r : dense t -> (In r (enabled_current t) <-> latest (ac_name r) t = Some r /\ ac_enabled r = true).
Proof.
  intros Hd. unfold enabled_current. rewrite <- list_elem_of_In, order_by_perm, list_elem_of_In. unfold rows.
  rewrite List.filter_In, andb_true_iff. split.
  - intros (Hin & Hc & He). by rewrite <- current_latest.
  - intros [Hl He]. destruct (latest_spec _ _ _ Hl) as [Hin _]. split; [done|]. by rewrite current_latest.
Qed.

(** What an append does, whatever the database answers. *)
Lemma AppendMessage_cases m (w : world G) :
  dense (t_actions (w_db w)) ->
  match AppendMessage m w with
  | (Ok n, w') => exists ids names, appended m ids names (w_db w) (w_db w') /\ n = Z.of_nat (length names) /\
      NoDup names /\ (forall name, In name names <-> subscriber (msg_queue m) name (t_actions (w_db w))) /\
      active (w_db w') = active (w_db w) + n
  | (Err _, w') => w_db w' = w_db w
  end.
Proof.
  intros Hd. destruct (AppendMessage m w) as [[n|e] w'] eqn:E; [|by apply write_error in E].
  apply write_ok, append_ok in E as (ids & names & -> & _ & Ha). exists ids, names.
  assert (appended_all [m] (Z.of_nat (length names) + 0) (w_db w) (w_db w')) as Hall
    by (econstructor; [exact Ha|constructor]).
  apply appended_all_active in Hall. split_and!; [done|done| | |lia].
  - destruct Ha as [Hs _]. eapply sublist_NoDup; [by apply enabled_current_NoDup|]. by eapply subscriber_names_sublist.
  - intros name. destruct Ha as [Hs _]. rewrite (subscriber_names_In _ _ _ _ Hs). unfold subscriber. split.
    + intros (r & sub & Hr & <- & ? & ?). apply enabled_current_In in Hr as [? ?]; [|done]. eauto 10.
    + intros (r & sub & Hl & He & ? & ?). destruct (latest_spec _ _ _ Hl) as (_ & Hn & _). exists r, sub.
      split_and!; try done. apply enabled_current_In; [done|]. by rewrite Hn.
Qed.

Lemma append_total m d (g : G) names :
  dense (t_actions d) -> message_fresh m d ->
  subscriber_names (msg_queue m) (enabled_current (t_actions d)) = Ok names ->
  (forall r, In r (t_deliveries d) -> d_message_id r <> Some (msg_id m)) ->
  id_wf g -> id_live (snd (draw (length names) g)) -> ids_below g (t_deliveries d) ->
  exists w', AppendMessage m (mkWorld d g []) = (Ok (Z.of_nat (length names)), w') /\
    appended m (fst (draw (length names) g)) names d (w_db w').
Proof.
  intros Hd Hf Hs Hno Hwf Hlv Hb. unfold AppendMessage. rewrite write_no_fault. unfold append_tx, tx_bind at 1.
  destruct (insertMessage_cases m d g) as [[_ ->]|[Hn _]]; [|done].
  unfold materializeDeliveries, tx_bind at 1, tx_query, tx_of. simpl. rewrite Hs. unfold tx_bind.
  rewrite insert_deliveries_total; simpl; try done.
  - eexists; split; [done|]. split_and!; [done| |done]. clear. revert g. induction (length names) as [|k IH]; intros g; simpl; [done|].
    destruct (new_id g) as [s g1]. specialize (IH g1). destruct (draw k g1). simpl in *. lia.
  - rewrite map_app. apply elem_of_app. right. left.
  - eapply sublist_NoDup; [by apply enabled_current_NoDup|]. by eapply subscriber_names_sublist.
  - intros r Hr Hm. by apply Hno in Hm.
Qed.

(** C14. Appending a message stores it with exactly one pending delivery
    for each action that is enabled at its current version and subscribed to the
    queue - in order of name, no action twice - and reports their number; or
    it fails and stores nothing. *)
Theorem AppendMessage_fanout m (w : world G) :
  dense (t_actions (w_db w)) ->
  match AppendMessage m w with
  | (Ok n, w') => exists ids names, appended m ids names (w_db w) (w_db w') /\ n = Z.of_nat (length names) /\
      NoDup names /\ (forall name, In name names <-> subscriber (msg_queue m) name (t_actions (w_db w))) /\
      active (w_db w') = active (w_db w) + n
  | (Err _, w') => w_db w' = w_db w
  end.
Proof. exact (AppendMessage_cases m w). Qed.

(** Appending cannot fail on a sound store: with a fresh identifier,
    decodable definitions and no database fault, the message is stored. *)
Theorem AppendMessage_total m d (g : G) names :
  dense (t_actions d) -> message_fresh m d ->
  subscriber_names (msg_queue m) (enabled_current (t_actions d)) = Ok names ->
  (forall r, In r (t_deliveries d) -> d_message_id r <> Some (msg_id m)) ->
  id_wf g -> id_live (snd (draw (length names) g)) -> ids_below g (t_deliveries d) ->
  exists w', AppendMessage m (mkWorld d g []) = (Ok (Z.of_nat (length names)), w') /\
    appended m (fst (draw (length names) g)) names d (w_db w').
Proof. exact (append_total m d g names). Qed.
End Outbox.

(** ** Witnesses: one message, four deliveries of it, one subscriber *)

Definition demo_message : message :=
  mkMessage "m1" "raw" "{}" "{}" "t1" None None None 0.

Definition demo_db : db := mkDb
  [row_of_message demo_message]
  [mkAct "sum" 1 sample_def true (fmt_time 0)]
  [mkDelivery "d1" (Some "m1") "a" (Some 1) StateClaimed 1 None (Some 77) None None (Some (fmt_time 0)) None;
   mkDelivery "d2" (Some "m1") "b" (Some 1) StateFailed 2 (Some (fmt_time (3 * Second))) None None (Some "exit status 1") (Some (fmt_time 0)) (Some (fmt_time 0));
   mkDelivery "d3" (Some "m1") "c" (Some 1) StateDead 3 None None None (Some "exit status 1") (Some (fmt_time 0)) (Some (fmt_time 0));
   pending_row "d4" "m1" "sum"].

Definition demo_dw : world id_stream := mkWorld demo_db demo_gen [].

(** A message of another trace, not stored yet. *)
Definition demo_output : message :=
  mkMessage "m2" "raw" "{}" "{}" "t1" (Some "a") (Some 1) (Some "m1") Second.

(** Closes decidable goals by computation. *)
Ltac decide_now := apply (bool_decide_unpack _); vm_compute; exact I.

(** The successful outcome of a concrete run. *)
Ltac run_ok Ht :=
  match type of Ht with
  | match ?r with _ => _ end =>
      let E := fresh "E" in let Hok := fresh "Hok" in
      assert (Hok : is_ok (fst r) = true) by (vm_compute; reflexivity);
      destruct r as [[?|?] ?] eqn:E; [clear Hok|discriminate Hok]
  end.

Lemma demo_ids : NoDup (map d_id (t_deliveries (w_db demo_dw))).
Proof. decide_now. Qed.

Lemma demo_gates : gates_ok (t_deliveries (w_db demo_dw)).
Proof.
  intros r s Hr Hs. simpl in Hr. exists (3 * Second).
  destruct Hr as [<-|[<-|[<-|[<-|[]]]]]; simplify_eq/=. split; [decide_now|done].
Qed.

Lemma demo_dense : dense (t_actions (w_db demo_dw)).
Proof.
  intros name. unfold versions, rows, named, demo_dw, demo_db. cbn -[String.eqb].
  destruct (String.eqb "sum" name); reflexivity.
Qed.

Lemma ClaimDelivery_exclusive_witness :
  exists w', ClaimDelivery "d4" 1 Second demo_dw = (Ok tt, w') /\
    guarded "d4" unclaimed (claim_row 1 (fmt_time Second)) (t_deliveries demo_db) (t_deliveries (w_db w')).
Proof.
  pose proof (ClaimDelivery_exclusive "d4" 1 Second demo_dw demo_ids) as Ht. run_ok Ht.
  destruct a. eexists; split; [done|]. apply Ht.
Defined.

Lemma FailDelivery_outcome_witness :
  exists w', FailDelivery "d1" false (2 * Second) "exit status 1" "" Second demo_dw = (Ok tt, w') /\
    only_deliveries demo_db (w_db w').
Proof.
  pose proof (FailDelivery_outcome "d1" false (2 * Second) "exit status 1" "" Second demo_dw demo_ids) as Ht. run_ok Ht.
  destruct a. eexists; split; [done|]. apply Ht.
Defined.

Lemma ReplayDelivery_outcome_witness :
  (exists v w', ReplayDelivery "d3" demo_dw = (Ok v, w') /\ d_state v = StatePending) /\
  (exists e w', ReplayDelivery "d1" demo_dw = (Err e, w') /\ err_is e = ErrNotDead).
Proof.
  pose proof (ReplayDelivery_outcome "d3" demo_dw demo_ids) as Ht. run_ok Ht.
  split; [eexists _, _; split; [done|apply Ht]|].
  pose proof (ReplayDelivery_outcome "d1" demo_dw demo_ids) as He.
  assert (is_ok (fst (ReplayDelivery "d1" demo_dw)) = false) as Hno by (vm_compute; reflexivity).
  destruct (ReplayDelivery "d1" demo_dw) as [[v2|e2] w2] eqn:E2; [discriminate Hno|].
  destruct He as [_ [He|He]]; [done|]. eexists _, _. split; [done|]. apply He.
Defined.

Lemma NextEligible_oldest_witness :
  exists wk w', NextEligible "b" (4 * Second) demo_dw = (Ok wk, w') /\ w_db w' = demo_db.
Proof.
  assert (messages_ok (t_messages (w_db demo_dw))) as Hm by (intros m [<-|[]]; vm_compute; discriminate).
  pose proof (NextEligible_oldest "b" (4 * Second) demo_dw demo_gates Hm ltac:(decide_now)) as Ht. run_ok Ht.
  eexists _, _; split; [done|]. apply Ht.
Defined.

Lemma NextRetryAt_earliest_witness :
  exists t w', NextRetryAt demo_dw = (Ok t, w') /\ exists r, gated demo_db r t.
Proof.
  pose proof (NextRetryAt_earliest demo_dw demo_gates) as Ht. run_ok Ht. eexists _, _; split; [done|]. apply Ht.
Defined.

Lemma CompleteDelivery_outbox_witness :
  exists n w', CompleteDelivery "d1" "" [demo_output] (2 * Second) demo_dw = (Ok n, w') /\
    active (w_db w') = active demo_db - 1 + n /\ n = 1.
Proof.
  pose proof (CompleteDelivery_outbox "d1" "" [demo_output] (2 * Second) demo_dw demo_ids) as Ht.
  assert (fst (CompleteDelivery "d1" "" [demo_output] (2 * Second) demo_dw) = Ok 1) as Hr by (vm_compute; reflexivity).
  run_ok Ht. simpl in Hr. injection Hr as ->. eexists _, _; split; [done|]. split; [apply Ht|done].
Defined.

Lemma AppendMessage_fanout_witness :
  exists n w', AppendMessage demo_output demo_dw = (Ok n, w') /\ active (w_db w') = active demo_db + n.
Proof.
  pose proof (AppendMessage_fanout demo_output demo_dw demo_dense) as Ht. run_ok Ht.
  eexists _, _; split; [done|]. destruct Ht as (ids & names & _ & _ & _ & _ & Ha). exact Ha.
Defined.

Lemma AppendMessage_total_witness :
  exists w', AppendMessage demo_output (mkWorld (set_deliveries [] demo_db) demo_gen []) = (Ok (Z.of_nat (length ["sum"])), w') /\
    appended demo_output (fst (draw (length ["sum"]) demo_gen)) ["sum"] (set_deliveries [] demo_db) (w_db w').
Proof.
  apply (AppendMessage_total demo_output (set_deliveries [] demo_db) demo_gen ["sum"]).
  - exact demo_dense.
  - split; [decide_now|]. intros o [= <-]. left. decide_now.
  - vm_compute. reflexivity.
  - intros r [].
  - split; [split; simpl; lia|]. intros i. unfold input_ok, demo_gen, demo_env, byte_ok; simpl. repeat constructor; lia.
  - vm_compute. reflexivity.
  - intros r [].
Defined.
