(* ===== verification/Messages.v ===== *)
(** Messages: internal/store/messages.go (the append itself is in Deliveries).

    Messages are immutable rows; listings are newest first with a keyset cursor
    on the identifier. *)
From S2P Require Import Prelude GoTime Json Action Ids Db Registry Deliveries.

Record ListOptions := mkListOptions {
  lo_queue : string; lo_trace_id : string; lo_limit : Z; lo_before_id : string
}.

Record QueueInfo := mkQueueInfo { qi_name : string; qi_messages : Z }.

(** The WHERE clause: an empty option does not filter. *)
Definition msg_listed (opts : ListOptions) (m : mrow) : bool :=
  (String.eqb (lo_queue opts) "" || String.eqb (msg_queue m) (lo_queue opts)) &&
  (String.eqb (lo_trace_id opts) "" || String.eqb (msg_trace_id m) (lo_trace_id opts)) &&
  (String.eqb (lo_before_id opts) "" || bool_decide (str_lt (msg_id m) (lo_before_id opts))).

(** ORDER BY id DESC. *)
Definition newest_first (t : list mrow) : list mrow := rev (order_by msg_id t).

Definition page_rows (opts : ListOptions) (t : list mrow) : list mrow :=
  take (Z.to_nat (clamp_limit (lo_limit opts))) (newest_first (rows (msg_listed opts) t)).

Section Messages.
Context {G : Type} `{IdSource G}.

Definition GetMessage (id : string) : M G message :=
  read "get message" (fun d =>
    match head (rows (fun m => String.eqb (msg_id m) id) (t_messages d)) with
    | Some m => wrap_errors "get message" (scanMessage m)
    | None => Err (mkErr ErrNotFound ("message " +:+ id +:+ ": not found"))
    end).

Definition ListMessages (opts : ListOptions) : M G (list message) :=
  read "list messages" (fun d => wrap_errors "list messages" (scan_all scanMessage (page_rows opts (t_messages d)))).

(** GROUP BY queue ORDER BY queue. *)
Definition ListQueues : M G (list QueueInfo) :=
  read "list queues" (fun d =>
    Ok (map (fun q => mkQueueInfo q (Z.of_nat (affected (fun m => String.eqb (msg_queue m) q) (t_messages d))))
          (order_by id (remove_dups (map msg_queue (t_messages d)))))).
End Messages.

(** ** Paging *)

(** The cursor of the page after [m]. *)
Definition next_page (opts : ListOptions) (m : string) : ListOptions :=
  mkListOptions (lo_queue opts) (lo_trace_id opts) (lo_limit opts) m.

Lemma insert_by_rows {A} (key : A -> string) (p : A -> bool) x l :
  Sorted.StronglySorted (fun a b => str_le (key a) (key b)) l ->
  rows p (insert_by key x l) = if p x then insert_by key x (rows p l) else rows p l.
Proof.
  intros Hs. unfold rows. induction l as [|y l IH]; simpl; [by destruct (p x)|].
  inversion_clear Hs as [|? ? Hs' Hf]. specialize (IH Hs'). case_decide as Hle.
  - simpl. destruct (p x) eqn:Ex; [|by destruct (p y)]. destruct (p y) eqn:Ey.
    + simpl. by rewrite decide_True.
    + enough (forall z, In z (List.filter p l) -> str_le (key x) (key z)) as Hz.
      { destruct (List.filter p l) as [|z l'] eqn:E; simpl; [done|]. rewrite decide_True; [done|]. apply Hz. by left. }
      intros z Hz. apply List.filter_In in Hz as [Hz _]. etrans; [exact Hle|]. rewrite Forall_forall in Hf. apply Hf.
      by apply list_elem_of_In.
  - simpl. destruct (p y) eqn:Ey; rewrite IH; destruct (p x); simpl; try done. by rewrite decide_False.
Qed.

Lemma order_by_rows {A} (key : A -> string) (p : A -> bool) l : order_by key (rows p l) = rows p (order_by key l).
Proof.
  induction l as [|x l IH]; [done|]. simpl. rewrite insert_by_rows by apply order_by_sorted.
  unfold rows at 1. simpl. fold (rows p l). destruct (p x); simpl; by rewrite IH.
Qed.

Lemma rows_rev {A} (p : A -> bool) l : rows p (rev l) = rev (rows p l).
Proof.
  unfold rows. induction l as [|x l IH]; [done|]. simpl. rewrite List.filter_app, IH. simpl.
  destruct (p x); simpl; [done|by rewrite app_nil_r].
Qed.

Lemma newest_first_rows p t : newest_first (rows p t) = rows p (newest_first t).
Proof. unfold newest_first. by rewrite order_by_rows, rows_rev. Qed.

(** Newest first: each identifier is greater than the following ones. *)
Inductive descending : list mrow -> Prop :=
| descending_nil : descending []
| descending_cons m l : (forall x, In x l -> str_lt (msg_id x) (msg_id m)) -> descending l -> descending (m :: l).

Lemma descending_rev l : Sorted.StronglySorted str_lt (map msg_id l) -> descending (rev l).
Proof.
  assert (forall l m, descending l -> (forall x, In x l -> str_lt (msg_id m) (msg_id x)) -> descending (l ++ [m])) as Hsnoc.
  { clear. intros l m Hl. induction Hl as [|y l Hy Hl IH]; intros Hm; simpl; [by repeat constructor|].
    constructor; [|apply IH; intros; apply Hm; by right].
    intros x Hx. apply in_app_iff in Hx as [Hx|[<-|[]]]; [by apply Hy|]. apply Hm. by left. }
  induction l as [|m l IH]; intros Hs; simpl; [constructor|]. inversion_clear Hs as [|? ? Hs' Hf].
  apply Hsnoc; [by apply IH|]. intros x Hx. apply in_rev in Hx. rewrite List.Forall_forall in Hf. apply Hf. by apply in_map.
Qed.

(** After the first [k] rows, exactly the rows below the [k]-th are left. *)
Lemma below_last l k m :
  descending l -> last (take k l) = Some m ->
  rows (fun x => bool_decide (str_lt (msg_id x) (msg_id m))) l = drop k l.
Proof.
  intros Hl. revert k; induction Hl as [|y l Hy Hl IH]; intros k Hm; [by destruct k|].
  destruct k as [|k]; [done|]. unfold rows in *. simpl. destruct (take k l) as [|z l'] eqn:E.
  - simpl in Hm. rewrite E in Hm. injection Hm as <-. rewrite bool_decide_eq_false_2 by apply str_lt_irrefl.
    assert (k = 0%nat \/ l = []) as Hk by (destruct k, l; auto; done).
    transitivity l; [|destruct Hk as [-> | ->]; [done|by rewrite drop_nil]].
    apply forallb_filter_id. apply forallb_forall. intros x Hx. apply bool_decide_eq_true_2. auto.
  - specialize (IH k). rewrite E in IH. simpl in Hm. rewrite E in Hm. specialize (IH Hm).
    rewrite bool_decide_eq_false_2; [done|]. intros Hlt. assert (In m l) as Hin.
    { assert (m ∈ take k l) as Hm' by (rewrite E; by apply last_Some_elem_of). apply list_elem_of_In.
      apply list_elem_of_lookup in Hm' as (i & Hi). apply list_elem_of_lookup. exists i. by apply lookup_take_Some in Hi as [? _]. }
    apply Hy in Hin. by eapply str_lt_irrefl, str_lt_trans.
Qed.

Lemma clamp_limit_bounds n : 1 <= clamp_limit n <= maxListLimit.
Proof.
  unfold clamp_limit, maxListLimit, defaultListLimit. destruct (Z.leb_spec n 0).
  - destruct (50 >? 1000) eqn:E; lia.
  - destruct (n >? 1000) eqn:E; lia.
Qed.

(** The rows a walk over all pages must deliver. *)
Definition all_rows (opts : ListOptions) (t : list mrow) : list mrow :=
  newest_first (rows (msg_listed (next_page opts "")) t).

(** A page with a cursor is the beginning of what is below the cursor. *)
Lemma page_rows_below opts m t :
  m <> "" -> page_rows (next_page opts m) t =
  take (Z.to_nat (clamp_limit (lo_limit opts)))
    (rows (fun x => bool_decide (str_lt (msg_id x) m)) (all_rows opts t)).
Proof.
  intros Hm. unfold page_rows, all_rows. simpl. f_equal. rewrite <- newest_first_rows, rows_rows. f_equal.
  apply rows_ext_in. intros x _. unfold msg_listed; simpl.
  destruct (String.eqb_spec m ""); [done|]. simpl. by rewrite andb_true_r.
Qed.

Section Paging.
Context {G : Type} `{IdSource G}.

(** A client walking the pages until one is empty; [fuel] bounds their number. *)
Fixpoint walk (fuel : nat) (opts : ListOptions) (w : world G) : result (list message) :=
  match fuel with
  | O => Ok []
  | S fuel =>
      page <-! fst (ListMessages opts w) ;;
      match last page with
      | None => Ok []
      | Some m => rest <-! walk fuel (next_page opts (msg_id m)) w ;; Ok (page ++ rest)
      end
  end.

Definition scanned (l : list mrow) (l' : list message) : Prop := List.Forall2 (fun r m => scanMessage r = Ok m) l l'.

Lemma scanned_last l l' : scanned l l' ->
  match last l' with Some m => exists r, last l = Some r /\ msg_id r = msg_id m | None => l = [] end.
Proof.
  induction 1 as [|r m l l' Hrm Hf IH]; [done|]. rewrite !last_cons. destruct (last l') as [x|].
  - destruct IH as (y & -> & ?). eauto.
  - subst. exists r. split; [done|]. unfold scanMessage in Hrm. destruct (parse_time _); [|done]. by injection Hrm as <-.
Qed.

Lemma list_page opts d (g : G) :
  messages_ok (t_messages d) ->
  exists page, fst (ListMessages opts (mkWorld d g [])) = Ok page /\ scanned (page_rows opts (t_messages d)) page.
Proof.
  intros Hm. destruct (scan_all_ok scanMessage (page_rows opts (t_messages d))) as (page & Hp & Hf).
  { intros r Hr. assert (In r (t_messages d)) as Hin.
    { unfold page_rows, newest_first in Hr. apply list_elem_of_In, list_elem_of_lookup in Hr as (i & Hi).
      apply lookup_take_Some in Hi as [Hi _]. apply list_elem_of_lookup_2, list_elem_of_In, in_rev, list_elem_of_In in Hi.
      rewrite order_by_perm in Hi. by apply list_elem_of_In, List.filter_In in Hi as [Hi _]. }
    specialize (Hm r Hin). unfold scanMessage. destruct (parse_time (msg_created_at r)); [eauto|done]. }
  exists page. split; [|exact Hf]. unfold ListMessages, read. simpl. by rewrite Hp.
Qed.

(** The walk from a position of the full listing delivers the rest of it. *)
Lemma walk_from fuel opts d (g : G) rest :
  messages_ok (t_messages d) -> (forall m, In m (t_messages d) -> msg_id m <> "") ->
  descending (all_rows opts (t_messages d)) ->
  page_rows opts (t_messages d) = take (Z.to_nat (clamp_limit (lo_limit opts))) rest ->
  (exists k, rest = drop k (all_rows opts (t_messages d))) ->
  (length rest + Z.to_nat (clamp_limit (lo_limit opts)) <= fuel * Z.to_nat (clamp_limit (lo_limit opts)))%nat ->
  exists l, walk fuel opts (mkWorld d g []) = Ok l /\ scanned rest l.
Proof.
  intros Hm Hne. revert opts rest; induction fuel as [|fuel IH]; intros opts rest Hd Hpage [k Hk] Hlen;
    pose proof (clamp_limit_bounds (lo_limit opts)) as Hb; [lia|]. set (n := Z.to_nat (clamp_limit (lo_limit opts))) in *.
  destruct (list_page opts d g Hm) as (page & Hpg & Hs). cbn [walk]. rewrite Hpg. cbn [rbind]. rewrite Hpage in Hs.
  pose proof (scanned_last _ _ Hs) as Hl. destruct (last page) as [m|] eqn:El.
  - destruct Hl as (r & Hr & Hid).
    assert (In r (all_rows opts (t_messages d))) as Hin.
    { assert (r ∈ take n rest) as Hx by by apply last_Some_elem_of. apply list_elem_of_lookup in Hx as (i & Hi).
      apply lookup_take_Some in Hi as [Hi _]. rewrite Hk in Hi. rewrite lookup_drop in Hi. by eapply list_elem_of_In, list_elem_of_lookup_2. }
    assert (msg_id m <> "") as Hmne.
    { rewrite <- Hid. apply Hne. unfold all_rows, newest_first in Hin. apply in_rev, list_elem_of_In in Hin.
      rewrite order_by_perm in Hin. by apply list_elem_of_In, List.filter_In in Hin as [Hin _]. }
    destruct (IH (next_page opts (msg_id m)) (drop n rest)) as (l & Hw & Hsl).
    + exact Hd.
    + simpl. rewrite page_rows_below by done. fold n. f_equal. rewrite <- Hid.
      rewrite (below_last _ (k + n) r); [by rewrite Hk, drop_drop|done|].
      rewrite <- take_take_drop, last_app, <- Hk. by rewrite Hr.
    + exists (k + n)%nat. by rewrite Hk, drop_drop.
    + simpl. fold n. rewrite length_drop. assert (rest <> []) as Hr0 by (intros ->; by rewrite take_nil in Hr).
      assert (0 < length rest)%nat by (destruct rest; [done|apply Nat.lt_0_succ]).
      assert (0 < n)%nat by lia. rewrite Nat.mul_succ_l in Hlen. clear -Hlen H0 H1. clearbody n.
      destruct fuel; [lia|]. assert (n <= S fuel * n)%nat by nia. lia.
    + rewrite Hw. simpl. eexists; split; [done|]. rewrite <- (take_drop n rest). by apply Forall2_app.
  - exists []. split; [done|]. destruct rest as [|x rest]; [constructor|].
    assert (0 < n)%nat by lia. clearbody n. destruct n; [lia|done].
Qed.

(** C31. Keyset paging is exact: a client that follows the cursor of each page
    until a page is empty receives every message of the filter exactly once,
    newest first, whatever the page size asked for. *)
Theorem ListMessages_pages opts d (g : G) fuel :
  lo_before_id opts = "" -> messages_ok (t_messages d) -> NoDup (map msg_id (t_messages d)) ->
  (forall m, In m (t_messages d) -> msg_id m <> "") -> (length (t_messages d) < fuel)%nat ->
  exists l, walk fuel opts (mkWorld d g []) = Ok l /\
    scanned (newest_first (rows (msg_listed opts) (t_messages d))) l /\
    descending (newest_first (rows (msg_listed opts) (t_messages d))).
Proof.
  intros Hb Hm Hnd Hne Hlen.
  assert (all_rows opts (t_messages d) = newest_first (rows (msg_listed opts) (t_messages d))) as Hall.
  { unfold all_rows. destruct opts; simpl in *; by subst. }
  assert (descending (newest_first (rows (msg_listed opts) (t_messages d)))) as Hd.
  { apply descending_rev, order_by_strict. clear -Hnd. induction (t_messages d) as [|x t IH]; [constructor|].
    simpl in Hnd. apply NoDup_cons in Hnd as [Hni Hnd]. unfold rows. simpl. destruct (msg_listed opts x); [|auto].
    simpl. apply NoDup_cons. split; [|auto]. intros Hin. apply Hni. apply list_elem_of_In, in_map_iff in Hin as (y & Hy & Hin).
    apply List.filter_In in Hin as [Hin _]. rewrite <- Hy. by apply list_elem_of_In, in_map. }
  destruct (walk_from fuel opts d g (all_rows opts (t_messages d))) as (l & Hw & Hs); [done|done|by rewrite Hall| | | |].
  - by rewrite Hall.
  - by exists 0%nat.
  - pose proof (clamp_limit_bounds (lo_limit opts)). rewrite Hall. unfold newest_first. rewrite length_rev, order_by_perm.
    assert (length (rows (msg_listed opts) (t_messages d)) <= length (t_messages d))%nat by apply List.filter_length_le.
    nia.
  - exists l. by rewrite <- Hall in Hd |- *.
Qed.

(** A stored message is read back as it was appended. *)
Theorem AppendMessage_GetMessage m (w : world G) n w' (g : G) :
  time_ok (msg_created_at m) -> AppendMessage m w = (Ok n, w') ->
  GetMessage (msg_id m) (mkWorld (w_db w') g []) = (Ok m, mkWorld (w_db w') g []).
Proof.
  intros Ht Ha. apply write_ok, append_ok in Ha as (ids & names & _ & [Hf _] & _ & _ & Hd). simpl in Hd.
  unfold GetMessage, read; simpl. rewrite Hd. simpl. rewrite rows_app.
  rewrite (rows_ext_in _ (fun _ => false) (t_messages (w_db w))); [unfold rows at 1; rewrite filter_false|].
  - simpl. rewrite String.eqb_refl. simpl. unfold scanMessage; simpl. rewrite parse_fmt_time by done. by destruct m.
  - intros x Hx. apply String.eqb_neq. intros He. apply Hf. rewrite <- He. by apply list_elem_of_In, in_map.
Qed.
End Paging.

Definition demo_messages : db := mkDb
  [row_of_message demo_message; row_of_message demo_output;
   row_of_message (mkMessage "m3" "other" "{}" "{}" "t2" None None None 5)] [] [].

Lemma ListMessages_pages_witness :
  exists l, walk 4 (mkListOptions "raw" "" 1 "") (mkWorld demo_messages demo_gen []) = Ok l /\
    scanned (newest_first (rows (msg_listed (mkListOptions "raw" "" 1 "")) (t_messages demo_messages))) l /\
    descending (newest_first (rows (msg_listed (mkListOptions "raw" "" 1 "")) (t_messages demo_messages))).
Proof.
  apply (ListMessages_pages (mkListOptions "raw" "" 1 "") demo_messages demo_gen 4); [done| | | |simpl; lia].
  - intros m [<-|[<-|[<-|[]]]]; vm_compute; discriminate.
  - decide_now.
  - by intros m [<-|[<-|[<-|[]]]].
Defined.

Lemma AppendMessage_GetMessage_witness :
  GetMessage "m2" (mkWorld (w_db (snd (AppendMessage demo_output demo_dw))) demo_gen []) =
    (Ok demo_output, mkWorld (w_db (snd (AppendMessage demo_output demo_dw))) demo_gen []).
Proof.
  apply (AppendMessage_GetMessage demo_output demo_dw 1 (snd (AppendMessage demo_output demo_dw)) demo_gen); [decide_now|].
  assert (fst (AppendMessage demo_output demo_dw) = Ok 1) as Hr by (vm_compute; reflexivity).
  rewrite <- Hr. apply surjective_pairing.
Defined.
