(* ===== verification/Wire.v ===== *)
(** The wire format: the request and response types of internal/api/types.go as
    encoding/json writes and reads them.

    A Go type is a [codec]: its encoding, its decoding over a value already
    there, its zero value, and the value that is read back where the encoding
    loses something (invalid UTF-8, the layout of a RawMessage).  A struct is the
    list of its tagged fields ([sfield]), from which [c_struct] derives the
    codec; [Lawful] says that what is written is read. *)
From S2P Require Import Prelude GoTime Float64 Json JsonText RawText Action DurationText Cel Validate Canon Ids Db Registry Deliveries Messages.

(** ** Codecs *)

Record codec (A : Type) := mkCodec {
  c_text : A -> result string;
  c_dec : rdecoder A;
  c_zero : A;
  c_norm : A -> A;
  c_good : Z -> A -> Prop      (** encodable within nesting [d] *)
}.
Arguments mkCodec {A}. Arguments c_text {A}. Arguments c_dec {A}. Arguments c_zero {A}. Arguments c_norm {A}. Arguments c_good {A}.

(** What is written is read. *)
Class Lawful {A} (c : codec A) : Prop :=
  lawful : forall d a, d <= max_nesting -> c_good c d a ->
    exists t v, c_text c a = Ok t /\ clean d t v /\ c_dec c (c_zero c) v t = Ok (c_norm c a).

(** Never written as null: may stand behind a pointer. *)
Class NonNull {A} (c : codec A) : Prop :=
  nonnull : forall a t, c_text c a = Ok t -> starts (Ascii.eqb "n") t = false.

Lemma null_starts d t : clean d t JNull -> starts (Ascii.eqb "n") t = true.
Proof.
  intros [Hf Hc]. destruct t as [|c t]; [done|]. cbn [starts] in *. specialize (Hc "" eq_refl). rewrite str_app_nil_r, pv_eq in Hc.
  rewrite skip_nonws in Hc by by apply value_first_ws. destruct (Ascii.eqb_spec c "n") as [->|Hn]; [done|].
  exfalso. repeat (match type of Hc with context [if ?b then _ else _] => destruct b | context [match closes ?b ?x with _ => _ end] => destruct (closes b x) end;
    try (first [discriminate Hc | apply bind_Some in Hc as ([? ?] & _ & Hc); discriminate Hc | apply bind_Some in Hc as (? & _ & Hc); discriminate Hc])).
Qed.

Definition c_string : codec string := mkCodec (fun s => Ok (quote s)) (plain dec_string) "" to_valid (fun _ _ => True).

#[global] Instance c_string_lawful : Lawful c_string.
Proof. intros d a _ _. exists (quote a), (JStr (to_valid a)). split; [done|]. split; [apply quote_clean|done]. Qed.
#[global] Instance c_string_nonnull : NonNull c_string.
Proof. intros a t [= <-]. done. Qed.

(** int and int64. *)
Definition c_int : codec Z := mkCodec (fun n => Ok (dec n)) (plain dec_int) 0 (fun n => n) (fun _ n => in_int64 n).

#[global] Instance c_int_lawful : Lawful c_int.
Proof.
  intros d n _ Hn. exists (dec n), (JNum (dec n)). split; [done|]. split; [apply (clean_print d (JNum (dec n))), dec_num_lit|].
  cbn [c_dec c_int c_zero plain dec_int c_norm]. by rewrite lit_int_dec.
Qed.
#[global] Instance c_int_nonnull : NonNull c_int.
Proof.
  intros n t [= <-]. destruct (num_first (dec n) (dec_num_lit n)) as (c & s & -> & Hc). cbn [starts].
  destruct c as [[] [] [] [] [] [] [] []]; try (vm_compute in Hc; discriminate Hc); reflexivity.
Qed.

Definition dec_bool : decoder bool := fun prev j =>
  match j with JNull => Ok prev | JBool b => Ok b | _ => Err json_error end.
Definition c_bool : codec bool := mkCodec (fun b : bool => Ok (if b then "true" else "false")) (plain dec_bool) false (fun b => b) (fun _ _ => True).

#[global] Instance c_bool_lawful : Lawful c_bool.
Proof. intros d b _ _. eexists _, (JBool b). split; [done|]. split; [|done]. pose proof (clean_print d (JBool b) I) as Hc. by destruct b. Qed.

(** time.Time in UTC: an error outside the years 0 to 9999. *)
Definition zero_time : time := -62135596800 * Second.
Definition dec_time : decoder time := fun prev j =>
  match j with
  | JNull => Ok prev
  | JStr s => match parse_time s with Some t => Ok t | None => Err json_error end
  | _ => Err json_error
  end.
Definition c_time : codec time :=
  mkCodec (fun t => if decide (time_ok t) then Ok (quote (fmt_time t)) else Err json_error) (plain dec_time) zero_time (fun t => t) (fun _ t => time_ok t).

Definition ascii_text (s : string) : Prop := all_bytes (fun c => code c <? 0x80) s = true.

Lemma ascii_app a b : ascii_text a -> ascii_text b -> ascii_text (a +:+ b).
Proof. unfold ascii_text. intros Ha Hb. by rewrite all_bytes_app, Ha, Hb. Qed.

Lemma ascii_digits s : all_digits s -> ascii_text s.
Proof.
  unfold ascii_text. induction s as [|c s IH]; [done|]. intros Hs. apply all_digits_cons in Hs as [Hc Hs]. cbn [all_bytes]. rewrite IH by done.
  unfold is_digit in Hc. rewrite andb_true_r. apply Z.ltb_lt. apply andb_true_iff in Hc as [_ Hc%N.leb_le]. unfold code. lia.
Qed.

Lemma fmt_time_ascii t : ascii_text (fmt_time t).
Proof.
  assert (forall w n, ascii_text (pad 10 w n)) as Hp by (intros; apply ascii_digits, all_digits_pad).
  assert (ascii_text (fmt_frac (t mod Second))) as Hf.
  { unfold fmt_frac. destruct (t mod Second =? 0); [done|]. apply ascii_app; [done|]. apply ascii_digits, strip_zeros_digits. }
  unfold fmt_time, fmt_secs. repeat (apply ascii_app; [auto; done|]). repeat (apply ascii_app; auto); done.
Qed.

#[global] Instance c_time_lawful : Lawful c_time.
Proof.
  intros d t _ Ht. exists (quote (fmt_time t)), (JStr (fmt_time t)). cbn [c_text c_time c_good] in *. rewrite decide_True by done. split; [done|]. split.
  - pose proof (quote_clean d (fmt_time t)) as Hq. by rewrite to_valid_id in Hq by apply utf8_ascii, fmt_time_ascii.
  - cbn [c_dec c_time plain dec_time c_norm]. by rewrite parse_fmt_time.
Qed.
#[global] Instance c_time_nonnull : NonNull c_time.
Proof. intros a t. cbn [c_text c_time]. destruct (decide _); [|done]. by intros [= <-]. Qed.

(** time.Time in the zone of the machine. *)
Definition c_zoned (zone : Z) : codec time :=
  mkCodec (fun t => if decide (time_ok (t + zone * 60 * Second)) then Ok (quote (fmt_zoned zone t)) else Err json_error) (plain dec_time) zero_time (fun t => t)
    (fun _ t => zone_ok zone /\ time_ok (t + zone * 60 * Second)).

Lemma fmt_zoned_ascii zone t : ascii_text (fmt_zoned zone t).
Proof.
  assert (forall l, ascii_text (fmt_secs (l / Second) +:+ fmt_frac (l mod Second))) as Hl.
  { intros l. pose proof (fmt_time_ascii l) as Ht. unfold ascii_text, fmt_time in *. rewrite !all_bytes_app in Ht. rewrite all_bytes_app.
    apply andb_true_iff in Ht as [-> Ht]. by apply andb_true_iff in Ht as [-> _]. }
  unfold fmt_zoned. rewrite <- str_app_assoc. apply ascii_app; [apply Hl|]. unfold fmt_zone. destruct (zone =? 0); [done|].
  destruct (zone <? 0); repeat (first [apply ascii_digits, all_digits_pad | reflexivity | apply ascii_app]).
Qed.

#[global] Instance c_zoned_lawful zone : Lawful (c_zoned zone).
Proof.
  intros d t _ [Hz Ht]. exists (quote (fmt_zoned zone t)), (JStr (fmt_zoned zone t)). cbn [c_text c_zoned]. rewrite decide_True by done. split; [done|]. split.
  - pose proof (quote_clean d (fmt_zoned zone t)) as Hq. by rewrite to_valid_id in Hq by apply utf8_ascii, fmt_zoned_ascii.
  - cbn [c_dec c_zoned plain dec_time c_norm]. by rewrite parse_fmt_zoned.
Qed.

(** json.RawMessage: compacted; the reader gets the compacted text. *)
Definition c_raw : codec string := mkCodec marshal_raw rd_raw "" (compact false false) (fun d s => exists v, fits d s v).

#[global] Instance c_raw_lawful : Lawful c_raw.
Proof.
  intros d s Hd [v Hv]. exists (compact false false s), v. cbn [c_text c_raw]. unfold marshal_raw, valid.
  rewrite (proj2 (parse_fits s v)) by by apply (fits_deeper d). split; [done|]. split; [by apply compact_reads|done].
Qed.

(** *T under omitempty. *)
Definition c_ptr {A} (c : codec A) : codec (option A) :=
  mkCodec (fun o => match o with Some a => c_text c a | None => Ok "null" end) (rd_ptr (c_zero c) (c_dec c)) None (option_map (c_norm c))
    (fun d o => match o with Some a => c_good c d a | None => True end).

#[global] Instance c_ptr_lawful {A} (c : codec A) : Lawful c -> NonNull c -> Lawful (c_ptr c).
Proof.
  intros Hc Hn d [a|] Hd Ha.
  - destruct (Hc d a Hd Ha) as (t & v & Ht & Hv & Hr). exists t, v. split; [done|]. split; [done|]. cbn [c_dec c_ptr c_zero c_norm rd_ptr option_map default].
    destruct v; try (unfold rd_ptr; cbn [default]; by rewrite Hr). apply null_starts in Hv. by rewrite (Hn a t Ht) in Hv.
  - exists "null", JNull. split; [done|]. split; [|done]. by apply (clean_print d JNull).
Qed.

(** A slice that is not nil. *)
Fixpoint rmap {A B} (f : A -> result B) (l : list A) : result (list B) :=
  match l with [] => Ok [] | a :: l => b <-! f a ;; bs <-! rmap f l ;; Ok (b :: bs) end.

Definition c_list {A} (c : codec A) : codec (list A) :=
  mkCodec (fun l => ts <-! rmap (c_text c) l ;; Ok (arr_text ts)) (rd_slice (c_zero c) (c_dec c)) [] (map (c_norm c))
    (fun d l => 0 < d /\ List.Forall (c_good c (d - 1)) l).

#[global] Instance c_list_lawful {A} (c : codec A) : Lawful c -> Lawful (c_list c).
Proof.
  intros Hc d l Hd [H0 Hl].
  assert (exists ms, rmap (c_text c) l = Ok (map snd ms) /\ Forall (item_ok (d - 1)) ms /\ rd_elems (c_zero c) (c_dec c) [] ms = Ok (map (c_norm c) l)) as (ms & Ht & Hm & Hr).
  { induction Hl as [|a l Ha Hl (ms & Ht & Hm & Hr)]; [by exists []|]. destruct (Hc (d - 1) a ltac:(lia) Ha) as (t & v & Hat & Hav & Har). exists ((v, t) :: ms).
    cbn [rmap map rd_elems head tail default snd]. rewrite Hat, Ht. split; [done|]. split; [by constructor|]. cbn [rbind] in *. rewrite Har. cbn [rbind]. by rewrite Hr. }
  exists (arr_text (map snd ms)), (JArr (map fst ms)). cbn [c_text c_list]. rewrite Ht. split; [done|]. split; [by apply arr_clean|].
  cbn [c_dec c_list c_norm c_zero]. by rewrite (rd_slice_text _ _ _ d).
Qed.

(** *** Maps *)

(** A [map[string]any]: members are added to the map decoded so far. *)
Definition dec_map : decoder (list (string * json)) := fun prev j =>
  match j with
  | JNull => Ok []
  | JObj l => l <-! any_members l ;; Ok (foldl (fun acc kv => obj_put (fst kv) (snd kv) acc) prev l)
  | _ => Err json_error
  end.

(** A Go map in the order of its keys: each once. *)
Definition ordered (l : list (string * json)) : Prop := Sorted.StronglySorted str_lt (map fst l).

Lemma compare_Gt a b : String.compare a b = Gt -> str_lt b a.
Proof. intros Hc. apply str_nle_lt. intros Hle. by apply Hle. Qed.

Lemma obj_put_In k v l x : In x (obj_put k v l) -> x = (k, v) \/ In x l.
Proof.
  induction l as [|[k' v'] l IH]; simpl; [intros [<-|[]]; by left|]. destruct (String.compare k k'); simpl.
  - intros [<-|Hx]; auto.
  - intros [<-|[<-|Hx]]; auto.
  - intros [<-|Hx]; [auto|]. destruct (IH Hx); auto.
Qed.

Lemma obj_put_ordered k v l : ordered l -> ordered (obj_put k v l).
Proof.
  unfold ordered. induction l as [|[k' v'] l IH]; simpl; intros Hl; [by repeat constructor|]. inversion_clear Hl as [|? ? Hl' Hf].
  destruct (String.compare k k') eqn:Ec; simpl.
  - apply str_compare_eq in Ec as ->. by constructor.
  - constructor; [by constructor|]. constructor; [done|]. eapply List.Forall_impl; [|exact Hf]. intros y Hy. by eapply str_lt_trans.
  - constructor; [by apply IH|]. apply List.Forall_forall. intros y Hy. apply in_map_iff in Hy as ([ky vy] & <- & Hy).
    apply obj_put_In in Hy as [[= -> ->]|Hy]; [by apply compare_Gt|]. rewrite List.Forall_forall in Hf. apply Hf. by apply (in_map fst) in Hy.
Qed.

(** The member put is the only one of its key. *)
Lemma obj_put_same k v l x : ordered l -> In x (obj_put k v l) -> fst x = k -> snd x = v.
Proof.
  unfold ordered. induction l as [|[k' v'] l IH]; simpl; intros Hl Hx Hk; [by destruct Hx as [<-|[]]|].
  inversion_clear Hl as [|? ? Hl' Hf]. rewrite List.Forall_forall in Hf.
  assert (forall y, In y l -> fst y <> k') as Hne by (intros y Hy ->%symmetry; apply (in_map fst), Hf in Hy; by apply str_lt_irrefl in Hy).
  destruct (String.compare k k') eqn:Ec; simpl in Hx.
  - apply str_compare_eq in Ec as ->. destruct Hx as [<-|Hx]; [done|]. by apply Hne in Hx.
  - destruct Hx as [<-|[<-|Hx]]; [done|simpl in Hk; subst; by apply str_lt_irrefl in Ec|].
    apply (in_map fst), Hf in Hx. rewrite Hk in Hx. exfalso. apply (str_lt_irrefl k). by eapply str_lt_trans.
  - destruct Hx as [<-|Hx]; [|by apply IH]. simpl in Hk. subst. by rewrite str_compare_refl in Ec.
Qed.

Lemma obj_put_has k v l : In (k, v) (obj_put k v l).
Proof. induction l as [|[k' v'] l IH]; simpl; [by left|]. destruct (String.compare k k'); simpl; auto. Qed.

Lemma obj_put_last k v l : List.Forall (fun x => str_lt (fst x) k) l -> obj_put k v l = l ++ [(k, v)].
Proof.
  induction 1 as [|[k' v'] l Hk Hl IH]; [done|]. cbn [obj_put fst] in *. destruct (String.compare k k') eqn:Ec; [| |by rewrite IH].
  - apply str_compare_eq in Ec as ->. by apply str_lt_irrefl in Hk.
  - exfalso. apply (str_lt_irrefl k). by eapply str_lt_trans.
Qed.

Lemma put_ordered l : ordered l -> foldl (fun acc kv => obj_put (fst kv) (snd kv) acc) [] l = l.
Proof.
  intros Ho. assert (forall acc, List.Forall (fun x => List.Forall (fun y => str_lt (fst x) (fst y)) l) acc ->
    foldl (fun acc kv => obj_put (fst kv) (snd kv) acc) acc l = acc ++ l) as Hx; [|by apply (Hx [])].
  unfold ordered in Ho. induction l as [|[k v] l IH]; intros acc Ha; [by rewrite app_nil_r|]. cbn [map] in Ho. inversion_clear Ho as [|? ? Ho' Hf]. cbn [foldl fst snd].
  rewrite obj_put_last by (eapply List.Forall_impl; [|exact Ha]; intros x Hx; by inversion_clear Hx).
  rewrite IH; [by rewrite <- app_assoc|done|]. apply List.Forall_app. split.
  - eapply List.Forall_impl; [|exact Ha]. intros x Hx. by inversion_clear Hx.
  - constructor; [|done]. by apply (List.Forall_map fst (str_lt k)).
Qed.

(** map[string]any, in the order of its keys. *)
Definition c_map : codec (list (string * json)) :=
  mkCodec (fun l => Ok (print (JObj l))) (plain dec_map) [] (fun l => l)
    (fun d l => ordered l /\ good d (JObj l) /\ any_members l = Ok l).

#[global] Instance c_map_lawful : Lawful c_map.
Proof.
  intros d l _ (Ho & Hg & Ha). exists (print (JObj l)), (JObj l). split; [done|]. split; [by apply clean_print|].
  cbn [c_dec c_map plain dec_map c_norm c_zero]. rewrite Ha. cbn [rbind]. by rewrite put_ordered.
Qed.

(** ** Structs *)

(** A tagged field; [sf_omit] is omitempty's test. *)
Record sfield (A : Type) := Field {
  sf_key : string;
  sf_type : Type;
  sf_codec : codec sf_type;
  sf_get : A -> sf_type;
  sf_set : sf_type -> A -> A;
  sf_omit : sf_type -> bool
}.
Arguments Field {A} sf_key {sf_type}. Arguments sf_key {A}. Arguments sf_type {A}. Arguments sf_codec {A}. Arguments sf_get {A}. Arguments sf_set {A}. Arguments sf_omit {A}.

Definition always {A} (_ : A) : bool := false.
Definition empty_string (s : string) : bool := String.eqb s "".
Definition empty_int (n : Z) : bool := n =? 0.
Definition is_nil {A} (o : option A) : bool := match o with None => true | Some _ => false end.
Definition empty_map {A} (l : list A) : bool := match l with [] => true | _ => false end.

Section Struct.
Context {A : Type}.

Fixpoint struct_members (fs : list (sfield A)) (a : A) : result (list (string * string)) :=
  match fs with
  | [] => Ok []
  | f :: fs =>
      if sf_omit f (sf_get f a) then struct_members fs a
      else t <-! c_text (sf_codec f) (sf_get f a) ;; l <-! struct_members fs a ;; Ok ((sf_key f, t) :: l)
  end.

Definition field_dec (f : sfield A) : rdecoder A := fun a j raw =>
  x <-! c_dec (sf_codec f) (sf_get f a) j raw ;; Ok (sf_set f x a).

Fixpoint field_named (fs : list (sfield A)) (key : string) : option (rdecoder A) :=
  match fs with
  | [] => None
  | f :: fs => if field_is (sf_key f) key then Some (field_dec f) else field_named fs key
  end.

Definition set_read (a acc : A) (f : sfield A) : A := sf_set f (c_norm (sf_codec f) (sf_get f a)) acc.

Definition c_struct (zero : A) (fs : list (sfield A)) : codec A :=
  mkCodec (fun a => l <-! struct_members fs a ;; Ok (obj_text l)) (rd_struct (field_named fs)) zero
    (fun a => foldl (set_read a) zero fs)
    (fun d a => 0 < d /\ List.Forall (fun f => sf_omit f (sf_get f a) = true \/ c_good (sf_codec f) (d - 1) (sf_get f a)) fs).

(** The keys are told apart by encoding/json. *)
Fixpoint distinct_keys (fs : list (sfield A)) : bool :=
  match fs with
  | [] => true
  | f :: fs => forallb (fun g => negb (field_is (sf_key f) (sf_key g))) fs && distinct_keys fs
  end.

(** Filling the fields in order, each is still zero when its turn comes, and an
    omitted one is rightly left so. *)
Fixpoint fills (a acc : A) (fs : list (sfield A)) : Prop :=
  match fs with
  | [] => True
  | f :: fs =>
      sf_get f acc = c_zero (sf_codec f) /\
      (sf_omit f (sf_get f a) = true -> set_read a acc f = acc) /\
      fills a (set_read a acc f) fs
  end.

Lemma field_named_In fs f : distinct_keys fs = true -> In f fs -> field_named fs (sf_key f) = Some (field_dec f).
Proof.
  induction fs as [|g fs IH]; [done|]. cbn [distinct_keys field_named]. intros Hd [->|Hf]; apply andb_true_iff in Hd as [Hg Hd].
  - unfold field_is. by rewrite String.eqb_refl.
  - rewrite forallb_forall in Hg. rewrite (proj1 (negb_true_iff _) (Hg f Hf)). by apply IH.
Qed.

Lemma struct_reads fs all d a acc :
  d <= max_nesting -> distinct_keys all = true -> List.Forall (fun f => In f all) fs ->
  List.Forall (fun f => utf8 (sf_key f) /\ Lawful (sf_codec f)) fs ->
  List.Forall (fun f => sf_omit f (sf_get f a) = true \/ c_good (sf_codec f) d (sf_get f a)) fs -> fills a acc fs ->
  exists ms, struct_members fs a = Ok (map mtext ms) /\ Forall (member_ok d) ms /\
    foldl (raw_step (field_named all)) (Ok acc) ms = Ok (foldl (set_read a) acc fs).
Proof.
  intros Hd Hk. revert acc. induction fs as [|f fs IH]; intros acc Hin Hl Hg Hf; [by exists []|].
  inversion_clear Hin as [|? ? Hf1 Hin']; inversion_clear Hl as [|? ? [Hu Hc] Hl']; inversion_clear Hg as [|? ? Hg1 Hg']. destruct Hf as (Hz & Ho & Hf).
  destruct (IH _ Hin' Hl' Hg' Hf) as (ms & Hm & Hok & Hr). cbn [struct_members foldl]. destruct (sf_omit f (sf_get f a)) eqn:Eo.
  - exists ms. rewrite Ho in * by done. done.
  - destruct Hg1 as [|Hg1]; [done|]. destruct (Hc d _ Hd Hg1) as (t & v & Ht & Hv & Hx). exists ((sf_key f, v, t) :: ms). rewrite Ht, Hm. split; [done|].
    split; [by constructor|]. cbn [foldl]. unfold raw_step at 2. cbn [rbind fst snd]. rewrite field_named_In by done. unfold field_dec. rewrite Hz, Hx. cbn [rbind]. exact Hr.
Qed.

(** A struct with distinct keys is read as written. *)
Lemma struct_lawful zero fs :
  distinct_keys fs = true -> List.Forall (fun f => utf8 (sf_key f) /\ Lawful (sf_codec f)) fs -> (forall a, fills a zero fs) ->
  Lawful (c_struct zero fs).
Proof.
  intros Hk Hl Hf d a Hd [H0 Hg].
  destruct (struct_reads fs fs (d - 1) a zero ltac:(lia) Hk) as (ms & Hm & Hok & Hr); [by apply List.Forall_forall|done|done|done|].
  exists (obj_text (map mtext ms)), (JObj (map mval ms)). cbn [c_text c_struct]. rewrite Hm. split; [done|]. split; [by apply obj_clean|].
  cbn [c_dec c_struct c_zero c_norm]. by rewrite (rd_struct_text _ _ d).
Qed.
End Struct.

(** The fields of a concrete struct are lawful: keys are computed, a field left
    out holds its zero value. *)
Ltac solve_struct :=
  apply struct_lawful;
  [ reflexivity
  | repeat (first [apply List.Forall_nil | apply List.Forall_cons; [split; [apply utf8_ascii; reflexivity|apply _]|]])
  | let a := fresh "a" in intros a; destruct a; cbn;
    repeat (match goal with |- _ /\ _ => split | |- True => exact I | |- ?x = ?x => reflexivity end);
    let H := fresh "H" in intros H;
    first [ discriminate H
          | apply String.eqb_eq in H; subst; reflexivity
          | apply Z.eqb_eq in H; subst; reflexivity
          | match type of H with is_nil ?o = _ => destruct o; [discriminate H|reflexivity] end
          | match type of H with empty_map ?o = _ => destruct o; [reflexivity|discriminate H] end ] ].

(** ** The types of types.go *)

(** *** Health *)

Record HealthResponse := mkHealth { h_status : string; h_pid : Z; h_version : string; h_started_at : time }.
Definition HealthResponse_fields (zone : Z) : list (sfield HealthResponse) := [
  Field "status" c_string h_status (fun x '(mkHealth _ b c d) => mkHealth x b c d) always;
  Field "pid" c_int h_pid (fun x '(mkHealth a _ c d) => mkHealth a x c d) always;
  Field "version" c_string h_version (fun x '(mkHealth a b _ d) => mkHealth a b x d) always;
  Field "started_at" (c_zoned zone) h_started_at (fun x '(mkHealth a b c _) => mkHealth a b c x) always ].
Definition c_HealthResponse (zone : Z) := c_struct (mkHealth "" 0 "" zero_time) (HealthResponse_fields zone).

(** Uptime, at [now]: whole seconds of time.Since, which saturates. *)
Definition Uptime (now : time) (h : HealthResponse) : Z :=
  Z.quot (Z.max (- 2 ^ 63) (Z.min (2 ^ 63 - 1) (now - h_started_at h))) Second * Second.

(** *** Messages *)

Record SendMessageRequest := mkSend {
  sm_queue : string;
  sm_payload : string;                 (** the bytes of the RawMessage *)
  sm_headers : list (string * json)    (** the map, in the order of its keys *)
}.
Definition SendMessageRequest_fields : list (sfield SendMessageRequest) := [
  Field "queue" c_string sm_queue (fun x '(mkSend _ b c) => mkSend x b c) always;
  Field "payload" c_raw sm_payload (fun x '(mkSend a _ c) => mkSend a x c) always;
  Field "headers" c_map sm_headers (fun x '(mkSend a b _) => mkSend a b x) empty_map ].
Definition c_SendMessageRequest := c_struct (mkSend "" "" []) SendMessageRequest_fields.

Record SendMessageResponse := mkSent { sr_id : string; sr_trace_id : string; sr_created_at : time }.
Definition SendMessageResponse_fields : list (sfield SendMessageResponse) := [
  Field "id" c_string sr_id (fun x '(mkSent _ b c) => mkSent x b c) always;
  Field "trace_id" c_string sr_trace_id (fun x '(mkSent a _ c) => mkSent a x c) always;
  Field "created_at" c_time sr_created_at (fun x '(mkSent a b _) => mkSent a b x) always ].
Definition c_SendMessageResponse := c_struct (mkSent "" "" zero_time) SendMessageResponse_fields.

Record ListMessagesRequest := mkListMsgs { lm_queue : string; lm_trace_id : string; lm_limit : Z; lm_before_id : string }.
Definition ListMessagesRequest_fields : list (sfield ListMessagesRequest) := [
  Field "queue" c_string lm_queue (fun x '(mkListMsgs _ b c d) => mkListMsgs x b c d) empty_string;
  Field "trace_id" c_string lm_trace_id (fun x '(mkListMsgs a _ c d) => mkListMsgs a x c d) empty_string;
  Field "limit" c_int lm_limit (fun x '(mkListMsgs a b _ d) => mkListMsgs a b x d) empty_int;
  Field "before_id" c_string lm_before_id (fun x '(mkListMsgs a b c _) => mkListMsgs a b c x) empty_string ].
Definition c_ListMessagesRequest := c_struct (mkListMsgs "" "" 0 "") ListMessagesRequest_fields.

Definition zero_message : message := mkMessage "" "" "" "" "" None None None zero_time.
Definition Message_fields : list (sfield message) := [
  Field "id" c_string msg_id (fun x '(mkMessage _ b c d e f g h i) => mkMessage x b c d e f g h i) always;
  Field "queue" c_string msg_queue (fun x '(mkMessage a _ c d e f g h i) => mkMessage a x c d e f g h i) always;
  Field "payload" c_raw msg_payload (fun x '(mkMessage a b _ d e f g h i) => mkMessage a b x d e f g h i) always;
  Field "headers" c_raw msg_headers (fun x '(mkMessage a b c _ e f g h i) => mkMessage a b c x e f g h i) always;
  Field "trace_id" c_string msg_trace_id (fun x '(mkMessage a b c d _ f g h i) => mkMessage a b c d x f g h i) always;
  Field "origin_action" (c_ptr c_string) msg_origin_action (fun x '(mkMessage a b c d e _ g h i) => mkMessage a b c d e x g h i) is_nil;
  Field "origin_action_version" (c_ptr c_int) msg_origin_version (fun x '(mkMessage a b c d e f _ h i) => mkMessage a b c d e f x h i) is_nil;
  Field "origin_message_id" (c_ptr c_string) msg_origin_message (fun x '(mkMessage a b c d e f g _ i) => mkMessage a b c d e f g x i) is_nil;
  Field "created_at" c_time msg_created_at (fun x '(mkMessage a b c d e f g h _) => mkMessage a b c d e f g h x) always ].
Definition c_Message := c_struct zero_message Message_fields.

(** A response of one list; the requests with one identifier or one name. *)
Definition c_only {A} (key : string) (c : codec A) : codec A :=
  c_struct (c_zero c) [Field key c (fun a => a) (fun x _ => x) always].

Definition c_ListMessagesResponse : codec (list message) := c_only "messages" (c_list c_Message).

(** ShowMessageRequest, ShowDeliveryRequest and ReplayDeliveryRequest. *)
Record IDRequest := mkID { rq_id : string }.
Definition IDRequest_fields : list (sfield IDRequest) := [ Field "id" c_string rq_id (fun x _ => mkID x) always ].
Definition c_IDRequest := c_struct (mkID "") IDRequest_fields.

(** ListQueuesRequest and ListActionsRequest have no fields. *)
Definition c_empty : codec unit := c_struct tt [].

Definition QueueInfo_fields : list (sfield QueueInfo) := [
  Field "name" c_string qi_name (fun x '(mkQueueInfo _ b) => mkQueueInfo x b) always;
  Field "messages" c_int qi_messages (fun x '(mkQueueInfo a _) => mkQueueInfo a x) always ].
Definition c_QueueInfo := c_struct (mkQueueInfo "" 0) QueueInfo_fields.
Definition c_ListQueuesResponse : codec (list QueueInfo) := c_only "queues" (c_list c_QueueInfo).

(** *** Actions *)

Record ApplyActionRequest := mkApply { aa_definition : string }.
Definition ApplyActionRequest_fields : list (sfield ApplyActionRequest) := [
  Field "definition" c_raw aa_definition (fun x _ => mkApply x) always ].
Definition c_ApplyActionRequest := c_struct (mkApply "") ApplyActionRequest_fields.

Record ApplyActionResponse := mkApplied { ar_name : string; ar_version : Z; ar_changed : bool; ar_enabled : bool }.
Definition ApplyActionResponse_fields : list (sfield ApplyActionResponse) := [
  Field "name" c_string ar_name (fun x '(mkApplied _ b c d) => mkApplied x b c d) always;
  Field "version" c_int ar_version (fun x '(mkApplied a _ c d) => mkApplied a x c d) always;
  Field "changed" c_bool ar_changed (fun x '(mkApplied a b _ d) => mkApplied a b x d) always;
  Field "enabled" c_bool ar_enabled (fun x '(mkApplied a b c _) => mkApplied a b c x) always ].
Definition c_ApplyActionResponse := c_struct (mkApplied "" 0 false false) ApplyActionResponse_fields.

Definition Action_wire_fields : list (sfield action) := [
  Field "name" c_string ac_name (fun x '(mkAct _ b c d e) => mkAct x b c d e) always;
  Field "version" c_int ac_version (fun x '(mkAct a _ c d e) => mkAct a x c d e) always;
  Field "definition" c_raw ac_definition (fun x '(mkAct a b _ d e) => mkAct a b x d e) always;
  Field "enabled" c_bool ac_enabled (fun x '(mkAct a b c _ e) => mkAct a b c x e) always;
  Field "created_at" c_time ac_created_at (fun x '(mkAct a b c d _) => mkAct a b c d x) always ].
Definition c_Action : codec action := c_struct (mkAct "" 0 "" false zero_time) Action_wire_fields.

Record ActionSummary := mkSummary {
  as_name : string; as_version : Z; as_enabled : bool; as_actor : string; as_inputs : list string;
  as_output : string; as_created_at : time
}.
Definition ActionSummary_fields : list (sfield ActionSummary) := [
  Field "name" c_string as_name (fun x '(mkSummary _ b c d e f g) => mkSummary x b c d e f g) always;
  Field "version" c_int as_version (fun x '(mkSummary a _ c d e f g) => mkSummary a x c d e f g) always;
  Field "enabled" c_bool as_enabled (fun x '(mkSummary a b _ d e f g) => mkSummary a b x d e f g) always;
  Field "actor" c_string as_actor (fun x '(mkSummary a b c _ e f g) => mkSummary a b c x e f g) always;
  Field "inputs" (c_list c_string) as_inputs (fun x '(mkSummary a b c d _ f g) => mkSummary a b c d x f g) always;
  Field "output" c_string as_output (fun x '(mkSummary a b c d e _ g) => mkSummary a b c d e x g) empty_string;
  Field "created_at" c_time as_created_at (fun x '(mkSummary a b c d e f _) => mkSummary a b c d e f x) always ].
Definition c_ActionSummary := c_struct (mkSummary "" 0 false "" [] "" zero_time) ActionSummary_fields.
Definition c_ListActionsResponse : codec (list ActionSummary) := c_only "actions" (c_list c_ActionSummary).

Record ShowActionRequest := mkShowAction { sa_name : string; sa_version : Z }.
Definition ShowActionRequest_fields : list (sfield ShowActionRequest) := [
  Field "name" c_string sa_name (fun x '(mkShowAction _ b) => mkShowAction x b) always;
  Field "version" c_int sa_version (fun x '(mkShowAction a _) => mkShowAction a x) empty_int ].
Definition c_ShowActionRequest := c_struct (mkShowAction "" 0) ShowActionRequest_fields.

(** SetActionEnabledRequest. *)
Record NameRequest := mkName { rq_name : string }.
Definition NameRequest_fields : list (sfield NameRequest) := [ Field "name" c_string rq_name (fun x _ => mkName x) always ].
Definition c_NameRequest := c_struct (mkName "") NameRequest_fields.

Record SetActionEnabledResponse := mkEnabled { er_name : string; er_version : Z; er_enabled : bool }.
Definition SetActionEnabledResponse_fields : list (sfield SetActionEnabledResponse) := [
  Field "name" c_string er_name (fun x '(mkEnabled _ b c) => mkEnabled x b c) always;
  Field "version" c_int er_version (fun x '(mkEnabled a _ c) => mkEnabled a x c) always;
  Field "enabled" c_bool er_enabled (fun x '(mkEnabled a b _) => mkEnabled a b x) always ].
Definition c_SetActionEnabledResponse := c_struct (mkEnabled "" 0 false) SetActionEnabledResponse_fields.

(** *** Deliveries *)

(** The wire form of a delivery drops the process group; the state is its text. *)
Record api_delivery := mkApiDelivery {
  ad_id : string;
  ad_message_id : option string;
  ad_action : string;
  ad_action_version : option Z;
  ad_state : string;
  ad_attempt : Z;
  ad_not_before : option time;
  ad_stderr_tail : option string;
  ad_error : option string;
  ad_claimed_at : option time;
  ad_completed_at : option time
}.
Definition zero_delivery : api_delivery := mkApiDelivery "" None "" None "" 0 None None None None None.
Definition Delivery_fields : list (sfield api_delivery) := [
  Field "id" c_string ad_id (fun x '(mkApiDelivery _ b c d e f g h i j k) => mkApiDelivery x b c d e f g h i j k) always;
  Field "message_id" (c_ptr c_string) ad_message_id (fun x '(mkApiDelivery a _ c d e f g h i j k) => mkApiDelivery a x c d e f g h i j k) is_nil;
  Field "action" c_string ad_action (fun x '(mkApiDelivery a b _ d e f g h i j k) => mkApiDelivery a b x d e f g h i j k) always;
  Field "action_version" (c_ptr c_int) ad_action_version (fun x '(mkApiDelivery a b c _ e f g h i j k) => mkApiDelivery a b c x e f g h i j k) is_nil;
  Field "state" c_string ad_state (fun x '(mkApiDelivery a b c d _ f g h i j k) => mkApiDelivery a b c d x f g h i j k) always;
  Field "attempt" c_int ad_attempt (fun x '(mkApiDelivery a b c d e _ g h i j k) => mkApiDelivery a b c d e x g h i j k) always;
  Field "not_before" (c_ptr c_time) ad_not_before (fun x '(mkApiDelivery a b c d e f _ h i j k) => mkApiDelivery a b c d e f x h i j k) is_nil;
  Field "stderr_tail" (c_ptr c_string) ad_stderr_tail (fun x '(mkApiDelivery a b c d e f g _ i j k) => mkApiDelivery a b c d e f g x i j k) is_nil;
  Field "error" (c_ptr c_string) ad_error (fun x '(mkApiDelivery a b c d e f g h _ j k) => mkApiDelivery a b c d e f g h x j k) is_nil;
  Field "claimed_at" (c_ptr c_time) ad_claimed_at (fun x '(mkApiDelivery a b c d e f g h i _ k) => mkApiDelivery a b c d e f g h i x k) is_nil;
  Field "completed_at" (c_ptr c_time) ad_completed_at (fun x '(mkApiDelivery a b c d e f g h i j _) => mkApiDelivery a b c d e f g h i j x) is_nil ].
Definition c_Delivery := c_struct zero_delivery Delivery_fields.
Definition c_ListDeliveriesResponse : codec (list api_delivery) := c_only "deliveries" (c_list c_Delivery).

Record ListDeliveriesRequest := mkListDlvs {
  ld_action : string; ld_state : string; ld_message_id : string; ld_limit : Z; ld_before_id : string
}.
Definition ListDeliveriesRequest_fields : list (sfield ListDeliveriesRequest) := [
  Field "action" c_string ld_action (fun x '(mkListDlvs _ b c d e) => mkListDlvs x b c d e) empty_string;
  Field "state" c_string ld_state (fun x '(mkListDlvs a _ c d e) => mkListDlvs a x c d e) empty_string;
  Field "message_id" c_string ld_message_id (fun x '(mkListDlvs a b _ d e) => mkListDlvs a b x d e) empty_string;
  Field "limit" c_int ld_limit (fun x '(mkListDlvs a b c _ e) => mkListDlvs a b c x e) empty_int;
  Field "before_id" c_string ld_before_id (fun x '(mkListDlvs a b c d _) => mkListDlvs a b c d x) empty_string ].
Definition c_ListDeliveriesRequest := c_struct (mkListDlvs "" "" "" 0 "") ListDeliveriesRequest_fields.

(** *** Errors *)

Record ErrorBody := mkErrorBody { eb_code : string; eb_message : string }.
Definition ErrorBody_fields : list (sfield ErrorBody) := [
  Field "code" c_string eb_code (fun x '(mkErrorBody _ b) => mkErrorBody x b) always;
  Field "message" c_string eb_message (fun x '(mkErrorBody a _) => mkErrorBody a x) always ].
Definition c_ErrorBody := c_struct (mkErrorBody "" "") ErrorBody_fields.
Definition c_ErrorResponse : codec ErrorBody := c_only "error" c_ErrorBody.

(** ** They are lawful *)

#[global] Instance c_only_lawful {A} key (c : codec A) : ascii_text key -> Lawful c -> Lawful (c_only key c).
Proof.
  intros Hk Hc. apply struct_lawful; [done| |].
  - constructor; [|constructor]. split; [by apply utf8_ascii|done].
  - intros a. cbn. by repeat split.
Qed.

#[global] Instance c_HealthResponse_lawful zone : Lawful (c_HealthResponse zone).
Proof. solve_struct. Qed.
#[global] Instance c_SendMessageRequest_lawful : Lawful c_SendMessageRequest.
Proof. solve_struct. Qed.
#[global] Instance c_SendMessageResponse_lawful : Lawful c_SendMessageResponse.
Proof. solve_struct. Qed.
#[global] Instance c_ListMessagesRequest_lawful : Lawful c_ListMessagesRequest.
Proof. solve_struct. Qed.
#[global] Instance c_Message_lawful : Lawful c_Message.
Proof. solve_struct. Qed.
#[global] Instance c_IDRequest_lawful : Lawful c_IDRequest.
Proof. solve_struct. Qed.
#[global] Instance c_empty_lawful : Lawful c_empty.
Proof. solve_struct. Qed.
#[global] Instance c_QueueInfo_lawful : Lawful c_QueueInfo.
Proof. solve_struct. Qed.
#[global] Instance c_ApplyActionRequest_lawful : Lawful c_ApplyActionRequest.
Proof. solve_struct. Qed.
#[global] Instance c_ApplyActionResponse_lawful : Lawful c_ApplyActionResponse.
Proof. solve_struct. Qed.
#[global] Instance c_Action_lawful : Lawful c_Action.
Proof. solve_struct. Qed.
#[global] Instance c_ActionSummary_lawful : Lawful c_ActionSummary.
Proof. solve_struct. Qed.
#[global] Instance c_ShowActionRequest_lawful : Lawful c_ShowActionRequest.
Proof. solve_struct. Qed.
#[global] Instance c_NameRequest_lawful : Lawful c_NameRequest.
Proof. solve_struct. Qed.
#[global] Instance c_SetActionEnabledResponse_lawful : Lawful c_SetActionEnabledResponse.
Proof. solve_struct. Qed.
#[global] Instance c_Delivery_lawful : Lawful c_Delivery.
Proof. solve_struct. Qed.
#[global] Instance c_ListDeliveriesRequest_lawful : Lawful c_ListDeliveriesRequest.
Proof. solve_struct. Qed.
#[global] Instance c_ErrorBody_lawful : Lawful c_ErrorBody.
Proof. solve_struct. Qed.


#[global] Instance c_ListMessagesResponse_lawful : Lawful c_ListMessagesResponse.
Proof. apply c_only_lawful; [reflexivity|apply _]. Qed.
#[global] Instance c_ListQueuesResponse_lawful : Lawful c_ListQueuesResponse.
Proof. apply c_only_lawful; [reflexivity|apply _]. Qed.
#[global] Instance c_ListActionsResponse_lawful : Lawful c_ListActionsResponse.
Proof. apply c_only_lawful; [reflexivity|apply _]. Qed.
#[global] Instance c_ListDeliveriesResponse_lawful : Lawful c_ListDeliveriesResponse.
Proof. apply c_only_lawful; [reflexivity|apply _]. Qed.
#[global] Instance c_ErrorResponse_lawful : Lawful c_ErrorResponse.
Proof. apply c_only_lawful; [reflexivity|apply _]. Qed.

(** A struct is never the empty text. *)
Lemma struct_text_nonempty {A} (zero : A) fs a t : c_text (c_struct zero fs) a = Ok t -> t <> "".
Proof. cbn [c_text c_struct]. intros Ht. apply rbind_Ok in Ht as (l & _ & [= <-]). done. Qed.
