(* ===== verification/Executor.v ===== *)
(** The executor: internal/executor/executor.go.

    The operating system - starting the process, what it writes, how it ends,
    which channel wins a select - is the argument [process] of [Execute]; the
    two output buffers, the choice of the outcome and the signals sent are the
    code's. *)
From S2P Require Import Prelude GoTime.

Definition StderrTailSize : Z := 8 * 2 ^ 10.
Definition defaultTermGrace : Z := 5 * Second.

Record Spec := mkSpec {
  sp_command : list string;
  sp_timeout : Z;
  sp_stdout_cap : Z;
  sp_term_grace : Z
}.

(** Result and error of one execution; [e_err] is the text of the error. *)
Record Result := mkResult { e_stdout : string; e_stderr_tail : string; e_err : option string }.

(** ** The stdout buffer *)

Record cappedBuffer := mkCapped { cb_buf : string; cb_max : Z; cb_done : bool }.

Definition newCappedBuffer (max : Z) : cappedBuffer := mkCapped "" max false.

(** A write that would exceed the cap is dropped whole, and remembered. *)
Definition capped_Write (b : cappedBuffer) (p : string) : cappedBuffer :=
  if (0 <? cb_max b) && (cb_max b <? Z.of_nat (String.length (cb_buf b)) + Z.of_nat (String.length p))
  then mkCapped (cb_buf b) (cb_max b) true
  else mkCapped (cb_buf b +:+ p) (cb_max b) (cb_done b).

(** ** The stderr buffer *)

Record tailBuffer := mkTail { tb_buf : string; tb_max : Z }.

Definition newTailBuffer (max : Z) : tailBuffer := mkTail "" max.

(** The last [n] bytes. *)
Definition str_last (n : Z) (s : string) : string :=
  str_drop (Z.to_nat (Z.of_nat (String.length s) - n)) s.

Definition tail_Write (b : tailBuffer) (p : string) : tailBuffer :=
  let buf := tb_buf b +:+ p in
  mkTail (if tb_max b <? Z.of_nat (String.length buf) then str_last (tb_max b) buf else buf) (tb_max b).

(** ** Process groups *)

Inductive signal := SIGTERM | SIGKILL.

(** killGroup: SIGTERM, SIGKILL after the grace period unless the child exited
    within it, and a final sweep.  [exits] says whether it did. *)
Definition killGroup (exits : bool) : list signal :=
  if exits then [SIGTERM; SIGKILL] else [SIGTERM; SIGKILL; SIGKILL].

(** Which case of the select is taken. *)
Inductive wake :=
| Exited                            (** [<-done] *)
| ContextDone (deadline : bool)     (** [<-ctx.Done()], by the timeout or by the caller *)
| StdoutExceeded.                   (** [<-stdout.exceeded()] *)

Record process := mkProcess {
  pr_start : option string;     (** the error of cmd.Start *)
  pr_pid : Z;
  pr_stdout : list string;      (** writes, until both pipes are closed *)
  pr_stderr : list string;
  pr_wait : option string;      (** the error of cmd.Wait *)
  pr_wake : wake;
  pr_within_grace : bool;
  pr_ctx_err : bool             (** [ctx.Err() != nil] when the outcome is chosen *)
}.

(** What the process would do, on this specification; the rest is observed. *)
Record outcome := mkOutcome {
  out_result : Result;
  out_pgid : option Z;          (** reported to [onStart] *)
  out_signals : list signal
}.

Definition cap_error (spec : Spec) : string := "stdout exceeded " +:+ dec (sp_stdout_cap spec) +:+ " byte cap".

Definition Execute (spec : Spec) (p : process) : outcome :=
  match sp_command spec with
  | [] => mkOutcome (mkResult "" "" (Some "spawn: empty command")) None []
  | _ =>
      match pr_start p with
      | Some e => mkOutcome (mkResult "" "" (Some ("spawn: " +:+ e))) None []
      | None =>
          let stdout := foldl capped_Write (newCappedBuffer (sp_stdout_cap spec)) (pr_stdout p) in
          let stderr := foldl tail_Write (newTailBuffer StderrTailSize) (pr_stderr p) in
          let '(timedOut, waitErr, signals) :=
            match pr_wake p with
            | Exited => (false, pr_wait p, [])
            | ContextDone deadline => (deadline, pr_wait p, killGroup (pr_within_grace p))
            | StdoutExceeded => (false, Some (cap_error spec), killGroup (pr_within_grace p))
            end in
          let err :=
            if timedOut : bool then Some "timeout"
            else match waitErr with
                 | Some e => if pr_ctx_err p then Some ("cancelled: " +:+ e) else Some e
                 | None => if cb_done stdout then Some (cap_error spec) else None
                 end in
          mkOutcome (mkResult (cb_buf stdout) (tb_buf stderr) err) (Some (pr_pid p)) signals
      end
  end.

(** ** The buffers hold what they promise *)

Definition str_concat (l : list string) : string := foldr (fun a b => a +:+ b) "" l.

Lemma str_concat_app l1 l2 : str_concat (l1 ++ l2) = str_concat l1 +:+ str_concat l2.
Proof.
  unfold str_concat. induction l1 as [|x l1 IH]; [done|]. cbn [app foldr]. by rewrite IH, str_app_assoc.
Qed.

Lemma str_concat_snoc l x : str_concat (l ++ [x]) = str_concat l +:+ x.
Proof. rewrite str_concat_app. unfold str_concat at 2. cbn [foldr]. by rewrite str_app_nil_r. Qed.

Definition strlen (s : string) : Z := Z.of_nat (String.length s).

Lemma strlen_app a b : strlen (a +:+ b) = strlen a + strlen b.
Proof. unfold strlen. rewrite str_length_app. lia. Qed.

Lemma capped_max b ps : cb_max (foldl capped_Write b ps) = cb_max b.
Proof.
  revert b; induction ps as [|p ps IH]; intros b; [done|]. cbn [foldl]. rewrite IH. unfold capped_Write.
  by destruct (_ && _).
Qed.

Lemma strlen_nonneg s : 0 <= strlen s.
Proof. unfold strlen. lia. Qed.

(** The invariant of the stdout buffer, write by write. *)
Lemma capped_inv max ps :
  0 < max ->
  let b := foldl capped_Write (newCappedBuffer max) ps in
  strlen (cb_buf b) <= max /\
  (cb_done b = true <-> max < strlen (str_concat ps)) /\
  (cb_done b = false -> cb_buf b = str_concat ps).
Proof.
  intros Hmax. induction ps as [|p ps IH] using rev_ind; cbn zeta in *.
  { unfold strlen. simpl. split_and!; [lia|split; [done|lia]|done]. }
  rewrite foldl_app. cbn [foldl]. pose proof (capped_max (newCappedBuffer max) ps) as Hm. cbn in Hm.
  set (b := foldl capped_Write (newCappedBuffer max) ps) in *. destruct IH as (Hlen & Hdone & Hbuf).
  pose proof (strlen_nonneg p). rewrite str_concat_snoc, strlen_app.
  unfold capped_Write. rewrite Hm. fold (strlen (cb_buf b)) (strlen p).
  assert ((0 <? max) = true) as -> by lia. simpl. destruct (Z.ltb_spec max (strlen (cb_buf b) + strlen p)); simpl.
  - split_and!; [done| |done]. split; [|done]. intros _. destruct (cb_done b); [|rewrite <- Hbuf by done; lia].
    enough (max < strlen (str_concat ps)) by lia. by apply Hdone.
  - rewrite strlen_app. split_and!; [lia| |].
    + destruct (cb_done b) eqn:E; [split; [|done]; intros _; enough (max < strlen (str_concat ps)) by lia; by apply Hdone|].
      split; [done|]. rewrite <- Hbuf by done. lia.
    + intros Hd. by rewrite Hbuf.
Qed.

Lemma str_drop_app a b : str_drop (String.length a) (a +:+ b) = b.
Proof. induction a as [|c a IH]; [done|]. rewrite str_app_cons. exact IH. Qed.

Lemma str_drop_drop n m s : str_drop n (str_drop m s) = str_drop (m + n) s.
Proof.
  revert s; induction m as [|m IH]; intros s; [done|]. destruct s as [|c s]; [by destruct n|]. apply IH.
Qed.

Lemma str_drop_app_l n a b : (n <= String.length a)%nat -> str_drop n (a +:+ b) = str_drop n a +:+ b.
Proof.
  revert a; induction n as [|n IH]; intros a Hn; [done|]. destruct a as [|c a]; [simpl in Hn; lia|].
  rewrite str_app_cons. apply IH. simpl in Hn. lia.
Qed.

Lemma str_drop_length n s : String.length (str_drop n s) = (String.length s - n)%nat.
Proof. revert s; induction n as [|n IH]; intros [|c s]; simpl; done. Qed.

Lemma str_last_all n s : strlen s <= n -> str_last n s = s.
Proof. unfold str_last, strlen. intros Hn. by replace (Z.to_nat _) with 0%nat by lia. Qed.

Lemma str_last_app n a b : 0 <= n -> str_last n (str_last n a +:+ b) = str_last n (a +:+ b).
Proof.
  intros Hn. destruct (Z.le_gt_cases (strlen a) n) as [Ha|Ha]; [by rewrite (str_last_all n a)|].
  unfold strlen in Ha. unfold str_last at 2. rewrite <- str_drop_app_l by lia. unfold str_last.
  rewrite str_drop_drop, str_drop_length, str_length_app. f_equal. lia.
Qed.

Lemma tail_inv max ps :
  0 <= max ->
  let b := foldl tail_Write (newTailBuffer max) ps in
  tb_buf b = str_last max (str_concat ps) /\ strlen (tb_buf b) <= max.
Proof.
  intros Hmax. cbn zeta.
  assert (tb_max (foldl tail_Write (newTailBuffer max) ps) = max /\
    tb_buf (foldl tail_Write (newTailBuffer max) ps) = str_last max (str_concat ps)) as [_ Hb].
  { induction ps as [|p ps [Hm IH]] using rev_ind; [split; [done|by rewrite str_last_all]|].
    rewrite foldl_app. cbn [foldl]. rewrite str_concat_snoc. set (b := foldl tail_Write (newTailBuffer max) ps) in *.
    unfold tail_Write. cbn [tb_max tb_buf]. rewrite Hm. split; [done|].
    rewrite IH, <- (str_last_app max (str_concat ps) p) by done. set (s := str_last max (str_concat ps) +:+ p).
    destruct (Z.ltb_spec max (Z.of_nat (String.length s))); [done|]. symmetry. by apply str_last_all. }
  split; [done|]. rewrite Hb. unfold str_last, strlen. rewrite str_drop_length. lia.
Qed.

(** The stdout buffer never holds more than its cap; it is flagged
    exactly when the process wrote more than the cap in all, and as long as it
    is not flagged it holds everything written, in order (no silent
    truncation). *)
Theorem cappedBuffer_exact max ps :
  0 < max ->
  let b := foldl capped_Write (newCappedBuffer max) ps in
  strlen (cb_buf b) <= max /\
  (cb_done b = true <-> max < strlen (str_concat ps)) /\
  (cb_done b = false -> cb_buf b = str_concat ps).
Proof. apply capped_inv. Qed.

(** The stderr buffer holds exactly the last bytes of everything
    written, at most its size, however the writes were cut. *)
Theorem tailBuffer_exact max ps :
  0 <= max ->
  let b := foldl tail_Write (newTailBuffer max) ps in
  tb_buf b = str_last max (str_concat ps) /\ strlen (tb_buf b) <= max.
Proof. apply tail_inv. Qed.

(** Unflagged, the buffer is whole; a cap of zero or less is no cap. *)
Lemma capped_whole max ps :
  let b := foldl capped_Write (newCappedBuffer max) ps in
  cb_done b = false -> cb_buf b = str_concat ps /\ (0 < max -> strlen (str_concat ps) <= max).
Proof.
  cbn zeta. intros Hd. destruct (Z.lt_ge_cases 0 max) as [Hmax|Hmax].
  - destruct (capped_inv max ps Hmax) as (Hl & _ & Hb). rewrite <- Hb by done. done.
  - split; [|lia]. clear Hd. induction ps as [|p ps IH] using rev_ind; [done|].
    rewrite foldl_app, str_concat_snoc. cbn [foldl]. pose proof (capped_max (newCappedBuffer max) ps) as Hm. cbn [cb_max newCappedBuffer] in Hm.
    set (b := foldl capped_Write (newCappedBuffer max) ps) in *. unfold capped_Write. rewrite Hm.
    destruct (Z.ltb_spec 0 max); [lia|]. cbn. by rewrite IH.
Qed.

(** An execution that reports success started, exited cleanly without
    being timed out, wrote no more than the cap, and hands over everything it
    wrote; every way of being killed is an error, sends SIGTERM first and
    SIGKILL last; nothing is signalled otherwise. *)
Theorem Execute_outcome spec p :
  let o := Execute spec p in
  (e_err (out_result o) = None ->
     pr_start p = None /\ pr_wait p = None /\ pr_wake p <> StdoutExceeded /\ pr_wake p <> ContextDone true /\
     e_stdout (out_result o) = str_concat (pr_stdout p) /\
     (0 < sp_stdout_cap spec -> strlen (str_concat (pr_stdout p)) <= sp_stdout_cap spec)) /\
  (pr_wake p = StdoutExceeded \/ pr_wake p = ContextDone true -> e_err (out_result o) <> None) /\
  (out_signals o = [] \/ head (out_signals o) = Some SIGTERM /\ last (out_signals o) = Some SIGKILL) /\
  (pr_wake p = Exited -> out_signals o = []) /\
  strlen (e_stderr_tail (out_result o)) <= StderrTailSize.
Proof.
  cbn zeta. unfold Execute. destruct (sp_command spec) as [|c cs].
  { simpl. split_and!; [done|by intros|by left|done|unfold strlen, StderrTailSize; simpl; lia]. }
  destruct (pr_start p) as [e|].
  { simpl. split_and!; [done|by intros|by left|done|unfold strlen, StderrTailSize; simpl; lia]. }
  set (so := foldl capped_Write _ _). set (se := foldl tail_Write _ _).
  assert (strlen (tb_buf se) <= StderrTailSize) as Hse by (apply tail_inv; unfold StderrTailSize; lia).
  pose proof (capped_whole (sp_stdout_cap spec) (pr_stdout p)) as Hso. fold so in Hso.
  assert (forall b, head (killGroup b) = Some SIGTERM /\ last (killGroup b) = Some SIGKILL) as Hk by (intros []; done).
  destruct (pr_wake p) as [|[]|]; simpl; destruct (pr_wait p) as [e|]; destruct (cb_done so) eqn:Ed; try destruct (pr_ctx_err p); simpl;
    (split_and!; [try done; intros _; split_and!; try done; by apply Hso|intros [[=]|[=]]; done|first [by left|right; apply Hk]|done|done]).
Qed.

(** ** Witnesses *)

Lemma cappedBuffer_exact_witness :
  let b := foldl capped_Write (newCappedBuffer 4) ["ab"; "cde"; "f"] in
  cb_buf b = "abf" /\ cb_done b = true /\ strlen (cb_buf b) <= 4.
Proof.
  split; [reflexivity|]. split; [reflexivity|]. apply (cappedBuffer_exact 4 ["ab"; "cde"; "f"]). lia.
Defined.

Lemma tailBuffer_exact_witness :
  let b := foldl tail_Write (newTailBuffer 4) ["ab"; "cde"; "f"] in
  tb_buf b = "cdef" /\ tb_buf b = str_last 4 (str_concat ["ab"; "cde"; "f"]) /\ strlen (tb_buf b) <= 4.
Proof. split; [reflexivity|]. apply (tailBuffer_exact 4 ["ab"; "cde"; "f"]). lia. Defined.
