(* ===== verification/Scheduler.v ===== *)
(** The scheduler: internal/scheduler/scheduler.go and reap.go.

    The functions of the loop over an explicit state: the world of the store,
    the busy counter, the executions in flight and the program cache.  Workers
    are the list [s_running]: an execution is there from its launch until its
    result is applied.  The order of events is System.v's subject. *)
From S2P Require Import Prelude GoTime Float64 Json JsonText RawText Action Cel Ids Db Registry Deliveries Executor.

(** ** Configuration *)

Record Config := mkConfig {
  MaxHops : Z;
  DefaultMaxAttempts : Z;
  DefaultTaskTimeout : Z;
  BackoffBase : Z;
  BackoffCap : Z;
  StdoutCap : Z
}.

Definition positive_or (n default : Z) : Z := if n <=? 0 then default else n.

Definition withDefaults (c : Config) : Config :=
  mkConfig (positive_or (MaxHops c) 100) (positive_or (DefaultMaxAttempts c) 3)
    (positive_or (DefaultTaskTimeout c) (5 * Minute)) (positive_or (BackoffBase c) Second)
    (positive_or (BackoffCap c) Minute) (positive_or (StdoutCap c) (Z.shiftl 4 20)).

Definition idleTimerInterval : Z := Hour.

(** ** Backoff *)

(** A 64-bit signed integer holding [x] modulo 2^64. *)
Definition int64 (x : Z) : Z := (x + 2 ^ 63) mod 2 ^ 64 - 2 ^ 63.

(** The delay before jitter: [base << (attempt-1)], capped. *)
Definition raw_backoff (c : Config) (attempt : Z) : Z :=
  let d := int64 (Z.shiftl (BackoffBase c) (attempt - 1)) in
  if (BackoffCap c <? d) || (d <=? 0) then BackoffCap c else d.

(** The float64 constants 0.8 and 0.4. *)
Definition f_0_8 : fpos := round_q 8 10.
Definition f_0_4 : fpos := round_q 4 10.

(** [rand.Float64()] is [k / 2^53] for some [0 <= k < 2^53]. *)
Definition rand_float (k : Z) : fpos := round_q k (2 ^ 53).

(** float64(d) * jitter. *)
Definition jittered (c : Config) (attempt k : Z) : fpos :=
  let jitter := f_add f_0_8 (f_mul f_0_4 (rand_float k)) in
  f_mul (f_of_Z (raw_backoff c attempt)) jitter.

(** The conversion to a time.Duration is that of a float64 to an int64. *)
Definition backoff (c : Config) (attempt k : Z) : Z := float_int (false, jittered c attempt k).

(** ** Messages in and out *)

(** messageHops: the member [hops], a number or null. *)
Definition hops_field (key : string) : option (decoder (option (bool * fpos))) :=
  if field_is "hops" key then Some (dec_ptr (false, mkFpos 0 0) dec_float) else None.

Definition messageHops (headers : string) : result Z :=
  if String.eqb headers "" then Ok 0
  else match unmarshal (dec_struct false hops_field) None headers with
       | Err e => Err (wrapf "decode hops" e)
       | Ok None => Ok 0
       | Ok (Some f) => Ok (float_int f)
       end.

(** inputIndex; [None] is -1. *)
Fixpoint input_index (ins : list Input) (queue : string) : option nat :=
  match ins with
  | [] => None
  | i :: ins => if String.eqb (in_queue i) queue then Some O else S <$> input_index ins queue
  end.
Definition inputIndex (def : Action) (queue : string) : option nat := input_index (act_inputs def) queue.


(** envelope: the members in order of key, and a newline. *)
Definition envelope (m : message) : result string :=
  h <-! marshal_raw (msg_headers m) ;;
  p <-! marshal_raw (msg_payload m) ;;
  Ok ("{" +:+ dq "headers" +:+ ":" +:+ h +:+ "," +:+ dq "id" +:+ ":" +:+ quote (msg_id m) +:+ "," +:+
      dq "payload" +:+ ":" +:+ p +:+ "," +:+ dq "queue" +:+ ":" +:+ quote (msg_queue m) +:+ "," +:+
      dq "trace_id" +:+ ":" +:+ quote (msg_trace_id m) +:+ "}" +:+ String (chr 10) "").

(** The lines of parseNDJSON from line number [i + 1] on. *)
Fixpoint ndjson_lines (i : Z) (lines : list string) : result (list string) :=
  match lines with
  | [] => Ok []
  | line :: lines =>
      let line := trim_space line in
      if String.eqb line "" then ndjson_lines (i + 1) lines
      else if valid line then rest <-! ndjson_lines (i + 1) lines ;; Ok (line :: rest)
      else Err (errorf ("line " +:+ dec (i + 1) +:+ " is not valid JSON"))
  end.

Definition parseNDJSON (stdout : string) : result (list string) := ndjson_lines 0 (split_on (chr 10) stdout).

(** ** Actions as the scheduler sees them *)

Record actionInfo := mkActionInfo {
  ai_name : string;
  ai_version : Z;
  ai_def : Action;
  ai_subprocess : SubprocessInstructions;
  ai_concurrency : Z;
  ai_maxAttempts : Z;
  ai_timeout : Z
}.

(** One row of loadActions; [None] when it is skipped. *)
Definition load_action (c : Config) (row : action) : option actionInfo :=
  if negb (ac_enabled row) then None
  else match unmarshal_Action (ac_definition row) with
       | Err _ => None
       | Ok def =>
           let maxAttempts := default (DefaultMaxAttempts c) (act_max_attempts def) in
           if String.eqb (act_actor def) ActorSubprocess then
             match Subprocess def with
             | Err _ => None
             | Ok si => Some (mkActionInfo (ac_name row) (ac_version row) def si (ConcurrencyOrDefault def)
                                maxAttempts (default (DefaultTaskTimeout c) (si_timeout si)))
             end
           else Some (mkActionInfo (ac_name row) (ac_version row) def zero_Subprocess (ConcurrencyOrDefault def)
                        maxAttempts (DefaultTaskTimeout c))
       end.

Definition loadActions {G} `{IdSource G} (c : Config) : M G (list actionInfo) := fun w =>
  match ListActions w with
  | (Ok rows, w) => (Ok (omap (load_action c) rows), w)
  | (Err e, w) => (Err e, w)
  end.

Definition superseded (version : Z) : string := "superseded by version " +:+ dec version.

(** ** The loop *)

(** An execution between launch and the application of its result; [j_failed]
    is the error of an execution that was never started (a bad envelope). *)
Record job := mkJob { j_work : Work; j_action : actionInfo; j_failed : option string }.

Section Scheduler.
Context {G : Type} `{IdSource G} `{CelLib}.

Record sched := mkSched {
  s_world : world G;
  s_active : Z;
  s_inflight : gmap string Z;
  s_cache : Cache;
  s_running : list job
}.

Definition with_world (w : world G) (s : sched) : sched :=
  mkSched w (s_active s) (s_inflight s) (s_cache s) (s_running s).
Definition add_active (n : Z) (s : sched) : sched :=
  mkSched (s_world s) (s_active s + n) (s_inflight s) (s_cache s) (s_running s).
Definition with_cache (c : Cache) (s : sched) : sched :=
  mkSched (s_world s) (s_active s) (s_inflight s) c (s_running s).

(** [s.inflight[name]]: zero when absent. *)
Definition inflight (s : sched) (name : string) : Z := default 0 (s_inflight s !! name).
Definition add_inflight (name : string) (n : Z) (s : sched) : sched :=
  mkSched (s_world s) (s_active s) (<[name := inflight s name + n]> (s_inflight s)) (s_cache s) (s_running s).

(** A store call from the loop. *)
Definition call {A} (m : M G A) (s : sched) : result A * sched :=
  let '(r, w) := m (s_world s) in (r, with_world w s).

(** resolve: a terminal state; the counter moves only when it was stored. *)
Definition resolve (id : string) (state : dstate) (msg : string) (now : time) (s : sched) : sched :=
  match call (ResolveDelivery id state msg now) s with
  | (Ok _, s) => add_active (-1) s
  | (Err _, s) => s
  end.

(** The decision of vet before anything is stored: [None] to execute, or the
    terminal state and its reason. *)
Definition vet_decision (c : Config) (ai : actionInfo) (m : message) (cache : Cache)
    : option (dstate * string) * Cache :=
  match inputIndex (ai_def ai) (msg_queue m) with
  | None => (Some (StateCancelled, superseded (ai_version ai)), cache)
  | Some idx =>
      match messageHops (msg_headers m) with
      | Err e => (Some (StateDead, "headers: " +:+ err_msg e), cache)
      | Ok hops =>
          if MaxHops c <=? hops then (Some (StateDead, "hop limit exceeded"), cache)
          else
            match Cache_Get cache (ai_name ai) (ai_version ai) (ai_def ai) with
            | (Err e, cache) => (Some (StateDead, "compile filter: " +:+ err_msg e), cache)
            | (Ok compiled, cache) =>
                match NewActivation (msg_payload m) (msg_headers m) (msg_queue m) (msg_trace_id m) with
                | Err e => (Some (StateDead, "filter input: " +:+ err_msg e), cache)
                | Ok act =>
                    match EvalFilter (default None (c_filters compiled !! idx)) act with
                    | Err e => (Some (StateDead, "filter: " +:+ err_msg e), cache)
                    | Ok true => (None, cache)
                    | Ok false => (Some (StateFiltered, ""), cache)
                    end
                end
            end
      end
  end.

Definition vet (c : Config) (ai : actionInfo) (wk : Work) (now : time) (s : sched) : bool * sched :=
  let '(decision, cache) := vet_decision c ai (wk_message wk) (s_cache s) in
  let s := with_cache cache s in
  match decision with
  | None => (true, s)
  | Some (state, msg) => (false, resolve (d_id (wk_delivery wk)) state msg now s)
  end.

(** The attempt counted by the claim. *)
Definition counted (d : delivery) : delivery :=
  mkDelivery (d_id d) (d_message_id d) (d_action_name d) (d_action_version d) (d_state d) (d_attempt d + 1)
    (d_not_before d) (d_pgid d) (d_stderr_tail d) (d_error d) (d_claimed_at d) (d_completed_at d).

Definition launch (ai : actionInfo) (wk : Work) (s : sched) : sched :=
  let failed := match envelope (wk_message wk) with Ok _ => None | Err e => Some ("encode input: " +:+ err_msg e) end in
  mkSched (s_world s) (s_active s) (s_inflight s) (s_cache s) (s_running s ++ [mkJob wk ai failed]).

Definition spec_of (c : Config) (ai : actionInfo) : Spec :=
  mkSpec (si_command (ai_subprocess ai)) (ai_timeout ai) (StdoutCap c) 0.

(** The loop over one action, [fuel] iterations at most; [None]: not finished. *)
Fixpoint dispatch_action (fuel : nat) (c : Config) (ai : actionInfo) (now : time) (s : sched) : option sched :=
  match fuel with
  | O => None
  | S fuel =>
      if inflight s (ai_name ai) <? ai_concurrency ai then
        match call (NextEligible (ai_name ai) now) s with
        | (Err _, s) => Some s
        | (Ok wk, s) =>
            match vet c ai wk now s with
            | (false, s) => dispatch_action fuel c ai now s
            | (true, s) =>
                match call (ClaimDelivery (d_id (wk_delivery wk)) (ai_version ai) now) s with
                | (Err _, s) => Some s
                | (Ok _, s) =>
                    let wk := mkWork (counted (wk_delivery wk)) (wk_message wk) in
                    dispatch_action fuel c ai now (launch ai wk (add_inflight (ai_name ai) 1 s))
                end
            end
        end
      else Some s
  end.

(** cancelSuperseded: the action became a join. *)
Fixpoint cancelSuperseded (fuel : nat) (ai : actionInfo) (now : time) (s : sched) : option sched :=
  match fuel with
  | O => None
  | S fuel =>
      match call (NextEligible (ai_name ai) now) s with
      | (Err _, s) => Some s
      | (Ok wk, s) =>
          match call (ResolveDelivery (d_id (wk_delivery wk)) StateCancelled (superseded (ai_version ai)) now) s with
          | (Err _, s) => Some s
          | (Ok _, s) => cancelSuperseded fuel ai now (add_active (-1) s)
          end
      end
  end.

Fixpoint dispatch_all (fuel : nat) (c : Config) (l : list actionInfo) (now : time) (s : sched) : option sched :=
  match l with
  | [] => Some s
  | ai :: l =>
      s ← (if IsJoin (ai_def ai) then cancelSuperseded fuel ai now s else dispatch_action fuel c ai now s);
      dispatch_all fuel c l now s
  end.

Definition dispatch (fuel : nat) (c : Config) (now : time) (s : sched) : option sched :=
  match call (loadActions c) s with
  | (Err _, s) => Some s
  | (Ok l, s) => dispatch_all fuel c l now s
  end.

(** ** Applying results *)

(** buildOutputs: fresh identifiers, in line order. *)
Fixpoint build_outputs (wk : Work) (ai : actionInfo) (headers : string) (lines : list string) (now : time) (g : G)
    : list message * G :=
  match lines with
  | [] => ([], g)
  | line :: lines =>
      let '(id, g) := new_id g in
      let '(rest, g) := build_outputs wk ai headers lines now g in
      (mkMessage id (act_output (ai_def ai)) line headers (msg_trace_id (wk_message wk))
         (Some (ai_name ai)) (Some (ai_version ai)) (Some (msg_id (wk_message wk))) now :: rest, g)
  end.

Definition output_headers (m : message) : string :=
  let hops := match messageHops (msg_headers m) with Ok n => n | Err _ => 0 end in
  "{" +:+ dq "hops" +:+ ":" +:+ dec (int64 (hops + 1)) +:+ "}".

Definition buildOutputs (wk : Work) (ai : actionInfo) (lines : list string) (now : time) (w : world G)
    : list message * world G :=
  let '(out, g) := build_outputs wk ai (output_headers (wk_message wk)) lines now (w_gen w) in
  (out, mkWorld (w_db w) g (w_faults w)).

(** What the result of a job says: outputs, or an error. *)
Definition job_outputs (j : job) (r : Result) (now : time) (w : world G) : result (list message) * world G :=
  match j_failed j, e_err r with
  | Some e, _ => (Err (errorf e), w)
  | None, Some e => (Err (errorf e), w)
  | None, None =>
      match parseNDJSON (e_stdout r) with
      | Err e => (Err (wrapf "stdout" e), w)
      | Ok lines =>
          if String.eqb (act_output (ai_def (j_action j))) "" then (Ok [], w)
          else let '(out, w) := buildOutputs (j_work j) (j_action j) lines now w in (Ok out, w)
      end
  end.

(** The result of a job that never started is empty. *)
Definition job_result (j : job) (r : Result) : Result :=
  match j_failed j with Some _ => mkResult "" "" None | None => r end.

Definition remove_job (k : nat) (s : sched) : sched :=
  mkSched (s_world s) (s_active s) (s_inflight s) (s_cache s) (delete k (s_running s)).

(** apply: the [k]-th running job reports [r]; [rnd] is the jitter drawn. *)
Definition apply (c : Config) (k : nat) (r : Result) (now rnd : Z) (s : sched) : sched :=
  match s_running s !! k with
  | None => s
  | Some j =>
      let s := add_inflight (ai_name (j_action j)) (-1) (remove_job k s) in
      let d := wk_delivery (j_work j) in
      let r := job_result j r in
      let '(outputs, w) := job_outputs j r now (s_world s) in
      let s := with_world w s in
      match outputs with
      | Ok outputs =>
          match call (CompleteDelivery (d_id d) (e_stderr_tail r) outputs now) s with
          | (Err _, s) => s
          | (Ok created, s) => add_active (created - 1) s
          end
      | Err e =>
          let dead := ai_maxAttempts (j_action j) <=? d_attempt d in
          let gate := now + backoff c (d_attempt d) rnd in
          match call (FailDelivery (d_id d) dead gate (err_msg e) (e_stderr_tail r) now) s with
          | (Err _, s) => s
          | (Ok _, s) => if dead then add_active (-1) s else s
          end
      end
  end.

(** handleCtrl: cancellation on behalf of action.disable. *)
Definition handleCtrl (name : string) (now : time) (s : sched) : result Z * sched :=
  match call (CancelDeliveries name "action disabled" now) s with
  | (Ok n, s) => (Ok n, add_active (- n) s)
  | (Err e, s) => (Err e, s)
  end.

(** armTimer: how long the loop sleeps when nothing else wakes it. *)
Definition armTimer (now : time) (s : sched) : Z * sched :=
  match call NextRetryAt s with
  | (Err _, s) => (idleTimerInterval, s)
  | (Ok next, s) => (Z.max 0 (next - now), s)
  end.

(** The onStart callback of a worker. *)
Definition onStart (id : string) (pgid : Z) (s : sched) : sched := snd (call (SetDeliveryPgid id pgid) s).

(** WorkAdded: [n] new busy deliveries. *)
Definition WorkAdded (n : Z) (s : sched) : sched := add_active n s.
Definition Busy (s : sched) : bool := 0 <? s_active s.

(** The start of Run: the counter seeded from the database. *)
Definition seed (w : world G) : result sched :=
  match CountActiveDeliveries w with
  | (Ok n, w) => Ok (mkSched w n ∅ NewCache [])
  | (Err e, _) => Err (wrapf "seed busy counter" e)
  end.

(** ReapOrphans: the groups killed, and every claimed row reset. *)
Fixpoint reap_each (l : list delivery) (now : time) (w : world G) : list Z * result unit * world G :=
  match l with
  | [] => ([], Ok tt, w)
  | d :: l =>
      let kill := match d_pgid d with Some p => [p] | None => [] end in
      match ResetOrphan (d_id d) now w with
      | (Err e, w) => (kill, Err (wrapf ("reset orphan " +:+ d_id d) e), w)
      | (Ok _, w) => let '(ks, r, w) := reap_each l now w in (kill ++ ks, r, w)
      end
  end.

Definition ReapOrphans (now : time) (w : world G) : list Z * result unit * world G :=
  match ClaimedDeliveries w with
  | (Err e, w) => ([], Err (wrapf "list orphaned deliveries" e), w)
  | (Ok l, w) => reap_each l now w
  end.
End Scheduler.
Arguments sched G {_}.

(** ** Backoff arithmetic *)

Lemma rand_float_bounds k : 0 < k < 2 ^ 53 ->
  0 < f_num (rand_float k) /\ 2 ^ 53 * f_num (rand_float k) <= (2 ^ 53 + 1) * f_den (rand_float k) /\
  f_den (rand_float k) <= 2 ^ 107 * f_num (rand_float k).
Proof.
  intros Hk. unfold rand_float.
  destruct (round_within k (2 ^ 53) k k (2 ^ 53)) as [L U]; [lia|lia|lia|apply q_exp_normal; lia|lia|lia|].
  set (x := round_q k (2 ^ 53)) in *. pose proof (f_den_pos x) as Hf. revert L U Hf.
  generalize (f_num x), (f_den x). intros X D L U HD.
  assert (D <= k * D <= 2 ^ 53 * D) as Hkd by nia. revert L U Hkd. rewrite <- !Z.mul_assoc. generalize (k * D). lia.
Qed.

Lemma f_0_8_bounds : 0 < f_num f_0_8 /\ 799999999 * f_den f_0_8 <= 10 ^ 9 * f_num f_0_8 <= 800000001 * f_den f_0_8.
Proof. vm_compute. intuition congruence. Qed.
Lemma f_0_4_bounds : 0 < f_num f_0_4 /\ f_den f_0_4 <= 3 * f_num f_0_4 /\ 10 ^ 9 * f_num f_0_4 <= 400000001 * f_den f_0_4.
Proof. vm_compute. intuition congruence. Qed.

(** The scaled random part is between 0 and 0.4, up to rounding. *)
Lemma jitter_part k : 0 <= k < 2 ^ 53 ->
  0 <= f_num (f_mul f_0_4 (rand_float k)) /\
  10 ^ 9 * f_num (f_mul f_0_4 (rand_float k)) <= 400000003 * f_den (f_mul f_0_4 (rand_float k)).
Proof.
  intros Hk. destruct (decide (k = 0)) as [->|Hk0]; [vm_compute; intuition congruence|].
  destruct (rand_float_bounds k ltac:(lia)) as (HX & HU & HD). destruct f_0_4_bounds as (H4 & H4d & H4u).
  unfold f_mul. pose proof (f_den_pos (rand_float k)) as Hf. pose proof (f_den_pos f_0_4) as Hf4. revert HX HU HD Hf H4 H4d H4u Hf4.
  generalize (f_num (rand_float k)), (f_den (rand_float k)), (f_num f_0_4), (f_den f_0_4). intros X D N4 D4 HX HU HD Hf H4 H4d H4u Hf4.
  destruct (round_within (N4 * X) (D4 * D) 0 400000002 (10 ^ 9)) as [L U]; [nia|nia|lia| |nia| |].
  - apply q_exp_normal; [nia|nia|]. transitivity (3 * N4 * D); [nia|]. transitivity (3 * N4 * (2 ^ 107 * X)); [nia|].
    transitivity (N4 * X * (3 * 2 ^ 107)); [lia|]. rewrite Z.mul_comm. apply Z.mul_le_mono_nonneg_r; [nia|]. lia.
  - apply (Zmult_le_reg_r _ _ (2 ^ 53)); [lia|]. transitivity (400000001 * D4 * ((2 ^ 53 + 1) * D)).
    + transitivity ((10 ^ 9 * N4) * (2 ^ 53 * X)); [lia|]. apply Z.mul_le_mono_nonneg; lia.
    + assert (0 < D4 * D) as Hp by nia. revert Hp. replace (400000001 * D4 * ((2 ^ 53 + 1) * D)) with (400000001 * (2 ^ 53 + 1) * (D4 * D)) by ring.
      generalize (D4 * D). lia.
  - set (x := round_q (N4 * X) (D4 * D)) in *. pose proof (f_den_pos x). lia.
Qed.

Lemma jitter_bounds k : 0 <= k < 2 ^ 53 ->
  let j := f_add f_0_8 (f_mul f_0_4 (rand_float k)) in
  within j 799999998 1200000005 (10 ^ 9).
Proof.
  intros Hk. cbn zeta. destruct (jitter_part k Hk) as [P0 P1]. destruct f_0_8_bounds as (H8 & H8l & H8u).
  unfold f_add. pose proof (f_den_pos (f_mul f_0_4 (rand_float k))) as HP. pose proof (f_den_pos f_0_8) as HD8.
  revert P0 P1 H8 H8l H8u HP HD8. generalize (f_num (f_mul f_0_4 (rand_float k))), (f_den (f_mul f_0_4 (rand_float k))), (f_num f_0_8), (f_den f_0_8).
  intros P D N8 D8 P0 P1 H8 H8l H8u HP HD8.
  assert (799999999 * (D8 * D) <= 10 ^ 9 * (N8 * D + P * D8)) as L by nia.
  assert (10 ^ 9 * (N8 * D + P * D8) <= 1200000004 * (D8 * D)) as U by nia.
  assert (0 < D8 * D) as Hd by nia. revert L U Hd. generalize (N8 * D + P * D8), (D8 * D). intros num den L U Hd.
  destruct (round_within num den 799999999 1200000004 (10 ^ 9)) as [L' U']; [lia|lia|lia|apply q_exp_normal; lia|lia|lia|].
  set (x := round_q num den) in *. pose proof (f_den_pos x). unfold within. lia.
Qed.

(** The jittered delay around its raw value. *)
Lemma jittered_bounds c attempt k :
  0 <= k < 2 ^ 53 -> 0 < raw_backoff c attempt ->
  799999996 * raw_backoff c attempt <= 10 ^ 9 * (f_trunc (jittered c attempt k) + 1) /\
  10 ^ 9 * f_trunc (jittered c attempt k) <= 1200000007 * raw_backoff c attempt.
Proof.
  intros Hk Hd. unfold jittered. destruct (jitter_bounds k Hk) as [JL JU].
  set (j := f_add f_0_8 (f_mul f_0_4 (rand_float k))) in *. set (d := raw_backoff c attempt) in *. clearbody d.
  unfold f_of_Z. destruct (round_within d 1 d d 1) as [DL DU]; [lia|lia|lia|apply q_exp_normal; lia|lia|lia|].
  set (x := round_q d 1) in *. unfold f_mul. pose proof (f_den_pos x) as HX. pose proof (f_den_pos j) as HJ.
  revert JL JU DL DU HX HJ. generalize (f_num x), (f_den x), (f_num j), (f_den j). intros X DX J DJ JL JU DL DU HX HJ.
  assert (0 < J) by lia. assert (0 < X) by nia.
  assert (799999997 * d * (DX * DJ) <= 10 ^ 9 * (X * J)) as L.
  { apply (Zmult_le_reg_r _ _ (2 ^ 53)); [lia|]. transitivity (((2 ^ 53 - 1) * d * DX) * (799999998 * DJ)).
    - replace ((2 ^ 53 - 1) * d * DX * (799999998 * DJ)) with ((2 ^ 53 - 1) * 799999998 * (d * (DX * DJ))) by ring.
      assert (0 < d * (DX * DJ)) by nia. lia.
    - transitivity ((2 ^ 53 * 1 * X) * (10 ^ 9 * J)); [|lia]. apply Z.mul_le_mono_nonneg; nia. }
  assert (10 ^ 9 * (X * J) <= 1200000006 * d * (DX * DJ)) as U.
  { apply (Zmult_le_reg_r _ _ (2 ^ 53)); [lia|]. transitivity (((2 ^ 53 + 1) * d * DX) * (1200000005 * DJ)).
    - transitivity ((2 ^ 53 * 1 * X) * (10 ^ 9 * J)); [lia|]. apply Z.mul_le_mono_nonneg; nia.
    - replace ((2 ^ 53 + 1) * d * DX * (1200000005 * DJ)) with ((2 ^ 53 + 1) * 1200000005 * (d * (DX * DJ))) by ring.
      assert (0 < d * (DX * DJ)) by nia. lia. }
  assert (0 < X * J) by nia. assert (0 < DX * DJ) by nia. revert L U. generalize dependent (DX * DJ). generalize dependent (X * J).
  intros num Hnum den Hden L U.
  destruct (round_within num den (799999997 * d) (1200000006 * d) (10 ^ 9)) as [L' U']; [lia|lia|lia| |lia|lia|].
  { apply q_exp_normal; [lia|lia|]. assert (den <= d * den) by nia. lia. }
  set (y := round_q num den) in *. unfold f_trunc. pose proof (f_den_pos y) as HY.
  pose proof (Z.div_mod (f_num y) (f_den y) ltac:(lia)). pose proof (Z.mod_pos_bound (f_num y) (f_den y) HY).
  revert L' U' H HY H0. intros. set (v := f_num y / f_den y) in *.
  split; apply (Zmult_le_reg_r _ _ (f_den y)); nia.
Qed.

(** The delay is the jittered one as far as an int64 holds it, else the least
    int64. *)
Lemma backoff_cases c attempt k : 0 <= k < 2 ^ 53 -> 0 < raw_backoff c attempt ->
  f_trunc (jittered c attempt k) < 2 ^ 63 /\ backoff c attempt k = f_trunc (jittered c attempt k) \/
  2 ^ 63 <= f_trunc (jittered c attempt k) /\ backoff c attempt k = - 2 ^ 63.
Proof.
  intros Hk Hd. destruct (jittered_bounds c attempt k Hk Hd) as [Hl _]. unfold backoff, float_int. cbn [fst snd].
  destruct (Z.leb_spec (- 2 ^ 63) (f_trunc (jittered c attempt k))); [|lia]. destruct (Z.ltb_spec (f_trunc (jittered c attempt k)) (2 ^ 63)); [by left|by right].
Qed.

Lemma int64_range x : - 2 ^ 63 <= int64 x < 2 ^ 63.
Proof. unfold int64. pose proof (Z.mod_pos_bound (x + 2 ^ 63) (2 ^ 64) ltac:(lia)). lia. Qed.

Lemma int64_id x : - 2 ^ 63 <= x < 2 ^ 63 -> int64 x = x.
Proof. intros Hx. unfold int64. rewrite Z.mod_small by lia. lia. Qed.

(** Wrapping keeps the trailing zeros. *)
Lemma int64_divide t x : 0 <= t <= 63 -> (2 ^ t | x) -> (2 ^ t | int64 x).
Proof.
  intros Ht [m ->]. unfold int64. pose proof (Z.div_mod (m * 2 ^ t + 2 ^ 63) (2 ^ 64) ltac:(lia)) as Hd.
  exists (m - 2 ^ (64 - t) * ((m * 2 ^ t + 2 ^ 63) / 2 ^ 64)).
  rewrite Z.mul_sub_distr_r. replace (2 ^ (64 - t) * ((m * 2 ^ t + 2 ^ 63) / 2 ^ 64) * 2 ^ t) with (2 ^ 64 * ((m * 2 ^ t + 2 ^ 63) / 2 ^ 64)).
  - lia.
  - replace (2 ^ 64) with (2 ^ (64 - t) * 2 ^ t) at 1 by (rewrite <- Z.pow_add_r by lia; f_equal; lia). ring.
Qed.

Lemma raw_backoff_min c v attempt :
  0 < BackoffBase c -> 0 < BackoffCap c < 2 ^ 63 -> 0 <= v -> (2 ^ v | BackoffBase c) ->
  Z.log2 (BackoffBase c) <= 62 -> BackoffCap c < 2 ^ (63 - Z.log2 (BackoffBase c) + v) -> 1 <= attempt ->
  raw_backoff c attempt = Z.min (BackoffBase c * 2 ^ (attempt - 1)) (BackoffCap c).
Proof.
  intros Hb Hc Hv [m Hm] Hlog Hcap Ha. unfold raw_backoff. rewrite Z.shiftl_mul_pow2 by lia.
  set (k := attempt - 1) in *. set (x := BackoffBase c * 2 ^ k). assert (0 < 2 ^ k) by (apply Z.pow_pos_nonneg; lia).
  assert (0 < x) by (unfold x; nia). destruct (Z.lt_ge_cases x (2 ^ 63)) as [Hx|Hx].
  - rewrite int64_id by lia. destruct (Z.ltb_spec (BackoffCap c) x); simpl; [lia|]. destruct (Z.leb_spec x 0); lia.
  - rewrite Z.min_r by lia. destruct (Z.ltb_spec (BackoffCap c) (int64 x)); simpl; [done|].
    destruct (Z.leb_spec (int64 x) 0) as [|Hpos]; [done|]. exfalso. pose proof (int64_range x) as Hr.
    assert (63 <= k + Z.log2 (BackoffBase c)) as Hk.
    { destruct (Z.le_gt_cases 63 (k + Z.log2 (BackoffBase c))) as [|Hlt]; [done|]. exfalso.
      pose proof (Z.log2_spec (BackoffBase c) Hb) as [_ Hu]. pose proof (Z.log2_nonneg (BackoffBase c)).
      assert (2 ^ Z.succ (Z.log2 (BackoffBase c)) * 2 ^ k <= 2 ^ 63) by (rewrite <- Z.pow_add_r by lia; apply Z.pow_le_mono_r; lia).
      unfold x in Hx. nia. }
    assert ((2 ^ Z.min (k + v) 63 | int64 x)) as Hdiv.
    { apply int64_divide; [lia|]. transitivity (2 ^ (k + v)).
      - exists (2 ^ (k + v - Z.min (k + v) 63)). rewrite <- Z.pow_add_r by lia. f_equal. lia.
      - exists m. unfold x. rewrite Hm, Z.pow_add_r by lia. ring. }
    apply Z.divide_pos_le in Hdiv; [|done]. destruct (Z.le_ge_cases (k + v) 63) as [Hs|Hs].
    + rewrite Z.min_l in Hdiv by done. assert (2 ^ (63 - Z.log2 (BackoffBase c) + v) <= 2 ^ (k + v)) by (apply Z.pow_le_mono_r; lia). lia.
    + rewrite Z.min_r in Hdiv by done. lia.
Qed.

(** C35. The delay before a retry is base * 2^(attempt-1), capped, give or
    take 20%, for every attempt however large - neither the 64-bit shift nor the
    conversion of the jittered delay to 64 bits does harm - provided the cap stays
    below 2^(63 - log2 base + v), [v] counting the trailing zero bits of the base,
    and its jittered value below 2^63; the defaults (1 s, 1 min) satisfy this. *)
Theorem backoff_bounds c v attempt k :
  0 < BackoffBase c -> 0 < BackoffCap c -> 1200000007 * BackoffCap c < 10 ^ 9 * 2 ^ 63 -> 0 <= v -> (2 ^ v | BackoffBase c) ->
  Z.log2 (BackoffBase c) <= 62 -> BackoffCap c < 2 ^ (63 - Z.log2 (BackoffBase c) + v) -> 1 <= attempt -> 0 <= k < 2 ^ 53 ->
  let d := Z.min (BackoffBase c * 2 ^ (attempt - 1)) (BackoffCap c) in
  raw_backoff c attempt = d /\
  799999996 * d <= 10 ^ 9 * (backoff c attempt k + 1) /\ 10 ^ 9 * backoff c attempt k <= 1200000007 * d.
Proof.
  intros Hb Hc Hf Hv Hd Hlog Hcap Ha Hk. cbn zeta. pose proof (raw_backoff_min c v attempt Hb ltac:(lia) Hv Hd Hlog Hcap Ha) as Hraw.
  assert (0 < raw_backoff c attempt <= BackoffCap c) as Hp by (rewrite Hraw; assert (0 < 2 ^ (attempt - 1)) by (apply Z.pow_pos_nonneg; lia); nia).
  split; [done|]. rewrite <- Hraw. pose proof (jittered_bounds c attempt k Hk ltac:(lia)). destruct (backoff_cases c attempt k Hk ltac:(lia)) as [[? ->]|[? _]]; lia.
Qed.

Definition default_config : Config := withDefaults (mkConfig 0 0 0 0 0 0).

Lemma backoff_bounds_witness :
  let d := Z.min (BackoffBase default_config * 2 ^ (40 - 1)) (BackoffCap default_config) in
  raw_backoff default_config 40 = d /\
  799999996 * d <= 10 ^ 9 * (backoff default_config 40 12345 + 1) /\ 10 ^ 9 * backoff default_config 40 12345 <= 1200000007 * d.
Proof.
  apply (backoff_bounds default_config 9 40 12345); try (vm_compute; intuition congruence).
  exists 1953125. vm_compute. reflexivity.
Defined.

(** A cap that does not leave room for the jitter: the conversion overflows, and
    the retry is due three centuries ago, which is at once. *)
Theorem backoff_overflows :
  let c := mkConfig 100 100 0 1 (2 ^ 63 - 1) 0 in
  raw_backoff c 64 = 2 ^ 63 - 1 /\ 0 < backoff c 64 0 /\ backoff c 64 (2 ^ 53 - 1) = - 2 ^ 63.
Proof. vm_compute. repeat split. Qed.

(** The overflow guard [d <= 0] alone does not make the delay right: with a base of
    2^35 + 1 ns (34 s) and a cap of two hours, the 30th attempt is retried after 2^29 ns,
    half a second. *)
Theorem backoff_shift_wraps :
  let c := mkConfig 100 100 0 (2 ^ 35 + 1) (2 * Hour) 0 in
  raw_backoff c 30 = 2 ^ 29 /\ raw_backoff c 9 = BackoffCap c /\ 2 ^ 29 < Second.
Proof. vm_compute. repeat split. Qed.

(** ** Outputs *)

Definition nonblank (line : string) : bool := negb (String.eqb line "").

(** The payload candidates of stdout. *)
Definition payload_lines (stdout : string) : list string :=
  List.filter nonblank (map trim_space (split_on (chr 10) stdout)).

Lemma ndjson_lines_spec i lines :
  let out := List.filter nonblank (map trim_space lines) in
  match ndjson_lines i lines with
  | Ok l => l = out /\ Forall (fun p => valid p = true) l
  | Err _ => ~ Forall (fun p => valid p = true) out
  end.
Proof.
  cbn zeta. revert i; induction lines as [|line lines IH]; intros i; [by split|].
  cbn [ndjson_lines map List.filter]. set (t := trim_space line).
  assert (nonblank t = negb (String.eqb t "")) as -> by done.
  destruct (String.eqb_spec t "") as [Ht|Ht]; cbn [negb].
  - exact (IH (i + 1)).
  - destruct (valid t) eqn:Ev.
    + specialize (IH (i + 1)). destruct (ndjson_lines (i + 1) lines) as [l|e]; simpl.
      * destruct IH as [-> Hf]. split; [done|]. by constructor.
      * intros Hf. apply Forall_cons in Hf as [_ Hf]. by apply IH.
    + intros Hf. apply Forall_cons in Hf as [Hv _]. congruence.
Qed.

(** The messages of an execution are exactly the non-blank lines of its
    stdout, trimmed, in order, and all of them valid JSON; a single invalid
    line fails the whole output. *)
Theorem parseNDJSON_lines stdout :
  match parseNDJSON stdout with
  | Ok l => l = payload_lines stdout /\ Forall (fun p => valid p = true) l
  | Err _ => ~ Forall (fun p => valid p = true) (payload_lines stdout)
  end.
Proof. apply ndjson_lines_spec. Qed.

Lemma messageHops_printed n :
  0 <= n < 2 ^ 53 -> messageHops ("{" +:+ dq "hops" +:+ ":" +:+ dec n +:+ "}") = Ok n.
Proof.
  intros Hn. unfold messageHops.
  assert (String.eqb ("{" +:+ dq "hops" +:+ ":" +:+ dec n +:+ "}") "" = false) as -> by done.
  unfold unmarshal. rewrite parse_hops by lia. destruct (lit_float_dec n Hn) as (x & Hx & Hi).
  cbn -[float_int lit_float dec]. rewrite Hx. cbn -[float_int]. by rewrite Hi.
Qed.

Section Outputs.
Context {G : Type} `{IdSource G}.

Lemma build_outputs_spec wk ai headers lines now (g : G) :
  let out := fst (build_outputs wk ai headers lines now g) in
  map msg_payload out = lines /\ map msg_id out = fst (draw (length lines) g) /\
  snd (build_outputs wk ai headers lines now g) = snd (draw (length lines) g) /\
  Forall (fun m => msg_queue m = act_output (ai_def ai) /\ msg_headers m = headers /\
    msg_trace_id m = msg_trace_id (wk_message wk) /\ msg_origin_action m = Some (ai_name ai) /\
    msg_origin_version m = Some (ai_version ai) /\ msg_origin_message m = Some (msg_id (wk_message wk)) /\
    msg_created_at m = now) out.
Proof.
  cbn zeta. revert g; induction lines as [|line lines IH]; intros g; [by repeat split|]. cbn [build_outputs draw length].
  destruct (new_id g) as [id g1]. destruct (IH g1) as (I1 & I2 & I3 & I4).
  destruct (build_outputs wk ai headers lines now g1) as [rest g2]. destruct (draw (length lines) g1) as [l g3].
  simpl in *. subst. split_and!; [done..|]. by constructor.
Qed.

(** The output messages of an execution carry its lines in order, under
    strictly increasing fresh identifiers, to the output queue of the action,
    in the trace of the input, with the input as origin - and exactly one more
    hop than the input. *)
Theorem buildOutputs_lineage wk ai lines now h (w : world G) :
  messageHops (msg_headers (wk_message wk)) = Ok h -> 0 <= h < 2 ^ 53 - 1 ->
  let out := fst (buildOutputs wk ai lines now w) in
  map msg_payload out = lines /\ map msg_id out = fst (draw (length lines) (w_gen w)) /\
  Forall (fun m => messageHops (msg_headers m) = Ok (h + 1) /\ msg_queue m = act_output (ai_def ai) /\
    msg_trace_id m = msg_trace_id (wk_message wk) /\ msg_origin_action m = Some (ai_name ai) /\
    msg_origin_version m = Some (ai_version ai) /\ msg_origin_message m = Some (msg_id (wk_message wk))) out.
Proof.
  intros Hh Hr. cbn zeta. unfold buildOutputs.
  destruct (build_outputs_spec wk ai (output_headers (wk_message wk)) lines now (w_gen w)) as (I1 & I2 & _ & I4).
  destruct (build_outputs _ _ _ _ _ _) as [out g]. simpl in *. split_and!; [done..|].
  eapply Forall_impl; [exact I4|]. intros m (? & -> & ? & ? & ? & ? & ?). split_and!; [|done..].
  unfold output_headers. rewrite Hh, int64_id by lia. apply messageHops_printed. lia.
Qed.
End Outputs.

Definition demo_work : Work :=
  mkWork (mkDelivery "d4" (Some "m1") "sum" None StatePending 0 None None None None None None) demo_message.

Definition demo_ai : actionInfo :=
  mkActionInfo "sum" 1 sample_action (mkSubprocess ["./run.sh"] None) 2 3 Minute.

Lemma buildOutputs_lineage_witness :
  map msg_payload (fst (buildOutputs demo_work demo_ai ["1"; "2"] 5 demo_dw)) = ["1"; "2"] /\
  Forall (fun m => messageHops (msg_headers m) = Ok (0 + 1)) (fst (buildOutputs demo_work demo_ai ["1"; "2"] 5 demo_dw)).
Proof.
  destruct (buildOutputs_lineage demo_work demo_ai ["1"; "2"] 5 0 demo_dw) as (Hp & _ & Hf); [vm_compute; reflexivity|lia|].
  split; [exact Hp|]. eapply Forall_impl; [exact Hf|]. intros m Hm. apply Hm.
Defined.

(** ** The input of an execution *)

Lemma one_line line : all_bytes printable line = true -> split_on (chr 10) (line +:+ String (chr 10) "") = [line; ""].
Proof.
  induction line as [|c line IH]; [done|]. cbn [all_bytes]. intros Hl. apply andb_true_iff in Hl as [Hc Hl]. rewrite str_app_cons. cbn [split_on].
  destruct (Ascii.eqb_spec c (chr 10)) as [->|]; [done|]. by rewrite IH.
Qed.

(** C34. What an execution reads on standard input: exactly one line,
    which is one JSON object with the message's identifier, queue and trace, and
    with its payload and headers as the JSON values that were stored. *)
Theorem envelope_reads (m : message) h p :
  fits (max_nesting - 1) (msg_headers m) h -> fits (max_nesting - 1) (msg_payload m) p ->
  exists line, envelope m = Ok (line +:+ String (chr 10) "") /\ split_on (chr 10) (line +:+ String (chr 10) "") = [line; ""] /\
    parse line = Some (JObj [("headers", h); ("id", JStr (to_valid (msg_id m))); ("payload", p);
                             ("queue", JStr (to_valid (msg_queue m))); ("trace_id", JStr (to_valid (msg_trace_id m)))]).
Proof.
  intros Hh Hp. pose proof (compact_reads _ _ _ Hh) as Ch. pose proof (compact_reads _ _ _ Hp) as Cp.
  set (ms := [("headers", h, compact false false (msg_headers m)); ("id", JStr (to_valid (msg_id m)), quote (msg_id m));
              ("payload", p, compact false false (msg_payload m)); ("queue", JStr (to_valid (msg_queue m)), quote (msg_queue m));
              ("trace_id", JStr (to_valid (msg_trace_id m)), quote (msg_trace_id m))]).
  exists (obj_text (map mtext ms)). split; [|split].
  - unfold envelope, marshal_raw, valid. rewrite (proj2 (parse_fits _ h)), (proj2 (parse_fits _ p)) by (by eapply fits_deeper; [|eassumption]).
    cbn [rbind]. unfold obj_text, ms. cbn [map mtext fst snd more_members]. f_equal. str_norm.
  - apply one_line. unfold obj_text, ms. cbn [map mtext fst snd more_members]. rewrite !all_bytes_app, !quote_one_line.
    by rewrite (compact_one_line _ _ _ Hh), (compact_one_line _ _ _ Hp).
  - apply (clean_parse max_nesting); [done|]. apply (obj_clean max_nesting ms); [done|].
    repeat (first [apply Forall_nil | apply Forall_cons; split; [split; [apply utf8_ascii; reflexivity|cbn [fst snd]; first [exact Ch | exact Cp | apply quote_clean]]|]]). done.
Qed.

Definition spaced_message : message :=
  mkMessage "m9" "raw" ("{" +:+ dq "n" +:+ ": 1}" +:+ String (chr 10) "") "{}" "t9" None None None 0.

Lemma envelope_reads_witness :
  exists line, envelope spaced_message = Ok (line +:+ String (chr 10) "") /\
    parse line = Some (JObj [("headers", JObj []); ("id", JStr "m9"); ("payload", JObj [("n", JNum "1")]); ("queue", JStr "raw"); ("trace_id", JStr "t9")]).
Proof.
  destruct (envelope_reads spaced_message (JObj []) (JObj [("n", JNum "1")])) as (line & H1 & _ & H2).
  - eexists. split; vm_compute; reflexivity.
  - eexists. split; vm_compute; reflexivity.
  - exists line. split; [exact H1|exact H2].
Defined.

(** ** Store calls of the loop *)

Section Calls.
Context {G : Type} `{IdSource G} `{CelLib}.

Lemma NextEligible_row name now (w w' : world G) wk :
  NoDup (map d_id (t_deliveries (w_db w))) -> NextEligible name now w = (Ok wk, w') ->
  w_db w' = w_db w /\ exists r, find_row (d_id (wk_delivery wk)) (t_deliveries (w_db w)) = Some r /\ unclaimed r = true /\
    d_action_name r = name /\ d_attempt (wk_delivery wk) = d_attempt r.
Proof.
  intros Hnd He. unfold NextEligible in He. destruct (read_db _ _ _ _ _ He) as [-> _]. split; [done|]. apply read_ok in He.
  destruct (head _) as [r|] eqn:Eh; [|done]. destruct (order_by_head _ _ _ Eh) as [Hin _].
  apply List.filter_In in Hin as [Hin Hel]. apply andb_true_iff in Hel as [Hel _]. unfold is_eligible in Hel.
  apply andb_true_iff in Hel as [Hname Hst]. apply String.eqb_eq in Hname.
  destruct (message_for _ r) as [m|]; [|done]. destruct (scanMessage m) as [msg|]; [|done]. simpl in He.
  destruct (nullTime (d_not_before r)) as [nb|]; [|done]. simpl in He. injection He as <-. simpl.
  exists r. split_and!; [by apply find_row_in| |done|done].
  unfold unclaimed. apply in_state_In. apply orb_true_iff in Hst as [Hst|Hst].
  - apply in_state_In, list_elem_of_singleton in Hst. rewrite Hst. set_solver.
  - apply andb_true_iff in Hst as [Hst _]. apply in_state_In, list_elem_of_singleton in Hst. rewrite Hst. set_solver.
Qed.

Lemma ClaimDelivery_cases id v now (w : world G) :
  NoDup (map d_id (t_deliveries (w_db w))) ->
  match ClaimDelivery id v now w with
  | (Ok _, w') => guarded id unclaimed (claim_row v (fmt_time now)) (t_deliveries (w_db w)) (t_deliveries (w_db w')) /\
      w_db w' = set_deliveries (update (fun r => with_id id r && unclaimed r) (claim_row v (fmt_time now)) (t_deliveries (w_db w))) (w_db w)
  | (Err _, w') => w_db w' = w_db w /\ (w_faults w <> [] \/ refused id unclaimed (t_deliveries (w_db w)))
  end.
Proof. intros Hnd. apply (write_transition "claim" id unclaimed); done. Qed.

Definition any_row (_ : drow) : bool := true.

Lemma ResolveDelivery_cases id st msg now (w : world G) :
  NoDup (map d_id (t_deliveries (w_db w))) ->
  match ResolveDelivery id st msg now w with
  | (Ok _, w') => guarded id any_row (resolve_row st msg (fmt_time now)) (t_deliveries (w_db w)) (t_deliveries (w_db w')) /\
      w_db w' = set_deliveries (update (with_id id) (resolve_row st msg (fmt_time now)) (t_deliveries (w_db w))) (w_db w)
  | (Err _, w') => w_db w' = w_db w /\ (w_faults w <> [] \/ refused id any_row (t_deliveries (w_db w)))
  end.
Proof.
  intros Hnd. apply (write_transition "resolve" id any_row); [|done|done].
  intros r. unfold any_row. by rewrite andb_true_r.
Qed.

Lemma FailDelivery_cases id isdead gate msg tail now (w : world G) :
  NoDup (map d_id (t_deliveries (w_db w))) ->
  match FailDelivery id isdead gate msg tail now w with
  | (Ok _, w') => guarded id claimed (failed_row isdead (fmt_time gate) msg tail (fmt_time now)) (t_deliveries (w_db w)) (t_deliveries (w_db w')) /\
      w_db w' = set_deliveries (update (fun r => with_id id r && claimed r) (failed_row isdead (fmt_time gate) msg tail (fmt_time now)) (t_deliveries (w_db w))) (w_db w)
  | (Err _, w') => w_db w' = w_db w /\ (w_faults w <> [] \/ refused id claimed (t_deliveries (w_db w)))
  end.
Proof. intros Hnd. apply (write_transition "fail" id claimed); done. Qed.

(** Without faults every store call leaves none. *)
Lemma write_faultless {A} (fn : tx G A) w : w_faults w = [] -> w_faults (snd (write fn w)) = [].
Proof.
  destruct w as [d g fs]; simpl. intros ->. rewrite write_no_fault. by destruct (fn d g) as [[[a d']|e] g'].
Qed.
Lemma read_faultless {A} ctx (q : db -> result A) (w : world G) : w_faults w = [] -> w_faults (snd (read ctx q w)) = [].
Proof. destruct w as [d g fs]; simpl. by intros ->. Qed.

(** The rows a dispatch can still work on. *)
Definition backlog (d : db) : nat := affected unclaimed (t_deliveries d).

(** A transition out of the unclaimed states takes one row off the backlog. *)
Lemma backlog_leaves id p f t :
  pinned id any_row p -> keeps_id f -> NoDup (map d_id t) ->
  (exists r, find_row id t = Some r /\ unclaimed r = true) -> (forall r, unclaimed (f r) = false) ->
  affected unclaimed t = S (affected unclaimed (update p f t)).
Proof.
  intros Hp Hk Hnd (r & Hr & Hu) Hf.
  destruct (find_row_Some _ _ _ Hr) as [Hin Hid].
  assert (update p f t = update (fun x => with_id id x && unclaimed x) f t) as ->.
  { unfold update. apply map_ext_in. intros x Hx. rewrite Hp. unfold any_row. rewrite andb_true_r.
    destruct (with_id id x) eqn:E; [|done]. unfold with_id in E. apply String.eqb_eq in E.
    assert (find_row id t = Some x) as Hx' by by apply find_row_in. rewrite Hr in Hx'. injection Hx' as ->. by rewrite Hu. }
  rewrite (rows_update_out (fun x => with_id id x && unclaimed x) unclaimed f).
  - rewrite (affected_pinned id unclaimed (fun x => with_id id x && unclaimed x)), Hr, Hu by done. lia.
  - intros x Hx. apply andb_true_iff in Hx as [_ Hx]. auto.
Qed.
End Calls.

(** The states vet resolves a delivery to. *)
Definition verdict (s : dstate) : bool := bool_decide (s ∈ [StateFiltered; StateDead; StateCancelled]).

Lemma verdict_not_unclaimed st msg now r : verdict st = true -> unclaimed (resolve_row st msg now r) = false.
Proof. by destruct st. Qed.

(** ** Decisions *)

Section Vet.
Context {G : Type} `{IdSource G} `{CelLib}.

(** Why a delivery is dead before any execution. *)
Definition unfit (c : Config) (ai : actionInfo) (m : message) (idx : nat) : Prop :=
  (exists e, messageHops (msg_headers m) = Err e) \/
  (exists h, messageHops (msg_headers m) = Ok h /\ MaxHops c <= h) \/
  (exists e, Compile (ai_def ai) = Err e) \/
  (exists e, NewActivation (msg_payload m) (msg_headers m) (msg_queue m) (msg_trace_id m) = Err e) \/
  (exists k act e, Compile (ai_def ai) = Ok k /\
     NewActivation (msg_payload m) (msg_headers m) (msg_queue m) (msg_trace_id m) = Ok act /\
     EvalFilter (default None (c_filters k !! idx)) act = Err e).

(** The filter's answer on a delivery that is covered and within the hop limit. *)
Definition filter_says (c : Config) (ai : actionInfo) (m : message) (idx : nat) (b : bool) : Prop :=
  exists h k act, messageHops (msg_headers m) = Ok h /\ h < MaxHops c /\ Compile (ai_def ai) = Ok k /\
    NewActivation (msg_payload m) (msg_headers m) (msg_queue m) (msg_trace_id m) = Ok act /\
    EvalFilter (default None (c_filters k !! idx)) act = Ok b.

(** C27. Before execution: a delivery whose queue the claiming version no longer
    reads is cancelled; it is executed exactly when the input's filter says yes
    on a message within the hop limit, filtered when it says no, and dead - with
    a reason, never skipped - when anything on the way fails.  The program
    cache stays correct. *)
Theorem vet_decision_correct defs c ai m cache :
  cache_ok defs cache -> defs (ai_name ai) (ai_version ai) = Some (ai_def ai) ->
  let '(decision, cache') := vet_decision c ai m cache in
  cache_ok defs cache' /\
  match inputIndex (ai_def ai) (msg_queue m) with
  | None => decision = Some (StateCancelled, superseded (ai_version ai))
  | Some idx =>
      match decision with
      | None => filter_says c ai m idx true
      | Some (StateFiltered, reason) => filter_says c ai m idx false /\ reason = ""
      | Some (StateDead, reason) => unfit c ai m idx /\ reason <> ""
      | Some _ => False
      end
  end.
Proof.
  intros Hc Hdef. unfold vet_decision. destruct (inputIndex (ai_def ai) (msg_queue m)) as [idx|]; [|done].
  destruct (messageHops (msg_headers m)) as [h|e] eqn:Eh.
  2:{ split; [done|]. split; [left; eauto|done]. }
  destruct (Z.leb_spec (MaxHops c) h) as [Hh|Hh].
  { split; [done|]. split; [right; left; eauto|done]. }
  destruct (Cache_Get_ok _ _ _ _ _ Hc Hdef) as [Hget Hc'].
  destruct (Cache_Get cache (ai_name ai) (ai_version ai) (ai_def ai)) as [[k|e] cache'] eqn:Eg; simpl in *.
  2:{ split; [done|]. split; [right; right; left; eauto|done]. }
  destruct (NewActivation _ _ _ _) as [act|e] eqn:Ea.
  2:{ split; [done|]. split; [do 3 right; left; eauto|done]. }
  destruct (EvalFilter _ act) as [[]|e] eqn:Ef; (split; [done|]).
  - unfold filter_says. eauto 10.
  - split; [|done]. unfold filter_says. eauto 10.
  - split; [|done]. do 4 right. eauto 10.
Qed.

Lemma vet_cases c ai wk now (s : sched G) :
  (exists cache, vet c ai wk now s = (true, with_cache cache s)) \/
  (exists cache st msg, verdict st = true /\
     vet c ai wk now s = (false, resolve (d_id (wk_delivery wk)) st msg now (with_cache cache s))).
Proof.
  unfold vet. destruct (vet_decision c ai (wk_message wk) (s_cache s)) as [[[st msg]|] cache] eqn:E; [right|left; eauto].
  exists cache, st, msg. split; [|done]. unfold vet_decision in E. clear -E.
  repeat (case_match; simplify_eq/=; try done).
Qed.
End Vet.

(** ** Termination *)

Section Dispatch.
Context {G : Type} `{IdSource G} `{CelLib}.

(** A world without faults and with unique delivery identifiers. *)
Definition sound (w : world G) : Prop := w_faults w = [] /\ NoDup (map d_id (t_deliveries (w_db w))).

Lemma sound_read {A} ctx (q : db -> result A) w r w' : sound w -> read ctx q w = (r, w') -> sound w' /\ w_db w' = w_db w.
Proof.
  intros [Hf Hn] Hr. pose proof (read_faultless ctx q w Hf) as Hf'. rewrite Hr in Hf'. destruct (read_db _ _ _ _ _ Hr) as [Hd _].
  split; [|done]. split; [done|]. by rewrite Hd.
Qed.

(** Resolving a claimable row of a sound world works and shrinks the backlog. *)
Lemma resolve_sound id st msg now (s : sched G) :
  sound (s_world s) -> verdict st = true -> (exists r, find_row id (t_deliveries (w_db (s_world s))) = Some r /\ unclaimed r = true) ->
  exists w', ResolveDelivery id st msg now (s_world s) = (Ok tt, w') /\ sound w' /\
    backlog (w_db (s_world s)) = S (backlog (w_db w')).
Proof.
  intros [Hf Hn] Ht Hr. pose proof (ResolveDelivery_cases id st msg now (s_world s) Hn) as Hc.
  assert (w_faults (snd (ResolveDelivery id st msg now (s_world s))) = []) as Hf' by by apply write_faultless.
  destruct (ResolveDelivery id st msg now (s_world s)) as [[[]|e] w'].
  - destruct Hc as [(r & _ & _ & _ & _ & Hids) Hdb]. exists w'. split; [done|]. split; [split; [done|by rewrite Hids]|].
    unfold backlog. rewrite Hdb. simpl. apply (backlog_leaves id); [|done|done|done|by intros; apply verdict_not_unclaimed].
    intros r'. unfold any_row. by rewrite andb_true_r.
  - destruct Hc as [_ [?|Href]]; [done|]. destruct Hr as (r & Hr & _). by specialize (Href r Hr).
Qed.

Lemma claim_sound id v now (s : sched G) :
  sound (s_world s) -> (exists r, find_row id (t_deliveries (w_db (s_world s))) = Some r /\ unclaimed r = true) ->
  exists w', ClaimDelivery id v now (s_world s) = (Ok tt, w') /\ sound w' /\ backlog (w_db (s_world s)) = S (backlog (w_db w')).
Proof.
  intros [Hf Hn] Hr. pose proof (ClaimDelivery_cases id v now (s_world s) Hn) as Hc.
  assert (w_faults (snd (ClaimDelivery id v now (s_world s))) = []) as Hf' by by apply write_faultless.
  destruct (ClaimDelivery id v now (s_world s)) as [[[]|e] w'].
  - destruct Hc as [(r & _ & _ & _ & _ & Hids) Hdb]. exists w'. split; [done|]. split; [split; [done|by rewrite Hids]|].
    unfold backlog. rewrite Hdb. simpl. rewrite (rows_update_out (fun x => with_id id x && unclaimed x) unclaimed (claim_row v (fmt_time now))).
    + destruct Hr as (r' & Hr' & Hu). rewrite (affected_pinned id unclaimed (fun x => with_id id x && unclaimed x)), Hr', Hu by done. lia.
    + intros x Hx. apply andb_true_iff in Hx as [_ Hx]. done.
  - destruct Hc as [_ [?|Href]]; [done|]. destruct Hr as (r & Hr & Hu). specialize (Href r Hr). congruence.
Qed.

Lemma dispatch_action_total fuel c ai now (s : sched G) :
  sound (s_world s) -> (backlog (w_db (s_world s)) < fuel)%nat ->
  exists s', dispatch_action fuel c ai now s = Some s' /\ sound (s_world s') /\
    (backlog (w_db (s_world s')) <= backlog (w_db (s_world s)))%nat.
Proof.
  revert s; induction fuel as [|fuel IH]; intros s Hs Hb; [lia|]. cbn [dispatch_action].
  destruct (inflight s (ai_name ai) <? ai_concurrency ai); [|eauto]. unfold call at 1.
  destruct (NextEligible (ai_name ai) now (s_world s)) as [[wk|e] w'] eqn:En; simpl.
  2:{ destruct (sound_read _ _ _ _ _ Hs En) as [Hs' Hd]. eexists; split; [done|]. simpl. by rewrite Hd. }
  destruct (sound_read _ _ _ _ _ Hs En) as [Hs' Hd]. destruct Hs as [Hf Hn].
  destruct (NextEligible_row _ _ _ _ _ Hn En) as (_ & r & Hr & Hu & _). rewrite <- Hd in Hr.
  destruct (vet_cases c ai wk now (with_world w' s)) as [[cache ->]|(cache & st & msg & Ht & ->)].
  - unfold call. cbn [s_world with_world with_cache].
    destruct (claim_sound (d_id (wk_delivery wk)) (ai_version ai) now (with_world w' s)) as (w2 & Hc & Hs2 & Hb2); [done|eauto|].
    cbn [s_world with_world] in Hc, Hb2. rewrite Hc. rewrite Hd in Hb2.
    edestruct IH as (s' & -> & Hs'' & Hb'); [| |exists s'; split; [done|]; split; [done|]]; [exact Hs2|simpl; lia|simpl in Hb'; lia].
  - destruct (resolve_sound (d_id (wk_delivery wk)) st msg now (with_cache cache (with_world w' s))) as (w2 & Hc & Hs2 & Hb2); [done|done|eauto|].
    unfold resolve, call. cbn [s_world with_world with_cache] in Hc, Hb2 |- *. rewrite Hc. rewrite Hd in Hb2.
    edestruct IH as (s' & -> & Hs'' & Hb'); [| |exists s'; split; [done|]; split; [done|]]; [exact Hs2|simpl; lia|simpl in Hb'; lia].
Qed.

Lemma cancelSuperseded_total fuel ai now (s : sched G) :
  sound (s_world s) -> (backlog (w_db (s_world s)) < fuel)%nat ->
  exists s', cancelSuperseded fuel ai now s = Some s' /\ sound (s_world s') /\
    (backlog (w_db (s_world s')) <= backlog (w_db (s_world s)))%nat.
Proof.
  revert s; induction fuel as [|fuel IH]; intros s Hs Hb; [lia|]. cbn [cancelSuperseded]. unfold call at 1.
  destruct (NextEligible (ai_name ai) now (s_world s)) as [[wk|e] w'] eqn:En; simpl.
  2:{ destruct (sound_read _ _ _ _ _ Hs En) as [Hs' Hd]. eexists; split; [done|]. simpl. by rewrite Hd. }
  destruct (sound_read _ _ _ _ _ Hs En) as [Hs' Hd]. destruct Hs as [Hf Hn].
  destruct (NextEligible_row _ _ _ _ _ Hn En) as (_ & r & Hr & Hu & _). rewrite <- Hd in Hr.
  destruct (resolve_sound (d_id (wk_delivery wk)) StateCancelled (superseded (ai_version ai)) now (with_world w' s)) as (w2 & Hc & Hs2 & Hb2); [done|done|eauto|].
  unfold call. cbn [s_world with_world] in Hc, Hb2 |- *. rewrite Hc. rewrite Hd in Hb2.
  edestruct IH as (s' & -> & Hs'' & Hb'); [| |exists s'; split; [done|]; split; [done|]]; [exact Hs2|simpl; lia|simpl in Hb'; lia].
Qed.

(** C25. A dispatch terminates as long as the database answers: one more
    iteration per action than there are pending and failed deliveries is always
    enough, and it never adds to that backlog. *)
Theorem dispatch_terminates fuel c now (s : sched G) :
  sound (s_world s) -> (backlog (w_db (s_world s)) < fuel)%nat ->
  exists s', dispatch fuel c now s = Some s' /\ (backlog (w_db (s_world s')) <= backlog (w_db (s_world s)))%nat.
Proof.
  intros Hs Hb. unfold dispatch, call, loadActions.
  destruct (ListActions (s_world s)) as [[rows|e] w'] eqn:El; destruct (sound_read _ _ _ _ _ Hs El) as [Hs' Hd].
  2:{ eexists; split; [done|]. simpl. by rewrite Hd. }
  rewrite <- Hd in Hb |- *. clear El Hd Hs. generalize (omap (load_action c) rows). intros l. clear rows.
  assert (forall s1 : sched G, sound (s_world s1) -> (backlog (w_db (s_world s1)) < fuel)%nat ->
    exists s', dispatch_all fuel c l now s1 = Some s' /\ (backlog (w_db (s_world s')) <= backlog (w_db (s_world s1)))%nat) as Hall.
  { induction l as [|ai l IH]; intros s1 Hs1 Hb1; [by exists s1|]. cbn [dispatch_all].
    destruct (IsJoin (ai_def ai)).
    - destruct (cancelSuperseded_total fuel ai now s1 Hs1 Hb1) as (s2 & -> & Hs2 & Hb2). simpl.
      destruct (IH s2 Hs2 ltac:(lia)) as (s3 & -> & Hb3). exists s3. split; [done|lia].
    - destruct (dispatch_action_total fuel c ai now s1 Hs1 Hb1) as (s2 & -> & Hs2 & Hb2). simpl.
      destruct (IH s2 Hs2 ltac:(lia)) as (s3 & -> & Hb3). exists s3. split; [done|lia]. }
  apply (Hall (with_world w' s)); done.
Qed.
End Dispatch.

(** ** What a dispatch touches *)

Section Touch.
Context {G : Type} `{IdSource G} `{CelLib}.

(** The deliveries of action [n] are as before; no identifier is lost or doubled. *)
Definition keeps (n : string) (d d' : db) : Prop :=
  (NoDup (map d_id (t_deliveries d)) -> NoDup (map d_id (t_deliveries d'))) /\
  forall id r, find_row id (t_deliveries d) = Some r -> d_action_name r = n -> find_row id (t_deliveries d') = Some r.

#[local] Instance keeps_preorder n : PreOrder (keeps n).
Proof.
  split; [by intros d|]. intros d1 d2 d3 [N1 K1] [N2 K2]. split; [auto|]. intros id r Hr Hn. apply K2; [by apply K1|done].
Qed.

Lemma keeps_guarded n id q f d d' x :
  guarded id q f (t_deliveries d) (t_deliveries d') ->
  find_row id (t_deliveries d) = Some x -> d_action_name x <> n -> keeps n d d'.
Proof.
  intros (r & Hr & _ & _ & Hother & Hids) Hx Hne. split; [by rewrite Hids|]. intros j y Hy Hn.
  rewrite Hother; [done|]. intros ->. rewrite Hy in Hx. by injection Hx as ->.
Qed.

Lemma dispatch_action_keeps fuel c ai now (s s' : sched G) n :
  NoDup (map d_id (t_deliveries (w_db (s_world s)))) -> ai_name ai <> n ->
  dispatch_action fuel c ai now s = Some s' -> keeps n (w_db (s_world s)) (w_db (s_world s')).
Proof.
  revert s; induction fuel as [|fuel IH]; intros s Hnd Hne; [done|]. cbn [dispatch_action].
  destruct (inflight s (ai_name ai) <? ai_concurrency ai); [|by intros [= <-]]. unfold call at 1.
  destruct (NextEligible (ai_name ai) now (s_world s)) as [[wk|e] w'] eqn:En; simpl.
  2:{ destruct (read_db _ _ _ _ _ En) as [Hd _]. intros [= <-]. simpl. by rewrite Hd. }
  destruct (NextEligible_row _ _ _ _ _ Hnd En) as (Hd & r & Hr & _ & Hname & _). rewrite <- Hd in Hnd, Hr |- *.
  destruct (vet_cases c ai wk now (with_world w' s)) as [[cache ->]|(cache & st & msg & Ht & ->)].
  - unfold call. cbn [s_world with_world with_cache]. pose proof (ClaimDelivery_cases (d_id (wk_delivery wk)) (ai_version ai) now w' Hnd) as Hc.
    destruct (ClaimDelivery _ _ _ w') as [[[]|e] w2].
    + destruct Hc as [Hg _]. assert (keeps n (w_db w') (w_db w2)) as Hk by (eapply keeps_guarded; [exact Hg|exact Hr|congruence]).
      intros Hs'. transitivity (w_db w2); [done|]. refine (IH _ _ Hne Hs'). by apply Hk.
    + intros [= <-]. simpl. destruct Hc as [-> _]. reflexivity.
  - unfold resolve, call. cbn [s_world with_world with_cache]. pose proof (ResolveDelivery_cases (d_id (wk_delivery wk)) st msg now w' Hnd) as Hc.
    destruct (ResolveDelivery _ _ _ _ w') as [[[]|e] w2]; intros Hs'.
    + destruct Hc as [Hg _]. assert (keeps n (w_db w') (w_db w2)) as Hk by (eapply keeps_guarded; [exact Hg|exact Hr|congruence]).
      transitivity (w_db w2); [done|]. refine (IH _ _ Hne Hs'). by apply Hk.
    + destruct Hc as [Hdb _]. rewrite <- Hdb in Hnd |- *. refine (IH _ _ Hne Hs'). exact Hnd.
Qed.

Lemma cancelSuperseded_keeps fuel ai now (s s' : sched G) n :
  NoDup (map d_id (t_deliveries (w_db (s_world s)))) -> ai_name ai <> n ->
  cancelSuperseded fuel ai now s = Some s' -> keeps n (w_db (s_world s)) (w_db (s_world s')).
Proof.
  revert s; induction fuel as [|fuel IH]; intros s Hnd Hne; [done|]. cbn [cancelSuperseded]. unfold call at 1.
  destruct (NextEligible (ai_name ai) now (s_world s)) as [[wk|e] w'] eqn:En; simpl.
  2:{ destruct (read_db _ _ _ _ _ En) as [Hd _]. intros [= <-]. simpl. by rewrite Hd. }
  destruct (NextEligible_row _ _ _ _ _ Hnd En) as (Hd & r & Hr & _ & Hname & _). rewrite <- Hd in Hnd, Hr |- *.
  unfold call. cbn [s_world with_world].
  pose proof (ResolveDelivery_cases (d_id (wk_delivery wk)) StateCancelled (superseded (ai_version ai)) now w' Hnd) as Hc.
  destruct (ResolveDelivery _ _ _ _ w') as [[[]|e] w2]; intros Hs'.
  - destruct Hc as [Hg _]. assert (keeps n (w_db w') (w_db w2)) as Hk by (eapply keeps_guarded; [exact Hg|exact Hr|congruence]).
    transitivity (w_db w2); [done|]. refine (IH _ _ Hne Hs'). by apply Hk.
  - injection Hs' as <-. simpl. destruct Hc as [-> _]. reflexivity.
Qed.

Lemma dispatch_all_keeps fuel c l now (s s' : sched G) n :
  NoDup (map d_id (t_deliveries (w_db (s_world s)))) -> (forall ai, In ai l -> ai_name ai <> n) ->
  dispatch_all fuel c l now s = Some s' -> keeps n (w_db (s_world s)) (w_db (s_world s')).
Proof.
  revert s; induction l as [|ai l IH]; intros s Hnd Hne; [by intros [= <-]|]. cbn [dispatch_all]. intros Hs'.
  apply bind_Some in Hs' as (s1 & H1 & H2).
  assert (keeps n (w_db (s_world s)) (w_db (s_world s1))) as Hk.
  { destruct (IsJoin (ai_def ai)); [eapply cancelSuperseded_keeps|eapply dispatch_action_keeps]; try exact H1; try done; apply Hne; by left. }
  transitivity (w_db (s_world s1)); [done|]. apply IH; [by apply Hk|intros; apply Hne; by right|done].
Qed.

Lemma ListActions_faultless (w : world G) : w_faults w = [] -> w_faults (snd (ListActions w)) = [].
Proof. apply read_faultless. Qed.

(** A dispatch never touches the deliveries of an action that is not
    enabled at its current version: none is claimed, filtered or cancelled. *)
Theorem dispatch_spares_disabled fuel c now (s s' : sched G) name :
  registry_wf (t_actions (w_db (s_world s))) -> NoDup (map d_id (t_deliveries (w_db (s_world s)))) ->
  (forall e, abs (t_actions (w_db (s_world s))) name = Some e -> e_on e = false) ->
  dispatch fuel c now s = Some s' ->
  forall id r, find_row id (t_deliveries (w_db (s_world s))) = Some r -> d_action_name r = name ->
    find_row id (t_deliveries (w_db (s_world s'))) = Some r.
Proof.
  intros [Hd Ht] Hnd Hoff. unfold dispatch, call, loadActions.
  destruct (ListActions (s_world s)) as [[rows|e] w'] eqn:El; destruct (read_db _ _ _ _ _ El) as [Hdb _].
  2:{ intros [= <-]. simpl. by rewrite Hdb. }
  apply read_ok in El. destruct (listing_current _ Hd Ht) as (l' & Hl' & _ & _ & Hall). rewrite Hl' in El. injection El as <-.
  intros Hs'. rewrite <- Hdb in Hnd |- *. apply (dispatch_all_keeps fuel c (omap (load_action c) l') now (with_world w' s) s' name); [done| |done].
  intros ai Hai Hname. apply list_elem_of_In, list_elem_of_omap in Hai as (a & Ha & Hload). apply list_elem_of_In in Ha.
  destruct (Hall a Ha) as (e & He & _ & _ & Hen). unfold load_action in Hload.
  assert (ac_enabled a = true /\ ai_name ai = ac_name a) as [Hon Hn].
  { destruct (ac_enabled a); simpl in Hload; [|done]. destruct (unmarshal_Action _) as [def|]; [|done].
    destruct (String.eqb _ _); [destruct (Subprocess def); [|done]|]; by injection Hload as <-. }
  rewrite <- Hname, Hn in Hoff. specialize (Hoff e He). congruence.
Qed.

(** An armed timer does not imply progress: when every action is disabled
    and a failed delivery's gate lies in an earlier second, a dispatch changes
    nothing and the timer is armed with zero - the loop spins until the
    delivery is resolved by other means. *)
Theorem armTimer_spins fuel c now (s : sched G) r g :
  sound (s_world s) -> registry_wf (t_actions (w_db (s_world s))) -> gates_ok (t_deliveries (w_db (s_world s))) ->
  (forall a, In a (t_actions (w_db (s_world s))) -> ac_enabled a = false) ->
  gated (w_db (s_world s)) r g -> g / Second < now / Second ->
  exists s', dispatch fuel c now s = Some s' /\ w_db (s_world s') = w_db (s_world s) /\ fst (armTimer now s') = 0.
Proof.
  intros [Hf Hnd] [Hd Ht] Hg Hoff Hgate Hlt. unfold dispatch, call, loadActions.
  destruct (ListActions (s_world s)) as [[rows|e] w'] eqn:El; destruct (read_db _ _ _ _ _ El) as [Hdb _].
  - apply read_ok in El as Hq. destruct (listing_current _ Hd Ht) as (l' & Hl' & _ & _ & Hall). rewrite Hl' in Hq. injection Hq as <-.
    assert (omap (load_action c) l' = []) as ->.
    { assert (forall a, In a l' -> load_action c a = None) as Hnone.
      { intros a Ha. destruct (Hall a Ha) as (e & He & _ & _ & Hen). unfold abs in He.
        destruct (last (Db.rows (named (ac_name a)) (t_actions (w_db (s_world s))))) as [x|] eqn:Ex; [|done]. injection He as <-. simpl in Hen.
        assert (In x (t_actions (w_db (s_world s)))) as Hx.
        { apply last_Some_elem_of, list_elem_of_In, List.filter_In in Ex as [Ex _]. done. }
        unfold load_action. by rewrite Hen, (Hoff x Hx). }
      clear -Hnone. induction l' as [|a l' IH]; [done|]. simpl. rewrite Hnone by by left. apply IH. intros; apply Hnone; by right. }
    eexists; split; [done|]. split; [done|]. unfold armTimer, call. cbn [s_world with_world].
    assert (w_faults w' = []) as Hf' by (pose proof (ListActions_faultless (s_world s) Hf) as Hf'; by rewrite El in Hf').
    assert (gates_ok (t_deliveries (w_db w'))) as Hg' by by rewrite Hdb.
    pose proof (NextRetryAt_cases w' Hg') as Hn. destruct (NextRetryAt w') as [[t|e] w2]; simpl.
    + destruct Hn as (_ & _ & Hmin). rewrite Hdb in Hmin. destruct (Hmin _ _ Hgate) as [Hle _]. unfold Second in *. zdiv.
    + destruct Hn as [_ [?|[_ Hnone]]]; [done|]. exfalso. rewrite Hdb in Hnone. by apply (Hnone r g).
  - apply read_err in El as [?|El]; [done|]. destruct (listing_current _ Hd Ht) as (l' & Hl' & _). by rewrite Hl' in El.
Qed.
End Touch.

(** ** Reaping orphans *)

Section Reap.
Context {G : Type} `{IdSource G}.

Lemma ResetOrphan_db id now (w : world G) :
  match ResetOrphan id now w with
  | (Ok _, w') => w_db w' = set_deliveries (update (fun r => with_id id r && claimed r) (orphan_row (fmt_time now)) (t_deliveries (w_db w))) (w_db w)
  | (Err _, w') => w_db w' = w_db w /\ w_faults w <> []
  end.
Proof.
  unfold ResetOrphan. fold claimed. match goal with |- context [write ?m w] => destruct (write_done m w tt _ _ eq_refl) as [(w' & -> & -> & _)|(e & w' & -> & ? & ?)] end; done.
Qed.

Definition reset_ids (now : time) (ids : list string) (t : list drow) : list drow :=
  update (fun r => claimed r && bool_decide (d_id r ∈ ids)) (orphan_row (fmt_time now)) t.

Lemma reset_ids_snoc now ids id t :
  update (fun r => with_id id r && claimed r) (orphan_row (fmt_time now)) (reset_ids now ids t) = reset_ids now (ids ++ [id]) t.
Proof.
  unfold reset_ids, update. rewrite map_map. apply map_ext. intros r. unfold with_id.
  destruct (claimed r) eqn:Ec; simpl; [|by rewrite Ec, andb_false_r].
  destruct (bool_decide_reflect (d_id r ∈ ids)) as [Hin|Hni].
  - simpl. rewrite andb_false_r, bool_decide_eq_true_2; [done|]. apply elem_of_app. by left.
  - rewrite Ec, andb_true_r. destruct (String.eqb_spec (d_id r) id) as [->|Hne].
    + rewrite bool_decide_eq_true_2; [done|]. apply elem_of_app. right. by left.
    + rewrite bool_decide_eq_false_2; [done|]. rewrite elem_of_app, list_elem_of_singleton. by intros [|].
Qed.

Definition pgids (l : list delivery) : list Z := omap d_pgid l.

(** The loop of ReapOrphans: each group killed, each row reset; an error of the
    database stops it after a prefix. *)
Lemma reap_each_spec l now (w : world G) ids t :
  t_deliveries (w_db w) = reset_ids now ids t ->
  let '(kills, r, w') := reap_each l now w in
  match r with
  | Ok _ => kills = pgids l /\ t_deliveries (w_db w') = reset_ids now (ids ++ map d_id l) t
  | Err _ => w_faults w <> []
  end.
Proof.
  revert w ids; induction l as [|d l IH]; intros w ids Ht; cbn [reap_each]; [by rewrite app_nil_r|].
  pose proof (ResetOrphan_db (d_id d) now w) as Hr. destruct (ResetOrphan (d_id d) now w) as [[u|e] w'] eqn:Er; [|by destruct Hr].
  assert (w_faults w = [] -> w_faults w' = []) as Hf by (intros Hf; pose proof (write_faultless (_ <-t update_deliveries (fun r => with_id (d_id d) r && in_state [StateClaimed] r) (orphan_row (fmt_time now)) ;; tx_ret tt) w Hf) as Hf'; unfold ResetOrphan in Er; by rewrite Er in Hf').
  specialize (IH w' (ids ++ [d_id d])). rewrite Hr in IH. simpl in IH. rewrite Ht, reset_ids_snoc in IH. specialize (IH eq_refl).
  destruct (reap_each l now w') as [[ks r] w2]. destruct r as [u2|e]; [|auto]. destruct IH as [-> ->].
  rewrite <- app_assoc. split; [|done]. unfold pgids. simpl. by destruct (d_pgid d).
Qed.

Lemma reap_resets now (w : world G) :
  (forall r, In r (t_deliveries (w_db w)) -> exists v, scanDelivery r = Ok v) ->
  let '(kills, r, w') := ReapOrphans now w in
  match r with
  | Ok _ =>
      t_deliveries (w_db w') = update claimed (orphan_row (fmt_time now)) (t_deliveries (w_db w)) /\
      kills = omap d_pgid (order_by d_id (rows claimed (t_deliveries (w_db w)))) /\
      affected claimed (t_deliveries (w_db w')) = 0%nat
  | Err _ => w_faults w <> []
  end.
Proof.
  intros Hscan. unfold ReapOrphans, ClaimedDeliveries, listDeliveries. fold claimed.
  match goal with |- context [read ?c ?q w] => destruct (read c q w) as [[l|e] w'] eqn:El end.
  - destruct (read_db _ _ _ _ _ El) as [Hdb _]. pose proof (read_faultless "list deliveries" (fun d => wrap_errors "list deliveries" (scan_all scanDelivery (order_by d_id (rows claimed (t_deliveries d))))) w) as Hf.
    rewrite El in Hf. simpl in Hf. apply read_ok in El.
    assert (scan_all scanDelivery (order_by d_id (rows claimed (t_deliveries (w_db w)))) = Ok l) as Hl by by destruct (scan_all _ _); simplify_eq/=.
    clear El. assert (forall r v, scanDelivery r = Ok v -> d_id v = d_id r /\ d_pgid v = d_pgid r) as Hrow.
    { intros r v. unfold scanDelivery. destruct (nullTime (d_not_before r)); [|done]. simpl. destruct (nullTime (d_claimed_at r)); [|done]. simpl.
      destruct (nullTime (d_completed_at r)); [|done]. simpl. by intros [= <-]. }
    assert (map d_id l = map d_id (order_by d_id (rows claimed (t_deliveries (w_db w)))) /\
      pgids l = omap d_pgid (order_by d_id (rows claimed (t_deliveries (w_db w))))) as [Hids Hpg].
    { revert l Hl. unfold pgids. generalize (order_by d_id (rows claimed (t_deliveries (w_db w)))). intros lr. clear Hscan.
      induction lr as [|r lr IH]; intros l Hl; simpl in Hl; [by injection Hl as <-|]. rewrite rbind_ok in Hl. destruct Hl as (v & Hv & Hl).
      rewrite rbind_ok in Hl. destruct Hl as (vs & Hvs & [= <-]). destruct (IH _ Hvs) as [I1 I2]. destruct (Hrow _ _ Hv) as [Hi Hp].
      simpl. rewrite Hp, I1, Hi. split; [done|]. destruct (d_pgid r); [f_equal|]; done. }
    pose proof (reap_each_spec l now w' [] (t_deliveries (w_db w))) as Hr.
    destruct (reap_each l now w') as [[kills r] w2]. rewrite Hdb in Hr.
    assert (t_deliveries (w_db w) = reset_ids now [] (t_deliveries (w_db w))) as Hnil.
    { unfold reset_ids, update. symmetry. rewrite (map_ext _ id) by (intros x; by rewrite andb_false_r). apply map_id. }
    specialize (Hr Hnil). destruct r as [u|e]; [|by intros Hf'; apply Hr, Hf]. destruct Hr as [-> Ht].
    assert (t_deliveries (w_db w2) = update claimed (orphan_row (fmt_time now)) (t_deliveries (w_db w))) as Hupd.
    { rewrite Ht. simpl. unfold reset_ids, update. apply map_ext_in. intros x Hx. destruct (claimed x) eqn:Ec; [|done]. simpl.
      rewrite bool_decide_eq_true_2; [done|]. rewrite Hids. apply list_elem_of_In, in_map, list_elem_of_In. rewrite order_by_perm.
      apply list_elem_of_In, List.filter_In. done. }
    split_and!; [done|by rewrite Hpg|]. rewrite Hupd. rewrite (affected_pending claimed _ false); [done|].
    intros x Hx. apply in_map_iff in Hx as (y & <- & _). by destruct (claimed y) eqn:Ey.
  - apply read_err in El as [?|El]; [done|].
    destruct (scan_all_ok scanDelivery (order_by d_id (rows claimed (t_deliveries (w_db w))))) as (l & Hl & _); [|by rewrite Hl in El].
    intros r Hr. apply Hscan. apply list_elem_of_In in Hr. rewrite order_by_perm in Hr. by apply list_elem_of_In, List.filter_In in Hr as [Hr _].
Qed.

(** Recovery after a crash: when it reports success, the process group of
    every claimed delivery was killed, exactly the claimed rows went back to the
    retry path - failed, claimable at once, no group - and no claimed row is
    left; it only fails when the database does. *)
Theorem ReapOrphans_resets now (w : world G) :
  (forall r, In r (t_deliveries (w_db w)) -> exists v, scanDelivery r = Ok v) ->
  let '(kills, r, w') := ReapOrphans now w in
  match r with
  | Ok _ =>
      t_deliveries (w_db w') = update claimed (orphan_row (fmt_time now)) (t_deliveries (w_db w)) /\
      kills = omap d_pgid (order_by d_id (rows claimed (t_deliveries (w_db w)))) /\
      affected claimed (t_deliveries (w_db w')) = 0%nat
  | Err _ => w_faults w <> []
  end.
Proof. exact (reap_resets now w). Qed.
End Reap.

(** ** Applying one result *)

Section Apply.
Context {G : Type} `{IdSource G} `{CelLib}.

(** The delivery, its outputs and the counter after a success. *)
Definition completed (j : job) (tail : string) (outs : list message) (now : time) (d d' : db) (gain : Z) : Prop :=
  exists d1 n, only_deliveries d d1 /\
    guarded (d_id (wk_delivery (j_work j))) claimed (done_row tail (fmt_time now)) (t_deliveries d) (t_deliveries d1) /\
    appended_all outs n d1 d' /\ gain = n - 1.

(** ... and after a failure. *)
Definition retried (c : Config) (j : job) (e tail : string) (now rnd : Z) (d d' : db) (gain : Z) : Prop :=
  let dl := wk_delivery (j_work j) in
  let isdead := ai_maxAttempts (j_action j) <=? d_attempt dl in
  only_deliveries d d' /\
  guarded (d_id dl) claimed (failed_row isdead (fmt_time (now + backoff c (d_attempt dl) rnd)) e tail (fmt_time now))
    (t_deliveries d) (t_deliveries d') /\
  gain = (if isdead then -1 else 0).

Lemma complete_cases id tail outs now (w : world G) :
  NoDup (map d_id (t_deliveries (w_db w))) ->
  match CompleteDelivery id tail outs now w with
  | (Ok n, w') => exists d1, only_deliveries (w_db w) d1 /\
      d1 = set_deliveries (update (fun r => with_id id r && claimed r) (done_row tail (fmt_time now)) (t_deliveries (w_db w))) (w_db w) /\
      guarded id claimed (done_row tail (fmt_time now)) (t_deliveries (w_db w)) (t_deliveries d1) /\ appended_all outs n d1 (w_db w')
  | (Err _, w') => w_db w' = w_db w
  end.
Proof.
  intros Hnd. destruct (CompleteDelivery id tail outs now w) as [[n|e] w'] eqn:E; [|by apply write_error in E].
  unfold CompleteDelivery in E. apply write_ok in E. unfold complete_tx in E. fold claimed in E.
  apply tx_bind_ok in E as ([] & d1 & g1 & Ht & Ho). apply append_outputs_ok in Ho.
  assert (keeps_id (done_row tail (fmt_time now))) as Hk by done.
  destruct (transition_cases "complete" id claimed _ _ (fun r => eq_refl) Hk (w_db w) (w_gen w) Hnd)
    as [[Ht' Hg]|(e & Ht' & _)]; rewrite Ht' in Ht; [|done].
  injection Ht as <- <-. eexists; split; [|split; [|split; [|exact Ho]]]; done.
Qed.

Lemma apply_stores c k j r now rnd (s : sched G) :
  NoDup (map d_id (t_deliveries (w_db (s_world s)))) -> s_running s !! k = Some j ->
  let s' := apply c k r now rnd s in
  let d := w_db (s_world s) in let d' := w_db (s_world s') in
  let gain := s_active s' - s_active s in
  s_running s' = delete k (s_running s) /\
  inflight s' (ai_name (j_action j)) = inflight s (ai_name (j_action j)) - 1 /\
  (d' = d /\ gain = 0 \/
   match fst (job_outputs j (job_result j r) now (s_world s)) with
   | Ok outs => completed j (e_stderr_tail (job_result j r)) outs now d d' gain
   | Err e => retried c j (err_msg e) (e_stderr_tail (job_result j r)) now rnd d d' gain
   end).
Proof.
  intros Hnd Hj. cbn zeta. unfold apply. rewrite Hj.
  set (s0 := add_inflight (ai_name (j_action j)) (-1) (remove_job k s)).
  assert (s_world s0 = s_world s) as Hw by done. rewrite Hw.
  assert (w_db (snd (job_outputs j (job_result j r) now (s_world s))) = w_db (s_world s)) as Hdb.
  { unfold job_outputs. destruct (j_failed j); [done|]. destruct (e_err _); [done|]. destruct (parseNDJSON _); [|done].
    destruct (String.eqb _ ""); [done|]. unfold buildOutputs. by destruct (build_outputs _ _ _ _ _ _). }
  assert (forall name, inflight s0 name = if String.eqb name (ai_name (j_action j)) then inflight s name - 1 else inflight s name) as Hin.
  { intros name. unfold inflight, s0, add_inflight; simpl. destruct (String.eqb_spec name (ai_name (j_action j))) as [->|Hne].
    - by rewrite lookup_insert_eq.
    - by rewrite lookup_insert_ne. }
  specialize (Hin (ai_name (j_action j))). rewrite String.eqb_refl in Hin.
  destruct (job_outputs j (job_result j r) now (s_world s)) as [[outs|e] w]; simpl in Hdb |- *; unfold call; cbn [s_world with_world].
  - pose proof (complete_cases (d_id (wk_delivery (j_work j))) (e_stderr_tail (job_result j r)) outs now w) as Hc. rewrite Hdb in Hc. specialize (Hc Hnd).
    destruct (CompleteDelivery _ _ _ _ w) as [[n|e] w2]; (split; [done|split; [done|]]); simpl.
    + right. destruct Hc as (d1 & H1 & _ & H2 & H3). exists d1, n. split_and!; [done..|lia].
    + left. split; [congruence|lia].
  - pose proof (FailDelivery_cases (d_id (wk_delivery (j_work j))) (ai_maxAttempts (j_action j) <=? d_attempt (wk_delivery (j_work j)))
      (now + backoff c (d_attempt (wk_delivery (j_work j))) rnd) (err_msg e) (e_stderr_tail (job_result j r)) now w) as Hc.
    rewrite Hdb in Hc. specialize (Hc Hnd).
    destruct (FailDelivery _ _ _ _ _ _ w) as [[u|e2] w2].
    + destruct Hc as [Hg Hd2]. destruct (ai_maxAttempts (j_action j) <=? d_attempt (wk_delivery (j_work j))) eqn:Ed; simpl;
        (split; [done|split; [done|right]]); unfold retried; rewrite Ed; split_and!; try (by rewrite Hd2); try done; lia.
    + simpl. split; [done|split; [done|left]]. destruct Hc as [-> _]. split; [done|lia].
Qed.

(** C13. Applying a result releases the action's slot and either stores the
    outcome whole or leaves the delivery claimed.  Success: done, with every
    output appended and the counter moved by outputs' deliveries minus one.
    Failure: dead when the attempt budget is spent (counter minus one),
    otherwise failed behind now + backoff (counter unchanged). *)
Theorem apply_outcome c k j r now rnd (s : sched G) :
  NoDup (map d_id (t_deliveries (w_db (s_world s)))) -> s_running s !! k = Some j ->
  let s' := apply c k r now rnd s in
  let d := w_db (s_world s) in let d' := w_db (s_world s') in
  let gain := s_active s' - s_active s in
  s_running s' = delete k (s_running s) /\
  inflight s' (ai_name (j_action j)) = inflight s (ai_name (j_action j)) - 1 /\
  (d' = d /\ gain = 0 \/
   match fst (job_outputs j (job_result j r) now (s_world s)) with
   | Ok outs => completed j (e_stderr_tail (job_result j r)) outs now d d' gain
   | Err e => retried c j (err_msg e) (e_stderr_tail (job_result j r)) now rnd d d' gain
   end).
Proof. exact (apply_stores c k j r now rnd s). Qed.
End Apply.

(** ** A failing write *)

Section Spin.
Context {G : Type} `{IdSource G} `{CelLib}.

(** An action that no longer reads the queue of its delivery. *)
Definition moved_action : Action :=
  mkAction "sum" [mkInput "other" "" ""] "subprocess" None "" None None None.
Definition moved_ai : actionInfo := mkActionInfo "sum" 2 moved_action zero_Subprocess 1 3 Minute.

(** Every read succeeds and no write can begin. *)
Fixpoint locked (n : nat) : list (option string) :=
  match n with O => [] | S n => None :: Some "database is locked" :: locked n end.

Definition locked_state (g : G) (n : nat) : sched G := mkSched (mkWorld demo_db g (locked n)) 3 ∅ NewCache [].

(** A superseded delivery while writes fail: the loop over the action never
    ends - the resolution is not stored, and the same delivery is selected
    again - whereas the loop of a join gives up at the first failure, as its
    comment demands. *)
Theorem dispatch_spins_on_failing_write fuel c (g : G) :
  dispatch_action fuel c moved_ai 0 (locked_state g fuel) = None /\
  exists s', cancelSuperseded 1 moved_ai 0 (locked_state g 1) = Some s' /\ w_db (s_world s') = demo_db.
Proof.
  split; [|by eexists]. revert g. induction fuel as [|fuel IH]; intros g; [done|]. exact (IH g).
Qed.
End Spin.

(** ** Witnesses *)

Definition toy_sched (d : db) (jobs : list job) : @sched id_stream toy_cel :=
  mkSched (H0 := toy_cel) (mkWorld d demo_gen []) 3 ∅ (NewCache (H := toy_cel)) jobs.

(** The demo database with its action disabled. *)
Definition demo_off : db := set_actions [mkAct "sum" 1 sample_def false (fmt_time 0)] demo_db.

Lemma demo_sound d jobs : NoDup (map d_id (t_deliveries d)) -> sound (s_world (toy_sched d jobs)).
Proof. by split. Qed.

Lemma demo_off_wf : registry_wf (t_actions demo_off).
Proof.
  split.
  - intros name. unfold versions, rows, named, demo_off. cbn -[String.eqb]. destruct (String.eqb "sum" name); reflexivity.
  - repeat constructor. vm_compute. discriminate.
Qed.

Lemma vet_decision_correct_witness :
  fst (vet_decision (H0 := toy_cel) default_config moved_ai demo_message (NewCache (H := toy_cel))) =
    Some (StateCancelled, superseded 2).
Proof.
  pose proof (vet_decision_correct (H0 := toy_cel) (fun _ _ => Some moved_action) default_config moved_ai demo_message (NewCache (H := toy_cel))) as Ht.
  destruct (vet_decision (H0 := toy_cel) default_config moved_ai demo_message (NewCache (H := toy_cel))) as [dec cache] eqn:E.
  destruct Ht as [_ Hd]; [intros n v k Hk; unfold NewCache in Hk; by rewrite lookup_empty in Hk|done|].
  exact Hd.
Defined.

Lemma dispatch_terminates_witness :
  exists s', dispatch 3 default_config Second (toy_sched demo_db []) = Some s' /\
    (backlog (w_db (s_world s')) <= backlog demo_db)%nat.
Proof.
  apply (dispatch_terminates (H0 := toy_cel) 3 default_config Second (toy_sched demo_db [])).
  - apply demo_sound. decide_now.
  - vm_compute. lia.
Defined.

Lemma dispatch_spares_disabled_witness :
  exists s', dispatch 3 default_config Second (toy_sched demo_off []) = Some s' /\
    find_row "d4" (t_deliveries (w_db (s_world s'))) = Some (pending_row "d4" "m1" "sum").
Proof.
  assert (exists s', dispatch 3 default_config Second (toy_sched demo_off []) = Some s') as [s' Hs'].
  { destruct (dispatch 3 default_config Second (toy_sched demo_off [])) eqn:E; [eauto|].
    assert (is_Some (dispatch 3 default_config Second (toy_sched demo_off []))) as [x Hx]; [|congruence].
    apply is_Some_alt. vm_compute. exact I. }
  exists s'. split; [done|].
  apply (dispatch_spares_disabled (H0 := toy_cel) 3 default_config Second (toy_sched demo_off []) s' "sum" demo_off_wf); [decide_now| |done|done|done].
  intros e He. vm_compute in He. by injection He as <-.
Defined.

Lemma armTimer_spins_witness :
  exists s', dispatch 3 default_config (10 * Second) (toy_sched demo_off []) = Some s' /\
    w_db (s_world s') = demo_off /\ fst (armTimer (10 * Second) s') = 0.
Proof.
  apply (armTimer_spins (H0 := toy_cel) 3 default_config (10 * Second) (toy_sched demo_off [])
    (mkDelivery "d2" (Some "m1") "b" (Some 1) StateFailed 2 (Some (fmt_time (3 * Second))) None None (Some "exit status 1") (Some (fmt_time 0)) (Some (fmt_time 0)))
    (3 * Second)).
  - apply demo_sound. decide_now.
  - exact demo_off_wf.
  - exact demo_gates.
  - by intros a [<-|[]].
  - split; [right; left; reflexivity|]. split; [done|]. split; [decide_now|done].
  - vm_compute. reflexivity.
Defined.

Lemma ReapOrphans_resets_witness :
  let '(kills, r, w') := ReapOrphans (4 * Second) demo_dw in
  r = Ok tt /\ kills = [77] /\ affected claimed (t_deliveries (w_db w')) = 0%nat.
Proof.
  pose proof (ReapOrphans_resets (4 * Second) demo_dw) as Ht.
  assert (snd (fst (ReapOrphans (4 * Second) demo_dw)) = Ok tt) as Hr by (vm_compute; reflexivity).
  destruct (ReapOrphans (4 * Second) demo_dw) as [[kills r] w']. simpl in Hr. subst r. destruct Ht as (_ & Hk & Ha).
  { intros r Hr. simpl in Hr. destruct Hr as [<-|[<-|[<-|[<-|[]]]]]; eexists; vm_compute; reflexivity. }
  split; [done|]. split; [|done]. rewrite Hk. vm_compute. reflexivity.
Defined.

Definition demo_job : job :=
  mkJob (mkWork (mkDelivery "d1" (Some "m1") "a" None StatePending 1 None None None None None None) demo_message) demo_ai None.

Lemma apply_outcome_witness :
  s_running (apply default_config 0 (mkResult "" "boom" (Some "exit status 1")) Second 0 (toy_sched demo_db [demo_job])) = [] /\
  inflight (apply default_config 0 (mkResult "" "boom" (Some "exit status 1")) Second 0 (toy_sched demo_db [demo_job])) "sum" = 0 - 1.
Proof.
  destruct (apply_outcome (H0 := toy_cel) default_config 0 demo_job (mkResult "" "boom" (Some "exit status 1")) Second 0 (toy_sched demo_db [demo_job])) as (Hrun & Hin & _);
    [decide_now|done|]. split; [exact Hrun|exact Hin].
Defined.
