(* ===== verification/System.v ===== *)
(** The running daemon: the scheduler loop interleaved with the request
    handlers and the workers, as a step relation.

    The loop's own store calls are separate steps (select, then resolve or
    claim), so handlers may commit in between.  A handler that creates work
    commits first and calls WorkAdded afterwards: [y_owed] is what has been
    committed and not yet announced. *)
From S2P Require Import Prelude GoTime Float64 Json Action Cel Ids Db Registry Deliveries Executor Scheduler.

Section System.
Context {G : Type} `{IdSource G} `{CelLib}.

Record sys := mkSys {
  y_sched : sched G;
  y_found : option (actionInfo * Work);   (** selected by the loop, not acted on yet *)
  y_owed : Z
}.

Definition y_db (y : sys) : db := w_db (s_world (y_sched y)).

(** The loop goroutine. *)
Inductive loop_step (c : Config) : sys -> sys -> Prop :=
| L_select s o ai now wk w :
    NextEligible (ai_name ai) now (s_world s) = (Ok wk, w) ->
    loop_step c (mkSys s None o) (mkSys (with_world w s) (Some (ai, wk)) o)
| L_read s o w :
    w_db w = w_db (s_world s) -> w_gen w = w_gen (s_world s) ->
    loop_step c (mkSys s None o) (mkSys (with_world w s) None o)
| L_cache s f o cache :
    loop_step c (mkSys s f o) (mkSys (with_cache cache s) f o)
| L_resolve s o ai wk st msg now :
    verdict st = true ->
    loop_step c (mkSys s (Some (ai, wk)) o) (mkSys (resolve (d_id (wk_delivery wk)) st msg now s) None o)
| L_claim s o ai wk now w :
    ClaimDelivery (d_id (wk_delivery wk)) (ai_version ai) now (s_world s) = (Ok tt, w) ->
    inflight s (ai_name ai) < ai_concurrency ai ->
    loop_step c (mkSys s (Some (ai, wk)) o)
      (mkSys (launch ai (mkWork (counted (wk_delivery wk)) (wk_message wk)) (add_inflight (ai_name ai) 1 (with_world w s))) None o)
| L_claim_fails s o ai wk now e w :
    ClaimDelivery (d_id (wk_delivery wk)) (ai_version ai) now (s_world s) = (Err e, w) ->
    loop_step c (mkSys s (Some (ai, wk)) o) (mkSys (with_world w s) None o)
| L_apply s o k r now rnd :
    loop_step c (mkSys s None o) (mkSys (apply c k r now rnd s) None o)
| L_ctrl s o name now :
    loop_step c (mkSys s None o) (mkSys (snd (handleCtrl name now s)) None o).

(** Handlers and workers, at any moment. *)
Inductive other_step : sys -> sys -> Prop :=
| H_append s f o m n w :
    AppendMessage m (s_world s) = (Ok n, w) -> other_step (mkSys s f o) (mkSys (with_world w s) f (o + n))
| H_replay s f o id d w :
    ReplayDelivery id (s_world s) = (Ok d, w) -> other_step (mkSys s f o) (mkSys (with_world w s) f (o + 1))
| H_work_added s f o n :
    other_step (mkSys s f o) (mkSys (WorkAdded n s) f (o - n))
| H_apply_action s f o name definition now r w :
    ApplyAction name definition now (s_world s) = (r, w) -> other_step (mkSys s f o) (mkSys (with_world w s) f o)
| H_enable s f o name on r w :
    SetActionEnabled name on (s_world s) = (r, w) -> other_step (mkSys s f o) (mkSys (with_world w s) f o)
| H_read s f o w :
    w_db w = w_db (s_world s) -> other_step (mkSys s f o) (mkSys (with_world w s) f o)
| H_failed {A} s f o (m : tx G A) e w :
    write m (s_world s) = (Err e, w) -> other_step (mkSys s f o) (mkSys (with_world w s) f o)
| W_pgid s f o id pgid :
    other_step (mkSys s f o) (mkSys (onStart id pgid s) f o).

Definition step (c : Config) (y y' : sys) : Prop := loop_step c y y' \/ other_step y y'.

Inductive steps (c : Config) : sys -> sys -> Prop :=
| steps_refl y : steps c y y
| steps_cons y1 y2 y3 : step c y1 y2 -> steps c y2 y3 -> steps c y1 y3.

(** ** The invariant *)

(** The executions of one action. *)
Definition running_of (name : string) (jobs : list job) : Z :=
  Z.of_nat (affected (fun j => String.eqb (ai_name (j_action j)) name) jobs).

Definition job_id (j : job) : string := d_id (wk_delivery (j_work j)).

(** The state of a delivery, by identifier. *)
Definition in_table (d : db) (id : string) (q : drow -> bool) : Prop :=
  exists r, find_row id (t_deliveries d) = Some r /\ q r = true.

Record sys_ok (y : sys) : Prop := {
  ok_ids : NoDup (map d_id (t_deliveries (y_db y)));
  ok_counter : s_active (y_sched y) + y_owed y = active (y_db y);
  ok_jobs : NoDup (map job_id (s_running (y_sched y)));
  ok_claimed : forall j, In j (s_running (y_sched y)) -> in_table (y_db y) (job_id j) claimed;
  ok_inflight : forall name, inflight (y_sched y) name = running_of name (s_running (y_sched y));
  ok_found : forall ai wk, y_found y = Some (ai, wk) -> in_table (y_db y) (d_id (wk_delivery wk)) unclaimed
}.

(** The life cycle of a delivery.  It is selected pending or failed; a claim
    counts an attempt; a verdict before execution, or the outcome of one, does
    not; only a replay leaves dead, with the count reset. *)
Definition edge (r r' : drow) : bool :=
  match d_state r, d_state r' with
  | (StatePending | StateFailed), StateClaimed => d_attempt r' =? d_attempt r + 1
  | (StatePending | StateFailed), (StateFiltered | StateDead | StateCancelled) => d_attempt r' =? d_attempt r
  | StateClaimed, (StateDone | StateFailed | StateDead) => d_attempt r' =? d_attempt r
  | StateDead, StatePending => d_attempt r' =? 0
  | st, st' => bool_decide (st = st') && (d_attempt r' =? d_attempt r)
  end.

Definition link (r r' : drow) : Prop :=
  d_message_id r' = d_message_id r /\ d_action_name r' = d_action_name r /\ edge r r' = true.

(** No delivery is lost, and each follows its life cycle. *)
Definition evolves (d d' : db) : Prop :=
  forall id r, find_row id (t_deliveries d) = Some r ->
    exists r', find_row id (t_deliveries d') = Some r' /\ link r r'.

Lemma link_refl r : link r r.
Proof. split_and!; [done|done|]. unfold edge. destruct (d_state r); by rewrite Z.eqb_refl, bool_decide_eq_true_2. Qed.

Lemma evolves_app d d' news : t_deliveries d' = t_deliveries d ++ news -> evolves d d'.
Proof. intros Hd id r Hr. exists r. split; [rewrite Hd; by apply find_row_app|apply link_refl]. Qed.

Lemma evolves_same d d' : t_deliveries d' = t_deliveries d -> evolves d d'.
Proof. intros Hd. apply (evolves_app _ _ []). by rewrite app_nil_r. Qed.

Lemma find_row_map p f t j : keeps_id f ->
  find_row j (update p f t) = option_map (fun r => if p r then f r else r) (find_row j t).
Proof.
  intros Hf. unfold find_row. rewrite rows_update_comm by (intros r; unfold with_id; by rewrite Hf).
  by destruct (rows (with_id j) t).
Qed.

Lemma evolves_update p f d d' news :
  keeps_id f -> t_deliveries d' = update p f (t_deliveries d) ++ news -> (forall r, p r = true -> link r (f r)) -> evolves d d'.
Proof.
  intros Hf Hd Hl id r Hr. exists (if p r then f r else r). split.
  - rewrite Hd. apply find_row_app. by rewrite (find_row_map p f _ _ Hf), Hr.
  - destruct (p r) eqn:E; [auto|apply link_refl].
Qed.

Lemma unclaimed_cases r : unclaimed r = true -> d_state r = StatePending \/ d_state r = StateFailed.
Proof. unfold unclaimed. rewrite in_state_In. intros Hr. apply elem_of_cons in Hr as [->|Hr]; [by left|]. apply list_elem_of_singleton in Hr. by right. Qed.

Lemma claimed_state r : claimed r = true -> d_state r = StateClaimed.
Proof. unfold claimed. rewrite in_state_In. apply list_elem_of_singleton. Qed.

(** Each kind of update is an edge. *)
Lemma claim_link v now r : unclaimed r = true -> link r (claim_row v now r).
Proof. intros Hr. split_and!; [done|done|]. unfold edge; simpl. destruct (unclaimed_cases _ Hr) as [-> | ->]; apply Z.eqb_refl. Qed.
Lemma resolve_link st msg now r : verdict st = true -> unclaimed r = true -> link r (resolve_row st msg now r).
Proof.
  intros Hv Hr. split_and!; [done|done|]. unfold edge; simpl.
  destruct (unclaimed_cases _ Hr) as [-> | ->]; destruct st; try done; apply Z.eqb_refl.
Qed.
Lemma cancel_link reason now r : unclaimed r = true -> link r (cancel_row reason now r).
Proof. intros Hr. split_and!; [done|done|]. unfold edge; simpl. destruct (unclaimed_cases _ Hr) as [-> | ->]; apply Z.eqb_refl. Qed.
Lemma done_link tail now r : claimed r = true -> link r (done_row tail now r).
Proof. intros Hr. split_and!; [done|done|]. unfold edge; simpl. rewrite (claimed_state _ Hr). apply Z.eqb_refl. Qed.
Lemma failed_link isdead gate msg tail now r : claimed r = true -> link r (failed_row isdead gate msg tail now r).
Proof. intros Hr. split_and!; [done|done|]. unfold edge; simpl. rewrite (claimed_state _ Hr). destruct isdead; apply Z.eqb_refl. Qed.
Lemma replay_link r : dead r = true -> link r (replay_row r).
Proof. intros Hr. split_and!; [done|done|]. unfold edge; simpl. unfold dead in Hr. apply in_state_In, list_elem_of_singleton in Hr as ->. done. Qed.
Lemma pgid_link pgid r : link r (pgid_row pgid r).
Proof. exact (link_refl r). Qed.

(** A change of the database that the invariant does not see: identifiers stay
    unique, the active count moves by [n], and rows the loop holds are kept. *)
Definition harmless (n : Z) (d d' : db) : Prop :=
  (NoDup (map d_id (t_deliveries d)) -> NoDup (map d_id (t_deliveries d'))) /\
  active d' = active d + n /\
  (forall id, in_table d id claimed -> in_table d' id claimed) /\
  (forall id, in_table d id unclaimed -> in_table d' id unclaimed) /\
  evolves d d'.

Lemma harmless_refl d : harmless 0 d d.
Proof. split_and!; auto; [lia|by apply evolves_same]. Qed.

(** A handler's commit under the loop's feet. *)
Lemma sys_ok_harmless s f o w n a :
  sys_ok (mkSys s f o) -> harmless n (w_db (s_world s)) (w_db w) ->
  sys_ok (mkSys (add_active a (with_world w s)) f (o + n - a)).
Proof.
  intros [I1 I2 I3 I4 I5 I6] (Hn & Ha & Hc & Hu & _). unfold y_db in *. simpl in *.
  split; unfold y_db; simpl; [auto|lia|done|auto|exact I5|intros ai wk Hf; apply Hu; by apply (I6 ai)].
Qed.

(** ** What the handlers' transactions do *)

(** Unique identifiers survive an append: the primary key refuses a duplicate. *)
Lemma insert_deliveries_NoDup mid names d (g : G) d' g' :
  insert_deliveries mid names d g = (Ok (tt, d'), g') ->
  NoDup (map d_id (t_deliveries d)) -> NoDup (map d_id (t_deliveries d')).
Proof.
  revert d g; induction names as [|name names IH]; intros d g; simpl; [by intros [= <- <-]|].
  unfold tx_bind at 1, tx_new_id. destruct (new_id g) as [id g1]. unfold tx_bind, insertDelivery.
  destruct (existsb (with_id id) (t_deliveries d)) eqn:E; simpl; [by intros [=]|].
  match goal with |- context [if ?b then _ else _] => destruct b; [by intros [=]|] end.
  intros Hr Hnd. apply (IH _ _ Hr). simpl. rewrite map_app. apply NoDup_app. split_and!; [done| |by apply NoDup_singleton].
  intros x Hx Hx'. simpl in Hx'. apply list_elem_of_singleton in Hx' as ->. apply existsb_key in Hx. unfold with_id in E. congruence.
Qed.

Lemma append_tx_NoDup m d (g : G) n d' g' :
  append_tx m d g = (Ok (n, d'), g') -> NoDup (map d_id (t_deliveries d)) -> NoDup (map d_id (t_deliveries d')).
Proof.
  unfold append_tx. intros Hr. apply tx_bind_ok in Hr as ([] & d1 & g1 & Hi & Hr).
  assert (t_deliveries d1 = t_deliveries d) as <-.
  { destruct (insertMessage_cases m d g) as [(_ & Hi')|(_ & e & Hi')]; rewrite Hi' in Hi; [|done]. by injection Hi as <- _. }
  unfold materializeDeliveries in Hr. apply tx_bind_ok in Hr as (names & d2 & g2 & Hq & Hr).
  unfold tx_query, tx_of in Hq. destruct (subscriber_names _ _) as [ns|]; [|done]. injection Hq as -> -> ->.
  apply tx_bind_ok in Hr as ([] & d3 & g3 & Hins & Hr). unfold tx_ret in Hr. injection Hr as _ <- _.
  by apply (insert_deliveries_NoDup _ _ _ _ _ _ Hins).
Qed.

Lemma append_outputs_NoDup outs d (g : G) n d' g' :
  append_outputs outs d g = (Ok (n, d'), g') -> NoDup (map d_id (t_deliveries d)) -> NoDup (map d_id (t_deliveries d')).
Proof.
  revert d g n; induction outs as [|m outs IH]; intros d g n; cbn [append_outputs]; [by intros [= <- <- <-]|].
  intros Hr. apply tx_bind_ok in Hr as ([] & d1 & g1 & Hi & Hr). apply tx_bind_ok in Hr as (k & d2 & g2 & Hm & Hr).
  apply tx_bind_ok in Hr as (j & d3 & g3 & Ho & Hr). unfold tx_ret in Hr. injection Hr as _ <- <-. intros Hnd.
  eapply IH; [exact Ho|]. apply (append_tx_NoDup m d g k d2 g2); [|done]. unfold append_tx, tx_bind. by rewrite Hi.
Qed.

Lemma in_table_app d d' id q news :
  t_deliveries d' = t_deliveries d ++ news -> in_table d id q -> in_table d' id q.
Proof. intros Hd (r & Hr & Hq). exists r. split; [|done]. rewrite Hd. by apply find_row_app. Qed.

Lemma append_harmless m (w : world G) n w' :
  AppendMessage m w = (Ok n, w') -> harmless n (w_db w) (w_db w').
Proof.
  intros Ha. apply write_ok in Ha. split; [by eapply append_tx_NoDup|].
  apply append_ok in Ha as (ids & names & -> & _ & Ha).
  assert (appended_all [m] (Z.of_nat (length names) + 0) (w_db w) (w_db w')) as Hall by (econstructor; [exact Ha|constructor]).
  pose proof (appended_all_active _ _ _ _ Hall) as Hact. destruct (appended_all_prefix _ _ _ _ Hall) as (_ & _ & news & Hd & _).
  split; [lia|]. split_and!; [intros id; by apply (in_table_app _ _ _ _ news)..|by apply (evolves_app _ _ news)].
Qed.

(** A guarded transition moves one row: what it does to the table's questions. *)
Lemma guarded_in_table id q f d d' j p :
  guarded id q f (t_deliveries d) (t_deliveries d') ->
  (forall r, q r = true -> p r = true -> p (f r) = true) -> in_table d j p -> in_table d' j p.
Proof.
  intros (r & Hr & Hq & Hr' & Hother & _) Hpf (x & Hx & Hp). destruct (decide (j = id)) as [->|Hne].
  - rewrite Hr in Hx. injection Hx as <-. exists (f r). auto.
  - exists x. by rewrite Hother.
Qed.

(** ** What the loop's transactions do

    [moves id n d d']: only the row [id] may change state, and the active count
    moves by [n]. *)
Definition moves (id : string) (n : Z) (d d' : db) : Prop :=
  (NoDup (map d_id (t_deliveries d)) -> NoDup (map d_id (t_deliveries d'))) /\
  active d' = active d + n /\
  (forall j q, j <> id -> in_table d j q -> in_table d' j q) /\
  evolves d d'.

Lemma moves_refl id d : moves id 0 d d.
Proof. split_and!; auto; [lia|by apply evolves_same]. Qed.

Lemma moves_guarded id q f d t' n :
  guarded id q f (t_deliveries d) t' -> active (set_deliveries t' d) = active d + n ->
  (forall r, q r = true -> link r (f r)) -> moves id n d (set_deliveries t' d).
Proof.
  intros (r & Hr & Hq & Hr' & Hother & Hids) Ha Hl. split_and!; [simpl; by rewrite Hids|done| |].
  - intros j p Hj (x & Hx & Hp). exists x. simpl. by rewrite Hother.
  - intros j x Hx. simpl. destruct (decide (j = id)) as [->|Hne].
    + rewrite Hr in Hx. injection Hx as <-. exists (f r). auto.
    + exists x. rewrite Hother by done. split; [done|apply link_refl].
Qed.

(** The update of one row found in a state of [q], by its effect on activity. *)
Lemma active_update id q f d :
  NoDup (map d_id (t_deliveries d)) -> keeps_id f ->
  guarded id q f (t_deliveries d) (update (fun r => with_id id r && q r) f (t_deliveries d)) ->
  forall a b : bool, (forall r, q r = true -> is_active r = a) -> (forall r, q r = true -> is_active (f r) = b) ->
  active (set_deliveries (update (fun r => with_id id r && q r) f (t_deliveries d)) d) =
    active d + (if b then 1 else 0) - (if a then 1 else 0).
Proof.
  intros Hnd Hk (r & Hr & Hq & _) a b Ha Hb. unfold active; simpl.
  assert (affected (fun r => with_id id r && q r) (t_deliveries d) = 1%nat) as Hone by (rewrite (affected_pinned id q), Hr, Hq; done).
  destruct a, b.
  - rewrite rows_update; [lia|]. intros x Hx. apply andb_true_iff in Hx as [_ Hx]. by rewrite (Ha x Hx), (Hb x Hx).
  - rewrite (rows_update_out (fun r => with_id id r && q r) is_active f (t_deliveries d)); [lia|].
    intros x Hx. apply andb_true_iff in Hx as [_ Hx]. auto.
  - rewrite (rows_update_in (fun r => with_id id r && q r) is_active f (t_deliveries d)); [lia|].
    intros x Hx. apply andb_true_iff in Hx as [_ Hx]. auto.
  - rewrite rows_update; [lia|]. intros x Hx. apply andb_true_iff in Hx as [_ Hx]. by rewrite (Ha x Hx), (Hb x Hx).
Qed.

Lemma claimed_active r : claimed r = true -> is_active r = true.
Proof. unfold claimed, is_active. rewrite !in_state_In, list_elem_of_singleton. intros ->. right. right. by left. Qed.

Lemma unclaimed_active r : unclaimed r = true -> is_active r = true.
Proof.
  unfold unclaimed, is_active. rewrite !in_state_In. intros Hr. apply elem_of_cons in Hr as [-> | Hr]; [by left|].
  apply list_elem_of_singleton in Hr as ->. right. by left.
Qed.

Lemma claimed_unclaimed r : claimed r = true -> unclaimed r = false.
Proof. unfold claimed, unclaimed, in_state. intros H'. apply bool_decide_eq_true, list_elem_of_singleton in H'. by rewrite H'. Qed.

(** An UPDATE of the row found unclaimed is the guarded one. *)
Lemma update_found id f d :
  NoDup (map d_id (t_deliveries d)) -> in_table d id unclaimed ->
  update (with_id id) f (t_deliveries d) = update (fun r => with_id id r && unclaimed r) f (t_deliveries d).
Proof.
  intros Hnd (r & Hr & Hu). unfold update. apply map_ext_in. intros x Hx. destruct (with_id id x) eqn:E; [|done].
  unfold with_id in E. apply String.eqb_eq in E. assert (find_row id (t_deliveries d) = Some x) as Hx' by by apply find_row_in.
  rewrite Hr in Hx'. injection Hx' as ->. by rewrite Hu.
Qed.

Lemma resolve_moves id st msg now (s : sched G) :
  verdict st = true -> NoDup (map d_id (t_deliveries (w_db (s_world s)))) -> in_table (w_db (s_world s)) id unclaimed ->
  exists n, moves id n (w_db (s_world s)) (w_db (s_world (resolve id st msg now s))) /\
    s_active (resolve id st msg now s) = s_active s + n /\
    s_inflight (resolve id st msg now s) = s_inflight s /\ s_running (resolve id st msg now s) = s_running s.
Proof.
  intros Ht Hnd Hin. unfold resolve, call. pose proof (ResolveDelivery_cases id st msg now (s_world s) Hnd) as Hc.
  destruct (ResolveDelivery id st msg now (s_world s)) as [[u|e] w]; simpl.
  - exists (-1). destruct Hc as [_ ->]. split_and!; [|lia|done|done]. rewrite update_found by done.
    assert (guarded id unclaimed (resolve_row st msg (fmt_time now)) (t_deliveries (w_db (s_world s)))
      (update (fun r => with_id id r && unclaimed r) (resolve_row st msg (fmt_time now)) (t_deliveries (w_db (s_world s))))) as Hg.
    { apply guarded_update; [done|done| |done]. destruct Hin as (r & Hr & Hu). rewrite (affected_pinned id unclaimed), Hr, Hu; [lia|done|done]. }
    eapply moves_guarded; [exact Hg| |intros r; by apply resolve_link].
    rewrite (active_update id unclaimed (resolve_row st msg (fmt_time now)) _ Hnd ltac:(done) Hg true false); [lia|apply unclaimed_active|].
    intros r _. by destruct st.
  - exists 0. destruct Hc as [-> _]. split_and!; [apply moves_refl|lia|done|done].
Qed.

Lemma claim_moves id v now (w w' : world G) :
  NoDup (map d_id (t_deliveries (w_db w))) -> ClaimDelivery id v now w = (Ok tt, w') ->
  moves id 0 (w_db w) (w_db w') /\ in_table (w_db w') id claimed /\ in_table (w_db w) id unclaimed.
Proof.
  intros Hnd He. pose proof (ClaimDelivery_cases id v now w Hnd) as Hc. rewrite He in Hc. destruct Hc as [Hg Hdb].
  pose proof Hg as (r & Hr & Hu & Hr' & _). split; [|split; [by exists (claim_row v (fmt_time now) r)|by exists r]].
  rewrite Hdb in Hg |- *. eapply moves_guarded; [exact Hg| |apply claim_link].
  rewrite (active_update id unclaimed (claim_row v (fmt_time now)) _ Hnd ltac:(done) Hg true true); [lia|apply unclaimed_active|done].
Qed.

Lemma complete_moves id tail outs now (w w' : world G) n :
  NoDup (map d_id (t_deliveries (w_db w))) -> CompleteDelivery id tail outs now w = (Ok n, w') ->
  moves id (n - 1) (w_db w) (w_db w').
Proof.
  intros Hnd He. pose proof (complete_cases id tail outs now w Hnd) as Hc. rewrite He in Hc.
  destruct Hc as (d1 & _ & -> & Hg & Ho). set (d1 := set_deliveries _ _) in *.
  assert (moves id (-1) (w_db w) d1) as (M1 & M2 & M3 & M4).
  { eapply moves_guarded; [exact Hg| |apply done_link]. rewrite (active_update id claimed (done_row tail (fmt_time now)) _ Hnd ltac:(done) Hg true false); [lia|apply claimed_active|done]. }
  destruct (appended_all_prefix _ _ _ _ Ho) as (_ & _ & news & Hd & _). split_and!.
  - intros _. unfold CompleteDelivery in He. apply write_ok in He. unfold complete_tx in He.
    apply tx_bind_ok in He as ([] & d2 & g2 & Ht & Hout). eapply append_outputs_NoDup; [exact Hout|].
    fold claimed in Ht. destruct (transition_cases "complete" id claimed (fun r => with_id id r && claimed r) (done_row tail (fmt_time now))
      (fun r => eq_refl) ltac:(done) (w_db w) (w_gen w) Hnd) as [[Ht' _]|(e & Ht' & _)]; rewrite Ht' in Ht; [|done].
    injection Ht as <- _. by apply M1.
  - rewrite (appended_all_active _ _ _ _ Ho), M2. lia.
  - intros j q Hj Hx. apply (in_table_app d1 _ _ _ news); [done|by apply M3].
  - intros j x Hx. destruct (M4 j x Hx) as (x' & Hx' & Hl). exists x'. split; [rewrite Hd; by apply find_row_app|done].
Qed.

Lemma fail_moves id isdead gate msg tail now (w w' : world G) u :
  NoDup (map d_id (t_deliveries (w_db w))) -> FailDelivery id isdead gate msg tail now w = (Ok u, w') ->
  moves id (if isdead then -1 else 0) (w_db w) (w_db w').
Proof.
  intros Hnd He. pose proof (FailDelivery_cases id isdead gate msg tail now w Hnd) as Hc. rewrite He in Hc. destruct Hc as [Hg Hdb]. rewrite Hdb in Hg |- *.
  eapply moves_guarded; [exact Hg| |apply failed_link].
  rewrite (active_update id claimed (failed_row isdead (fmt_time gate) msg tail (fmt_time now)) _ Hnd ltac:(by intros r; destruct isdead) Hg true (negb isdead)); [by destruct isdead; simpl; lia|apply claimed_active|].
  intros r _. by destruct isdead.
Qed.

Lemma replay_harmless id (w w' : world G) v :
  NoDup (map d_id (t_deliveries (w_db w))) -> ReplayDelivery id w = (Ok v, w') -> harmless 1 (w_db w) (w_db w').
Proof.
  intros Hnd He. unfold ReplayDelivery in He. fold dead in He. apply write_ok in He.
  apply tx_bind_ok in He as (n & d1 & g1 & Hu & He). unfold update_deliveries in Hu. injection Hu as <- <- <-.
  destruct (affected (fun r => with_id id r && dead r) (t_deliveries (w_db w))) eqn:Ea.
  - unfold tx_query, tx_of in He. destruct (head _) in He; done.
  - unfold tx_query, tx_of in He. destruct (getDelivery _ _); [|done]. injection He as _ <- _.
    assert (guarded id dead replay_row (t_deliveries (w_db w)) (update (fun r => with_id id r && dead r) replay_row (t_deliveries (w_db w)))) as Hg
      by (apply guarded_update; [done|done|lia|done]).
    split_and!.
    + destruct Hg as (r & _ & _ & _ & _ & Hids). simpl. by rewrite Hids.
    + rewrite (active_update id dead replay_row _ Hnd ltac:(done) Hg false true); [lia| |done].
      intros r Hr. unfold dead in Hr. apply in_state_In, list_elem_of_singleton in Hr. unfold is_active, in_state. by rewrite Hr.
    + intros j. eapply guarded_in_table; [exact Hg|]. intros r Hr Hc. unfold dead in Hr. apply in_state_In, list_elem_of_singleton in Hr.
      unfold claimed, in_state in Hc. by rewrite Hr in Hc.
    + intros j. by eapply guarded_in_table; [exact Hg|].
    + apply (evolves_update (fun r => with_id id r && dead r) replay_row _ _ []); [done|by rewrite app_nil_r|].
      intros r Hr. apply andb_true_iff in Hr as [_ Hr]. by apply replay_link.
Qed.

Lemma pgid_harmless id pgid (s : sched G) : harmless 0 (w_db (s_world s)) (w_db (s_world (onStart id pgid s))).
Proof.
  unfold onStart, call. destruct (SetDeliveryPgid id pgid (s_world s)) as [[u|e] w] eqn:E; simpl.
  - unfold SetDeliveryPgid in E. fold claimed in E. apply write_ok in E. apply tx_bind_ok in E as (n & d1 & g1 & Hu & He).
    unfold update_deliveries in Hu. injection Hu as _ <- <-. unfold tx_ret in He. injection He as _ <- _.
    assert (forall q j, (forall r, q (pgid_row pgid r) = q r) -> in_table (w_db (s_world s)) j q ->
      in_table (set_deliveries (update (fun r => with_id id r && claimed r) (pgid_row pgid) (t_deliveries (w_db (s_world s)))) (w_db (s_world s))) j q) as Hkeep.
    { intros q j Hq (r & Hr & Hqr). unfold in_table. simpl. rewrite (find_row_update id claimed), Hr by done. simpl. eexists; split; [done|].
      destruct (_ && _); [by rewrite Hq|done]. }
    split_and!; [|unfold active; simpl; rewrite rows_update by done; lia|intros j; by apply Hkeep|intros j; by apply Hkeep|].
    { simpl. by rewrite map_update. }
    apply (evolves_update (fun r => with_id id r && claimed r) (pgid_row pgid) _ _ []); [done|by rewrite app_nil_r|intros; apply pgid_link].
  - unfold SetDeliveryPgid in E. apply write_error in E. rewrite E. apply harmless_refl.
Qed.

(** The registry's writes leave the deliveries alone. *)
Lemma apply_action_keeps name definition now (w w' : world G) r :
  ApplyAction name definition now w = (r, w') ->
  t_deliveries (w_db w') = t_deliveries (w_db w) /\ t_messages (w_db w') = t_messages (w_db w).
Proof.
  unfold ApplyAction. intros Hr. destruct r as [x|e]; [|by apply write_error in Hr as ->].
  apply write_ok in Hr. apply tx_bind_ok in Hr as (o & d1 & g1 & Hq & Hr). unfold tx_query, tx_of in Hq.
  assert (d1 = w_db w) as -> by (match type of Hq with (match ?m with _ => _ end) = _ => destruct m; congruence end).
  assert (forall cur, applyInsert name definition now cur (w_db w) g1 = (Ok (x, w_db w'), w_gen w') ->
    t_deliveries (w_db w') = t_deliveries (w_db w) /\ t_messages (w_db w') = t_messages (w_db w)) as Hins.
  { intros cur Hi. unfold applyInsert in Hi. apply tx_bind_ok in Hi as (u & d2 & g2 & Hi & Hx). unfold insertAction in Hi.
    destruct (existsb _ _); [done|]. injection Hi as _ <- _. unfold tx_ret in Hx. injection Hx as _ <- _. done. }
  destruct o as [cur|]; [|by apply (Hins _ Hr)]. destruct (String.eqb _ _); [|by apply (Hins _ Hr)].
  unfold tx_ret in Hr. by injection Hr as _ <- _.
Qed.

Lemma set_enabled_keeps name on (w w' : world G) r :
  SetActionEnabled name on w = (r, w') ->
  t_deliveries (w_db w') = t_deliveries (w_db w) /\ t_messages (w_db w') = t_messages (w_db w).
Proof.
  unfold SetActionEnabled. intros Hr. destruct r as [x|e]; [|by apply write_error in Hr as ->].
  apply write_ok in Hr. apply tx_bind_ok in Hr as (o & d1 & g1 & Hq & Hr). injection Hq as <- <- <-.
  destruct (ac_version <$> latest name (t_actions (w_db w))) as [v|]; [|done].
  apply tx_bind_ok in Hr as (u & d2 & g2 & Hm & Hr). unfold tx_modify in Hm. injection Hm as _ <- _.
  unfold tx_query, tx_of in Hr. match type of Hr with (match ?m with _ => _ end) = _ => destruct m end; [|done]. by injection Hr as _ <- _.
Qed.

Lemma harmless_same d d' : t_deliveries d' = t_deliveries d -> harmless 0 d d'.
Proof. intros Hd. pose proof (evolves_same _ _ Hd). unfold harmless, in_table, active. rewrite Hd. split_and!; auto. lia. Qed.

(** ** The loop's rules *)

Lemma running_of_app name l j :
  running_of name (l ++ [j]) = running_of name l + (if String.eqb (ai_name (j_action j)) name then 1 else 0).
Proof. unfold running_of. rewrite affected_app. unfold affected at 2, rows; simpl. destruct (String.eqb _ _); simpl; lia. Qed.

Lemma running_of_delete name k l j : l !! k = Some j ->
  running_of name (delete k l) = running_of name l - (if String.eqb (ai_name (j_action j)) name then 1 else 0).
Proof.
  revert l; induction k as [|k IH]; intros [|x l]; simpl; intros Hj; [done| |done|].
  - injection Hj as ->. unfold running_of, affected, rows; simpl. destruct (String.eqb _ _); simpl; lia.
  - specialize (IH l Hj). unfold running_of, affected, rows in *; simpl. destruct (String.eqb (ai_name (j_action x)) name); simpl; lia.
Qed.

Lemma inflight_add name n (s : sched G) name' :
  inflight (add_inflight name n s) name' = inflight s name' + (if String.eqb name name' then n else 0).
Proof.
  unfold inflight, add_inflight; simpl. destruct (String.eqb_spec name name') as [->|Hne].
  - by rewrite lookup_insert_eq.
  - rewrite lookup_insert_ne by done. lia.
Qed.

(** Only the world of a faultless read changes. *)
Lemma sys_ok_world s f o w f' :
  sys_ok (mkSys s f o) -> w_db w = w_db (s_world s) ->
  (forall ai wk, f' = Some (ai, wk) -> in_table (w_db (s_world s)) (d_id (wk_delivery wk)) unclaimed) ->
  sys_ok (mkSys (with_world w s) f' o).
Proof.
  intros [I1 I2 I3 I4 I5 I6] Hd Hf. unfold y_db in *; simpl in *. split; unfold y_db; simpl; try rewrite Hd; auto.
Qed.

(** The loop moves the row of [id], no execution's but the one removed. *)
Lemma sys_ok_moves s o s' f id n jobs :
  sys_ok (mkSys s f o) -> moves id n (w_db (s_world s)) (w_db (s_world s')) ->
  s_active s' = s_active s + n -> s_running s' = jobs ->
  NoDup (map job_id jobs) -> (forall j, In j jobs -> In j (s_running s) /\ job_id j <> id) ->
  (forall name, inflight s' name = running_of name jobs) ->
  sys_ok (mkSys s' None o).
Proof.
  intros [I1 I2 I3 I4 I5 I6] (M1 & M2 & M3 & _) Ha Hr Hnd Hj Hin. unfold y_db in *; simpl in *.
  split; unfold y_db; simpl; try rewrite Hr; [auto|lia|done| |done|done].
  intros j Hjin. destruct (Hj j Hjin) as [Hjin' Hne]. apply M3; [done|by apply I4].
Qed.

(** An execution's row is claimed, hence not the one the loop has found. *)
Lemma running_not_found y j id :
  sys_ok y -> In j (s_running (y_sched y)) -> in_table (y_db y) id unclaimed -> job_id j <> id.
Proof.
  intros Hok Hj (r & Hr & Hu) <-. destruct (ok_claimed _ Hok _ Hj) as (r' & Hr' & Hc).
  rewrite Hr in Hr'. injection Hr' as <-. apply claimed_unclaimed in Hc. congruence.
Qed.

Lemma L_resolve_ok s o ai wk st msg now :
  verdict st = true -> sys_ok (mkSys s (Some (ai, wk)) o) ->
  sys_ok (mkSys (resolve (d_id (wk_delivery wk)) st msg now s) None o).
Proof.
  intros Ht Hok. pose proof (ok_found _ Hok ai wk eq_refl) as Hf.
  destruct (resolve_moves (d_id (wk_delivery wk)) st msg now s Ht (ok_ids _ Hok) Hf) as (n & Hm & Ha & Hi & Hr).
  apply (sys_ok_moves s o _ (Some (ai, wk)) _ n (s_running s) Hok Hm Ha Hr (ok_jobs _ Hok)).
  - intros j Hj. split; [done|]. by apply (running_not_found _ _ _ Hok Hj).
  - intros name. unfold inflight. rewrite Hi. apply (ok_inflight _ Hok).
Qed.

Lemma L_claim_ok s o ai wk v now w :
  ClaimDelivery (d_id (wk_delivery wk)) v now (s_world s) = (Ok tt, w) ->
  sys_ok (mkSys s (Some (ai, wk)) o) ->
  sys_ok (mkSys (launch ai (mkWork (counted (wk_delivery wk)) (wk_message wk)) (add_inflight (ai_name ai) 1 (with_world w s))) None o).
Proof.
  intros Hc Hok. pose proof Hok as [I1 I2 I3 I4 I5 I6]. unfold y_db in *; simpl in *.
  destruct (claim_moves _ _ _ _ _ I1 Hc) as ((M1 & M2 & M3 & _) & Hin & Hun).
  assert (forall j, In j (s_running s) -> job_id j <> d_id (wk_delivery wk)) as Hne
    by (intros j Hj; by apply (running_not_found (mkSys s (Some (ai, wk)) o) j _ Hok Hj)).
  split; unfold y_db; simpl.
  - auto.
  - lia.
  - rewrite map_app. apply NoDup_app. split_and!; [done| |by apply NoDup_singleton].
    intros x Hx Hx'. apply list_elem_of_singleton in Hx' as ->. apply list_elem_of_In, in_map_iff in Hx as (j & He & Hj).
    by apply (Hne j Hj).
  - intros j Hj. apply in_app_iff in Hj as [Hj|[<-|[]]]; [|done]. apply M3; auto.
  - intros name. change (inflight (add_inflight (ai_name ai) 1 (with_world w s)) name = running_of name (s_running s ++ [mkJob (mkWork (counted (wk_delivery wk)) (wk_message wk)) ai
      (match envelope (wk_message wk) with Ok _ => None | Err e => Some ("encode input: " +:+ err_msg e) end)])).
    rewrite inflight_add, running_of_app. simpl. f_equal. apply I5.
  - done.
Qed.

Lemma delete_others {A B} (key : A -> B) (l : list A) k x :
  NoDup (map key l) -> l !! k = Some x ->
  NoDup (map key (delete k l)) /\ forall y, In y (delete k l) -> In y l /\ key y <> key x.
Proof.
  revert l; induction k as [|k IH]; intros [|z l] Hnd Hx; try done; simpl in *; apply NoDup_cons in Hnd as [Hni Hnd].
  - injection Hx as ->. split; [done|]. intros y Hy. split; [by right|]. intros He. apply Hni. rewrite <- He. by apply list_elem_of_In, in_map.
  - destruct (IH l Hnd Hx) as [Hd Ho]. split.
    + apply NoDup_cons. split; [|done]. intros Hin. apply Hni. apply list_elem_of_In, in_map_iff in Hin as (y & <- & Hy).
      apply list_elem_of_In, in_map. by apply Ho.
    + intros y [<-|Hy]; [|destruct (Ho y Hy); auto]. split; [by left|]. intros He. apply Hni. rewrite He. apply list_elem_of_In, in_map.
      apply list_elem_of_In. by apply (list_elem_of_lookup_2 _ k).
Qed.
Lemma job_outputs_db j r now (w : world G) : w_db (snd (job_outputs j r now w)) = w_db w.
Proof.
  unfold job_outputs. destruct (j_failed j); [done|]. destruct (e_err _); [done|]. destruct (parseNDJSON _); [|done].
  destruct (String.eqb _ ""); [done|]. unfold buildOutputs. by destruct (build_outputs _ _ _ _ _ _).
Qed.

(** What apply does to the row of the job and to the counter. *)
Lemma apply_moves c k j r now rnd (s : sched G) :
  NoDup (map d_id (t_deliveries (w_db (s_world s)))) -> s_running s !! k = Some j ->
  exists n, moves (job_id j) n (w_db (s_world s)) (w_db (s_world (apply c k r now rnd s))) /\
    s_active (apply c k r now rnd s) = s_active s + n /\ s_running (apply c k r now rnd s) = delete k (s_running s) /\
    s_inflight (apply c k r now rnd s) = s_inflight (add_inflight (ai_name (j_action j)) (-1) (remove_job k s)).
Proof.
  intros Hnd Hj. unfold apply. rewrite Hj. set (s0 := add_inflight _ _ _).
  pose proof (job_outputs_db j (job_result j r) now (s_world s0)) as Hdb. change (w_db (s_world s0)) with (w_db (s_world s)) in Hdb.
  destruct (job_outputs j (job_result j r) now (s_world s0)) as [[outs|e] w]; simpl in Hdb; unfold call; cbn [s_world with_world].
  - destruct (CompleteDelivery _ _ outs now w) as [[n|e] w'] eqn:Ec.
    + exists (n - 1). split_and!; [|simpl; lia|done|done]. rewrite <- Hdb in Hnd |- *. by apply (complete_moves _ _ _ _ _ _ _ Hnd Ec).
    + exists 0. split_and!; [|simpl; lia|done|done]. simpl. unfold CompleteDelivery in Ec. apply write_error in Ec. rewrite Ec, Hdb. apply moves_refl.
  - destruct (FailDelivery _ _ _ _ _ _ w) as [[u|e'] w'] eqn:Ef.
    + exists (if ai_maxAttempts (j_action j) <=? d_attempt (wk_delivery (j_work j)) then -1 else 0).
      rewrite <- Hdb in Hnd |- *. pose proof (fail_moves _ _ _ _ _ _ _ _ _ Hnd Ef) as Hm.
      destruct (_ <=? _); (split_and!; [exact Hm|simpl; lia|done|done]).
    + exists 0. split_and!; [|simpl; lia|done|done]. simpl. unfold FailDelivery in Ef. apply write_error in Ef. rewrite Ef, Hdb. apply moves_refl.
Qed.

Lemma L_apply_ok c k r now rnd s o : sys_ok (mkSys s None o) -> sys_ok (mkSys (apply c k r now rnd s) None o).
Proof.
  intros Hok. destruct (s_running s !! k) as [j|] eqn:Hj; [|unfold apply; by rewrite Hj].
  destruct (apply_moves c k j r now rnd s (ok_ids _ Hok) Hj) as (n & Hm & Ha & Hr & Hi).
  destruct (delete_others job_id _ _ _ (ok_jobs _ Hok) Hj) as [Hnd Ho].
  apply (sys_ok_moves s o _ None _ n _ Hok Hm Ha Hr Hnd Ho). intros name. unfold inflight. rewrite Hi.
  change (inflight (add_inflight (ai_name (j_action j)) (-1) (remove_job k s)) name = running_of name (delete k (s_running s))).
  rewrite inflight_add, (running_of_delete _ _ _ _ Hj). pose proof (ok_inflight _ Hok name) as I. simpl in I.
  change (inflight (remove_job k s) name) with (inflight s name). rewrite I. destruct (String.eqb _ _); lia.
Qed.

(** Cancelling the waiting deliveries of an action. *)
Lemma cancel_moves name reason now (w w' : world G) n :
  CancelDeliveries name reason now w = (Ok n, w') ->
  (NoDup (map d_id (t_deliveries (w_db w))) -> NoDup (map d_id (t_deliveries (w_db w')))) /\
  active (w_db w') = active (w_db w) - n /\
  (forall id, in_table (w_db w) id claimed -> in_table (w_db w') id claimed) /\ evolves (w_db w) (w_db w').
Proof.
  intros Hc. unfold CancelDeliveries in Hc. fold unclaimed in Hc. apply write_ok in Hc.
  set (p := fun r => String.eqb (d_action_name r) name && unclaimed r) in Hc.
  change ((Ok (Z.of_nat (affected p (t_deliveries (w_db w))), set_deliveries (update p (cancel_row reason (fmt_time now)) (t_deliveries (w_db w))) (w_db w)), w_gen w)
    = (Ok (n, w_db w'), w_gen w')) in Hc.
  injection Hc as <- <- _. split_and!.
  - simpl. by rewrite map_update.
  - unfold active; simpl. rewrite (rows_update_out p is_active (cancel_row reason (fmt_time now)) (t_deliveries (w_db w))); [lia|].
    intros r Hr. apply andb_true_iff in Hr as [_ Hr]. split; [by apply unclaimed_active|done].
  - intros id (r & Hr & Hc). exists r. split; [|done]. simpl. rewrite (find_row_map p (cancel_row reason (fmt_time now)) _ _ ltac:(done)), Hr. simpl.
    unfold p. by rewrite (claimed_unclaimed _ Hc), andb_false_r.
  - apply (evolves_update p (cancel_row reason (fmt_time now)) _ _ []); [done|by rewrite app_nil_r|].
    intros r Hr. apply andb_true_iff in Hr as [_ Hr]. by apply cancel_link.
Qed.

Lemma L_ctrl_ok name now s o : sys_ok (mkSys s None o) -> sys_ok (mkSys (snd (handleCtrl name now s)) None o).
Proof.
  intros Hok. unfold handleCtrl, call. destruct (CancelDeliveries name "action disabled" now (s_world s)) as [[n|e] w] eqn:Ec; simpl.
  - destruct (cancel_moves _ _ _ _ _ _ Ec) as (M1 & M2 & M3 & _). destruct Hok as [I1 I2 I3 I4 I5 I6]. unfold y_db in *; simpl in *.
    split; unfold y_db; simpl; auto; [lia|done].
  - unfold CancelDeliveries in Ec. apply write_error in Ec. by apply (sys_ok_world s None o).
Qed.

Lemma loop_step_ok c y y' : sys_ok y -> loop_step c y y' -> sys_ok y'.
Proof.
  intros Hok Hs. destruct Hs as [s o ai now wk w He|s o w Hd _|s f o cache|s o ai wk st msg now Ht|s o ai wk now w Hc _
    |s o ai wk now e w Hc|s o k r now rnd|s o name now].
  - destruct (NextEligible_row _ _ _ _ _ (ok_ids _ Hok) He) as (Hd & r & Hr & Hu & _).
    apply (sys_ok_world s None o); [done|done|]. intros ai' wk' [= <- <-]. by exists r.
  - by apply (sys_ok_world s None o).
  - destruct Hok. by split.
  - by apply (L_resolve_ok s o ai).
  - by apply (L_claim_ok s o ai wk (ai_version ai) now w).
  - apply (sys_ok_world s (Some (ai, wk)) o); [done| |done]. unfold ClaimDelivery in Hc. by apply write_error in Hc.
  - by apply L_apply_ok.
  - by apply L_ctrl_ok.
Qed.

Lemma sys_ok_commit s f o w n o' :
  sys_ok (mkSys s f o) -> harmless n (w_db (s_world s)) (w_db w) -> o' = o + n -> sys_ok (mkSys (with_world w s) f o').
Proof.
  intros Hok Hh ->. pose proof (sys_ok_harmless s f o w n 0 Hok Hh) as H'. rewrite Z.sub_0_r in H'.
  destruct H' as [I1 I2 I3 I4 I5 I6]. split; try done. unfold y_db in *; simpl in *. lia.
Qed.

Lemma other_step_ok y y' : sys_ok y -> other_step y y' -> sys_ok y'.
Proof.
  intros Hok Hs. destruct Hs as [s f o m n w Ha|s f o id d w Hr|s f o n|s f o name def now r w Ha|s f o name on r w Ha|s f o w Hd|A s f o m e w Ha|s f o id pgid].
  - by apply (sys_ok_commit s f o w n); [done|apply (append_harmless m)|].
  - by apply (sys_ok_commit s f o w 1); [done|apply (replay_harmless id _ _ d (ok_ids _ Hok))|].
  - destruct Hok as [I1 I2 I3 I4 I5 I6]. split; try done. unfold y_db in *; simpl in *. lia.
  - apply (sys_ok_commit s f o w 0); [done| |lia]. by apply harmless_same, (proj1 (apply_action_keeps name def now _ _ r Ha)).
  - apply (sys_ok_commit s f o w 0); [done| |lia]. by apply harmless_same, (proj1 (set_enabled_keeps name on _ _ r Ha)).
  - apply (sys_ok_commit s f o w 0); [done| |lia]. rewrite Hd. apply harmless_refl.
  - apply (sys_ok_commit s f o w 0); [done| |lia]. apply write_error in Ha. rewrite Ha. apply harmless_refl.
  - unfold onStart, call. pose proof (pgid_harmless id pgid s) as Hh. unfold onStart, call in Hh.
    destruct (SetDeliveryPgid id pgid (s_world s)) as [u w]. simpl in *. by apply (sys_ok_commit s f o w 0); [done|done|lia].
Qed.

Lemma steps_ok c y y' : sys_ok y -> steps c y y' -> sys_ok y'.
Proof.
  intros Hok Hs. induction Hs as [|y1 y2 y3 [Hl|Ho] _ IH]; [done|apply IH; by apply (loop_step_ok c y1)|apply IH; by apply (other_step_ok y1)].
Qed.

(** The state Run starts from: the counter is the number of active rows. *)
Lemma start_ok w s : NoDup (map d_id (t_deliveries (w_db w))) -> seed w = Ok s -> sys_ok (mkSys s None 0) /\ w_db (s_world s) = w_db w.
Proof.
  intros Hnd Hs. unfold seed in Hs. destruct (CountActiveDeliveries w) as [[n|e] w'] eqn:Ec; [|done]. injection Hs as <-.
  destruct (read_db _ _ _ _ _ Ec) as [Hd _]. apply read_ok in Ec. injection Ec as <-. split; [|done].
  split; unfold y_db; simpl; rewrite ?Hd; try done; [unfold active; lia|constructor].
Qed.

Lemma steps_trans c y1 y2 y3 : steps c y1 y2 -> steps c y2 y3 -> steps c y1 y3.
Proof. induction 1 as [|a b d Hs _ IH]; [done|]. intros H'. econstructor; [exact Hs|auto]. Qed.

Lemma steps_loop c y1 y2 y3 : loop_step c y1 y2 -> steps c y2 y3 -> steps c y1 y3.
Proof. intros Hs. apply steps_cons. by left. Qed.

(** ** The loop's functions are paths *)

Lemma vet_steps c ai wk now s o b s' :
  vet c ai wk now s = (b, s') ->
  if b then exists cache, s' = with_cache cache s
  else steps c (mkSys s (Some (ai, wk)) o) (mkSys s' None o).
Proof.
  intros Hv. destruct (vet_cases c ai wk now s) as [(cache & Hv')|(cache & st & msg & Ht & Hv')]; rewrite Hv in Hv'; injection Hv' as -> ->; [eauto|].
  eapply steps_loop; [apply (L_cache c s _ o cache)|]. eapply steps_loop; [by apply L_resolve|]. constructor.
Qed.

Lemma dispatch_action_steps fuel c ai now s s' o :
  dispatch_action fuel c ai now s = Some s' -> steps c (mkSys s None o) (mkSys s' None o).
Proof.
  revert s; induction fuel as [|fuel IH]; intros s; [done|]. cbn [dispatch_action].
  destruct (Z.ltb_spec (inflight s (ai_name ai)) (ai_concurrency ai)) as [Hlt|]; [|intros [= <-]; constructor]. unfold call at 1.
  destruct (NextEligible (ai_name ai) now (s_world s)) as [[wk|e] w] eqn:En.
  2:{ intros [= <-]. destruct (read_db _ _ _ _ _ En). eapply steps_loop; [by apply L_read|constructor]. }
  intros Hd. eapply steps_loop; [by apply (L_select c s o ai now wk w)|].
  destruct (vet c ai wk now (with_world w s)) as [[] s1] eqn:Ev; pose proof (vet_steps _ _ _ _ _ o _ _ Ev) as Hv; cbv iota in Hv.
  - destruct Hv as [cache ->]. eapply steps_loop; [apply (L_cache c _ _ o cache)|]. unfold call in Hd.
    destruct (ClaimDelivery (d_id (wk_delivery wk)) (ai_version ai) now (s_world (with_cache cache (with_world w s)))) as [[[]|e] w2] eqn:Ec.
    + eapply steps_loop; [by apply (L_claim c _ o ai wk now w2)|]. by apply IH.
    + injection Hd as <-. eapply steps_loop; [by apply (L_claim_fails c _ o ai wk now e)|constructor].
  - eapply steps_trans; [exact Hv|]. by apply IH.
Qed.

Lemma cancelSuperseded_steps fuel c ai now s s' o :
  cancelSuperseded fuel ai now s = Some s' -> steps c (mkSys s None o) (mkSys s' None o).
Proof.
  revert s; induction fuel as [|fuel IH]; intros s; [done|]. cbn [cancelSuperseded]. unfold call at 1.
  destruct (NextEligible (ai_name ai) now (s_world s)) as [[wk|e] w] eqn:En.
  2:{ intros [= <-]. destruct (read_db _ _ _ _ _ En). eapply steps_loop; [by apply L_read|constructor]. }
  intros Hd. eapply steps_loop; [by apply (L_select c s o ai now wk w)|].
  eapply steps_loop; [by apply (L_resolve c _ o ai wk StateCancelled (superseded (ai_version ai)) now)|].
  unfold resolve. destruct (call _ _) as [[u|e] s1]; [by apply IH|]. injection Hd as <-. constructor.
Qed.

Lemma dispatch_all_steps fuel c l now s s' o :
  dispatch_all fuel c l now s = Some s' -> steps c (mkSys s None o) (mkSys s' None o).
Proof.
  revert s; induction l as [|ai l IH]; intros s; cbn [dispatch_all]; [intros [= <-]; constructor|].
  intros Hd. apply bind_Some in Hd as (s1 & H1 & H2). eapply steps_trans; [|by apply IH].
  destruct (IsJoin (ai_def ai)); [by eapply cancelSuperseded_steps|by eapply dispatch_action_steps].
Qed.

(** ** Evolution of the table *)

Lemma loop_step_evolves c y y' : sys_ok y -> loop_step c y y' -> evolves (y_db y) (y_db y').
Proof.
  intros Hok Hs. pose proof (ok_ids _ Hok) as Hnd. destruct Hs as [s o ai now wk w He|s o w Hd _|s f o cache|s o ai wk st msg now Ht|s o ai wk now w Hc _
    |s o ai wk now e w Hc|s o k r now rnd|s o name now]; unfold y_db in *; simpl in *.
  - destruct (NextEligible_row _ _ _ _ _ Hnd He) as (Hd & _). apply evolves_same. by rewrite Hd.
  - apply evolves_same. by rewrite Hd.
  - by apply evolves_same.
  - destruct (resolve_moves (d_id (wk_delivery wk)) st msg now s Ht Hnd (ok_found _ Hok ai wk eq_refl)) as (n & (_ & _ & _ & He) & _). exact He.
  - destruct (claim_moves _ _ _ _ _ Hnd Hc) as ((_ & _ & _ & He) & _). exact He.
  - unfold ClaimDelivery in Hc. apply write_error in Hc. apply evolves_same. by rewrite Hc.
  - destruct (s_running s !! k) as [j|] eqn:Hj; [|unfold apply; rewrite Hj; by apply evolves_same].
    destruct (apply_moves c k j r now rnd s Hnd Hj) as (n & (_ & _ & _ & He) & _). exact He.
  - unfold handleCtrl, call. destruct (CancelDeliveries name "action disabled" now (s_world s)) as [[n|e] w] eqn:Ec; simpl.
    + by apply (cancel_moves _ _ _ _ _ _ Ec).
    + unfold CancelDeliveries in Ec. apply write_error in Ec. apply evolves_same. by rewrite Ec.
Qed.

Lemma other_step_evolves y y' : sys_ok y -> other_step y y' -> evolves (y_db y) (y_db y').
Proof.
  intros Hok Hs. pose proof (ok_ids _ Hok) as Hnd.
  destruct Hs as [s f o m n w Ha|s f o id d w Hr|s f o n|s f o name def now r w Ha|s f o name on r w Ha|s f o w Hd|A s f o m e w Ha|s f o id pgid]; unfold y_db in *; simpl in *.
  - by apply (append_harmless m _ n).
  - by apply (replay_harmless id _ _ d Hnd).
  - by apply evolves_same.
  - by apply evolves_same, (proj1 (apply_action_keeps name def now _ _ r Ha)).
  - by apply evolves_same, (proj1 (set_enabled_keeps name on _ _ r Ha)).
  - apply evolves_same. by rewrite Hd.
  - apply write_error in Ha. apply evolves_same. by rewrite Ha.
  - apply pgid_harmless.
Qed.

(** How the set of executions changes. *)
Lemma apply_running c k r now rnd (s : sched G) : s_running (apply c k r now rnd s) = delete k (s_running s) \/
  apply c k r now rnd s = s.
Proof.
  unfold apply. destruct (s_running s !! k) as [j|] eqn:Hj; [left|by right].
  destruct (job_outputs _ _ _ _) as [[outs|e] w]; unfold call; cbn [s_world with_world].
  - by destruct (CompleteDelivery _ _ _ _ w) as [[n|e] w'].
  - destruct (FailDelivery _ _ _ _ _ _ w) as [[u|e'] w']; [|done]. by destruct (_ <=? _).
Qed.

Lemma delete_none {A} k (l : list A) : l !! k = None -> delete k l = l.
Proof. revert l; induction k as [|k IH]; intros [|x l] Hk; try done. cbn. f_equal. by apply IH. Qed.

Lemma running_of_delete_le name k l : running_of name (delete k l) <= running_of name l.
Proof.
  destruct (l !! k) as [j|] eqn:Hj; [rewrite (running_of_delete _ _ _ _ Hj); destruct (String.eqb _ _); lia|].
  by rewrite (delete_none k l Hj).
Qed.

(** C1. Whatever the interleaving of the loop with the request handlers and
    the workers: the busy counter plus the work not yet announced is the number
    of pending, retry-waiting and claimed deliveries, so that with nothing left
    to announce the daemon is idle exactly when none remains; no delivery is
    executed twice at the same time; every delivery in execution is claimed; and
    inflight counts the executions of each action. *)
Theorem sys_invariant c (w : world G) s y :
  NoDup (map d_id (t_deliveries (w_db w))) -> seed w = Ok s -> steps c (mkSys s None 0) y ->
  s_active (y_sched y) + y_owed y = active (y_db y) /\
  (y_owed y = 0 -> Busy (y_sched y) = false <-> forall r, In r (t_deliveries (y_db y)) -> is_active r = false) /\
  NoDup (map job_id (s_running (y_sched y))) /\
  (forall j, In j (s_running (y_sched y)) -> in_table (y_db y) (job_id j) claimed) /\
  (forall name, inflight (y_sched y) name = running_of name (s_running (y_sched y))).
Proof.
  intros Hnd Hs Hp. destruct (start_ok w s Hnd Hs) as [Hok _]. destruct (steps_ok c _ _ Hok Hp) as [I1 I2 I3 I4 I5 I6].
  split_and!; try done. intros Ho. unfold Busy. rewrite Z.ltb_ge. unfold active in I2. split.
  - intros Ha r Hr. apply not_true_iff_false. intros Hact.
    assert (0 < affected is_active (t_deliveries (y_db y)))%nat by (apply affected_pos; by exists r). lia.
  - intros Hall. destruct (decide (affected is_active (t_deliveries (y_db y)) = 0%nat)) as [Hz|Hz]; [lia|]. exfalso.
    destruct (proj1 (affected_pos is_active (t_deliveries (y_db y))) ltac:(lia)) as (r & Hr & Hact). rewrite Hall in Hact; done.
Qed.

(** C2. Every delivery, once there, stays there with its message and action,
    and moves only along its life cycle: pending or failed to claimed (one more
    attempt), filtered, dead or cancelled; claimed to done, failed or dead; dead
    back to pending by a replay, with no attempts; done, filtered and cancelled
    are final. *)
Theorem life_cycle c (w : world G) s y y' id r :
  NoDup (map d_id (t_deliveries (w_db w))) -> seed w = Ok s -> steps c (mkSys s None 0) y -> step c y y' ->
  find_row id (t_deliveries (y_db y)) = Some r ->
  exists r', find_row id (t_deliveries (y_db y')) = Some r' /\ d_message_id r' = d_message_id r /\
    d_action_name r' = d_action_name r /\ edge r r' = true.
Proof.
  intros Hnd Hs Hp Hst. destruct (start_ok w s Hnd Hs) as [Hok _]. pose proof (steps_ok c _ _ Hok Hp) as Hoky.
  destruct Hst as [Hl|Ho]; [by apply (loop_step_evolves c)|by apply other_step_evolves].
Qed.

(** C12. A step starts at most one execution, of the delivery the loop selected
    and of the action as it was loaded; it does so below the action's
    concurrency limit, which the executions of that action then do not exceed,
    with the row claimed at that version and one more attempt counted, and the
    same count in the job.  Any other step only ends executions. *)
Theorem step_launches c (w : world G) s y y' :
  NoDup (map d_id (t_deliveries (w_db w))) -> seed w = Ok s -> steps c (mkSys s None 0) y -> step c y y' ->
  (forall name, running_of name (s_running (y_sched y')) <= running_of name (s_running (y_sched y))) \/
  exists j wk r, y_found y = Some (j_action j, wk) /\ s_running (y_sched y') = s_running (y_sched y) ++ [j] /\
    running_of (ai_name (j_action j)) (s_running (y_sched y')) <= ai_concurrency (j_action j) /\
    find_row (d_id (wk_delivery wk)) (t_deliveries (y_db y)) = Some r /\ unclaimed r = true /\ job_id j = d_id (wk_delivery wk) /\
    exists r', find_row (job_id j) (t_deliveries (y_db y')) = Some r' /\ claimed r' = true /\
      d_action_version r' = Some (ai_version (j_action j)) /\ d_attempt r' = d_attempt r + 1 /\
      d_attempt (wk_delivery (j_work j)) = d_attempt (wk_delivery wk) + 1.
Proof.
  intros Hnd Hs Hp Hst. destruct (start_ok w s Hnd Hs) as [Hok _]. pose proof (steps_ok c _ _ Hok Hp) as Hoky.
  clear Hnd Hs Hp Hok w s. destruct Hst as [Hl|Ho]; [|left; destruct Ho; try reflexivity; intros name; unfold onStart, call; by destruct (SetDeliveryPgid _ _ _)].
  pose proof (ok_ids _ Hoky) as Hnd. destruct Hl as [| | |s o ai wk st msg now Ht|s o ai wk now w Hc Hlt| |s o k r now rnd|s o name now]; try (left; reflexivity).
  - left. intros name. simpl. unfold resolve, call. by destruct (ResolveDelivery _ _ _ _ _) as [[u|e] w].
  - right. unfold y_db in *; simpl in *. set (jb := mkJob _ _ _). pose proof (ClaimDelivery_cases (d_id (wk_delivery wk)) (ai_version ai) now (s_world s) Hnd) as Hcc.
    rewrite Hc in Hcc. destruct Hcc as [(r & Hr & Hu & Hr' & _) _]. exists jb, wk, r. split_and!; try done.
    + rewrite running_of_app. simpl. rewrite String.eqb_refl. pose proof (ok_inflight _ Hoky (ai_name ai)) as Hi. simpl in Hi. lia.
    + exists (claim_row (ai_version ai) (fmt_time now) r). done.
  - left. intros name. simpl. destruct (apply_running c k r now rnd s) as [-> | ->]; [apply running_of_delete_le|lia].
  - left. intros n. simpl. unfold handleCtrl, call. by destruct (CancelDeliveries _ _ _ _) as [[?|?] ?].
Qed.

(** A dispatch of the loop, alone, is a path of loop steps: what holds of
    every interleaving holds of it, and the counter it leaves is exact. *)
Theorem dispatch_refines fuel c now s s' o :
  dispatch fuel c now s = Some s' -> steps c (mkSys s None o) (mkSys s' None o).
Proof.
  unfold dispatch, call, loadActions. destruct (ListActions (s_world s)) as [[rows|e] w] eqn:El; destruct (read_db _ _ _ _ _ El) as [Hd Hg].
  - intros Hs. eapply steps_loop; [by apply (L_read c s o w)|]. by apply (dispatch_all_steps _ _ _ _ _ _ o) in Hs.
  - intros [= <-]. eapply steps_loop; [by apply (L_read c s o w)|]. constructor.
Qed.
End System.
Arguments sys G {_}.

(** ** Witnesses: the demo database, from its seed to a launch *)

Definition demo_seed : @sched id_stream toy_cel :=
  mkSched (H0 := toy_cel) demo_dw (active demo_db) ∅ (NewCache (H := toy_cel)) [].

Lemma demo_seeded : seed (H0 := toy_cel) demo_dw = Ok demo_seed.
Proof. reflexivity. Qed.

(** The delivery of "b" whose retry is due, selected and then claimed for an
    action with room for two executions. *)
Definition demo_ai_b : actionInfo := mkActionInfo "b" 1 sample_action (mkSubprocess ["./run.sh"] None) 2 3 Minute.

Definition demo_selected : Work :=
  match fst (NextEligible "b" (10 * Second) demo_dw) with Ok wk => wk | Err _ => demo_work end.

Definition demo_claimed : world id_stream := snd (ClaimDelivery (d_id (wk_delivery demo_selected)) 1 (10 * Second) demo_dw).

Definition demo_launched : sys (H0 := toy_cel) id_stream :=
  mkSys (launch demo_ai_b (mkWork (counted (wk_delivery demo_selected)) (wk_message demo_selected))
    (add_inflight "b" 1 (with_world demo_claimed demo_seed))) None 0.

Lemma demo_select : steps (H0 := toy_cel) default_config (mkSys demo_seed None 0) (mkSys demo_seed (Some (demo_ai_b, demo_selected)) 0).
Proof. eapply steps_loop; [|constructor]. by apply (L_select default_config demo_seed 0 demo_ai_b (10 * Second) demo_selected demo_dw). Qed.

Lemma demo_launch : step (H0 := toy_cel) default_config (mkSys demo_seed (Some (demo_ai_b, demo_selected)) 0) demo_launched.
Proof. left. by apply (L_claim default_config demo_seed 0 demo_ai_b demo_selected (10 * Second) demo_claimed). Qed.

Lemma demo_nodup : NoDup (map d_id (t_deliveries (w_db demo_dw))).
Proof. decide_now. Qed.

Lemma sys_invariant_witness :
  s_active (y_sched demo_launched) = 3 /\ job_id <$> s_running (y_sched demo_launched) = ["d2"] /\
  (forall j, In j (s_running (y_sched demo_launched)) -> in_table (y_db demo_launched) (job_id j) claimed).
Proof.
  destruct (sys_invariant (H0 := toy_cel) default_config demo_dw demo_seed demo_launched demo_nodup demo_seeded) as (Ha & _ & _ & Hc & _).
  - eapply steps_trans; [exact demo_select|]. eapply steps_cons; [exact demo_launch|constructor].
  - split; [|split; [vm_compute; reflexivity|exact Hc]]. simpl in Ha. vm_compute. reflexivity.
Defined.

Lemma life_cycle_witness :
  exists r', find_row "d2" (t_deliveries (y_db demo_launched)) = Some r' /\ d_state r' = StateClaimed /\ d_attempt r' = 3.
Proof.
  destruct (life_cycle (H0 := toy_cel) default_config demo_dw demo_seed (mkSys demo_seed (Some (demo_ai_b, demo_selected)) 0) demo_launched "d2"
    (mkDelivery "d2" (Some "m1") "b" (Some 1) StateFailed 2 (Some (fmt_time (3 * Second))) None None (Some "exit status 1") (Some (fmt_time 0)) (Some (fmt_time 0)))
    demo_nodup demo_seeded demo_select demo_launch eq_refl) as (r' & Hr & _).
  exists r'. split; [exact Hr|]. vm_compute in Hr. injection Hr as <-. done.
Defined.

Lemma step_launches_witness :
  exists j, s_running (y_sched demo_launched) = [j] /\ running_of "b" [j] <= 2.
Proof.
  destruct (step_launches (H0 := toy_cel) default_config demo_dw demo_seed (mkSys demo_seed (Some (demo_ai_b, demo_selected)) 0) demo_launched
    demo_nodup demo_seeded demo_select demo_launch) as [Hle|(j & wk & r & Hf & Hr & Hc & _)].
  - specialize (Hle "b"). vm_compute in Hle. by destruct Hle.
  - exists j. assert (demo_ai_b = j_action j) as Ha by (revert Hf; cbn [y_found]; generalize demo_selected; clear; by intros sel [= -> _]).
    split; [exact Hr|]. rewrite Hr, <- Ha in Hc. exact Hc.
Defined.

(** The demo CEL refuses the filter of "sum": its delivery is dead-lettered, and
    the counter follows. *)
Lemma dispatch_refines_witness :
  exists s', dispatch 4 default_config (10 * Second) demo_seed = Some s' /\
    steps (H0 := toy_cel) default_config (mkSys demo_seed None 0) (mkSys s' None 0) /\ s_active s' = 2.
Proof.
  assert (fmap s_active (dispatch 4 default_config (10 * Second) demo_seed) = Some 2) as Hj by (vm_compute; reflexivity).
  destruct (dispatch 4 default_config (10 * Second) demo_seed) as [s'|] eqn:E; [|done].
  exists s'. split; [done|]. split; [by apply (dispatch_refines 4 default_config (10 * Second) demo_seed s' 0)|by injection Hj].
Defined.
