(* ===== verification/Api.v ===== *)
(** The request handlers: internal/api (server.go, actions.go, deliveries.go,
    errors.go, types.go).

    A handler is a function of its decoded request over the scheduler's state,
    as the daemon wires it (a store and a scheduler are present).  [handle] is
    the route: it reads and decodes the body and maps errors to status codes;
    [respond] is the answer's status and bytes.  What net/http does to transport
    them is not modelled. *)
From S2P Require Import Prelude GoTime Float64 Json JsonText RawText Action DurationText Cel Validate Canon Ids Db Registry Deliveries Messages Wire Executor Scheduler System.

(** ** Errors *)

(** invalidf of errors.go: wraps ErrInvalid. *)
Definition api_invalidf (msg : string) : err := mkErr ErrInvalid (msg +:+ ": invalid request").

Definition errorStatus (e : err) : Z * string :=
  match err_is e with
  | ErrNotFound => (404, "not_found")
  | ErrInvalidAction => (400, "invalid_action")
  | ErrNotDead => (409, "not_dead")
  | ErrInvalid => (400, "invalid_request")
  | ErrOther => (500, "internal")
  end.

(** What a route answers: 200 and a value, or the error envelope. *)
Inductive response (A : Type) :=
| Replied (a : A)
| Failed (status : Z) (code msg : string).
Arguments Replied {A} _.
Arguments Failed {A} _ _ _.

(** ** Answers *)

Definition toAPIDelivery (d : delivery) : api_delivery :=
  mkApiDelivery (d_id d) (d_message_id d) (d_action_name d) (d_action_version d) (state_text (d_state d)) (d_attempt d)
    (d_not_before d) (d_stderr_tail d) (d_error d) (d_claimed_at d) (d_completed_at d).

Definition toAPIMessage (m : message) : message :=
  mkMessage (msg_id m) (msg_queue m) (msg_payload m) (msg_headers m) (msg_trace_id m)
    (msg_origin_action m) (msg_origin_version m) (msg_origin_message m) (msg_created_at m).

Definition toAPIAction (a : action) : action :=
  mkAct (ac_name a) (ac_version a) (ac_definition a) (ac_enabled a) (ac_created_at a).

(** One row of action.list: what a definition that does not decode says is blank. *)
Definition summary (a : action) : ActionSummary :=
  match unmarshal_Action (ac_definition a) with
  | Ok def => mkSummary (ac_name a) (ac_version a) (ac_enabled a) (act_actor def) (Queues def) (act_output def) (ac_created_at a)
  | Err _ => mkSummary (ac_name a) (ac_version a) (ac_enabled a) "" [] "" (ac_created_at a)
  end.

(** The value a route answers with. *)
Inductive reply :=
| ASent (r : SendMessageResponse)
| AMessages (l : list message)
| AMessage (m : message)
| AQueues (l : list QueueInfo)
| AApplied (r : ApplyActionResponse)
| AActions (l : list ActionSummary)
| AAction (a : action)
| AEnabled (r : SetActionEnabledResponse)
| ADeliveries (l : list api_delivery)
| ADelivery (d : api_delivery).

(** ** Handlers *)

(** What CancelAction meets: served by the loop, or its request context done
    before the loop took the request, or after it but before the reply. *)
Inductive cancel_fate := Served | GoneBefore | GoneAfter.
Definition context_done : err := errorf "context canceled".

(** [string(raw) == "null"] or no bytes. *)
Definition absent (raw : string) : bool := String.eqb raw "" || String.eqb raw "null".

(** The stamped headers: a copy of the map with [hops] set to 0, marshalled. *)
Definition stamp (headers : list (string * json)) : string := print (JObj (obj_put "hops" (JNum "0") headers)).

Section Api.
Context {G : Type} `{IdSource G} `{CelLib}.

Definition handler (A : Type) : Type := sched G -> result A * sched G.

(** store.NewID from a handler. *)
Definition NewID_of (s : sched G) : string * sched G :=
  let w := s_world s in
  let '(id, g) := new_id (w_gen w) in (id, with_world (mkWorld (w_db w) g (w_faults w)) s).

Definition messageSend (req : SendMessageRequest) (now : time) : handler SendMessageResponse := fun s =>
  if String.eqb (sm_queue req) "" then (Err (api_invalidf "queue is required"), s)
  else if absent (sm_payload req) then (Err (api_invalidf "payload is required"), s)
  else if negb (valid (sm_payload req)) then (Err (api_invalidf "payload must be valid JSON"), s)
  else
    let '(id, s) := NewID_of s in
    let '(trace, s) := NewID_of s in
    let m := mkMessage id (sm_queue req) (sm_payload req) (stamp (sm_headers req)) trace None None None now in
    match call (AppendMessage m) s with
    | (Err e, s) => (Err e, s)
    | (Ok created, s) => (Ok (mkSent (msg_id m) (msg_trace_id m) (msg_created_at m)), if 0 <? created then WorkAdded created s else s)
    end.

Definition messageList (req : ListMessagesRequest) : handler (list message) := fun s =>
  if lm_limit req <? 0 then (Err (api_invalidf "limit must be >= 0"), s)
  else
    match call (ListMessages (mkListOptions (lm_queue req) (lm_trace_id req) (lm_limit req) (lm_before_id req))) s with
    | (Err e, s) => (Err e, s)
    | (Ok l, s) => (Ok (map toAPIMessage l), s)
    end.

Definition messageShow (req : IDRequest) : handler message := fun s =>
  if String.eqb (rq_id req) "" then (Err (api_invalidf "id is required"), s)
  else
    match call (GetMessage (rq_id req)) s with
    | (Err e, s) => (Err e, s)
    | (Ok m, s) => (Ok (toAPIMessage m), s)
    end.

Definition queueList : handler (list QueueInfo) := fun s => call ListQueues s.

Definition actionApply (req : ApplyActionRequest) (now : time) : handler ApplyActionResponse := fun s =>
  if absent (aa_definition req) then (Err (api_invalidf "definition is required"), s)
  else
    match ParseJSON (aa_definition req) with
    | Err e => (Err e, s)
    | Ok def =>
        match Canonical def with
        | Err e => (Err e, s)
        | Ok canonical =>
            match call (ApplyAction (act_name def) canonical now) s with
            | (Err e, s) => (Err e, s)
            | (Ok (a, changed), s) => (Ok (mkApplied (ac_name a) (ac_version a) changed (ac_enabled a)), s)
            end
        end
    end.

Definition actionList : handler (list ActionSummary) := fun s =>
  match call ListActions s with
  | (Err e, s) => (Err e, s)
  | (Ok l, s) => (Ok (map summary l), s)
  end.

Definition actionShow (req : ShowActionRequest) : handler action := fun s =>
  if String.eqb (sa_name req) "" then (Err (api_invalidf "name is required"), s)
  else if sa_version req <? 0 then (Err (api_invalidf "version must be >= 0 (0 means the current version)"), s)
  else
    match call (GetAction (sa_name req) (sa_version req)) s with
    | (Err e, s) => (Err e, s)
    | (Ok a, s) => (Ok (toAPIAction a), s)
    end.

(** scheduler.CancelAction, from the request's goroutine. *)
Definition CancelAction (name : string) (fate : cancel_fate) (now : time) : handler Z := fun s =>
  match fate with
  | Served => handleCtrl name now s
  | GoneBefore => (Err context_done, s)
  | GoneAfter => (Err context_done, snd (handleCtrl name now s))
  end.

Definition setActionEnabled (req : NameRequest) (enabled : bool) (fate : cancel_fate) (now : time) : handler SetActionEnabledResponse := fun s =>
  if String.eqb (rq_name req) "" then (Err (api_invalidf "name is required"), s)
  else
    match call (SetActionEnabled (rq_name req) enabled) s with
    | (Err e, s) => (Err e, s)
    | (Ok a, s) =>
        let done := mkEnabled (ac_name a) (ac_version a) (ac_enabled a) in
        if enabled then (Ok done, s)
        else
          match CancelAction (ac_name a) fate now s with
          | (Err e, s) => (Err e, s)
          | (Ok _, s) => (Ok done, s)
          end
    end.

Definition deliveryList (req : ListDeliveriesRequest) : handler (list api_delivery) := fun s =>
  if ld_limit req <? 0 then (Err (api_invalidf "limit must be >= 0"), s)
  else
    match call (ListDeliveries (mkDeliveryListOptions (ld_action req) (ld_state req) (ld_message_id req) (ld_limit req) (ld_before_id req))) s with
    | (Err e, s) => (Err e, s)
    | (Ok l, s) => (Ok (map toAPIDelivery l), s)
    end.

Definition deliveryShow (req : IDRequest) : handler api_delivery := fun s =>
  if String.eqb (rq_id req) "" then (Err (api_invalidf "id is required"), s)
  else
    match call (GetDelivery (rq_id req)) s with
    | (Err e, s) => (Err e, s)
    | (Ok d, s) => (Ok (toAPIDelivery d), s)
    end.

Definition deliveryReplay (req : IDRequest) : handler api_delivery := fun s =>
  if String.eqb (rq_id req) "" then (Err (api_invalidf "id is required"), s)
  else
    match call (ReplayDelivery (rq_id req)) s with
    | (Err e, s) => (Err e, s)
    | (Ok d, s) => (Ok (toAPIDelivery d), WorkAdded 1 s)
    end.

(** ** Routes *)

(** The body as the route reads it: a transport error, or more than 16 MiB. *)
Definition read_body (body : result string) : result string :=
  b <-! body ;;
  if Z.shiftl 16 20 <? Z.of_nat (String.length b) then Err (errorf "http: request body too large") else Ok b.

Definition decoded {Req : Type} (c : codec Req) (b : string) : result Req :=
  if String.eqb b "" then Ok (c_zero c) else unmarshal_as (c_dec c) (c_zero c) b.

Definition handle {Req Resp : Type} (c : codec Req) (fn : Req -> handler Resp) (body : result string)
    : sched G -> response Resp * sched G := fun s =>
  match read_body body with
  | Err e => (Failed 400 "invalid_request" ("read body: " +:+ err_msg e), s)
  | Ok b =>
      match decoded c b with
      | Err e => (Failed 400 "invalid_request" ("decode request: " +:+ err_msg e), s)
      | Ok req =>
          match fn req s with
          | (Err e, s) => let '(status, code) := errorStatus e in (Failed status code (err_msg e), s)
          | (Ok resp, s) => (Replied resp, s)
          end
      end
  end.

Definition answering {A} (f : A -> reply) (m : handler A) : handler reply := fun s =>
  match m s with (Ok a, s) => (Ok (f a), s) | (Err e, s) => (Err e, s) end.

(** The POST routes of NewServer; [now] and [fate] are what the request meets. *)
Definition ServeHTTP (endpoint : string) (body : result string) (now : time) (fate : cancel_fate)
    : sched G -> response reply * sched G :=
  if String.eqb endpoint "message.send" then handle c_SendMessageRequest (fun req => answering ASent (messageSend req now)) body
  else if String.eqb endpoint "message.list" then handle c_ListMessagesRequest (fun req => answering AMessages (messageList req)) body
  else if String.eqb endpoint "message.show" then handle c_IDRequest (fun req => answering AMessage (messageShow req)) body
  else if String.eqb endpoint "queue.list" then handle c_empty (fun _ => answering AQueues queueList) body
  else if String.eqb endpoint "action.apply" then handle c_ApplyActionRequest (fun req => answering AApplied (actionApply req now)) body
  else if String.eqb endpoint "action.list" then handle c_empty (fun _ => answering AActions actionList) body
  else if String.eqb endpoint "action.show" then handle c_ShowActionRequest (fun req => answering AAction (actionShow req)) body
  else if String.eqb endpoint "action.enable" then handle c_NameRequest (fun req => answering AEnabled (setActionEnabled req true fate now)) body
  else if String.eqb endpoint "action.disable" then handle c_NameRequest (fun req => answering AEnabled (setActionEnabled req false fate now)) body
  else if String.eqb endpoint "delivery.list" then handle c_ListDeliveriesRequest (fun req => answering ADeliveries (deliveryList req)) body
  else if String.eqb endpoint "delivery.show" then handle c_IDRequest (fun req => answering ADelivery (deliveryShow req)) body
  else if String.eqb endpoint "delivery.replay" then handle c_IDRequest (fun req => answering ADelivery (deliveryReplay req)) body
  else fun s => (Failed 404 "" "404 page not found", s).

End Api.
Arguments handler G {_} _.

(** ** The bytes of an answer *)

Definition newline : string := String (chr 10) "".

Definition reply_text (r : reply) : result string :=
  match r with
  | ASent r => c_text c_SendMessageResponse r
  | AMessages l => c_text c_ListMessagesResponse l
  | AMessage m => c_text c_Message m
  | AQueues l => c_text c_ListQueuesResponse l
  | AApplied r => c_text c_ApplyActionResponse r
  | AActions l => c_text c_ListActionsResponse l
  | AAction a => c_text c_Action a
  | AEnabled r => c_text c_SetActionEnabledResponse r
  | ADeliveries l => c_text c_ListDeliveriesResponse l
  | ADelivery d => c_text c_Delivery d
  end.

(** json.Encoder writes the whole value and a newline, or nothing. *)
Definition encoded (t : result string) : string := match t with Ok t => t +:+ newline | Err _ => "" end.

Definition writeError (code msg : string) : string := encoded (c_text c_ErrorResponse (mkErrorBody code msg)).

(** Status and body; a path with no route is answered in plain text. *)
Definition respond (r : response reply) : Z * string :=
  match r with
  | Replied a => (200, encoded (reply_text a))
  | Failed status "" msg => (status, msg +:+ newline)
  | Failed status code msg => (status, writeError code msg)
  end.

(** *** GET /v1/health *)

Definition handleHealth (pid : Z) (version : string) (startedAt : time) : HealthResponse := mkHealth "ok" pid version startedAt.

Definition respond_health (zone : Z) (h : HealthResponse) : Z * string := (200, encoded (c_text (c_HealthResponse zone) h)).

(** ** Ingress stamping *)

Lemma good_le j : forall d d', good d j -> d <= d' -> good d' j.
Proof.
  induction j as [|b|lit|s|l IH|l IH] using json_nested; intros d d' Hg Hd; try done.
  - apply good_arr in Hg as [H0 Hg]. apply good_arr. split; [lia|]. rewrite List.Forall_forall in *. intros x Hx. apply (IH x Hx (d - 1)); [auto|lia].
  - apply good_obj in Hg as [H0 Hg]. apply good_obj. split; [lia|]. rewrite List.Forall_forall in *. intros x Hx.
    destruct (Hg x Hx) as [Hu Hv]. split; [done|]. apply (IH x Hx (d - 1)); [done|lia].
Qed.

(** Decoding [hops] from an object whose other members are other fields. *)
Definition zero_hops : option (bool * fpos) := lit_float "0".

Lemma hops_members l acc :
  (forall x, In x l -> fst x <> "hops" -> field_is "hops" (fst x) = false) -> (forall x, In x l -> fst x = "hops" -> snd x = JNum "0") ->
  foldl (struct_step false hops_field) (Ok acc) l = Ok (if existsb (fun x => String.eqb (fst x) "hops") l then zero_hops else acc).
Proof.
  revert acc; induction l as [|[k v] l IH]; intros acc Hf Hv; [done|]. cbn [foldl existsb fst]. unfold struct_step at 2. cbn [rbind fst snd].
  destruct (String.eqb_spec k "hops") as [->|Hk]; simpl.
  - pose proof (Hv ("hops", v) ltac:(by left) eq_refl) as Hz. simpl in Hz. subst v.
    transitivity (foldl (struct_step false hops_field) (Ok zero_hops) l); [done|].
    rewrite IH; [by destruct (existsb _ l)|..]; intros x Hx; [apply Hf|apply Hv]; by right.
  - unfold hops_field at 2. pose proof (Hf (k, v) ltac:(by left) Hk) as He. simpl in He. rewrite He. apply IH; intros x Hx; [apply Hf|apply Hv]; by right.
Qed.

Lemma stamp_reads l : List.Forall (good_member (max_nesting - 2)) l -> parse (stamp l) = Some (JObj (obj_put "hops" (JNum "0") l)).
Proof.
  intros Hl. apply parse_print, good_obj. split; [done|]. apply obj_put_Forall.
  - split; [simpl; ascii_utf8|]. apply (dec_num_lit 0).
  - eapply List.Forall_impl; [|exact Hl]. intros x [Hu Hv]. split; [done|]. apply (good_le _ _ _ Hv). lia.
Qed.

(** What messageHops makes of stamped headers. *)
Lemma stamp_hops l : ordered l -> List.Forall (good_member (max_nesting - 2)) l ->
  (forall x, In x l -> fst x <> "hops" -> field_is "hops" (fst x) = false) -> messageHops (stamp l) = Ok 0.
Proof.
  intros Ho Hg Hf. unfold messageHops. replace (String.eqb (stamp l) "") with false by (unfold stamp; by rewrite print_obj).
  unfold unmarshal. rewrite stamp_reads by done. change (dec_struct false hops_field None (JObj ?l)) with (foldl (struct_step false hops_field) (Ok None) l).
  rewrite hops_members.
  - replace (existsb _ _) with true; [done|]. symmetry. apply existsb_exists. exists ("hops", JNum "0"). split; [apply obj_put_has|done].
  - intros x Hx. apply obj_put_In in Hx as [->|Hx]; [done|by apply Hf].
  - intros x Hx. by apply (obj_put_same _ _ _ _ Ho Hx).
Qed.

(** *** The headers of a decoded request *)

Definition headers_ok (r : SendMessageRequest) : Prop :=
  ordered (sm_headers r) /\ List.Forall (good_member (max_nesting - 2)) (sm_headers r).

Lemma any_members_good l l' d : any_members l = Ok l' -> List.Forall (good_member d) l -> List.Forall (good_member d) l'.
Proof.
  revert l'; induction l as [|[k v] l IH]; intros l' Hl Hg; simpl in Hl; [by injection Hl as <-|].
  apply rbind_Ok in Hl as (v' & Hv & Hl). apply rbind_Ok in Hl as (l2 & Hl & [= <-]). inversion_clear Hg as [|? ? [Hk Hgv] Hg'].
  constructor; [split; [done|by apply (any_good v)]|auto].
Qed.

Lemma put_all l : forall acc d, ordered acc -> List.Forall (good_member d) acc -> List.Forall (good_member d) l ->
  let r := foldl (fun acc kv => obj_put (fst kv) (snd kv) acc) acc l in ordered r /\ List.Forall (good_member d) r.
Proof.
  induction l as [|[k v] l IH]; intros acc d Ho Ha Hl; [done|]. inversion_clear Hl. simpl. apply IH; [by apply obj_put_ordered| |done].
  by apply obj_put_Forall.
Qed.

Lemma dec_map_ok prev j l d : ordered prev -> List.Forall (good_member (d - 1)) prev -> good d j -> dec_map prev j = Ok l ->
  ordered l /\ List.Forall (good_member (d - 1)) l.
Proof.
  intros Ho Hp Hg Hd. destruct j as [| | | | |kvs]; simpl in Hd; try done; [injection Hd as <-; by repeat constructor|].
  apply good_obj in Hg as [_ Hg]. apply rbind_Ok in Hd as (l' & Hl & [= <-]). apply put_all; [done..|]. by eapply any_members_good.
Qed.

Lemma Send_field_ok k f r j raw r' :
  field_named SendMessageRequest_fields k = Some f -> headers_ok r -> good (max_nesting - 1) j -> f r j raw = Ok r' -> headers_ok r'.
Proof.
  intros Hf [Ho Hg] Hj Hr. cbn [field_named SendMessageRequest_fields sf_key] in Hf. destruct r as [q p h]. cbn [sm_headers] in Ho, Hg.
  destruct (field_is "queue" k); [injection Hf as <-; apply rbind_Ok in Hr as (x & _ & [= <-]); by split|].
  destruct (field_is "payload" k); [injection Hf as <-; apply rbind_Ok in Hr as (x & _ & [= <-]); by split|].
  destruct (field_is "headers" k); [|done]. injection Hf as <-. apply rbind_Ok in Hr as (x & Hx & [= <-]).
  unfold headers_ok. cbn [sm_headers]. replace (max_nesting - 2) with (max_nesting - 1 - 1) by lia. by eapply dec_map_ok.
Qed.

(** Headers out of a request body are a map of well-formed values. *)
Lemma Send_headers body r : decoded c_SendMessageRequest body = Ok r -> headers_ok r.
Proof.
  assert (headers_ok (mkSend "" "" [])) as Hz by (split; constructor). unfold decoded. destruct (String.eqb body ""); [by intros [= <-]|].
  unfold unmarshal_as. destruct (spanned max_nesting body) as [[[j raw] rest]|]; [|done]. destruct (String.eqb _ _); [|done].
  apply (rd_struct_keeps headers_ok); [|done]. intros k f x v t y. apply Send_field_ok.
Qed.

(** A key that only folds to [hops] is kept, sorts last and wins. *)
Definition long_s_hops : string := "hop" +:+ String (chr 0xC5) (String (chr 0xBF) "").

Lemma stamp_long_s : messageHops (stamp [(long_s_hops, JNum "5")]) = Ok 5.
Proof. vm_compute. reflexivity. Qed.

(** ** Requests are paths of the system *)

Section Refinement.
Context {G : Type} `{IdSource G} `{CelLib} (c : Config).

(** Served without interference, a handler is a path of the step relation that
    leaves nothing to announce; each of its commits is a step of its own. *)
Definition served {A} (m : handler G A) : Prop := forall s o, steps c (mkSys s None o) (mkSys (snd (m s)) None o).

Lemma steps_other (y y1 y2 : sys G) : other_step y y1 -> steps c y1 y2 -> steps c y y2.
Proof. intros Hs. by apply steps_cons; right. Qed.

Lemma served_ret {A} (r : result A) : served (fun s => (r, s)).
Proof. intros s o. apply steps_refl. Qed.

Lemma served_read {A} ctx (q : db -> result A) : served (call (read ctx q)).
Proof.
  intros s o. unfold call. destruct (read ctx q (s_world s)) as [r w] eqn:E. destruct (read_db _ _ _ _ _ E) as [Hd _].
  eapply steps_other; [by apply H_read|constructor].
Qed.

(** A handler that goes on with the answer of another. *)
Lemma served_then {A B} (m : handler G A) (k : result A -> handler G B) :
  served m -> (forall r, served (k r)) -> served (fun s => let '(r, s') := m s in k r s').
Proof.
  intros Hm Hk s o. specialize (Hm s o). destruct (m s) as [r s']. simpl in Hm. eapply steps_trans; [exact Hm|]. apply Hk.
Qed.

Lemma served_map {A B} (m : handler G A) (f : A -> B) :
  served m -> served (fun s => match m s with (Err e, s) => (Err e, s) | (Ok a, s) => (Ok (f a), s) end).
Proof. intros Hm s o. specialize (Hm s o). by destruct (m s) as [[a|e] s']. Qed.

Lemma served_if {A} (b : bool) (m1 m2 : handler G A) : served m1 -> served m2 -> served (fun s => if b then m1 s else m2 s).
Proof. by destruct b. Qed.

Lemma NewID_served : forall s o, steps c (mkSys s None o) (mkSys (snd (NewID_of s)) None o).
Proof.
  intros s o. unfold NewID_of. destruct (new_id _) as [id g].
  eapply steps_other; [by apply (H_read s None o (mkWorld (w_db (s_world s)) g (w_faults (s_world s))))|apply steps_refl].
Qed.

Lemma append_served m s o :
  steps c (mkSys s None o)
    (mkSys (match call (AppendMessage m) s with (Ok n, s') => if 0 <? n then WorkAdded n s' else s' | (Err _, s') => s' end) None o).
Proof.
  unfold call. destruct (AppendMessage m (s_world s)) as [[n|e] w] eqn:E.
  - eapply steps_other; [by apply (H_append s None o m n w)|]. destruct (Z.ltb_spec 0 n).
    + eapply steps_other; [apply H_work_added|]. replace (o + n - n) with o by lia. constructor.
    + apply write_ok, append_ok in E as (ids & names & -> & _). replace (o + Z.of_nat (length names)) with o by lia. constructor.
  - unfold AppendMessage in E. eapply steps_other; [by apply (H_failed s None o (append_tx m) e w)|constructor].
Qed.

Lemma messageSend_served req now : served (messageSend req now).
Proof.
  intros s o. unfold messageSend. repeat (match goal with |- context [if ?b then _ else _] => destruct b; [constructor|] end).
  pose proof (NewID_served s o) as H1. destruct (NewID_of s) as [id s1]. pose proof (NewID_served s1 o) as H2. destruct (NewID_of s1) as [tr s2].
  eapply steps_trans; [exact H1|]. eapply steps_trans; [exact H2|]. cbn [snd].
  pose proof (append_served (mkMessage id (sm_queue req) (sm_payload req) (stamp (sm_headers req)) tr None None None now) s2 o) as H3.
  by destruct (call _ s2) as [[n|e] s3].
Qed.

Lemma actionApply_served req now : served (actionApply req now).
Proof.
  intros s o. unfold actionApply. destruct (absent _); [constructor|]. destruct (ParseJSON _) as [def|e]; [|constructor]. cbn [Canonical].
  unfold call. destruct (ApplyAction _ _ now (s_world s)) as [r w] eqn:E.
  assert (steps c (mkSys s None o) (mkSys (with_world w s) None o)) by (eapply steps_other; [by eapply H_apply_action|constructor]).
  by destruct r as [[a ch]|e].
Qed.

Lemma handleCtrl_served name now : served (handleCtrl name now).
Proof. intros s o. eapply steps_loop; [apply L_ctrl|constructor]. Qed.

Lemma setActionEnabled_served req on fate now : served (setActionEnabled req on fate now).
Proof.
  intros s o. unfold setActionEnabled. destruct (String.eqb _ _); [constructor|]. unfold call.
  destruct (SetActionEnabled _ on (s_world s)) as [r w] eqn:E.
  assert (steps c (mkSys s None o) (mkSys (with_world w s) None o)) as H1 by (eapply steps_other; [by eapply H_enable|constructor]).
  destruct r as [a|e]; [|done]. destruct on; [done|]. eapply steps_trans; [exact H1|]. unfold CancelAction.
  pose proof (handleCtrl_served (ac_name a) now (with_world w s) o) as H2.
  destruct fate; [|constructor|exact H2]. by destruct (handleCtrl _ _ _) as [[n|e] s2].
Qed.

Lemma deliveryReplay_served req : served (deliveryReplay req).
Proof.
  intros s o. unfold deliveryReplay. destruct (String.eqb _ _); [constructor|]. unfold call.
  destruct (ReplayDelivery _ (s_world s)) as [[d|e] w] eqn:E.
  - eapply steps_other; [by eapply H_replay|]. eapply steps_other; [apply H_work_added|]. replace (o + 1 - 1) with o by lia. constructor.
  - eapply steps_other; [by eapply (H_failed s None o _ e w)|constructor].
Qed.

Lemma handle_served {Req Resp : Type} (cd : codec Req) (fn : Req -> handler G Resp) body :
  (forall req, served (fn req)) -> forall s o, steps c (mkSys s None o) (mkSys (snd (handle cd fn body s)) None o).
Proof.
  intros Hfn s o. unfold handle. destruct (read_body body) as [b|e]; [|constructor].
  destruct (decoded cd b) as [req|e]; [|constructor]. specialize (Hfn req s o).
  destruct (fn req s) as [[a|e] s']; [done|]. by destruct (errorStatus e).
Qed.

Lemma answering_served {A} (f : A -> reply) (m : handler G A) : served m -> served (answering f m).
Proof. intros Hm s o. specialize (Hm s o). unfold answering. by destruct (m s) as [[a|e] s']. Qed.

(** C6. A request, whatever its endpoint and body and however its call into
    the loop ends, is a path of the system's steps that leaves nothing to
    announce: in every state it can reach the invariants of the running system
    hold, in particular the busy counter is exact again when it is answered. *)
Theorem request_refines endpoint body now fate (s : sched G) o :
  steps c (mkSys s None o) (mkSys (snd (ServeHTTP endpoint body now fate s)) None o).
Proof.
  unfold ServeHTTP. repeat (match goal with |- context [if String.eqb endpoint ?e then _ else _] => destruct (String.eqb endpoint e) end);
    try (apply handle_served; intros req; apply answering_served).
  - apply messageSend_served.
  - unfold messageList. apply served_if; [apply served_ret|]. apply served_map, served_read.
  - unfold messageShow. apply served_if; [apply served_ret|]. apply served_map, served_read.
  - apply served_read.
  - apply actionApply_served.
  - apply served_map, served_read.
  - unfold actionShow. apply served_if; [apply served_ret|]. apply served_if; [apply served_ret|]. apply served_map, served_read.
  - apply setActionEnabled_served.
  - apply setActionEnabled_served.
  - unfold deliveryList. apply served_if; [apply served_ret|]. apply served_map, served_read.
  - unfold deliveryShow. apply served_if; [apply served_ret|]. apply served_map, served_read.
  - apply deliveryReplay_served.
  - constructor.
Qed.
End Refinement.

(** ** What requests do *)

Section Outcomes.
Context {G : Type} `{IdSource G} `{CelLib}.

Definition s_db (s : sched G) : db := w_db (s_world s).
Definition s_faults (s : sched G) : list (option string) := w_faults (s_world s).

(** The request a body carries. *)
Definition carries {Req} (c : codec Req) (body : result string) (req : Req) : Prop :=
  exists b, read_body body = Ok b /\ decoded c b = Ok req.

Lemma handle_carries {Req Resp} (c : codec Req) (fn : Req -> handler G Resp) body req s :
  carries c body req ->
  handle c fn body s =
    match fn req s with (Ok a, s') => (Replied a, s') | (Err e, s') => (Failed (fst (errorStatus e)) (snd (errorStatus e)) (err_msg e), s') end.
Proof.
  intros (b & Hb & Hd). unfold handle. rewrite Hb, Hd. destruct (fn req s) as [[a|e] s']; [done|]. by destruct (errorStatus e).
Qed.

(** C28. delivery.replay answers 200, with the delivery pending again and one
    more busy delivery, only when it was dead; and when the database answers it
    answers 409 not_dead only when the delivery exists in another state, 404
    not_found only when it does not exist, 400 without an id, and then changes
    nothing.  So a dead delivery is replayed, and nothing else is. *)
Theorem replay_status body id now fate (s : sched G) :
  NoDup (map d_id (t_deliveries (s_db s))) -> carries c_IDRequest body (mkID id) ->
  match ServeHTTP "delivery.replay" body now fate s with
  | (Replied r, s') => s_active s' = s_active s + 1 /\
      guarded id dead replay_row (t_deliveries (s_db s)) (t_deliveries (s_db s')) /\
      exists d, r = ADelivery d /\ ad_id d = id /\ ad_state d = state_text StatePending /\ ad_attempt d = 0
  | (Failed status code _, s') => s_db s' = s_db s /\ s_active s' = s_active s /\
      (s_faults s <> [] \/
       if String.eqb id "" then (status, code) = (400, "invalid_request")
       else match find_row id (t_deliveries (s_db s)) with
            | None => (status, code) = (404, "not_found")
            | Some r => d_state r <> StateDead /\ (status, code) = (409, "not_dead")
            end)
  end.
Proof.
  intros Hnd Hc. change (ServeHTTP "delivery.replay" body now fate) with
    (handle c_IDRequest (fun req => answering ADelivery (deliveryReplay (G := G) req)) body).
  rewrite (handle_carries _ _ _ _ _ Hc). unfold answering, deliveryReplay. cbn [rq_id].
  destruct (String.eqb id "") eqn:Ei; [by auto|]. unfold call. pose proof (ReplayDelivery_cases id (s_world s) Hnd) as Hr.
  destruct (ReplayDelivery id (s_world s)) as [[d|e] w]; cbn [fst snd].
  - destruct Hr as (_ & Hg & Hi & Hs & Ha & _). split_and!; [done|done|]. exists (toAPIDelivery d). cbn [toAPIDelivery ad_id ad_state ad_attempt]. by rewrite Hs.
  - destruct Hr as [Hd Hr]. split_and!; [done|done|]. destruct Hr as [Hf|Hr]; [by left|]. right. unfold errorStatus.
    unfold s_db. destruct (find_row id _) as [r|]; [destruct Hr as [Hdead ->]|rewrite Hr]; done.
Qed.

(** The identifiers a send draws, and the message it appends. *)
Definition sent_message (req : SendMessageRequest) (now : time) (s : sched G) : message :=
  mkMessage (fst (NewID_of s)) (sm_queue req) (sm_payload req) (stamp (sm_headers req)) (fst (NewID_of (snd (NewID_of s))))
    None None None now.

Definition sendable (req : SendMessageRequest) : bool :=
  negb (String.eqb (sm_queue req) "") && negb (absent (sm_payload req)) && valid (sm_payload req).

(** A send that passes its checks is an append and, when deliveries were
    created, their announcement. *)
Lemma messageSend_append req now (s : sched G) :
  sendable req = true ->
  exists w0, w_db w0 = s_db s /\ w_faults w0 = s_faults s /\
    messageSend req now s =
    match AppendMessage (sent_message req now s) w0 with
    | (Ok n, w) => (Ok (mkSent (msg_id (sent_message req now s)) (msg_trace_id (sent_message req now s)) now),
                    if 0 <? n then WorkAdded n (with_world w s) else with_world w s)
    | (Err e, w) => (Err e, with_world w s)
    end.
Proof.
  unfold sendable. intros Hs. apply andb_true_iff in Hs as [Hs Hv]. apply andb_true_iff in Hs as [Hq Ha].
  apply negb_true_iff in Hq, Ha. unfold messageSend, sent_message. rewrite Hq, Ha, Hv. cbn [negb].
  unfold NewID_of. destruct (new_id (w_gen (s_world s))) as [id g] eqn:E1. cbn [s_world with_world w_gen snd fst w_db w_faults].
  destruct (new_id g) as [tr g2] eqn:E2. cbn [fst snd].
  exists (mkWorld (w_db (s_world s)) g2 (w_faults (s_world s))). split_and!; [done|done|]. unfold call.
  cbn [s_world with_world]. by destruct (AppendMessage _ _) as [[n|e] w].
Qed.

(** What a send that is answered has done. *)
Definition stored_by_send (req : SendMessageRequest) (now : time) (s s' : sched G) : Prop :=
  exists ids names, appended (sent_message req now s) ids names (s_db s) (s_db s') /\ NoDup names /\
    (forall name, In name names <-> subscriber (sm_queue req) name (t_actions (s_db s))) /\
    s_active s' - s_active s = active (s_db s') - active (s_db s) /\ s_active s' - s_active s = Z.of_nat (length names).

Lemma messageSend_outcome req now (s : sched G) :
  dense (t_actions (s_db s)) ->
  match messageSend req now s with
  | (Ok r, s') => sendable req = true /\ stored_by_send req now s s' /\
      r = mkSent (msg_id (sent_message req now s)) (msg_trace_id (sent_message req now s)) now
  | (Err e, s') => s_db s' = s_db s /\ s_active s' = s_active s /\ (sendable req = false -> err_is e = ErrInvalid)
  end.
Proof.
  intros Hd. destruct (sendable req) eqn:Es.
  - destruct (messageSend_append req now s Es) as (w0 & Hw & Hf & ->). unfold stored_by_send. set (m := sent_message req now s) in *.
    pose proof (AppendMessage_cases m w0) as Ha. rewrite Hw in Ha. specialize (Ha Hd).
    destruct (AppendMessage m w0) as [[n|e] w]; cbn [fst snd].
    + destruct Ha as (ids & names & Hap & Hn & Hnd & Hsub & Hact). split; [done|]. split; [|done]. exists ids, names.
      assert (forall b : bool, s_db (if b then WorkAdded n (with_world w s) else with_world w s) = w_db w) as Hdb by by intros [].
      rewrite Hdb. split_and!; [done|done|exact Hsub|..]; unfold s_db in *; (destruct (Z.ltb_spec 0 n); simpl; lia).
    + split_and!; [exact Ha|done|done].
  - unfold messageSend. unfold sendable in Es. apply andb_false_iff in Es as [Es|Es]; [apply andb_false_iff in Es as [Es|Es]|].
    + apply negb_false_iff in Es. rewrite Es. by auto.
    + apply negb_false_iff in Es. rewrite Es. destruct (String.eqb (sm_queue req) ""); by auto.
    + rewrite Es. destruct (String.eqb (sm_queue req) ""); [by auto|]. destruct (absent (sm_payload req)); by auto.
Qed.

(** C15. message.send, from the bytes of its body: a well-formed request
    appends exactly one message - the payload as sent, a fresh trace, no origin
    - with one pending delivery per enabled subscriber, all counted busy when it
    is answered; its stamped headers count zero hops unless another of the
    user's headers folds to that name; on an error nothing is stored or counted,
    and a malformed request is answered 400 invalid_request. *)
Theorem send_outcome body req now fate (s : sched G) :
  dense (t_actions (s_db s)) -> carries c_SendMessageRequest body req ->
  let m := sent_message req now s in
  ((forall x, In x (sm_headers req) -> fst x <> "hops" -> field_is "hops" (fst x) = false) -> messageHops (msg_headers m) = Ok 0) /\
  match ServeHTTP "message.send" body now fate s with
  | (Replied r, s') => sendable req = true /\ r = ASent (mkSent (msg_id m) (msg_trace_id m) now) /\ stored_by_send req now s s'
  | (Failed status code _, s') => s_db s' = s_db s /\ s_active s' = s_active s /\
      (sendable req = false -> status = 400 /\ code = "invalid_request")
  end.
Proof.
  intros Hd Hc. cbn zeta. split.
  { destruct Hc as (b & _ & Hb). assert (headers_ok req) as [Ho Hg] by by apply Send_headers in Hb.
    intros Hk. by apply stamp_hops. }
  change (ServeHTTP "message.send" body now fate) with
    (handle c_SendMessageRequest (fun req => answering ASent (messageSend (G := G) req now)) body).
  rewrite (handle_carries _ _ _ _ _ Hc). unfold answering. pose proof (messageSend_outcome req now s Hd) as Ho.
  destruct (messageSend req now s) as [[r|e] s']; [by destruct Ho as (? & ? & ->)|]. destruct Ho as (H1 & H2 & H3). split_and!; [done|done|].
  intros Hs. unfold errorStatus. by rewrite H3.
Qed.
End Outcomes.

(** *** Applying and disabling *)

Section Registry.
Context {G : Type} `{IdSource G} `{CelLib}.

(** A definition that parses is there. *)
Lemma ParseJSON_absent raw a : ParseJSON raw = Ok a -> absent raw = false.
Proof.
  intros Hp. unfold absent. destruct (String.eqb_spec raw "") as [->|_]; [by vm_compute in Hp|].
  by destruct (String.eqb_spec raw "null") as [->|_]; [by vm_compute in Hp|].
Qed.

Lemma ParseJSON_stored raw a : ParseJSON raw = Ok a -> unmarshal_Action (print (action_json a)) = Ok a.
Proof. intros Hp. destruct (ParseJSON_reads raw a Hp) as (_ & Hr & Hd). unfold unmarshal_Action, unmarshal. by rewrite Hr, Hd. Qed.

(** The answer to an apply that leaves a name with [e]. *)
Definition applied_reply (name : string) (changed : bool) (e : entry) : reply :=
  AApplied (mkApplied name (Z.of_nat (length (e_defs e))) changed (e_on e)).

Lemma apply_route body raw now fate (s : sched G) :
  carries c_ApplyActionRequest body (mkApply raw) ->
  ServeHTTP "action.apply" body now fate s =
    match answering AApplied (actionApply (mkApply raw) now) s with
    | (Ok a, s') => (Replied a, s')
    | (Err e, s') => (Failed (fst (errorStatus e)) (snd (errorStatus e)) (err_msg e), s')
    end.
Proof. apply (handle_carries _ (fun req => answering AApplied (actionApply req now))). Qed.

Lemma actionApply_ok raw a now (s : sched G) :
  ParseJSON raw = Ok a ->
  actionApply (mkApply raw) now s =
    match call (ApplyAction (act_name a) (print (action_json a)) now) s with
    | (Err e, s) => (Err e, s)
    | (Ok (r, changed), s) => (Ok (mkApplied (ac_name r) (ac_version r) changed (ac_enabled r)), s)
    end.
Proof. intros Hp. unfold actionApply. cbn [aa_definition]. rewrite (ParseJSON_absent _ _ Hp), Hp. done. Qed.

(** C18. action.apply accepts exactly the definitions that ParseJSON accepts:
    others are 400 and change nothing.  An accepted one is stored in canonical
    form, from which the scheduler and fan-out decode the same definition; the
    name's history is [spec_apply]'s, no other name, message or delivery
    changes, and the answer is its version, whether it is new, and the flag.
    Applying the same definition again, in any layout, stores nothing and
    answers the same version with changed false. *)
Theorem apply_canonical body raw now fate (s : sched G) :
  cel_env = Ok tt -> registry_wf (t_actions (s_db s)) -> time_ok now ->
  carries c_ApplyActionRequest body (mkApply raw) ->
  match ServeHTTP "action.apply" body now fate s with
  | (Replied r, s') => exists a c, ParseJSON raw = Ok a /\ Canonical a = Ok c /\ unmarshal_Action c = Ok a /\
      let e := spec_apply c (abs (t_actions (s_db s)) (act_name a)) in
      abs (t_actions (s_db s')) (act_name a) = Some (fst e) /\ registry_wf (t_actions (s_db s')) /\
      (forall n, n <> act_name a -> abs (t_actions (s_db s')) n = abs (t_actions (s_db s)) n) /\
      t_messages (s_db s') = t_messages (s_db s) /\ t_deliveries (s_db s') = t_deliveries (s_db s) /\
      s_active s' = s_active s /\ r = applied_reply (act_name a) (snd e) (fst e) /\
      forall body2 raw2 now2 fate2 s2, ParseJSON raw2 = Ok a ->
        carries c_ApplyActionRequest body2 (mkApply raw2) ->
        time_ok now2 -> s_db s2 = s_db s' -> s_faults s2 = [] ->
        exists s3, ServeHTTP "action.apply" body2 now2 fate2 s2 = (Replied (applied_reply (act_name a) false (fst e)), s3) /\
          s_db s3 = s_db s'
  | (Failed status code _, s') => s_db s' = s_db s /\ s_active s' = s_active s /\
      (s_faults s <> [] \/ is_ok (ParseJSON raw) = false /\ status = 400 /\ code = if absent raw then "invalid_request" else "invalid_action")
  end.
Proof.
  intros Henv Hwf Hnow Hc. rewrite (apply_route _ _ _ _ _ Hc). unfold answering. destruct (ParseJSON raw) as [a|e] eqn:Ep.
  - rewrite (actionApply_ok _ _ _ _ Ep). unfold call. set (c := print (action_json a)).
    pose proof (ApplyAction_cases (act_name a) c now (s_world s) Hwf Hnow) as Ha.
    destruct (ApplyAction _ _ now (s_world s)) as [[[r ch]|e] w]; cbn [fst snd]; [|by destruct Ha; auto].
    destruct Ha as (Hwf' & Habs & Hother & Hch & _ & Hm & Hdl & Hn & Hdef & Hv & Hen).
    exists a, c. split; [done|]. split; [done|]. split; [by eapply ParseJSON_stored|]. cbn zeta.
    split; [exact Habs|]. split; [exact Hwf'|]. split; [exact Hother|]. split; [exact Hm|]. split; [exact Hdl|]. split; [done|]. split.
    { unfold applied_reply. by rewrite Hn, Hv, Hch, Hen. }
    intros body2 raw2 now2 fate2 s2 Hp2 Hc2 Hnow2 Hdb Hf2. rewrite (apply_route _ _ _ _ _ Hc2). unfold answering.
    rewrite (actionApply_ok _ _ _ _ Hp2). unfold call. fold c.
    pose proof (ApplyAction_cases (act_name a) c now2 (s_world s2)) as Ha. unfold s_db, s_faults in Hdb, Hf2. rewrite Hdb, Hf2 in Ha.
    specialize (Ha Hwf' Hnow2). destruct (ApplyAction _ _ now2 (s_world s2)) as [[[r2 ch2]|e2] w2]; [|by destruct Ha].
    destruct Ha as (_ & _ & _ & Hch2 & Hsame & _ & _ & Hn2 & _ & Hv2 & Hen2).
    assert (spec_apply c (abs (t_actions (w_db w)) (act_name a)) = (fst (spec_apply c (abs (t_actions (s_db s)) (act_name a))), false)) as He.
    { unfold s_db in Habs |- *. simpl in Habs. rewrite Habs. apply spec_apply_again. }
    unfold s_db in He, Hv2, Hch2, Hen2. simpl in He, Hv2, Hch2, Hen2. rewrite He in Hv2, Hch2, Hen2. simpl in Hv2, Hch2, Hen2.
    eexists. split; [unfold applied_reply; rewrite Hn2, Hv2, Hch2, Hen2; done|]. by apply Hsame.
  - unfold actionApply. cbn [aa_definition]. destruct (absent raw) eqn:Eb; [by auto 6|]. rewrite Ep. cbn [fst snd]. split_and!; [done|done|].
    right. pose proof (ParseJSON_errors raw Henv e Ep) as He. unfold errorStatus. by rewrite He.
Qed.

(** The rows a disable cancels. *)
Definition outstanding (name : string) (r : drow) : bool := String.eqb (d_action_name r) name && unclaimed r.

(** C29. action.disable, served by the loop, leaves the action disabled
    with no delivery pending or waiting for a retry - those it had are
    cancelled, one by one, and no longer busy - and every other delivery,
    executions in progress included, as it was; an unknown name is 404.  When
    its call into the loop is cut short it is answered 500 and the action is
    disabled all the same. *)
Theorem disable_settles body name now fate (s : sched G) :
  registry_wf (t_actions (s_db s)) -> carries c_NameRequest body (mkName name) ->
  match ServeHTTP "action.disable" body now fate s with
  | (Replied r, s') => fate = Served /\
      (exists v, r = AEnabled (mkEnabled name v false)) /\
      (exists e, abs (t_actions (s_db s)) name = Some e /\ abs (t_actions (s_db s')) name = Some (mkEntry (e_defs e) false)) /\
      (forall r, In r (t_deliveries (s_db s')) -> d_action_name r = name -> d_state r <> StatePending /\ d_state r <> StateFailed) /\
      List.Forall2 (fun r r' => r' = if outstanding name r then cancel_row "action disabled" (fmt_time now) r else r)
        (t_deliveries (s_db s)) (t_deliveries (s_db s')) /\
      s_active s' = s_active s - Z.of_nat (affected (outstanding name) (t_deliveries (s_db s)))
  | (Failed status code _, s') =>
      s_faults s <> [] \/ s_db s' = s_db s /\ s_active s' = s_active s /\
        (name = "" /\ status = 400 /\ code = "invalid_request" \/
         name <> "" /\ abs (t_actions (s_db s)) name = None /\ status = 404 /\ code = "not_found") \/
      fate <> Served /\ status = 500 /\
        (exists e, abs (t_actions (s_db s')) name = Some e /\ e_on e = false)
  end.
Proof.
  intros Hwf Hc. change (ServeHTTP "action.disable" body now fate) with
    (handle c_NameRequest (fun req => answering AEnabled (setActionEnabled (G := G) req false fate now)) body).
  rewrite (handle_carries _ _ _ _ _ Hc). unfold answering, setActionEnabled. cbn [rq_name].
  destruct (String.eqb_spec name "") as [->|Hne]; [by auto 10|]. unfold call at 1.
  pose proof (SetActionEnabled_cases name false (s_world s) Hwf) as Hs.
  destruct (SetActionEnabled name false (s_world s)) as [[a|e] w] eqn:Es; cbn [fst snd].
  2:{ destruct Hs as [Hd [Hf|[Ha He]]]; [by left|]. right. left. unfold errorStatus. rewrite He. split; [done|]. split; [done|]. right. done. }
  destruct Hs as (_ & (e & He & He' & _) & _ & Hm & Hdl & Hn & Hen). rewrite Hn, Hen.
  unfold CancelAction, handleCtrl, call. cbn [s_world with_world].
  pose proof (CancelDeliveries_cases name "action disabled" now w) as Hcd.
  destruct (CancelDeliveries name "action disabled" now w) as [[n|e2] w2] eqn:Ec.
  - destruct Hcd as ((_ & Hact) & Hf2 & Hcount & Hnone). destruct fate; cbn [fst snd].
    + split_and!; [done|by eexists| | | |].
      * exists e. split; [done|]. unfold s_db; simpl. by rewrite Hact.
      * intros r Hr. by apply Hnone.
      * unfold s_db; simpl. rewrite <- Hdl. eapply List.Forall2_impl; [|exact Hf2]. intros r r'. cbv beta. unfold outstanding. by destruct (String.eqb (d_action_name r) name && unclaimed r).
      * unfold s_db; simpl. rewrite <- Hdl, Hcount. unfold outstanding. lia.
    + right. right. split_and!; [done|done|]. exists (mkEntry (e_defs e) false). done.
    + right. right. split_and!; [done|done|]. exists (mkEntry (e_defs e) false). unfold s_db; simpl. by rewrite Hact.
  - destruct Hcd as [Hd2 Hf2]. assert (w_faults (s_world s) <> []) as Hf.
    { intros Hf. apply Hf2. unfold SetActionEnabled in Es. match type of Es with write ?m _ = _ => pose proof (write_faultless m _ Hf) as Hx end. rewrite Es in Hx. exact Hx. }
    destruct fate; cbn [fst snd]; by left.
Qed.
End Registry.

(** ** Witnesses: requests to the demo daemon *)

(** [{key: value}] as a client sends it. *)
Definition body_of (key value : string) : string := "{" +:+ dq key +:+ ":" +:+ value +:+ "}".

Definition send_body : string :=
  "{" +:+ dq "queue" +:+ ":" +:+ dq "raw" +:+ "," +:+ dq "payload" +:+ ":{" +:+ dq "n" +:+ ":1}," +:+
  dq "headers" +:+ ":{" +:+ dq "hops" +:+ ":7," +:+ dq "who" +:+ ":" +:+ dq "me" +:+ "}}".
Definition send_request : SendMessageRequest :=
  mkSend "raw" ("{" +:+ dq "n" +:+ ":1}") [("hops", JNum "7"); ("who", JStr "me")].

Lemma demo_reg : registry_wf (t_actions (s_db demo_seed)).
Proof.
  split; [exact demo_dense|]. repeat constructor; simpl. by vm_compute.
Qed.

(** Decides the answer of a concrete request, then keeps the theorem's case. *)
Ltac run_route Ht :=
  match type of Ht with
  | match ?r with _ => _ end =>
      let E := fresh "E" in let Hok := fresh "Hok" in
      assert (Hok : match fst r with Replied _ => true | Failed _ _ _ => false end = true) by (vm_compute; reflexivity);
      destruct r as [[?|? ? ?] ?] eqn:E; [clear Hok|discriminate Hok]
  end.

Lemma replay_status_witness :
  exists d s', ServeHTTP (H0 := toy_cel) "delivery.replay" (Ok (body_of "id" (dq "d3"))) 0 Served demo_seed = (Replied (ADelivery d), s') /\
    ad_state d = "pending" /\ s_active s' = 4.
Proof.
  pose proof (replay_status (H0 := toy_cel) (Ok (body_of "id" (dq "d3"))) "d3" 0 Served demo_seed demo_nodup) as Ht.
  specialize (Ht ltac:(eexists; split; [reflexivity|vm_compute; reflexivity])). run_route Ht.
  destruct Ht as (Ha & _ & d & -> & _ & Hs & _). exists d, s. split; [reflexivity|]. split; [exact Hs|exact Ha].
Defined.

Lemma send_outcome_witness :
  exists r s', ServeHTTP (H0 := toy_cel) "message.send" (Ok send_body) Second Served demo_seed = (Replied r, s') /\
    s_active s' - s_active demo_seed = active (s_db s') - active (s_db demo_seed) /\
    messageHops (msg_headers (sent_message send_request Second demo_seed)) = Ok 0.
Proof.
  destruct (send_outcome (H0 := toy_cel) (Ok send_body) send_request Second Served demo_seed demo_dense) as [Hh Ht];
    [eexists; split; [reflexivity|vm_compute; reflexivity]|].
  run_route Ht. destruct Ht as (_ & _ & ids & names & _ & _ & _ & Ha & _).
  eexists _, _. split; [reflexivity|]. split; [exact Ha|]. apply Hh. cbn [sm_headers send_request]. intros x [<-|[<-|[]]] Hk; [by destruct Hk|reflexivity].
Defined.

Lemma apply_canonical_witness :
  exists s', ServeHTTP (H0 := toy_cel) "action.apply" (Ok (body_of "definition" canon_input)) Second Served demo_seed =
    (Replied (applied_reply "sum" true (mkEntry [sample_def; print (action_json canon_action)] true)), s') /\
    t_deliveries (s_db s') = t_deliveries (s_db demo_seed).
Proof.
  pose proof (apply_canonical (H0 := toy_cel) (Ok (body_of "definition" canon_input)) canon_input Second Served demo_seed eq_refl demo_reg) as Ht.
  specialize (Ht ltac:(vm_compute; intuition congruence) ltac:(eexists; split; [reflexivity|vm_compute; reflexivity])).
  run_route Ht. destruct Ht as (a0 & c0 & Hp & Hc & _ & _ & _ & _ & _ & Hd & _ & Hr & _). eexists. split; [|exact Hd].
  assert (ParseJSON (H := toy_cel) canon_input = Ok canon_action) as Hp' by (vm_compute; reflexivity).
  rewrite Hp' in Hp. injection Hp as <-. injection Hc as <-. rewrite Hr. by f_equal.
Defined.

Lemma disable_settles_witness :
  exists r s', ServeHTTP (H0 := toy_cel) "action.disable" (Ok (body_of "name" (dq "sum"))) Second Served demo_seed = (Replied r, s') /\
    s_active s' = 2 /\ (forall r, In r (t_deliveries (s_db s')) -> d_action_name r = "sum" -> d_state r <> StatePending /\ d_state r <> StateFailed).
Proof.
  pose proof (disable_settles (H0 := toy_cel) (Ok (body_of "name" (dq "sum"))) "sum" Second Served demo_seed demo_reg) as Ht.
  specialize (Ht ltac:(eexists; split; [reflexivity|vm_compute; reflexivity])). run_route Ht.
  destruct Ht as (_ & _ & _ & Hn & _ & Ha). eexists _, _. split; [reflexivity|]. split; [exact Ha|exact Hn].
Defined.
