(* ===== verification/Client.v ===== *)
(** The client: internal/api/client.go and what errors.go gives it, over a
    transport, and over the daemon it talks to.

    A method encodes its request, posts it and decodes the answer.  [serving] is
    the transport that ends in [ServeHTTP]; over it each method returns what the
    handler answers ([client_calls]). *)
From S2P Require Import Prelude GoTime Float64 Json JsonText RawText Action DurationText Cel Validate Canon Ids Db Registry Deliveries Messages Wire Executor Scheduler System Api.

(** ** Errors *)

(** What a failed exchange is caused by, as far as errors.Is tells. *)
Inductive net_error := ECONNREFUSED | ENOENT | ErrNotExist | OtherNet (msg : string).
Definition net_msg (e : net_error) : string :=
  match e with
  | ECONNREFUSED => "connection refused"
  | ENOENT => "no such file or directory"
  | ErrNotExist => "file does not exist"
  | OtherNet msg => msg
  end.

Definition isNoDaemon (e : net_error) : bool :=
  match e with ECONNREFUSED | ENOENT | ErrNotExist => true | OtherNet _ => false end.

(** A client's error: ErrNoDaemon, an *Error, or any other. *)
Inductive client_error :=
| NoDaemon (msg : string)
| ServerError (code msg : string)
| OtherError (msg : string).

Definition client_error_msg (e : client_error) : string :=
  match e with NoDaemon msg => msg | ServerError _ msg => msg | OtherError msg => msg end.

Inductive outcome (A : Type) := Got (a : A) | Refused (e : client_error).
Arguments Got {A} _. Arguments Refused {A} _.

Definition got {A B} (f : A -> B) (o : outcome A) : outcome B := match o with Got a => Got (f a) | Refused e => Refused e end.

(** ** Methods *)

(** http.Client.Do: an error, or a status and the bytes of a body. *)
Inductive exchange := Fails (e : net_error) | Answers (status : Z) (body : string).

Section Client.
Context {W : Type} (socket : string) (Do : string -> string -> W -> exchange * W).

Definition post {Req Resp : Type} (cin : codec Req) (cout : codec Resp) (endpoint : string) (req : Req) : W -> outcome Resp * W := fun w =>
  match c_text cin req with
  | Err e => (Refused (OtherError (endpoint +:+ ": encode request: " +:+ err_msg e)), w)
  | Ok body =>
      match Do endpoint body w with
      | (Fails e, w) =>
          (Refused (if isNoDaemon e then NoDaemon ("no daemon at " +:+ socket) else OtherError (endpoint +:+ ": " +:+ net_msg e)), w)
      | (Answers status body, w) =>
          if (status <? 200) || (299 <? status) then
            match decode_first (c_dec c_ErrorResponse) (c_zero c_ErrorResponse) body with
            | Ok e =>
                if String.eqb (eb_message e) "" then (Refused (OtherError (endpoint +:+ ": unexpected status " +:+ Prelude.dec status)), w)
                else (Refused (ServerError (eb_code e) (eb_message e)), w)
            | Err _ => (Refused (OtherError (endpoint +:+ ": unexpected status " +:+ Prelude.dec status)), w)
            end
          else
            match decode_first (c_dec cout) (c_zero cout) body with
            | Ok a => (Got a, w)
            | Err e => (Refused (OtherError (endpoint +:+ ": decode response: " +:+ err_msg e)), w)
            end
      end
  end.

Definition Client_SendMessage := post c_SendMessageRequest c_SendMessageResponse "message.send".
Definition Client_ListMessages := post c_ListMessagesRequest c_ListMessagesResponse "message.list".
Definition Client_ShowMessage (id : string) := post c_IDRequest c_Message "message.show" (mkID id).
Definition Client_ListQueues := post c_empty c_ListQueuesResponse "queue.list" tt.
Definition Client_ApplyAction := post c_ApplyActionRequest c_ApplyActionResponse "action.apply".
Definition Client_ListActions := post c_empty c_ListActionsResponse "action.list" tt.
Definition Client_ShowAction (name : string) (version : Z) := post c_ShowActionRequest c_Action "action.show" (mkShowAction name version).
Definition Client_SetActionEnabled (name : string) (enabled : bool) :=
  post c_NameRequest c_SetActionEnabledResponse (if enabled then "action.enable" else "action.disable") (mkName name).
Definition Client_ListDeliveries := post c_ListDeliveriesRequest c_ListDeliveriesResponse "delivery.list".
Definition Client_ShowDelivery (id : string) := post c_IDRequest c_Delivery "delivery.show" (mkID id).
Definition Client_ReplayDelivery (id : string) := post c_IDRequest c_Delivery "delivery.replay" (mkID id).

(** GET /v1/health, over what Do answers it. *)
Definition Client_Health (Get : W -> exchange * W) : W -> outcome HealthResponse * W := fun w =>
  match Get w with
  | (Fails e, w) => (Refused (if isNoDaemon e then NoDaemon ("no daemon at " +:+ socket) else OtherError ("health: " +:+ net_msg e)), w)
  | (Answers status body, w) =>
      if negb (status =? 200) then
        match decode_first (c_dec c_ErrorResponse) (c_zero c_ErrorResponse) body with
        | Ok e =>
            if String.eqb (eb_message e) "" then (Refused (OtherError ("health: unexpected status " +:+ Prelude.dec status)), w)
            else (Refused (OtherError ("health: " +:+ eb_code e +:+ ": " +:+ eb_message e)), w)
        | Err _ => (Refused (OtherError ("health: unexpected status " +:+ Prelude.dec status)), w)
        end
      else
        match decode_first (c_dec (c_HealthResponse 0)) (c_zero (c_HealthResponse 0)) body with
        | Ok h => (Got h, w)
        | Err e => (Refused (OtherError ("decode health response: " +:+ err_msg e)), w)
        end
  end.

(** A serving daemon's health is read as it stands, whatever the daemon's zone. *)
Lemma Health_serving zone pid version startedAt (w : W) :
  in_int64 pid -> zone_ok zone -> time_ok (startedAt + zone * 60 * Second) ->
  Client_Health (fun w => let '(status, body) := respond_health zone (handleHealth pid version startedAt) in (Answers status body, w)) w =
  (Got (mkHealth "ok" pid (to_valid version) startedAt), w).
Proof.
  intros Hp Hz Ht. destruct (c_HealthResponse_lawful zone max_nesting (handleHealth pid version startedAt) ltac:(lia)) as (t & v & Et & Hv & Hr).
  { split; [done|]. apply List.Forall_cons; [by right|]. apply List.Forall_cons; [by right|]. apply List.Forall_cons; [by right|]. apply List.Forall_cons; [by right|constructor]. }
  unfold Client_Health, respond_health. rewrite Et. cbn [encoded]. change (negb (200 =? 200)) with false. cbn iota.
  rewrite (decode_clean _ _ max_nesting _ v) by done. change (c_dec (c_HealthResponse 0)) with (c_dec (c_HealthResponse zone)). change (c_zero (c_HealthResponse 0)) with (c_zero (c_HealthResponse zone)).
  by rewrite Hr.
Qed.

(** WaitReady of spawn.go: a probe, then one more at each of the [ticks] ticks
    before the timeout, until one is answered. *)
Fixpoint WaitReady (timeout : Z) (ticks : nat) (health : W -> outcome HealthResponse * W) (w : W) : result HealthResponse * W :=
  match health w with
  | (Got h, w) => (Ok h, w)
  | (Refused last, w) =>
      match ticks with
      | O => (Err (errorf ("daemon did not become ready within " +:+ Duration_String timeout +:+
                           match last with NoDaemon _ => "" | _ => ": " +:+ client_error_msg last end)), w)
      | S ticks => WaitReady timeout ticks health w
      end
  end.
End Client.

(** A call of a method. *)
Inductive rpc :=
| RSendMessage (req : SendMessageRequest)
| RListMessages (req : ListMessagesRequest)
| RShowMessage (id : string)
| RListQueues
| RApplyAction (req : ApplyActionRequest)
| RListActions
| RShowAction (name : string) (version : Z)
| RSetActionEnabled (name : string) (enabled : bool)
| RListDeliveries (req : ListDeliveriesRequest)
| RShowDelivery (id : string)
| RReplayDelivery (id : string).

Definition mapped {W A B} (f : A -> B) (m : W -> outcome A * W) : W -> outcome B * W := fun w => let '(o, w) := m w in (got f o, w).

Definition invoke {W} (socket : string) (Do : string -> string -> W -> exchange * W) (r : rpc) : W -> outcome reply * W :=
  match r with
  | RSendMessage req => mapped ASent (Client_SendMessage socket Do req)
  | RListMessages req => mapped AMessages (Client_ListMessages socket Do req)
  | RShowMessage id => mapped AMessage (Client_ShowMessage socket Do id)
  | RListQueues => mapped AQueues (Client_ListQueues socket Do)
  | RApplyAction req => mapped AApplied (Client_ApplyAction socket Do req)
  | RListActions => mapped AActions (Client_ListActions socket Do)
  | RShowAction name version => mapped AAction (Client_ShowAction socket Do name version)
  | RSetActionEnabled name enabled => mapped AEnabled (Client_SetActionEnabled socket Do name enabled)
  | RListDeliveries req => mapped ADeliveries (Client_ListDeliveries socket Do req)
  | RShowDelivery id => mapped ADelivery (Client_ShowDelivery socket Do id)
  | RReplayDelivery id => mapped ADelivery (Client_ReplayDelivery socket Do id)
  end.

(** ** Talking to the daemon *)

(** A request has [limit] bytes at most. *)
Definition max_body : Z := Z.shiftl 16 20.
Definition sendable_body {Req} (c : codec Req) (req : Req) : Prop :=
  c_good c max_nesting req /\ forall t, c_text c req = Ok t -> Z.of_nat (String.length t) <= max_body.

Section Served.
Context {G : Type} `{IdSource G} `{CelLib} (socket : string) (now : time) (fate : cancel_fate).

(** The transport to a serving daemon. *)
Definition serving (endpoint body : string) (s : sched G) : exchange * sched G :=
  let '(r, s') := ServeHTTP endpoint (Ok body) now fate s in
  let '(status, b) := respond r in (Answers status b, s').

(** What the caller of an endpoint gets of the handler's answer. *)
Definition relayed {Resp} (c : codec Resp) (r : result Resp) (o : outcome Resp) : Prop :=
  match r with
  | Ok a => c_good c max_nesting a -> o = Got (c_norm c a)
  | Err e => (exists e', o = Refused e') /\ (err_msg e <> "" -> o = Refused (ServerError (snd (errorStatus e)) (to_valid (err_msg e))))
  end.

Lemma to_valid_nonempty s : s <> "" -> to_valid s <> "".
Proof.
  destruct s as [|c s]; [done|]. intros _. cbn [to_valid]. repeat case_match; try done.
Qed.

Lemma error_read code msg : msg <> "" ->
  exists e, decode_first (c_dec c_ErrorResponse) (c_zero c_ErrorResponse) (writeError code msg) = Ok e /\
    String.eqb (eb_message e) "" = false /\ eb_code e = to_valid code /\ eb_message e = to_valid msg.
Proof.
  intros Hm. exists (mkErrorBody (to_valid code) (to_valid msg)). split; [|split; [by apply String.eqb_neq, to_valid_nonempty|done]].
  destruct (c_ErrorResponse_lawful max_nesting (mkErrorBody code msg) ltac:(lia)) as (t & v & Ht & Hv & Hr).
  { split; [reflexivity|]. apply List.Forall_cons; [|apply List.Forall_nil]. right. split; [reflexivity|]. repeat (first [apply List.Forall_nil | apply List.Forall_cons; [by right|]]). }
  unfold writeError. rewrite Ht. cbn [encoded]. rewrite (decode_clean _ _ max_nesting _ v) by done. by rewrite Hr.
Qed.

Lemma errorStatus_range e : (fst (errorStatus e) <? 200) || (299 <? fst (errorStatus e)) = true /\ snd (errorStatus e) <> "" /\ to_valid (snd (errorStatus e)) = snd (errorStatus e).
Proof. unfold errorStatus. by destruct (err_is e). Qed.

(** A method over an endpoint whose handler is [fn]. *)
Lemma post_served {Req Resp : Type} (cin : codec Req) (cout : codec Resp) endpoint (fn : Req -> handler G Resp) (wrap : Resp -> reply) req s :
  Lawful cin -> Lawful cout -> sendable_body cin req -> (forall t, c_text cin req = Ok t -> t <> "") ->
  (forall body, ServeHTTP endpoint body now fate = handle cin (fun req => answering wrap (fn req)) body) ->
  (forall a, reply_text (wrap a) = c_text cout a) ->
  let '(r, s') := fn (c_norm cin req) s in
  let '(o, s'') := post socket serving cin cout endpoint req s in
  s'' = s' /\ relayed cout r o.
Proof.
  intros Hin Hout [Hg Hsize] Hne Hroute Hwrap. destruct (Hin max_nesting req ltac:(lia) Hg) as (t & v & Ht & Hv & Hr).
  unfold post. rewrite Ht. unfold serving. rewrite Hroute.
  rewrite (handle_carries cin _ (Ok t) (c_norm cin req)).
  2:{ exists t. split.
      - unfold read_body. cbn [rbind]. destruct (Z.ltb_spec (Z.shiftl 16 20) (Z.of_nat (String.length t))) as [Hlt|]; [|done].
        specialize (Hsize t Ht). unfold max_body in Hsize. lia.
      - unfold decoded. destruct (String.eqb_spec t "") as [E|_]; [by apply Hne in Ht|]. by rewrite (unmarshal_clean _ _ max_nesting _ v). }
  unfold answering. destruct (fn (c_norm cin req) s) as [[a|e] s'].
  - cbn [respond]. rewrite Hwrap. change ((200 <? 200) || (299 <? 200)) with false. cbn iota.
    destruct (decode_first _ _ _) as [a'|e'] eqn:Ed; (split; [done|]); intros Ha; destruct (Hout max_nesting a ltac:(lia) Ha) as (t' & v' & Ht' & Hv' & Hr');
      rewrite Ht' in Ed; cbn [encoded] in Ed; rewrite (decode_clean _ _ max_nesting _ v') in Ed by done; rewrite Hr' in Ed; congruence.
  - pose proof (errorStatus_range e) as (Hst & Hcode & Hvalid). cbn [respond]. destruct (snd (errorStatus e)) as [|c code] eqn:Ec; [done|].
    rewrite Hst. destruct (decide (err_msg e = "")) as [Em|Em].
    + by destruct (decode_first _ _ _) as [eb|e']; [destruct (String.eqb _ _)|]; (split; [done|]); (split; [by eexists|]); intros Hm.
    + destruct (error_read (String c code) (err_msg e) Em) as (eb & -> & -> & -> & ->). split; [done|]. split; [by eexists|]. intros _. by rewrite Hvalid, Ec.
Qed.

(** The handler behind a call, on the request as it arrives. *)
Definition handler_of (r : rpc) : handler G reply :=
  match r with
  | RSendMessage req => answering ASent (messageSend (c_norm c_SendMessageRequest req) now)
  | RListMessages req => answering AMessages (messageList (c_norm c_ListMessagesRequest req))
  | RShowMessage id => answering AMessage (messageShow (mkID (to_valid id)))
  | RListQueues => answering AQueues queueList
  | RApplyAction req => answering AApplied (actionApply (c_norm c_ApplyActionRequest req) now)
  | RListActions => answering AActions actionList
  | RShowAction name version => answering AAction (actionShow (mkShowAction (to_valid name) version))
  | RSetActionEnabled name enabled => answering AEnabled (setActionEnabled (mkName (to_valid name)) enabled fate now)
  | RListDeliveries req => answering ADeliveries (deliveryList (c_norm c_ListDeliveriesRequest req))
  | RShowDelivery id => answering ADelivery (deliveryShow (mkID (to_valid id)))
  | RReplayDelivery id => answering ADelivery (deliveryReplay (mkID (to_valid id)))
  end.

(** The request can be encoded and is not too long. *)
Definition rpc_ok (r : rpc) : Prop :=
  match r with
  | RSendMessage req => sendable_body c_SendMessageRequest req
  | RListMessages req => sendable_body c_ListMessagesRequest req
  | RShowMessage id | RShowDelivery id | RReplayDelivery id => sendable_body c_IDRequest (mkID id)
  | RListQueues | RListActions => True
  | RApplyAction req => sendable_body c_ApplyActionRequest req
  | RShowAction name version => sendable_body c_ShowActionRequest (mkShowAction name version)
  | RSetActionEnabled name _ => sendable_body c_NameRequest (mkName name)
  | RListDeliveries req => sendable_body c_ListDeliveriesRequest req
  end.

(** The answer can be encoded, and what is read of it. *)
Definition reply_ok (a : reply) : Prop :=
  match a with
  | ASent r => c_good c_SendMessageResponse max_nesting r
  | AMessages l => c_good c_ListMessagesResponse max_nesting l
  | AMessage m => c_good c_Message max_nesting m
  | AQueues l => c_good c_ListQueuesResponse max_nesting l
  | AApplied r => c_good c_ApplyActionResponse max_nesting r
  | AActions l => c_good c_ListActionsResponse max_nesting l
  | AAction a => c_good c_Action max_nesting a
  | AEnabled r => c_good c_SetActionEnabledResponse max_nesting r
  | ADeliveries l => c_good c_ListDeliveriesResponse max_nesting l
  | ADelivery d => c_good c_Delivery max_nesting d
  end.

Definition reply_read (a : reply) : reply :=
  match a with
  | ASent r => ASent (c_norm c_SendMessageResponse r)
  | AMessages l => AMessages (c_norm c_ListMessagesResponse l)
  | AMessage m => AMessage (c_norm c_Message m)
  | AQueues l => AQueues (c_norm c_ListQueuesResponse l)
  | AApplied r => AApplied (c_norm c_ApplyActionResponse r)
  | AActions l => AActions (c_norm c_ListActionsResponse l)
  | AAction a => AAction (c_norm c_Action a)
  | AEnabled r => AEnabled (c_norm c_SetActionEnabledResponse r)
  | ADeliveries l => ADeliveries (c_norm c_ListDeliveriesResponse l)
  | ADelivery d => ADelivery (c_norm c_Delivery d)
  end.

(** [post_served], in terms of replies. *)
Lemma mapped_served {Req Resp : Type} (cin : codec Req) (cout : codec Resp) endpoint (fn : Req -> handler G Resp) (wrap : Resp -> reply) req s :
  Lawful cin -> Lawful cout -> sendable_body cin req -> (forall t, c_text cin req = Ok t -> t <> "") ->
  (forall body, ServeHTTP endpoint body now fate = handle cin (fun req => answering wrap (fn req)) body) ->
  (forall a, reply_text (wrap a) = c_text cout a) ->
  (forall a, reply_ok (wrap a) <-> c_good cout max_nesting a) -> (forall a, reply_read (wrap a) = wrap (c_norm cout a)) ->
  let '(r, s') := answering wrap (fn (c_norm cin req)) s in
  let '(o, s'') := mapped wrap (post socket serving cin cout endpoint req) s in
  s'' = s' /\
  match r with
  | Ok a => reply_ok a -> o = Got (reply_read a)
  | Err e => (exists e', o = Refused e') /\ (err_msg e <> "" -> o = Refused (ServerError (snd (errorStatus e)) (to_valid (err_msg e))))
  end.
Proof.
  intros Hin Hout Hs Hne Hroute Htext Hok Hread. pose proof (post_served cin cout endpoint fn wrap req s Hin Hout Hs Hne Hroute Htext) as Hp.
  unfold answering, mapped. destruct (fn (c_norm cin req) s) as [[a|e] s']; destruct (post _ _ _ _ _ _ _) as [o s'']; destruct Hp as [-> Hp]; (split; [done|]).
  - intros Ha. apply Hok, Hp in Ha as ->. by rewrite Hread.
  - destruct Hp as [[e' ->] Hp]. split; [by eexists|]. intros Hm. apply Hp in Hm as [= ->]. done.
Qed.

Lemma empty_ok : sendable_body c_empty tt.
Proof. split; [by repeat constructor|]. by intros t [= <-]. Qed.

(** A send, for the command that makes it. *)
Lemma send_served req (s : sched G) :
  sendable_body c_SendMessageRequest req ->
  let '(r, s') := messageSend (c_norm c_SendMessageRequest req) now s in
  let '(o, s'') := invoke socket serving (RSendMessage req) s in
  s'' = s' /\
  match r with
  | Ok a => c_good c_SendMessageResponse max_nesting a -> o = Got (ASent (c_norm c_SendMessageResponse a))
  | Err e => (exists e', o = Refused e') /\ (err_msg e <> "" -> o = Refused (ServerError (snd (errorStatus e)) (to_valid (err_msg e))))
  end.
Proof.
  intros Hr. pose proof (mapped_served c_SendMessageRequest c_SendMessageResponse "message.send" (fun req => messageSend req now) ASent req s) as Hm.
  unfold answering in Hm. cbn [invoke]. destruct (messageSend (c_norm c_SendMessageRequest req) now s) as [[a|e] s'];
    (apply Hm; [apply _|apply _|exact Hr|by apply struct_text_nonempty|done..]).
Qed.

(** C9. A call of any method of the client, over the transport to a
    serving daemon, does and returns what the handler of its endpoint does and
    returns on the request: the answer read back field by field, and for an error
    the code and message of the envelope.  Strings lose only invalid UTF-8, a
    RawMessage only its layout. *)
Theorem client_calls (r : rpc) (s : sched G) :
  rpc_ok r ->
  let '(res, s') := handler_of r s in
  let '(o, s'') := invoke socket serving r s in
  s'' = s' /\
  match res with
  | Ok a => reply_ok a -> o = Got (reply_read a)
  | Err e => (exists e', o = Refused e') /\ (err_msg e <> "" -> o = Refused (ServerError (snd (errorStatus e)) (to_valid (err_msg e))))
  end.
Proof.
  destruct r as [req|req|id| |req| |name version|name []|req|id|id]; intros Hr;
    [apply (mapped_served c_SendMessageRequest c_SendMessageResponse "message.send" (fun req => messageSend req now))
    |apply (mapped_served c_ListMessagesRequest c_ListMessagesResponse "message.list" messageList)
    |apply (mapped_served c_IDRequest c_Message "message.show" messageShow _ (mkID id))
    |apply (mapped_served c_empty c_ListQueuesResponse "queue.list" (fun _ => queueList) _ tt)
    |apply (mapped_served c_ApplyActionRequest c_ApplyActionResponse "action.apply" (fun req => actionApply req now))
    |apply (mapped_served c_empty c_ListActionsResponse "action.list" (fun _ => actionList) _ tt)
    |apply (mapped_served c_ShowActionRequest c_Action "action.show" actionShow _ (mkShowAction name version))
    |apply (mapped_served c_NameRequest c_SetActionEnabledResponse "action.enable" (fun req => setActionEnabled req true fate now) _ (mkName name))
    |apply (mapped_served c_NameRequest c_SetActionEnabledResponse "action.disable" (fun req => setActionEnabled req false fate now) _ (mkName name))
    |apply (mapped_served c_ListDeliveriesRequest c_ListDeliveriesResponse "delivery.list" deliveryList)
    |apply (mapped_served c_IDRequest c_Delivery "delivery.show" deliveryShow _ (mkID id))
    |apply (mapped_served c_IDRequest c_Delivery "delivery.replay" deliveryReplay _ (mkID id))];
    first [apply _ | exact Hr | exact empty_ok | by apply struct_text_nonempty | done].
Qed.
End Served.

(** *** [sonata delivery replay d3], of a delivery that is dead *)

Definition demo_replayed : api_delivery := mkApiDelivery "d3" (Some "m1") "c" None "pending" 0 None None None None None.

Lemma client_calls_witness :
  rpc_ok (RReplayDelivery "d3") /\
  exists s', invoke "s.sock" (serving (H0 := toy_cel) Second Served) (RReplayDelivery "d3") demo_seed = (Got (ADelivery demo_replayed), s').
Proof.
  assert (rpc_ok (RReplayDelivery "d3")) as Hok.
  { split; [|by intros t [= <-]]. split; [done|]. repeat (first [apply List.Forall_nil | apply List.Forall_cons; [by right|]]). }
  split; [exact Hok|]. pose proof (client_calls (H0 := toy_cel) "s.sock" Second Served (RReplayDelivery "d3") demo_seed Hok) as Hc.
  assert (fst (handler_of (H0 := toy_cel) Second Served (RReplayDelivery "d3") demo_seed) = Ok (ADelivery demo_replayed)) as Hh by (vm_compute; reflexivity).
  destruct (handler_of (H0 := toy_cel) Second Served (RReplayDelivery "d3") demo_seed) as [res s']. cbn [fst] in Hh. subst res.
  destruct (invoke _ _ _ _) as [o s'']. destruct Hc as [-> Hc]. exists s'. rewrite Hc; [reflexivity|].
  split; [done|]. repeat (first [apply List.Forall_nil | apply List.Forall_cons; [first [by right | by left]|]]).
Defined.
