(* ===== verification/Tabwriter.v ===== *)
(** The tables of the command line: text/tabwriter, as internal/cli makes it
    (minimal width 2, padding 2, blanks, no flags).

    [tabwriter] is Write and Flush of the standard library: cells end at tabs, a
    column is a block of consecutive lines with a tab-terminated cell there, and
    a line of one cell flushes what is buffered.  Escaped text (a byte 255, which
    no valid UTF-8 has) is not modelled.  [tabwriter_rows]: rows of as many plain
    cells come out in the layout one expects, [aligned]. *)
From S2P Require Import Prelude GoTime Json JsonText RawText DurationText.

Create HintDb flat.

Definition minwidth : nat := 2.
Definition padding : nat := 2.

(** utf8.RuneCount: an invalid byte counts for one. *)
Fixpoint runes (skip : nat) (s : string) : nat :=
  match s with
  | EmptyString => 0
  | String c r => match skip with S k => runes k r | O => S (runes (pred (utf8_width c r)) r) end
  end.

(** A buffered line: its cells, and whether a newline ended it. *)
Definition line : Type := list string * bool.

(** Write: the text in blocks of lines, each flushed on its own.  [cell] is the
    text of the cell so far, [cells] those before it, [buf] the lines before. *)
Fixpoint blocks (s cell : string) (cells : list string) (buf : list line) : list (list line) :=
  match s with
  | EmptyString => [buf ++ [(cells ++ if String.eqb cell "" then [] else [cell], false)]]
  | String c r =>
      if Ascii.eqb c "009" || Ascii.eqb c "011" then blocks r "" (cells ++ [cell]) buf
      else if Ascii.eqb c "010" then
        let buf := buf ++ [(cells ++ [cell], true)] in
        match cells with [] => buf :: blocks r "" [] [] | _ => blocks r "" [] buf end
      else if Ascii.eqb c "012" then (buf ++ [(cells ++ [cell], true)]) :: blocks r "" [] []
      else blocks r (cell +:+ String c "") cells buf
  end.

Fixpoint blanks (n : nat) : string := match n with O => "" | S n => String " " (blanks n) end.

(** writeLines: the cells left of the columns laid out so far are padded. *)
Fixpoint write_cells (widths : list nat) (cells : list string) : string :=
  match cells with
  | [] => ""
  | c :: cells => c +:+ match widths with [] => "" | w :: _ => blanks (w - runes 0 c) end +:+ write_cells (tail widths) cells
  end.
Definition write_line (widths : list nat) (l : line) : string :=
  write_cells widths (fst l) +:+ if snd l then String "010" "" else "".
Definition write_lines (widths : list nat) (ls : list line) : string := String.concat "" (map (write_line widths) ls).

(** A line with a tab-terminated cell in the column. *)
Definition has_column (col : nat) (l : line) : bool := (S col <? length (fst l))%nat.

(** Maximal runs of lines with, or without, a cell in the column. *)
Fixpoint runs (col : nat) (ls : list line) : list (bool * list line) :=
  match ls with
  | [] => []
  | l :: ls =>
      match runs col ls with
      | (b, run) :: rest => if Bool.eqb (has_column col l) b then (b, l :: run) :: rest else (has_column col l, [l]) :: (b, run) :: rest
      | [] => [(has_column col l, [l])]
      end
  end.

Definition column_width (col : nat) (run : list line) : nat :=
  foldr (fun l w => Nat.max (runes 0 (nth col (fst l) "") + padding) w) minwidth run.

(** format; [fuel] bounds the columns still to lay out. *)
Fixpoint format (fuel : nat) (widths : list nat) (ls : list line) : string :=
  match fuel with
  | O => write_lines widths ls
  | S fuel =>
      let col := length widths in
      String.concat "" (map (fun '(b, run) =>
        if b : bool then format fuel (widths ++ [column_width col run]) run else write_lines widths run) (runs col ls))
  end.

Definition columns (ls : list line) : nat := foldr (fun l n => Nat.max (length (fst l)) n) 0%nat ls.

Definition tabwriter (s : string) : string :=
  String.concat "" (map (fun ls => format (columns ls) [] ls) (blocks s "" [] [])).

Example tabwriter_example :
  tabwriter ("QUEUE" +:+ String "009" "MESSAGES" +:+ String "010" ("a-long-queue" +:+ String "009" "3" +:+ String "010" "")) =
  "QUEUE         MESSAGES" +:+ String "010" ("a-long-queue  3" +:+ String "010" "").
Proof. reflexivity. Qed.

(** A cell with a newline breaks the table: its columns end there. *)
Example tabwriter_newline :
  tabwriter ("ID" +:+ String "009" "E" +:+ String "010" ("1" +:+ String "009" ("x" +:+ String "010" ("y" +:+ String "010" ("12345" +:+ String "009" ("z" +:+ String "010" "")))))) =
  "ID  E" +:+ String "010" ("1   x" +:+ String "010" ("y" +:+ String "010" ("12345  z" +:+ String "010" ""))).
Proof. reflexivity. Qed.

(** ** Tables of plain cells *)

(** No byte of the cell ends it. *)
Definition cell_byte (c : ascii) : bool := negb (Ascii.eqb c "009" || Ascii.eqb c "011" || Ascii.eqb c "010" || Ascii.eqb c "012").
Definition flat (s : string) : bool := all_bytes cell_byte s.

(** A row as it is written: its cells separated by tabs, and a newline. *)
Definition row_text (r : list string) : string := String.concat (String "009" "") r +:+ String "010" "".

(** The reference: a column is as wide as its longest cell and two blanks; the
    last cell of a row is not padded. *)
Definition widest (rows : list (list string)) (j : nat) : nat := foldr Nat.max 0%nat (map (fun r => runes 0 (nth j r "")) rows).
Definition padded (w : nat) (c : string) : string := c +:+ blanks (w - runes 0 c).
Definition aligned (rows : list (list string)) (r : list string) : string :=
  String.concat "" (imap (fun j c => if (S j <? length r)%nat then padded (widest rows j + 2) c else c) r) +:+ String "010" "".

(** *** Reading the rows back *)

Lemma blocks_flat c : forall rest cell cells buf, flat c = true ->
  blocks (c +:+ rest) cell cells buf = blocks rest (cell +:+ c) cells buf.
Proof.
  induction c as [|a c IH]; intros rest cell cells buf Hp; unfold flat in *; cbn [all_bytes] in *; [cbn; by rewrite str_app_nil_r|].
  apply andb_true_iff in Hp as [Ha Hp]. unfold cell_byte in Ha. apply negb_true_iff in Ha. apply orb_false_iff in Ha as [Ha Hf]. apply orb_false_iff in Ha as [Ha Hn].
  rewrite str_app_cons. cbn [blocks]. rewrite Ha, Hn, Hf, IH by done. by rewrite str_app_assoc.
Qed.

Lemma blocks_row r : forall c rest cells buf, List.Forall (fun c => flat c = true) (c :: r) -> (2 <= length (cells ++ c :: r))%nat ->
  blocks (row_text (c :: r) +:+ rest) "" cells buf = blocks rest "" [] (buf ++ [(cells ++ c :: r, true)]).
Proof.
  induction r as [|c' r IH]; intros c rest cells buf Hp Hl; inversion_clear Hp as [|? ? Hc Hr].
  - unfold row_text. cbn [String.concat]. rewrite str_app_assoc, blocks_flat by done. cbn. destruct cells; [cbn in Hl; lia|done].
  - transitivity (blocks (c +:+ String "009" (row_text (c' :: r) +:+ rest)) "" cells buf).
    { unfold row_text. cbn [String.concat]. by rewrite !str_app_assoc. }
    rewrite blocks_flat by done. cbn [blocks Ascii.eqb orb]. cbn. rewrite IH; [by rewrite <- app_assoc|done|by rewrite <- app_assoc].
Qed.

Lemma concat_cons x l : String.concat "" (x :: l) = x +:+ String.concat "" l.
Proof. destruct l; [by rewrite str_app_nil_r|done]. Qed.

Definition ended (rows : list (list string)) : list line := map (fun r => (r, true)) rows.

(** A row of a table of [S k] columns. *)
Definition row_ok (k : nat) (r : list string) : Prop := length r = S k /\ List.Forall (fun c => flat c = true) r.

Lemma blocks_rows k rows : (1 <= k)%nat -> List.Forall (row_ok k) rows -> forall buf,
  blocks (String.concat "" (map row_text rows)) "" [] buf = [buf ++ ended rows ++ [([], false)]].
Proof.
  intros Hk. induction 1 as [|r rows [Hl Hf] Hr IH]; intros buf; [done|]. cbn [map]. rewrite concat_cons.
  destruct r as [|c r]; [done|]. rewrite blocks_row by (done || (cbn in *; lia)). rewrite IH. cbn [ended map]. by rewrite <- app_assoc.
Qed.

(** *** Laying out the columns *)

Lemma runs_uniform col b ls rest : ls <> [] -> List.Forall (fun l => has_column col l = b) ls ->
  match runs col rest with [] => True | (b', _) :: _ => b' = negb b end -> runs col (ls ++ rest) = (b, ls) :: runs col rest.
Proof.
  intros Hne Hf Hr. induction Hf as [|l ls Hl Hf IH]; [done|]. destruct ls as [|l' ls].
  - cbn [app runs]. rewrite Hl. destruct (runs col rest) as [|[b' run] rest']; [done|]. subst b'. by destruct b.
  - cbn [app runs] in *. rewrite IH by done. by rewrite Hl, eqb_reflx.
Qed.

Lemma runs_ended col k rows rest : rows <> [] -> List.Forall (row_ok k) rows ->
  match runs col rest with [] => True | (b', _) :: _ => b' = negb (col <? k)%nat end ->
  runs col (ended rows ++ rest) = ((col <? k)%nat, ended rows) :: runs col rest.
Proof.
  intros Hne Hf. apply runs_uniform; [by destruct rows|]. apply List.Forall_map. eapply List.Forall_impl; [|apply Hf].
  intros r [Hl _]. unfold has_column. cbn [fst]. rewrite Hl. by destruct (Nat.ltb_spec (S col) (S k)), (Nat.ltb_spec col k); try lia.
Qed.

Lemma column_width_ended col rows : column_width col (ended rows) = (widest rows col + 2)%nat.
Proof. 
  induction rows as [|r rows IH]; [done|]. transitivity (Nat.max (runes 0 (nth col r "") + 2) (column_width col (ended rows)))%nat; [done|].
  rewrite IH. change (widest (r :: rows) col) with (Nat.max (runes 0 (nth col r "")) (widest rows col)). lia.
 Qed.

Definition column_widths (rows : list (list string)) (col d : nat) : list nat := map (fun j => widest rows j + 2)%nat (seq col d).

Lemma format_ended rows d : rows <> [] -> forall ws, List.Forall (row_ok (length ws + d)) rows ->
  format (S d) ws (ended rows) = write_lines (ws ++ column_widths rows (length ws) d) (ended rows).
Proof.
  intros Hne. induction d as [|d IH]; intros ws Hf.
  - cbn [format]. rewrite <- (app_nil_r (ended rows)), (runs_ended _ _ _ _ Hne Hf) by done. rewrite Nat.add_0_r, Nat.ltb_irrefl. cbn. by rewrite !app_nil_r.
  - remember (S d) as d' eqn:Ed. cbn [format]. rewrite <- (app_nil_r (ended rows)), (runs_ended _ _ _ _ Hne Hf) by done. subst d'.
    destruct (Nat.ltb_spec (length ws) (length ws + S d)); [|lia]. cbn [map runs]. rewrite concat_cons, app_nil_r, str_app_nil_r, column_width_ended.
    assert (length (ws ++ [(widest rows (length ws) + 2)%nat]) = S (length ws)) as Hl by (rewrite length_app; cbn; lia).
    rewrite IH; rewrite Hl; [|by rewrite Nat.add_succ_comm]. unfold column_widths. cbn [seq map]. by rewrite <- app_assoc.
Qed.

Lemma columns_ended k rows : rows <> [] -> List.Forall (row_ok k) rows -> columns (ended rows ++ [([], false)]) = S k.
Proof.
  intros Hne Hf. induction Hf as [|r rows [Hl Hr] Hf IH]; [done|].
  transitivity (Nat.max (length r) (columns (ended rows ++ [([], false)]))); [done|]. rewrite Hl.
  destruct rows as [|r' rows]; [by cbn|]. rewrite IH by done. lia.
Qed.

Lemma write_cells_padded f r : forall j k, length r = S k ->
  write_cells (map f (seq j k)) r = String.concat "" (imap (fun i c => if (S i <? S k)%nat then padded (f (j + i)%nat) c else c) r).
Proof.
  induction r as [|c r IH]; intros j k Hl; [done|]. rewrite imap_cons, concat_cons. destruct r as [|c' r].
  - by destruct k as [|k].
  - destruct k as [|k]; [done|]. cbn beta. rewrite Nat.add_0_r. change (1 <? S (S k))%nat with true. cbn iota. unfold padded at 1. rewrite str_app_assoc.
    change (write_cells (map f (seq j (S k))) (c :: c' :: r)) with (c +:+ blanks (f j - runes 0 c) +:+ write_cells (map f (seq (S j) k)) (c' :: r)).
    rewrite (IH (S j) k) by (cbn in *; lia). do 3 f_equal. apply imap_ext. intros i x _. cbn. by rewrite Nat.add_succ_r.
Qed.

(** What the writer prints for rows of [S k] plain cells: every row on its own
    line, its columns aligned. *)
Lemma tabwriter_rows k rows : (1 <= k)%nat -> List.Forall (row_ok k) rows ->
  tabwriter (String.concat "" (map row_text rows)) = String.concat "" (map (aligned rows) rows).
Proof.
  intros Hk Hf. destruct k as [|k]; [lia|]. destruct (decide (rows = [])) as [->|Hne]; [done|]. unfold tabwriter. rewrite (blocks_rows (S k)) by done. cbn [map app].
  rewrite concat_cons, str_app_nil_r, (columns_ended (S k)) by done. remember (S k) as k' eqn:Ek. cbn [format length]. subst k'.
  rewrite (runs_ended 0 (S k)) by done. change (0 <? S k)%nat with true. cbn [map runs]. rewrite !concat_cons. cbn [app].
  rewrite str_app_nil_r. rewrite column_width_ended, format_ended by done. cbn [app length].
  unfold write_lines, ended. rewrite map_map. f_equal. apply map_ext_in. intros r Hr. pose proof (proj1 (List.Forall_forall _ _) Hf r Hr) as [Hl _].
  unfold write_line, aligned. cbn [fst snd]. f_equal. rewrite Hl.
  change ((widest rows 0 + 2)%nat :: column_widths rows 1 k) with (map (fun j => widest rows j + 2)%nat (seq 0 (S k))).
  rewrite (write_cells_padded _ _ 0 (S k)) by done. done.
Qed.

(** *** Cells that are always plain *)

Lemma flat_app a b : flat a = true -> flat b = true -> flat (a +:+ b) = true.
Proof. unfold flat. intros Ha Hb. by rewrite all_bytes_app, Ha, Hb. Qed.

Lemma flat_digits s : all_digits s -> flat s = true.
Proof.
  induction s as [|c s IH]; [done|]. intros Hs. apply all_digits_cons in Hs as [Hc Hs]. change (cell_byte c && flat s = true). rewrite IH by done.
  destruct c as [[] [] [] [] [] [] [] []]; vm_compute in Hc; first [discriminate Hc | reflexivity].
Qed.

Lemma flat_pad w n : flat (pad 10 w n) = true.
Proof. apply flat_digits, all_digits_pad. Qed.

Lemma flat_dec n : flat (dec n) = true.
Proof. unfold dec. destruct (n <? 0); [apply flat_app; [done|]|]; apply flat_pad. Qed.

Lemma flat_fmt_secs s : flat (fmt_secs s) = true.
Proof. unfold fmt_secs. repeat (first [apply flat_pad | reflexivity | apply flat_app]). Qed.

Lemma flat_fmt_zone z : flat (fmt_zone z) = true.
Proof. unfold fmt_zone. destruct (z =? 0); [done|]. destruct (z <? 0); repeat (first [apply flat_pad | reflexivity | apply flat_app]). Qed.

Lemma flat_concat sep l : flat sep = true -> List.Forall (fun c => flat c = true) l -> flat (String.concat sep l) = true.
Proof.
  intros Hs. induction 1 as [|x l Hx Hl IH]; [done|]. destruct l as [|y l]; [done|]. cbn [String.concat]. by repeat apply flat_app.
Qed.

#[export] Hint Resolve flat_app flat_pad flat_dec flat_fmt_secs flat_fmt_zone flat_concat : flat.
