(* ===== verification/Cli.v ===== *)
(** The commands: internal/cli (root.go, ensure.go, send.go, action.go,
    delivery.go, message.go, queue.go, status.go, up.go).

    A command is a function of its flags and arguments, of what starting a daemon
    answers, and of the transport of its client; it answers an exit code, what it
    prints and its error, which is modelled by its cause.  [tables_align] is what
    the listings print; over a serving daemon, [send_command] follows a message
    from standard input into the store. *)
From S2P Require Import Prelude GoTime Float64 Json JsonText RawText Action DurationText Cel Validate Canon Ids Db Registry Deliveries Messages Wire Executor Scheduler System Api Client Tabwriter.

(** ** Results *)

Definition ExitOK : Z := 0.
Definition ExitNotRunning : Z := 1.
Definition ExitUsage : Z := 2.
Definition ExitOperational : Z := 3.

(** What the errors of the commands wrap. *)
Inductive cli_error :=
| EConfig (e : err)                     (** Bind or Load *)
| EOutput (v : string)                  (** --output *)
| EStdin (e : err) | EFile (file : string) (e : err)
| ENoPayload (queue : string) | EPayload | EHeader (h : string)
| ENoFile | ENoDefinition | EDefinition (file : string) (e : err) | ECanonical (e : err)
| EVersion (n : Z)
| EStart (e : err)                      (** EnsureRunning *)
| EClient (e : client_error)
| EEncode (e : err)
| ENotRunning (socket : string).

Record ran := mkRan { r_code : Z; r_out : string; r_err : option cli_error }.
Definition printed (out : string) : ran := mkRan ExitOK out None.
Definition failf (code : Z) (e : cli_error) : ran := mkRan code "" (Some e).

(** ** Indented JSON *)

Fixpoint spaces (n : nat) : string := match n with O => "" | S n => "  " +:+ spaces n end.

(** json's appendIndent with two spaces, of compact text; [need] is its
    needIndent. *)
Fixpoint indent (need : bool) (depth : nat) (in_str esc : bool) (s : string) : string :=
  match s with
  | EmptyString => ""
  | String c r =>
      if in_str then String c (indent false depth (esc || negb (Ascii.eqb c "034")) (negb esc && Ascii.eqb c "\") r)
      else if Ascii.eqb c "}" || Ascii.eqb c "]" then
        if need then String c (indent false depth false false r)
        else newline +:+ spaces (depth - 1) +:+ String c (indent false (depth - 1) false false r)
      else
        let '(lead, depth) := if need then (newline +:+ spaces (S depth), S depth) else ("", depth) in
        lead +:+
        (if Ascii.eqb c "{" || Ascii.eqb c "[" then String c (indent true depth false false r)
         else if Ascii.eqb c "," then String c (newline +:+ spaces depth +:+ indent false depth false false r)
         else if Ascii.eqb c ":" then String c (String " " (indent false depth false false r))
         else String c (indent false depth (Ascii.eqb c "034") false r))
  end.

Definition writeJSON (t : result string) : ran :=
  match t with
  | Ok t => printed (indent false 0 false false t +:+ newline)
  | Err e => failf ExitOperational (EEncode e)
  end.

Example indent_example :
  indent false 0 false false (print (JObj [("a", JArr [JNum "1"; JStr "x,y"]); ("b", JObj []); ("c", JNull)])) =
  "{" +:+ newline +:+ "  " +:+ dq "a" +:+ ": [" +:+ newline +:+ "    1," +:+ newline +:+ "    " +:+ dq "x,y" +:+ newline +:+ "  ]," +:+ newline +:+
  "  " +:+ dq "b" +:+ ": {}," +:+ newline +:+ "  " +:+ dq "c" +:+ ": null" +:+ newline +:+ "}".
Proof. vm_compute. reflexivity. Qed.

(** ** Tables *)

(** A table as the commands make it: the rows written to a tabwriter, flushed. *)
Definition table (rows : list (list string)) : string := tabwriter (String.concat "" (map row_text rows)).

(** t.Local().Format(time.RFC3339), [local] being the local offset from UTC in
    minutes at an instant. *)
Definition local_time (local : time -> Z) (t : time) : string :=
  fmt_secs ((t + local t * 60 * Second) / Second) +:+ fmt_zone (local t).

Definition strOr (s : option string) (fallback : string) : string := default fallback s.

Definition action_table (local : time -> Z) (l : list ActionSummary) : list (list string) :=
  ["NAME"; "VERSION"; "ENABLED"; "INPUTS"; "OUTPUT"; "CREATED"] ::
  map (fun act =>
    let output := if String.eqb (as_output act) "" then "-" else as_output act in
    [as_name act; Prelude.dec (as_version act); if as_enabled act then "true" else "false";
     String.concat "," (as_inputs act); output; local_time local (as_created_at act)]) l.

Definition delivery_table (l : list api_delivery) : list (list string) :=
  ["ID"; "ACTION"; "STATE"; "ATTEMPT"; "MESSAGE"; "ERROR"] ::
  map (fun d =>
    [ad_id d; ad_action d; ad_state d; Prelude.dec (ad_attempt d); strOr (ad_message_id d) "-"; strOr (ad_error d) ""]) l.

Definition message_table (local : time -> Z) (l : list message) : list (list string) :=
  ["ID"; "QUEUE"; "TRACE"; "CREATED"] ::
  map (fun m => [msg_id m; msg_queue m; msg_trace_id m; local_time local (msg_created_at m)]) l.

Definition queue_table (l : list QueueInfo) : list (list string) :=
  ["QUEUE"; "MESSAGES"] :: map (fun q => [qi_name q; Prelude.dec (qi_messages q)]) l.

(** ** Headers of send *)

(** strings.Cut(h, "="). *)
Fixpoint cut (c : ascii) (s : string) : option (string * string) :=
  match s with
  | EmptyString => None
  | String a r => if Ascii.eqb a c then Some ("", r) else '(k, v) ← cut c r; Some (String a k, v)
  end.

(** The flags in order, a repeated key overriding; or the first malformed one. *)
Fixpoint header_map (acc : list (string * json)) (flags : list string) : list (string * json) + string :=
  match flags with
  | [] => inl acc
  | h :: flags =>
      match cut "=" h with
      | Some (k, v) => if String.eqb k "" then inr h else header_map (obj_put k (JStr v) acc) flags
      | None => inr h
      end
  end.

(** ** Definitions *)

(** What yaml.Unmarshal and json.Marshal make of a document: an error, no
    document, or its JSON. *)
Inductive yaml_doc := YamlError (e : err) | YamlEmpty | YamlJSON (j : string).

Section Commands.
Context `{CelLib} (yaml : string -> yaml_doc).

Definition ParseYAML (data : string) : result Action :=
  match yaml data with
  | YamlError e => Err (wf_invalidf ("parse yaml: " +:+ err_msg e))
  | YamlEmpty => Err (wf_invalidf "definition is empty")
  | YamlJSON j => ParseJSON j
  end.

(** ** Commands *)

Context {W : Type} (json_out : bool) (socket : string) (ensured : result bool) (Do : string -> string -> W -> exchange * W).

Definition command := W -> ran * W.

(** ensureClient, then a call; [show] prints its answer. *)
Definition calling (r : rpc) (show : reply -> ran) : command := fun w =>
  match ensured with
  | Err e => (failf ExitOperational (EStart e), w)
  | Ok _ =>
      match invoke socket Do r w with
      | (Refused e, w) => (failf ExitOperational (EClient e), w)
      | (Got a, w) => (show a, w)
      end
  end.

Definition refuse (code : Z) (e : cli_error) : command := fun w => (failf code e, w).

(** --output json, or the human form. *)
Definition either (human : reply -> ran) (a : reply) : ran := if json_out then writeJSON (reply_text a) else human a.

Definition app_send (queue : string) (headerFlags : list string) (stdin : result string) : command :=
  match stdin with
  | Err e => refuse ExitOperational (EStdin e)
  | Ok payload =>
      if String.eqb (trim_space payload) "" then refuse ExitUsage (ENoPayload queue)
      else if negb (valid payload) then refuse ExitUsage EPayload
      else
        match header_map [] headerFlags with
        | inr h => refuse ExitUsage (EHeader h)
        | inl headers =>
            calling (RSendMessage (mkSend queue payload headers))
              (either (fun a => match a with ASent r => printed (sr_id r +:+ newline) | _ => printed "" end))
        end
  end.

Definition app_actionApply (file : string) (stdin : result string) (readFile : string -> result string) : command :=
  if String.eqb file "" then refuse ExitUsage ENoFile
  else
    let apply (def : result Action) : command :=
      match def with
      | Err e => refuse ExitUsage (EDefinition file e)
      | Ok def =>
          match Canonical def with
          | Err e => refuse ExitOperational (ECanonical e)
          | Ok canonical =>
              calling (RApplyAction (mkApply canonical))
                (either (fun a => match a with
                  | AApplied r => printed (
                      if negb (ar_changed r) then ar_name r +:+ " unchanged (version " +:+ Prelude.dec (ar_version r) +:+ ")" +:+ newline
                      else if ar_enabled r then ar_name r +:+ " version " +:+ Prelude.dec (ar_version r) +:+ newline
                      else ar_name r +:+ " version " +:+ Prelude.dec (ar_version r) +:+ " (disabled)" +:+ newline)
                  | _ => printed "" end))
          end
      end in
    if String.eqb file "-" then
      match stdin with
      | Err e => refuse ExitOperational (EStdin e)
      | Ok data => if String.eqb (trim_space data) "" then refuse ExitUsage ENoDefinition else apply (ParseJSON data)
      end
    else
      match readFile file with
      | Err e => refuse ExitOperational (EFile file e)
      | Ok data => apply (ParseYAML data)
      end.

(** The listings: a line when there is nothing, else the table. *)
Context (local : time -> Z).

Definition app_actionList : command :=
  calling RListActions (either (fun a => match a with
    | AActions [] => printed ("no actions" +:+ newline) | AActions l => printed (table (action_table local l)) | _ => printed "" end)).
Definition app_deliveryList (req : ListDeliveriesRequest) : command :=
  calling (RListDeliveries req) (either (fun a => match a with
    | ADeliveries [] => printed ("no deliveries" +:+ newline) | ADeliveries l => printed (table (delivery_table l)) | _ => printed "" end)).
Definition app_messageList (req : ListMessagesRequest) : command :=
  calling (RListMessages req) (either (fun a => match a with
    | AMessages [] => printed ("no messages" +:+ newline) | AMessages l => printed (table (message_table local l)) | _ => printed "" end)).
Definition app_queueList : command :=
  calling RListQueues (either (fun a => match a with
    | AQueues [] => printed ("no queues" +:+ newline) | AQueues l => printed (table (queue_table l)) | _ => printed "" end)).

Definition app_actionShow (name : string) (version : Z) : command :=
  if version <? 0 then refuse ExitUsage (EVersion version) else calling (RShowAction name version) (fun a => writeJSON (reply_text a)).
Definition app_deliveryShow (id : string) : command := calling (RShowDelivery id) (fun a => writeJSON (reply_text a)).
Definition app_messageShow (id : string) : command := calling (RShowMessage id) (fun a => writeJSON (reply_text a)).

Definition app_actionSetEnabled (name : string) (enabled : bool) : command :=
  calling (RSetActionEnabled name enabled) (either (fun a => match a with
    | AEnabled r => printed (er_name r +:+ " " +:+ (if er_enabled r then "enabled" else "disabled") +:+
                                   " (version " +:+ Prelude.dec (er_version r) +:+ ")" +:+ newline)
    | _ => printed "" end)).

Definition app_deliveryReplay (id : string) : command :=
  calling (RReplayDelivery id) (either (fun a => match a with
    | ADelivery d => printed (ad_id d +:+ " replaying (action " +:+ ad_action d +:+ ")" +:+ newline)
    | _ => printed "" end)).
End Commands.

(** *** Lifecycle commands *)

Record statusJSON := mkStatus { st_running : bool; st_pid : Z; st_uptime_s : Z; st_version : string; st_socket : string }.
Definition statusJSON_fields : list (sfield statusJSON) := [
  Field "running" c_bool st_running (fun x '(mkStatus _ b c d e) => mkStatus x b c d e) always;
  Field "pid" c_int st_pid (fun x '(mkStatus a _ c d e) => mkStatus a x c d e) empty_int;
  Field "uptime_s" c_int st_uptime_s (fun x '(mkStatus a b _ d e) => mkStatus a b x d e) always;
  Field "version" c_string st_version (fun x '(mkStatus a b c _ e) => mkStatus a b c x e) empty_string;
  Field "socket" c_string st_socket (fun x '(mkStatus a b c d _) => mkStatus a b c d x) always ].
Definition c_statusJSON := c_struct (mkStatus false 0 0 "" "") statusJSON_fields.

(** status, by what Health answers and the instant Uptime reads. *)
Definition status (json_out : bool) (socket : string) (h : outcome HealthResponse) (now : time) : ran :=
  match h with
  | Refused (NoDaemon _) =>
      if json_out then
        let w := writeJSON (c_text c_statusJSON (mkStatus false 0 0 "" socket)) in
        match r_err w with
        | Some _ => w
        | None => mkRan ExitNotRunning (r_out w) (Some (ENotRunning socket))
        end
      else failf ExitNotRunning (ENotRunning socket)
  | Refused e => failf ExitOperational (EClient e)
  | Got h =>
      if json_out then writeJSON (c_text c_statusJSON (mkStatus true (h_pid h) (Z.quot (Uptime now h) Second) (h_version h) socket))
      else printed ("running  pid " +:+ Prelude.dec (h_pid h) +:+ "  uptime " +:+ Duration_String (Uptime now h) +:+
                          "  version " +:+ h_version h +:+ "  socket " +:+ socket +:+ newline)
  end.

(** The exit code tells a daemon that answers, no daemon, and any other failure
    apart. *)
Lemma status_exit json_out socket h now :
  r_code (status json_out socket h now) =
  match h with Got _ => ExitOK | Refused (NoDaemon _) => ExitNotRunning | Refused _ => ExitOperational end.
Proof.
  destruct h as [h|[m|c m|m]], json_out; try reflexivity. cbn [status]. unfold c_statusJSON, c_struct, c_text. cbn [struct_members statusJSON_fields sf_omit sf_get st_running st_pid st_uptime_s st_version st_socket].
  by destruct (empty_int (h_pid h)), (empty_string (h_version h)).
Qed.

(** up, by what EnsureRunning answers: the pid and whether it started it. *)
Definition up (ensured : result (Z * bool)) : ran :=
  match ensured with
  | Err e => failf ExitOperational (EStart e)
  | Ok (pid, started) => printed ((if started : bool then "daemon started" else "daemon already running") +:+ " (pid " +:+ Prelude.dec pid +:+ ")" +:+ newline)
  end.

(** *** The command tree *)

(** PersistentPreRunE: [None] lets the command run. *)
Definition PersistentPreRun {C} (bind : result unit) (load : result C) (output : string) : option ran :=
  match bind, load with
  | Err e, _ => Some (failf ExitOperational (EConfig e))
  | Ok _, Err e => Some (failf ExitOperational (EConfig e))
  | Ok _, Ok _ => if String.eqb output "table" || String.eqb output "json" then None else Some (failf ExitUsage (EOutput output))
  end.

(** The error of root.Execute: an *exitError, with its code, or any other. *)
Inductive root_error := ExitError (code : Z) | PlainError.

Definition Execute (e : option root_error) : Z :=
  match e with None => ExitOK | Some (ExitError code) => code | Some PlainError => ExitOperational end.

(** How cobra runs a command: flags, then the number of arguments, then the
    hooks; only the errors of flags pass SetFlagErrorFunc. *)
Definition root_run (flags_ok args_ok : bool) (prerun : option ran) (run : ran) : Z :=
  Execute (
    if negb flags_ok then Some (ExitError ExitUsage)
    else if negb args_ok then Some PlainError
    else match prerun with
    | Some r => Some (ExitError (r_code r))
    | None => match r_err run with Some _ => Some (ExitError (r_code run)) | None => None end
    end).

(** A wrong number of arguments exits like a failure of the daemon. *)
Lemma bad_arguments_operational prerun run : root_run true false prerun run = ExitOperational.
Proof. done. Qed.

(** The level of the logger: --verbose, else the configured one, else info. *)
Inductive level := LevelDebug | LevelInfo | LevelWarn | LevelError.
Definition logger (verbose : bool) (log_level : option string) : level :=
  if verbose then LevelDebug
  else match log_level with
  | Some l => if String.eqb l "debug" then LevelDebug else if String.eqb l "warn" then LevelWarn else if String.eqb l "error" then LevelError else LevelInfo
  | None => LevelInfo
  end.

(** ** The exit codes *)

(** Success and error go together. *)
Definition coherent (r : ran) : Prop := r_code r = ExitOK <-> r_err r = None.

Lemma failf_coherent code e : code <> ExitOK -> coherent (failf code e).
Proof. intros Hc. by split. Qed.
Lemma printed_coherent out : coherent (printed out).
Proof. by split. Qed.
#[local] Hint Resolve failf_coherent printed_coherent : core.

Lemma writeJSON_coherent t : coherent (writeJSON t).
Proof. destruct t; simpl; auto. Qed.
#[local] Hint Resolve writeJSON_coherent : core.

Lemma calling_coherent {W} socket ensured (Do : string -> string -> W -> exchange * W) r show w :
  (forall a, coherent (show a)) -> coherent (fst (calling socket ensured Do r show w)).
Proof.
  intros Hs. unfold calling. destruct ensured as [b|e]; [|by apply failf_coherent]. destruct (invoke socket Do r w) as [[a|e] w']; [apply Hs|by apply failf_coherent].
Qed.

(** ** The listings *)

(** What a listing shows: the rows of its table; the line of an empty one; the
    texts of its items that the store does not format itself. *)
Definition rows_of (local : time -> Z) (a : reply) : list (list string) :=
  match a with
  | AActions l => action_table local l
  | ADeliveries l => delivery_table l
  | AMessages l => message_table local l
  | AQueues l => queue_table l
  | _ => []
  end.
Definition nothing (a : reply) : string :=
  match a with AActions _ => "no actions" | ADeliveries _ => "no deliveries" | AMessages _ => "no messages" | AQueues _ => "no queues" | _ => "" end.
Definition free_texts (a : reply) : list string :=
  match a with
  | AActions l => l ≫= fun act => as_name act :: as_output act :: as_inputs act
  | ADeliveries l => l ≫= fun d => [ad_id d; ad_action d; ad_state d; strOr (ad_message_id d) ""; strOr (ad_error d) ""]
  | AMessages l => l ≫= fun m => [msg_id m; msg_queue m; msg_trace_id m]
  | AQueues l => l ≫= fun q => [qi_name q]
  | _ => []
  end.

Definition all_flat (l : list string) : Prop := List.Forall (fun c => flat c = true) l.

Lemma rows_map {A} k (header : list string) (row : A -> list string) (free : A -> list string) l :
  length header = S k -> all_flat header -> (forall x, length (row x) = S k) -> (forall x, all_flat (free x) -> all_flat (row x)) ->
  all_flat (l ≫= free) -> List.Forall (row_ok k) (header :: map row l).
Proof.
  intros Hh Hf Hl Hr Hfree. constructor; [done|]. induction l as [|x l IH]; [constructor|]. cbn in Hfree. apply List.Forall_app in Hfree as [Hx Hfree].
  constructor; [split; [done|by apply Hr]|by apply IH].
Qed.

Lemma flat_local_time local t : flat (local_time local t) = true.
Proof. unfold local_time. auto with flat. Qed.
#[local] Hint Resolve flat_local_time : flat.

Ltac flat_rows := repeat (first [apply List.Forall_nil | apply List.Forall_cons]); auto with flat.

Lemma table_rows local a : all_flat (free_texts a) -> rows_of local a <> [] -> exists k, (1 <= k)%nat /\ List.Forall (row_ok k) (rows_of local a).
Proof.
  destruct a as [|l| |l| |l| | |l|]; cbn [rows_of free_texts]; intros Hf Hne; try done.
  - exists 3%nat. split; [lia|]. eapply rows_map, Hf; [done|flat_rows|done|]. intros m Hm. repeat (inversion_clear Hm as [|? ? ? Hm']; rename Hm' into Hm). flat_rows.
  - exists 1%nat. split; [lia|]. eapply rows_map, Hf; [done|flat_rows|done|]. intros q Hq. inversion_clear Hq. flat_rows.
  - exists 5%nat. split; [lia|]. eapply rows_map, Hf; [done|flat_rows|done|]. intros act Ha. inversion_clear Ha as [|? ? Hn Ha']. inversion_clear Ha' as [|? ? Ho Hi].
    flat_rows; [by destruct (as_enabled act)|by destruct (String.eqb _ _)].
  - exists 5%nat. split; [lia|]. eapply rows_map, Hf; [done|flat_rows|done|]. intros d Hd. repeat (inversion_clear Hd as [|? ? ? Hd']; rename Hd' into Hd).
    flat_rows. by destruct (ad_message_id d).
Qed.

(** The listing commands, each with the call it makes. *)
Definition listings {W} json_out socket ensured (Do : string -> string -> W -> exchange * W) local dreq mreq : list (command (W := W) * rpc) := [
  (app_actionList json_out socket ensured Do local, RListActions);
  (app_deliveryList json_out socket ensured Do dreq, RListDeliveries dreq);
  (app_messageList json_out socket ensured Do local mreq, RListMessages mreq);
  (app_queueList json_out socket ensured Do, RListQueues) ].

(** C40. A listing makes its one call.  When the call is refused it exits 3 and
    prints nothing.  Otherwise it exits 0, and prints one line when there is
    nothing to list; else the header and one row for each item, in the order of
    the answer, every column as wide as its longest cell and two blanks, provided
    that the texts of the items have no tab or newline; the text of instants and
    of numbers never has. *)
Theorem tables_align {W} socket (Do : string -> string -> W -> exchange * W) local dreq mreq cmd r w :
  In (cmd, r) (listings false socket (Ok true) Do local dreq mreq) ->
  let res := fst (cmd w) in
  match fst (invoke socket Do r w) with
  | Refused e => res = failf ExitOperational (EClient e)
  | Got a => r_code res = ExitOK /\ r_err res = None /\
      ((length (rows_of local a) <= 1)%nat -> r_out res = nothing a +:+ newline) /\
      ((1 < length (rows_of local a))%nat -> all_flat (free_texts a) ->
         r_out res = String.concat "" (map (aligned (rows_of local a)) (rows_of local a)))
  end.
Proof.
  intros Hin.
  assert (forall a, rows_of local a <> [] -> all_flat (free_texts a) -> table (rows_of local a) = String.concat "" (map (aligned (rows_of local a)) (rows_of local a))) as Htable.
  { intros a Hne Hf. destruct (table_rows local a Hf Hne) as (k & Hk & Hr). by apply (tabwriter_rows k). }
  repeat destruct Hin as [[= <- <-]|Hin]; [..|done]; cbn; unfold calling, either, mapped, invoke.
  all: match goal with |- context [let '(_, _) := ?m in _] => destruct m as [[[|x l]|e] w'] end; cbn [got fst].
  all: try reflexivity.
  all: split_and!; try done; try (cbn; lia).
  all: intros _ Hf.
  - by rewrite <- (Htable (AActions (x :: l))).
  - by rewrite <- (Htable (ADeliveries (x :: l))).
  - by rewrite <- (Htable (AMessages (x :: l))).
  - by rewrite <- (Htable (AQueues (x :: l))).
Qed.

Definition demo_queues : string :=
  "{" +:+ dq "queues" +:+ ":[{" +:+ dq "name" +:+ ":" +:+ dq "a-long-queue" +:+ "," +:+ dq "messages" +:+ ":3},{" +:+ dq "name" +:+ ":" +:+ dq "raw" +:+ "," +:+ dq "messages" +:+ ":12}]}".

Lemma tables_align_witness :
  let Do := fun (_ _ : string) (w : unit) => (Answers 200 demo_queues, w) in
  r_out (fst (app_queueList false "s.sock" (Ok true) Do tt)) =
  "QUEUE         MESSAGES" +:+ newline +:+ "a-long-queue  3" +:+ newline +:+ "raw           12" +:+ newline.
Proof.
  intros Do.
  pose proof (tables_align "s.sock" Do (fun _ => 0) (mkListDlvs "" "" "" 0 "") (mkListMsgs "" "" 0 "")
                (app_queueList false "s.sock" (Ok true) Do) RListQueues tt ltac:(right; right; right; left; reflexivity)) as Ht.
  assert (fst (invoke "s.sock" Do RListQueues tt) = Got (AQueues [mkQueueInfo "a-long-queue" 3; mkQueueInfo "raw" 12])) as E by (vm_compute; reflexivity).
  rewrite E in Ht. destruct Ht as (_ & _ & _ & Ht). etransitivity; [apply Ht|].
  - vm_compute. lia.
  - repeat (constructor; [vm_compute; reflexivity|]). constructor.
  - vm_compute. reflexivity.
Defined.

(** ** A message from standard input *)

(** *** The headers of the flags *)

Definition text_member (x : string * json) : Prop := exists v, snd x = JStr v /\ utf8 v /\ utf8 (fst x).

Lemma cut_utf8 h : utf8 h -> forall k v, cut "=" h = Some (k, v) -> utf8 k /\ utf8 v.
Proof.
  assert (forall a, 0x80 <= code a -> Ascii.eqb a "=" = false) as Hne by (intros a Ha; apply Ascii.eqb_neq; intros ->; vm_compute in Ha; by apply Ha).
  assert (forall a, in_range 0x80 0xBF a = true -> 0x80 <= code a) as Hr by (intros a Ha; apply andb_true_iff in Ha as [Ha%Z.leb_le _]; done).
  induction 1 as [|c h Hc Hh IH|c c1 h Hc Hw Hh IH|c c1 c2 h Hc Hw Hh IH|c c1 c2 c3 h Hc Hw Hh IH]; intros k v Hcut; cbn [cut] in Hcut; [done|..].
  - destruct (Ascii.eqb c "="); [injection Hcut as <- <-; split; [constructor|done]|]. apply bind_Some in Hcut as ([k' v'] & Hk & [= <- <-]).
    destruct (IH _ _ Hk) as [Hk' Hv]. split; [by apply utf8_1|done].
  - pose proof (width_2_cont _ _ _ (Hw "")) as [H1 _]. rewrite (Hne c), (Hne c1) in Hcut by auto.
    destruct (cut "=" h) as [[k' v']|]; [|done]. injection Hcut as <- <-. destruct (IH _ _ eq_refl) as [Hk' Hv]. split; [by apply utf8_2|done].
  - pose proof (width_3_cont _ _ _ _ (Hw "")) as [H1 H2]. rewrite (Hne c), (Hne c1), (Hne c2) in Hcut by auto.
    destruct (cut "=" h) as [[k' v']|]; [|done]. injection Hcut as <- <-. destruct (IH _ _ eq_refl) as [Hk' Hv]. split; [by apply utf8_3|done].
  - pose proof (width_4_cont _ _ _ _ _ (Hw "")) as (H1 & H2 & H3 & _). rewrite (Hne c), (Hne c1), (Hne c2), (Hne c3) in Hcut by auto.
    destruct (cut "=" h) as [[k' v']|]; [|done]. injection Hcut as <- <-. destruct (IH _ _ eq_refl) as [Hk' Hv]. split; [by apply utf8_4|done].
Qed.

Lemma header_map_ok flags : forall acc headers, List.Forall utf8 flags -> ordered acc -> List.Forall text_member acc ->
  header_map acc flags = inl headers -> ordered headers /\ List.Forall text_member headers.
Proof.
  induction flags as [|h flags IH]; intros acc headers Hu Ho Ha; cbn [header_map]; [by intros [= <-]|]. inversion_clear Hu as [|? ? Hh Hu'].
  destruct (cut "=" h) as [[k v]|] eqn:Ec; [|done]. destruct (String.eqb k ""); [done|]. apply cut_utf8 in Ec as [Hk Hv]; [|done].
  apply IH; [done|by apply obj_put_ordered|]. apply obj_put_Forall; [|done]. by exists v.
Qed.

Lemma text_members_any l : List.Forall text_member l -> any_members l = Ok l.
Proof. induction 1 as [|[k x] l (v & Hx & _) Hl IH]; [done|]. cbn [snd] in Hx. subst x. cbn [any_members any rbind]. by rewrite IH. Qed.

Lemma text_members_good d l : List.Forall text_member l -> List.Forall (good_member d) l.
Proof. apply List.Forall_impl. intros [k x] (v & Hx & Hv & Hk). cbn [fst snd] in *. subst x. by split. Qed.

(** *** The command *)

Definition well_formed_send (flags : list string) (payload : string) : bool :=
  negb (String.eqb (trim_space payload) "") && valid payload && match header_map [] flags with inl _ => true | inr _ => false end.

Lemma app_send_refused {W} json_out socket ensured (Do : string -> string -> W -> exchange * W) queue flags payload w :
  well_formed_send flags payload = false ->
  let '(r, w') := app_send json_out socket ensured Do queue flags (Ok payload) w in r_code r = ExitUsage /\ w' = w.
Proof.
  unfold well_formed_send, app_send. destruct (String.eqb (trim_space payload) ""); [done|]. destruct (valid payload); [|done].
  by destruct (header_map [] flags).
Qed.

Section Served.
Context {G : Type} `{IdSource G} `{CelLib} (json_out : bool) (socket : string) (now : time) (fate : cancel_fate).

(** C16. sonata send, from standard input to the store.  An empty or
    invalid payload and a malformed --header are usage errors (exit 2) and no
    request is made; when no daemon can be started it exits 3.  Otherwise either
    it exits 3 with nothing stored, or it exits 0 having stored exactly one
    message, with its fan-out, whose payload is the JSON value given (compacted)
    and whose headers are those of the flags and hops; it prints the identifier
    of that message. *)
Theorem send_command queue flags payload v ensured (s : sched G) :
  dense (t_actions (s_db s)) -> time_ok now -> List.Forall utf8 flags ->
  (well_formed_send flags payload = true -> fits (max_nesting - 1) payload v) ->
  (forall headers t, header_map [] flags = inl headers -> c_text c_SendMessageRequest (mkSend queue payload headers) = Ok t -> Z.of_nat (String.length t) <= max_body) ->
  let '(r, s') := app_send json_out socket ensured (serving now fate) queue flags (Ok payload) s in
  if well_formed_send flags payload then
    match ensured with
    | Err _ => r_code r = ExitOperational /\ s' = s
    | Ok _ => exists headers, header_map [] flags = inl headers /\
        let req := mkSend (to_valid queue) (compact false false payload) headers in
        parse (sm_payload req) = Some v /\ parse payload = Some v /\
        (r_code r = ExitOK /\ sendable req = true /\ stored_by_send req now s s' /\
           (json_out = false -> r_out r = (to_valid (msg_id (sent_message req now s)) +:+ newline)) \/
         r_code r = ExitOperational /\ s_db s' = s_db s /\ s_active s' = s_active s)
    end
  else r_code r = ExitUsage /\ s' = s.
Proof.
  intros Hd Hnow Hflags Hfits Hsize. destruct (well_formed_send flags payload) eqn:Ew; [|by apply app_send_refused].
  specialize (Hfits eq_refl). unfold well_formed_send in Ew. apply andb_true_iff in Ew as [Ew Eh]. apply andb_true_iff in Ew as [Et Ev]. apply negb_true_iff in Et.
  unfold app_send. rewrite Et, Ev. cbn [negb]. destruct (header_map [] flags) as [headers|h] eqn:Ehm; [|done]. unfold calling.
  destruct ensured as [b|e]; [|done]. destruct (header_map_ok flags [] headers Hflags ltac:(constructor) ltac:(constructor) Ehm) as [Ho Hh].
  assert (sendable_body c_SendMessageRequest (mkSend queue payload headers)) as Hok.
  { split; [|intros t; by apply Hsize]. split; [done|]. apply List.Forall_cons; [by right|]. apply List.Forall_cons; [right; by exists v|].
    apply List.Forall_cons; [|apply List.Forall_nil]. right. split; [done|]. split; [|by apply text_members_any].
    apply good_obj. split; [done|]. by apply text_members_good. }
  pose proof (send_served socket now fate _ s Hok) as Hc. set (req := c_norm c_SendMessageRequest (mkSend queue payload headers)) in Hc.
  change req with (mkSend (to_valid queue) (compact false false payload) headers) in Hc. clear req. set (req := mkSend (to_valid queue) (compact false false payload) headers) in *.
  pose proof (messageSend_outcome req now s Hd) as Hm. destruct (messageSend req now s) as [m s'].
  destruct (invoke socket (serving now fate) (RSendMessage (mkSend queue payload headers)) s) as [o s'']. destruct Hc as [-> Hc].
  assert (parse payload = Some v) as Hp by (apply parse_fits; by apply (fits_deeper (max_nesting - 1))).
  assert (parse (compact false false payload) = Some v) as Hq by by apply (clean_parse (max_nesting - 1)), compact_reads.
  destruct m as [a|e].
  - destruct Hm as (Hs & Hstored & ->). rewrite Hc by (split; [done|]; repeat (first [apply List.Forall_nil | apply List.Forall_cons; [by right|]])).
    exists headers. split; [done|]. split; [done|]. split; [done|]. left. split_and!; [|done|done|by intros ->].
    unfold either. destruct json_out; [|done]. cbn. by rewrite decide_True.
  - destruct Hm as (H1 & H2 & _). destruct Hc as [[e' ->] _]. exists headers. split_and!; [done..|]. right. done.
Qed.
End Served.

(** *** [echo '{"n": 1}' | sonata send --header who=me raw] *)

Definition demo_payload : string := "{" +:+ dq "n" +:+ ": 1}" +:+ newline.

Lemma send_command_witness :
  exists r s', app_send false "s.sock" (Ok false) (serving (H0 := toy_cel) Second Served) "raw" ["who=me"] (Ok demo_payload) demo_seed = (r, s') /\
    r_code r = ExitOK /\ s_active s' - s_active demo_seed = active (s_db s') - active (s_db demo_seed).
Proof.
  pose proof (send_command (H0 := toy_cel) false "s.sock" Second Served "raw" ["who=me"] demo_payload (JObj [("n", JNum "1")]) (Ok false) demo_seed demo_dense) as Ht.
  specialize (Ht ltac:(vm_compute; intuition congruence) ltac:(constructor; [apply utf8_ascii; reflexivity|constructor])).
  specialize (Ht ltac:(intros _; eexists; split; vm_compute; reflexivity)).
  specialize (Ht ltac:(intros h t Hh Htx; vm_compute in Hh; injection Hh as <-; vm_compute in Htx; injection Htx as <-; vm_compute; discriminate)).
  destruct (app_send _ _ _ _ _ _ _ _) as [r s'] eqn:E.
  assert (Hok : r_code (fst (app_send false "s.sock" (Ok false) (serving (H0 := toy_cel) Second Served) "raw" ["who=me"] (Ok demo_payload) demo_seed)) = ExitOK) by (vm_compute; reflexivity).
  rewrite E in Hok. cbn [fst] in Hok. exists r, s'. split; [reflexivity|]. split; [exact Hok|].
  change (well_formed_send ["who=me"] demo_payload) with true in Ht. destruct Ht as (h & _ & _ & _ & [(_ & _ & Hs & _)|[Hc _]]).
  - destruct Hs as (ids & names & _ & _ & _ & Ha & _). exact Ha.
  - exfalso. rewrite Hok in Hc. discriminate Hc.
Defined.
