(* ===== verification/Sound.v ===== *)
(** What the database holds: the invariant every writer keeps.

    The theorems on the store assume tables whose texts parse, whose keys are
    unique and whose references resolve.  [store_sound] collects these, [write_op]
    are the writes the program performs with what their callers guarantee, and
    [store_typed] is the invariant: requests, dispatches, results and recovery,
    in any order and with any writes of others in between, keep it.  On such a
    store no request fails inside ([never_internal]) and no outcome is lost. *)
From S2P Require Import Prelude GoTime Float64 Json JsonText RawText Action DurationText Cel Validate Canon Ids Db Registry Deliveries Messages Wire Executor Scheduler System Api.

(** ** Rows *)

(** The text of an instant, as the store writes it. *)
Definition stored_time (s : string) : Prop := exists t, time_ok t /\ s = fmt_time t.
Definition opt_time (o : option string) : Prop := forall s, o = Some s -> stored_time s.

Record message_sound (m : mrow) : Prop := {
  ms_payload : valid (msg_payload m) = true;
  ms_headers : valid (msg_headers m) = true;
  ms_created : stored_time (msg_created_at m)
}.

(** Times are texts of instants, and a failed delivery has a gate. *)
Record delivery_sound (r : drow) : Prop := {
  ds_not_before : opt_time (d_not_before r);
  ds_claimed : opt_time (d_claimed_at r);
  ds_completed : opt_time (d_completed_at r);
  ds_gate : d_state r = StateFailed -> d_not_before r <> None
}.

Section Rows.
Context `{CelLib}.

(** A definition is the canonical text of one that was accepted. *)
Record action_sound (r : arow) : Prop := {
  as_created : stored_time (ac_created_at r);
  as_definition : exists data a, ParseJSON data = Ok a /\ ac_definition r = print (action_json a) /\ ac_name r = act_name a
}.

Definition references (d : db) : Prop :=
  forall r, In r (t_deliveries d) -> exists i, d_message_id r = Some i /\ i ∈ map msg_id (t_messages d).

Record store_sound (d : db) : Prop := {
  ss_message_ids : NoDup (map msg_id (t_messages d));
  ss_delivery_ids : NoDup (map d_id (t_deliveries d));
  ss_versions : dense (t_actions d);
  ss_messages : List.Forall message_sound (t_messages d);
  ss_actions : List.Forall action_sound (t_actions d);
  ss_deliveries : List.Forall delivery_sound (t_deliveries d);
  ss_references : references d
}.

Lemma empty_sound : store_sound empty_db.
Proof. split; simpl; [apply NoDup_nil_2|apply NoDup_nil_2|by intros name|apply List.Forall_nil|apply List.Forall_nil|apply List.Forall_nil|by intros r []]. Qed.

(** *** Updates of deliveries *)

Lemma sound_update p f d :
  keeps_id f -> (forall r, d_message_id (f r) = d_message_id r) ->
  (forall r, p r = true -> delivery_sound r -> delivery_sound (f r)) ->
  store_sound d -> store_sound (set_deliveries (update p f (t_deliveries d)) d).
Proof.
  intros Hk Hm Hf [S1 S2 S3 S4 S5 S6 S7]. split; simpl; try done.
  - by rewrite map_update.
  - unfold update. apply List.Forall_map. eapply List.Forall_impl; [|exact S6]. intros r Hr. destruct (p r) eqn:E; auto.
  - intros r Hr. simpl in Hr. unfold update in Hr. apply in_map_iff in Hr as (x & <- & Hx). destruct (S7 x Hx) as (i & Hi & Hin).
    exists i. split; [|done]. destruct (p x); [by rewrite Hm|done].
Qed.

Lemma opt_none : opt_time None.
Proof. done. Qed.
Lemma opt_some t : time_ok t -> opt_time (Some (fmt_time t)).
Proof. intros Ht s [= <-]. by exists t. Qed.
#[local] Hint Resolve opt_none opt_some : core.

Lemma claim_row_sound v now r : time_ok now -> delivery_sound r -> delivery_sound (claim_row v (fmt_time now) r).
Proof. intros Ht [D1 D2 D3 D4]. by split; simpl; auto. Qed.
Lemma resolve_row_sound st msg now r : st <> StateFailed -> time_ok now -> delivery_sound r -> delivery_sound (resolve_row st msg (fmt_time now) r).
Proof. intros Hs Ht [D1 D2 D3 D4]. by split; simpl; auto. Qed.
Lemma pgid_sound pgid r : delivery_sound r -> delivery_sound (pgid_row pgid r).
Proof. intros [D1 D2 D3 D4]. by split. Qed.
Lemma done_sound tail now r : time_ok now -> delivery_sound r -> delivery_sound (done_row tail (fmt_time now) r).
Proof. intros Ht [D1 D2 D3 D4]. by split; simpl; auto. Qed.
Lemma failed_sound isdead gate msg tail now r : time_ok now -> time_ok gate -> delivery_sound r ->
  delivery_sound (failed_row isdead (fmt_time gate) msg tail (fmt_time now) r).
Proof. intros Ht Hg [D1 D2 D3 D4]. destruct isdead; by split; simpl; auto. Qed.
Lemma replay_sound r : delivery_sound (replay_row r).
Proof. by split. Qed.
Lemma cancel_sound reason now r : time_ok now -> delivery_sound r -> delivery_sound (cancel_row reason (fmt_time now) r).
Proof. intros Ht [D1 D2 D3 D4]. by split; simpl; auto. Qed.
Lemma orphan_sound now r : time_ok now -> delivery_sound r -> delivery_sound (orphan_row (fmt_time now) r).
Proof. intros Ht [D1 D2 D3 D4]. by split; simpl; auto. Qed.

(** *** Inserts *)

(** A message its writer may store. *)
Record message_ok (m : message) : Prop := {
  mo_payload : valid (msg_payload m) = true;
  mo_headers : valid (msg_headers m) = true;
  mo_created : time_ok (msg_created_at m)
}.

Lemma row_sound m : message_ok m -> message_sound (row_of_message m).
Proof. intros [M1 M2 M3]. split; [done..|]. by exists (msg_created_at m). Qed.

Lemma appended_sound m ids names d d' :
  message_ok m -> message_fresh m d -> appended m ids names d d' -> NoDup (map d_id (t_deliveries d')) ->
  store_sound d -> store_sound d'.
Proof.
  intros Hm [Hf _] (_ & _ & ->) Hnd [S1 S2 S3 S4 S5 S6 S7]. simpl in Hnd. split; simpl; try done.
  - rewrite map_app. apply NoDup_app. split_and!; [done| |apply NoDup_singleton]. intros x Hx Hx'.
    apply list_elem_of_singleton in Hx' as ->. by apply Hf.
  - apply List.Forall_app. split; [done|]. constructor; [by apply row_sound|constructor].
  - apply List.Forall_app. split; [done|]. apply List.Forall_forall. intros r Hr. apply list_elem_of_In, elem_of_zip_with in Hr as (i & n & -> & _). by split.
  - intros r Hr. simpl in Hr |- *. rewrite map_app. apply in_app_or in Hr as [Hr|Hr].
    + destruct (S7 r Hr) as (i & Hi & Hin). exists i. split; [done|]. apply elem_of_app. by left.
    + apply list_elem_of_In, elem_of_zip_with in Hr as (i & n & -> & _). exists (msg_id m). split; [done|]. apply elem_of_app. right. left.
Qed.

(** *** The registry *)

Lemma action_times t : List.Forall action_sound t -> times_ok t.
Proof.
  intros Ht. apply Forall_forall. intros r Hr. rewrite List.Forall_forall in Ht. apply list_elem_of_In, Ht in Hr as [(t0 & H0 & ->) _]. by rewrite parse_fmt_time.
Qed.

Lemma sound_registry d : store_sound d -> registry_wf (t_actions d).
Proof. intros Hs. split; [apply (ss_versions _ Hs)|apply action_times, (ss_actions _ Hs)]. Qed.

Lemma sound_set_actions d t : dense t -> List.Forall action_sound t -> store_sound d -> store_sound (set_actions t d).
Proof. intros Hd Ht [S1 S2 S3 S4 S5 S6 S7]. by split. Qed.
End Rows.

(** ** Worlds: the database and the generator of identifiers *)

Section World.
Context {G : Type} `{IdSource G} `{CelLib}.

(** [g'] is [g] after some draws. *)
Definition advances (g g' : G) : Prop := exists n, g' = snd (draw n g).

Lemma advances_refl g : advances g g.
Proof. by exists 0%nat. Qed.
Lemma advances_new g g' : advances (snd (new_id g)) g' -> advances g g'.
Proof. intros [n ->]. exists (S n). simpl. destruct (new_id g) as [s g1]. simpl. by destruct (draw n g1). Qed.
Lemma advances_trans g1 g2 g3 : advances g1 g2 -> advances g2 g3 -> advances g1 g3.
Proof.
  intros [n ->]. revert g1. induction n as [|n IH]; intros g1 Ha; [done|]. apply advances_new, IH. simpl in Ha.
  destruct (new_id g1) as [s g]. simpl. by destruct (draw n g).
Qed.

(** Older than whatever will be issued, as long as anything is. *)
Definition issued (g : G) (id : string) : Prop := id_live g -> id_below g id.

Lemma advances_wf g g' : id_wf g -> advances g g' -> id_wf g'.
Proof. intros Hg [n ->]. by apply draw_wf. Qed.

Lemma issued_new g id : id_wf g -> issued g id -> issued (snd (new_id g)) id.
Proof. intros Hg Hi Hl. apply id_below_mono; [done|]. by apply Hi, new_id_live. Qed.

Lemma issued_advances g g' id : id_wf g -> advances g g' -> issued g id -> issued g' id.
Proof.
  intros Hg [n ->]. revert g Hg. induction n as [|n IH]; intros g Hg Hi; [done|]. specialize (IH _ (new_id_wf g Hg) (issued_new _ _ Hg Hi)).
  simpl. destruct (new_id g) as [s g1]. simpl in *. by destruct (draw n g1).
Qed.

Lemma new_issued g : id_wf g -> issued (snd (new_id g)) (fst (new_id g)).
Proof. intros Hg Hl. by apply new_id_below. Qed.

Lemma draw_issued n g : id_wf g -> List.Forall (issued (snd (draw n g))) (fst (draw n g)).
Proof.
  revert g. induction n as [|n IH]; intros g Hg; [constructor|]. specialize (IH _ (new_id_wf g Hg)). pose proof (new_issued g Hg) as Hn.
  pose proof (issued_advances _ (snd (draw n (snd (new_id g)))) _ (new_id_wf g Hg) (ex_intro _ n eq_refl) Hn) as Hn'.
  simpl. destruct (new_id g) as [s g1]. simpl in *. destruct (draw n g1) as [l g2]. simpl in *. by constructor.
Qed.

(** A transaction only draws identifiers. *)
Definition draws {A} (m : tx G A) : Prop := forall d g, advances g (snd (m d g)).

Lemma draws_bind {A B} (m : tx G A) (k : A -> tx G B) : draws m -> (forall a, draws (k a)) -> draws (tx_bind m k).
Proof.
  intros Hm Hk d g. unfold tx_bind. specialize (Hm d g). destruct (m d g) as [[[a d1]|e] g1]; simpl in *; [|done].
  eapply advances_trans; [exact Hm|apply Hk].
Qed.
Lemma draws_ret {A} (a : A) : draws (tx_ret a).
Proof. intros d g. apply advances_refl. Qed.
Lemma draws_fail {A} e : draws (tx_fail (A := A) e).
Proof. intros d g. apply advances_refl. Qed.
Lemma draws_query {A} (q : db -> result A) : draws (tx_query q).
Proof. intros d g. unfold tx_query, tx_of. destruct (q d); apply advances_refl. Qed.
Lemma draws_modify f : draws (tx_modify (G := G) f).
Proof. intros d g. apply advances_refl. Qed.
Lemma draws_new : draws (tx_new_id (G := G)).
Proof. intros d g. unfold tx_new_id. apply advances_new. destruct (new_id g). apply advances_refl. Qed.
Lemma draws_update p f : draws (update_deliveries (G := G) p f).
Proof. intros d g. apply advances_refl. Qed.
Lemma draws_insert_delivery id mid name : draws (insertDelivery (G := G) id mid name).
Proof. intros d g. unfold insertDelivery. case_match; apply advances_refl. Qed.
Lemma draws_insert_message m : draws (insertMessage (G := G) m).
Proof. intros d g. unfold insertMessage. case_match; apply advances_refl. Qed.
Lemma draws_insert_action a : draws (insertAction (G := G) a).
Proof. intros d g. unfold insertAction. case_match; apply advances_refl. Qed.
Create HintDb draws.
#[local] Hint Resolve draws_bind draws_ret draws_fail draws_query draws_modify draws_new draws_update draws_insert_delivery draws_insert_message draws_insert_action : draws.

Lemma draws_insert_deliveries mid names : draws (insert_deliveries (G := G) mid names).
Proof. induction names; simpl; auto 10 with draws. Qed.
Lemma draws_materialize m : draws (materializeDeliveries (G := G) m).
Proof. pose proof draws_insert_deliveries. unfold materializeDeliveries. auto 10 with draws. Qed.
Lemma draws_append m : draws (append_tx (G := G) m).
Proof. pose proof draws_materialize. unfold append_tx. auto with draws. Qed.
Lemma draws_outputs outs : draws (append_outputs (G := G) outs).
Proof. pose proof draws_materialize. induction outs; cbn [append_outputs]; auto 10 with draws. Qed.
Lemma draws_transition op id p f : draws (transition (G := G) op id p f).
Proof. unfold transition. apply draws_bind; [auto with draws|]. intros [|n]; simpl; auto with draws. Qed.

(** *** Soundness of a world *)

Record sound_at (d : db) (g : G) : Prop := {
  sa_db : store_sound d;
  sa_gen : id_wf g;
  sa_messages : List.Forall (issued g) (map msg_id (t_messages d));
  sa_deliveries : List.Forall (issued g) (map d_id (t_deliveries d))
}.
Definition world_sound (w : world G) : Prop := sound_at (w_db w) (w_gen w).

Lemma sound_advances d g g' : advances g g' -> sound_at d g -> sound_at d g'.
Proof.
  intros Ha [S1 S2 S3 S4]. split; [done|by eapply advances_wf|..]; (eapply List.Forall_impl; [|eassumption]; intros; by eapply issued_advances).
Qed.

Lemma write_keeps {A} (m : tx G A) (w w' : world G) r :
  draws m -> world_sound w -> (forall a, r = Ok a -> m (w_db w) (w_gen w) = (Ok (a, w_db w'), w_gen w') -> world_sound w') ->
  write m w = (r, w') -> world_sound w'.
Proof.
  intros Hm Hs Hok Hw. destruct r as [a|e]; [by apply (Hok a), write_ok|].
  pose proof (write_error _ _ _ _ Hw) as Hd. unfold world_sound. rewrite Hd. eapply sound_advances; [|exact Hs].
  specialize (Hm (w_db w) (w_gen w)). unfold write, next_fault in Hw. destruct w as [d g fs]; simpl in *.
  destruct fs as [|[f|] fs]; simpl in Hw; [|injection Hw as _ <-; apply advances_refl|];
    (destruct (m d g) as [[[a d']|e'] g']; simpl in *; [|by injection Hw as _ <-]); [discriminate Hw|].
  destruct fs as [|[f'|] fs']; simpl in Hw; (discriminate Hw || by injection Hw as _ <-).
Qed.

(** Updates of deliveries keep every key. *)
Lemma update_keeps p f d g :
  keeps_id f -> (forall r, d_message_id (f r) = d_message_id r) -> (forall r, p r = true -> delivery_sound r -> delivery_sound (f r)) ->
  sound_at d g -> sound_at (set_deliveries (update p f (t_deliveries d)) d) g.
Proof. intros Hk Hm Hf [S1 S2 S3 S4]. split; [by apply sound_update|done|done|]. simpl. by rewrite map_update. Qed.

(** A statement that only reads. *)
Definition reads {A} (m : tx G A) : Prop := forall d g, snd (m d g) = g /\ forall a d' g', m d g = (Ok (a, d'), g') -> d' = d.

Lemma reads_ret {A} (a : A) : reads (tx_ret a).
Proof. intros d g. split; [done|]. by intros b d' g' [= _ <- _]. Qed.
Lemma reads_query {A} (q : db -> result A) : reads (tx_query q).
Proof. intros d g. unfold tx_query, tx_of. destruct (q d); (split; [done|]); [by intros b d' g' [= _ <- _]|done]. Qed.
Lemma reads_affect n op id : reads (mustAffect (G := G) n op id).
Proof. destruct n; [|apply reads_ret]. intros d g. by split. Qed.

(** What an UPDATE may do to the rows it matches. *)
Record row_update (p : drow -> bool) (f : drow -> drow) : Prop := {
  ru_id : keeps_id f;
  ru_message : forall r, d_message_id (f r) = d_message_id r;
  ru_sound : forall r, p r = true -> delivery_sound r -> delivery_sound (f r)
}.

Lemma update_tx_keeps {B} p f (k : nat -> tx G B) d g b d' g' :
  row_update p f -> (forall n, reads (k n)) -> sound_at d g -> (n <-t update_deliveries p f ;; k n) d g = (Ok (b, d'), g') -> sound_at d' g'.
Proof.
  intros [U1 U2 U3] Hk Hs Hx. apply tx_bind_ok in Hx as (n & d1 & g1 & Hu & Hx). injection Hu as <- <- <-.
  match type of Hx with k ?n ?d ?g = _ => destruct (Hk n d g) as [Hg Hd] end. rewrite Hx in Hg. cbn [snd] in Hg. apply Hd in Hx as ->. rewrite Hg.
  by apply update_keeps.
Qed.

Lemma update_write_keeps {B} p f (k : nat -> tx G B) (w w' : world G) r :
  row_update p f -> (forall n, reads (k n)) -> world_sound w -> write (n <-t update_deliveries p f ;; k n) w = (r, w') -> world_sound w'.
Proof.
  intros Hu Hk Hs. apply write_keeps; [|done|intros b _; by apply update_tx_keeps].
  apply draws_bind; [apply draws_update|]. intros n d g. destruct (Hk n d g) as [-> _]. apply advances_refl.
Qed.

(** *** Appends *)

Lemma insert_deliveries_draws mid names d (g : G) d' g' :
  insert_deliveries mid names d g = (Ok (tt, d'), g') ->
  d' = set_deliveries (t_deliveries d ++ zip_with (fun i n => pending_row i mid n) (fst (draw (length names) g)) names) d /\
  g' = snd (draw (length names) g).
Proof.
  revert d g. induction names as [|name names IH]; intros d g; cbn [insert_deliveries].
  - intros [= <- <-]. simpl. rewrite app_nil_r. by destruct d.
  - intros Hr. apply tx_bind_ok in Hr as (id & d1 & g1 & Hid & Hr). apply tx_bind_ok in Hr as ([] & d2 & g2 & Hi & Hr).
    unfold tx_new_id in Hid. destruct (new_id g) as [i g3] eqn:En. injection Hid as -> -> ->.
    unfold insertDelivery in Hi. match type of Hi with (if ?b then _ else _) = _ => destruct b; [done|] end. injection Hi as <- <-.
    apply IH in Hr as [-> ->]. cbn [length draw]. rewrite En. destruct (draw (length names) g1) as [l g4]. simpl.
    split; [|done]. unfold set_deliveries; simpl. by rewrite <- app_assoc.
Qed.

Lemma append_keeps m d (g : G) n d' g' :
  message_ok m -> issued g (msg_id m) -> sound_at d g -> append_tx m d g = (Ok (n, d'), g') -> sound_at d' g'.
Proof.
  intros Hm Hi Hs Ha. pose proof Ha as Hb. apply append_ok in Hb as (ids & names & _ & Hf & Hap). pose proof (append_tx_NoDup _ _ _ _ _ _ Ha (ss_delivery_ids _ (sa_db _ _ Hs))) as Hnd.
  pose proof (draws_append m d g) as Hd. rewrite Ha in Hd. cbn [snd] in Hd. pose proof Hs as Hs'. apply (sound_advances _ _ _ Hd) in Hs' as [S1 S2 S3 S4].
  assert (List.Forall (issued g') (map d_id (t_deliveries d')) /\ t_messages d' = t_messages d ++ [row_of_message m]) as [Hx Ht].
  { unfold append_tx in Ha. apply tx_bind_ok in Ha as ([] & d1 & g1 & Him & Ha).
    destruct (insertMessage_cases m d g) as [(_ & Hi')|(_ & e & Hi')]; rewrite Hi' in Him; [|done]. injection Him as <- <-.
    unfold materializeDeliveries in Ha. apply tx_bind_ok in Ha as (ns & d2 & g2 & Hq & Ha). unfold tx_query, tx_of in Hq.
    destruct (subscriber_names _ _) as [ns'|]; [|done]. injection Hq as <- <- <-.
    apply tx_bind_ok in Ha as ([] & d3 & g3 & Hins & Ha). unfold tx_ret in Ha. injection Ha as _ <- <-.
    apply insert_deliveries_draws in Hins as [-> ->]. split; [|done]. simpl. rewrite map_app. apply List.Forall_app. split; [done|].
    pose proof (draw_issued (length ns') g (sa_gen _ _ Hs)) as Hl. apply List.Forall_forall. intros x Hx. apply in_map_iff in Hx as (r & <- & Hr).
    apply list_elem_of_In, list_elem_of_lookup in Hr as [k Hr]. rewrite lookup_zip_with in Hr. destruct (fst (draw (length ns') g) !! k) as [i|] eqn:Ei; [|done].
    simpl in Hr. destruct (ns' !! k); [|done]. injection Hr as <-. rewrite List.Forall_forall in Hl. apply Hl, list_elem_of_In, list_elem_of_lookup. by exists k. }
  split; [by eapply appended_sound; [..|apply (sa_db _ _ Hs)]|done| |done]. rewrite Ht, map_app. apply List.Forall_app. split; [done|].
  constructor; [|constructor]. by eapply issued_advances; [apply (sa_gen _ _ Hs)|exact Hd|].
Qed.

Lemma outputs_keep outs : forall d (g : G) n d' g',
  List.Forall message_ok outs -> List.Forall (issued g) (map msg_id outs) -> sound_at d g ->
  append_outputs outs d g = (Ok (n, d'), g') -> sound_at d' g'.
Proof.
  induction outs as [|m outs IH]; intros d g n d' g' Hm Hi Hs; cbn [append_outputs]; [by intros [= _ <- <-]|].
  intros Hr. apply tx_bind_ok in Hr as ([] & d1 & g1 & Hin & Hr). apply tx_bind_ok in Hr as (k & d2 & g2 & Hmat & Hr).
  apply tx_bind_ok in Hr as (j & d3 & g3 & Ho & Hr). unfold tx_ret in Hr. injection Hr as _ <- <-.
  inversion_clear Hm as [|? ? Hm1 Hm2]. cbn [map] in Hi. inversion_clear Hi as [|? ? Hi1 Hi2].
  assert (append_tx m d g = (Ok (k, d2), g2)) as Ha by (unfold append_tx, tx_bind; by rewrite Hin).
  pose proof (draws_append m d g) as Hd. rewrite Ha in Hd. cbn [snd] in Hd.
  apply (IH d2 g2 j d3 g3); [done| |by eapply append_keeps|done].
  eapply List.Forall_impl; [|exact Hi2]. intros i Hx. by eapply issued_advances; [apply (sa_gen _ _ Hs)|..].
Qed.

(** ** The writes of the program

    Each with what its callers guarantee; [op_read] is anything that leaves the
    database alone. *)
Inductive write_op : world G -> world G -> Prop :=
| op_read w w' : w_db w' = w_db w -> advances (w_gen w) (w_gen w') -> write_op w w'
| op_append m r w w' : message_ok m -> issued (w_gen w) (msg_id m) -> AppendMessage m w = (r, w') -> write_op w w'
| op_claim id v now r w w' : time_ok now -> ClaimDelivery id v now w = (r, w') -> write_op w w'
| op_resolve id st msg now r w w' : st <> StateFailed -> time_ok now -> ResolveDelivery id st msg now w = (r, w') -> write_op w w'
| op_pgid id pgid r w w' : SetDeliveryPgid id pgid w = (r, w') -> write_op w w'
| op_complete id tail outs now r w w' :
    time_ok now -> List.Forall message_ok outs -> List.Forall (issued (w_gen w)) (map msg_id outs) ->
    CompleteDelivery id tail outs now w = (r, w') -> write_op w w'
| op_fail id isdead gate msg tail now r w w' :
    time_ok now -> time_ok gate -> FailDelivery id isdead gate msg tail now w = (r, w') -> write_op w w'
| op_replay id r w w' : ReplayDelivery id w = (r, w') -> write_op w w'
| op_cancel name reason now r w w' : time_ok now -> CancelDeliveries name reason now w = (r, w') -> write_op w w'
| op_orphan id now r w w' : time_ok now -> ResetOrphan id now w = (r, w') -> write_op w w'
| op_apply data a now r w w' :
    ParseJSON data = Ok a -> time_ok now -> ApplyAction (act_name a) (print (action_json a)) now w = (r, w') -> write_op w w'
| op_enable name on r w w' : SetActionEnabled name on w = (r, w') -> write_op w w'.

Lemma apply_keeps data a now (w w' : world G) r :
  ParseJSON data = Ok a -> time_ok now -> world_sound w -> ApplyAction (act_name a) (print (action_json a)) now w = (r, w') -> world_sound w'.
Proof.
  intros Hp Hnow Hs. remember (print (action_json a)) as def eqn:Edef. intros Ha.
  pose proof (sound_registry _ (sa_db _ _ Hs)) as Hwf. pose proof (ApplyAction_cases (act_name a) def now w Hwf Hnow) as Hc. rewrite Ha in Hc.
  unfold ApplyAction in Ha. revert Ha. apply write_keeps; [|done|].
  { apply draws_bind; [apply draws_query|]. assert (forall cur, draws (applyInsert (G := G) (act_name a) def now cur)) as Hi
      by (intros cur; unfold applyInsert; apply draws_bind; [apply draws_insert_action|intros; apply draws_ret]).
    intros [cur|]; [|apply Hi]. destruct (String.eqb _ _); [apply draws_ret|apply Hi]. }
  intros x -> Hx. destruct x as [x changed]. destruct Hc as ([Hd _] & _). apply tx_bind_ok in Hx as (o & d1 & g1 & Hq & Hx). unfold tx_query, tx_of in Hq.
  assert (d1 = w_db w /\ g1 = w_gen w) as [-> ->] by (match type of Hq with (match ?m with _ => _ end) = _ => destruct m end; [by injection Hq|done]).
  assert (forall cur, applyInsert (act_name a) def now cur (w_db w) (w_gen w) = (Ok (x, changed, w_db w'), w_gen w') -> world_sound w') as Hins.
  { intros cur Hi. unfold applyInsert in Hi. apply tx_bind_ok in Hi as (u & d2 & g2 & Hi & Hr). unfold insertAction in Hi.
    destruct (existsb _ _); [done|]. injection Hi as _ <- <-. unfold tx_ret in Hr. injection Hr as _ _ Hdb Hg. destruct Hs as [S1 S2 S3 S4].
    unfold world_sound. rewrite <- Hdb, <- Hg. rewrite <- Hdb in Hd. split; [|done..]. apply sound_set_actions; [done| |done]. apply List.Forall_app.
    split; [apply (ss_actions _ S1)|]. constructor; [|constructor]. split; [by exists now|]. by exists data, a. }
  destruct o as [cur|]; [|by eapply Hins]. destruct (String.eqb _ _); [|by eapply Hins]. unfold tx_ret in Hx.
  injection Hx as _ _ Hdb Hg. unfold world_sound. by rewrite <- Hdb, <- Hg.
Qed.

Lemma enable_keeps name on (w w' : world G) r : world_sound w -> SetActionEnabled name on w = (r, w') -> world_sound w'.
Proof.
  intros Hs Ha. pose proof (SetActionEnabled_cases name on w (sound_registry _ (sa_db _ _ Hs))) as Hc. rewrite Ha in Hc. revert Ha. apply write_keeps; [|done|].
  { apply draws_bind; [apply draws_query|]. intros [v|]; [|apply draws_fail]. apply draws_bind; [apply draws_modify|]. intros []. apply draws_query. }
  intros a -> Hx. destruct Hc as [[Hd _] _]. apply tx_bind_ok in Hx as (o & d1 & g1 & Hq & Hx). injection Hq as <- <- <-.
  destruct (ac_version <$> latest name (t_actions (w_db w))) as [v|]; [|done]. apply tx_bind_ok in Hx as (u & d2 & g2 & Hm & Hx). injection Hm as _ <- <-.
  unfold tx_query, tx_of in Hx. match type of Hx with (match ?m with _ => _ end) = _ => destruct m end; [|done]. injection Hx as _ Hdb Hg.
  unfold world_sound. rewrite <- Hdb, <- Hg. rewrite <- Hdb in Hd. destruct Hs as [S1 S2 S3 S4]. split; [|done..]. apply sound_set_actions; [done| |done].
  unfold update. apply List.Forall_map. eapply List.Forall_impl; [|apply (ss_actions _ S1)]. intros x [X1 X2]. by destruct (_ && _).
Qed.

Lemma complete_keeps id tail outs now (w w' : world G) r :
  time_ok now -> List.Forall message_ok outs -> List.Forall (issued (w_gen w)) (map msg_id outs) -> world_sound w ->
  CompleteDelivery id tail outs now w = (r, w') -> world_sound w'.
Proof.
  intros Hn Hm Hi Hs. apply write_keeps; [by apply draws_bind; [apply draws_transition|intros; apply draws_outputs]|done|]. intros n _ Hx.
  apply tx_bind_ok in Hx as ([] & d1 & g1 & Ht & Ho). set (p := fun r => with_id id r && in_state [StateClaimed] r) in Ht.
  pose proof (draws_transition "complete" id p (done_row tail (fmt_time now)) (w_db w) (w_gen w)) as Hd. rewrite Ht in Hd. cbn [snd] in Hd.
  eapply outputs_keep; [exact Hm| | |exact Ho].
  - eapply List.Forall_impl; [|exact Hi]. intros i Hx. eapply issued_advances; [apply (sa_gen _ _ Hs)|exact Hd|exact Hx].
  - refine (update_tx_keeps _ _ _ _ _ _ _ _ _ _ Hs Ht); [|intros; apply reads_affect]. split; [done|done|]. intros; by apply done_sound.
Qed.

Lemma write_op_keeps (w w' : world G) : world_sound w -> write_op w w' -> world_sound w'.
Proof.
  intros Hs Hop. destruct Hop as [w w' Hd Ha|m r w w' Hm Hi Hw|id v now r w w' Hn Hw|id st msg now r w w' Hst Hn Hw|id pgid r w w' Hw
    |id tail outs now r w w' Hn Hm Hi Hw|id isdead gate msg tail now r w w' Hn Hg Hw|id r w w' Hw|name reason now r w w' Hn Hw|id now r w w' Hn Hw
    |data a now r w w' Hp Hn Hw|name on r w w' Hw].
  - unfold world_sound. rewrite Hd. by eapply sound_advances.
  - revert Hw. apply write_keeps; [apply draws_append|done|]. intros n _ Hx. by eapply append_keeps.
  - refine (update_write_keeps _ _ _ _ _ _ _ (fun n => reads_affect n _ _) Hs Hw). split; [done|done|]. intros; by apply claim_row_sound.
  - refine (update_write_keeps _ _ _ _ _ _ _ (fun n => reads_affect n _ _) Hs Hw). split; [done|done|]. intros; by apply resolve_row_sound.
  - refine (update_write_keeps _ _ _ _ _ _ _ (fun n => reads_ret _) Hs Hw). split; [done|done|]. intros; by apply pgid_sound.
  - by eapply complete_keeps.
  - refine (update_write_keeps _ _ _ _ _ _ _ (fun n => reads_affect n _ _) Hs Hw). split; [by destruct isdead..|]. intros; by apply failed_sound.
  - refine (update_write_keeps _ _ _ _ _ _ _ _ Hs Hw); [|intros []; apply reads_query]. split; [done|done|]. intros; apply replay_sound.
  - refine (update_write_keeps _ _ _ _ _ _ _ (fun n => reads_ret _) Hs Hw). split; [done|done|]. intros; by apply cancel_sound.
  - refine (update_write_keeps _ _ _ _ _ _ _ (fun n => reads_ret _) Hs Hw). split; [done|done|]. intros; by apply orphan_sound.
  - by eapply apply_keeps.
  - by eapply enable_keeps.
Qed.
End World.

(** ** What the daemon does is made of these writes *)

Section Programs.
Context {G : Type} `{IdSource G} `{CelLib} (c : Config).

(** An instant whose text, and that of any retry gate drawn at it, has a four
    digit year; a gate lies in the past when the delay overflows, which takes a
    cap of a century or more. *)
Definition clock_ok (now : time) : Prop :=
  time_ok now /\ time_ok (now + 2 * BackoffCap c) /\ (2 ^ 62 <= BackoffCap c -> time_ok (now - 2 ^ 63)).

(** The store part of a function of the scheduler's state. *)
Definition performs (s s' : sched G) : Prop :=
  id_wf (w_gen (s_world s)) -> rtc write_op (s_world s) (s_world s') /\ id_wf (w_gen (s_world s')).

Lemma performs_same s s' : s_world s' = s_world s -> performs s s'.
Proof. intros Hw Hg. by rewrite Hw. Qed.
Lemma performs_refl s : performs s s.
Proof. by apply performs_same. Qed.
Lemma performs_trans s1 s2 s3 : performs s1 s2 -> performs s2 s3 -> performs s1 s3.
Proof. intros H12 H23 Hg. destruct (H12 Hg) as [P1 G1]. destruct (H23 G1) as [P2 G2]. split; [by etrans|done]. Qed.

Lemma rtc_sound (w w' : world G) : rtc write_op w w' -> world_sound w -> world_sound w'.
Proof. induction 1; eauto using write_op_keeps. Qed.

(** A call of the store, by its operation and what it leaves of the generator. *)
Lemma performs_call {A} (m : M G A) s r w :
  m (s_world s) = (r, w) -> write_op (s_world s) w -> advances (w_gen (s_world s)) (w_gen w) -> performs s (snd (call m s)).
Proof.
  intros Hm Ho Ha Hg. unfold call. rewrite Hm. cbn [snd s_world with_world]. split; [by apply rtc_once|by eapply advances_wf].
Qed.

Lemma write_advances {A} (m : tx G A) (w w' : world G) r : draws m -> write m w = (r, w') -> advances (w_gen w) (w_gen w').
Proof.
  intros Hm Hw. specialize (Hm (w_db w) (w_gen w)). unfold write, next_fault in Hw. destruct w as [d g fs]; simpl in *.
  destruct fs as [|[f|] fs]; simpl in Hw; [|injection Hw as _ <-; apply advances_refl|];
    (destruct (m d g) as [[[a d']|e'] g']; simpl in *; [|by injection Hw as _ <-]); [by injection Hw as _ <-|].
  destruct fs as [|[f'|] fs']; simpl in Hw; by injection Hw as _ <-.
Qed.

Lemma performs_write {A} (m : tx G A) s : draws m -> (forall r w, write m (s_world s) = (r, w) -> write_op (s_world s) w) -> performs s (snd (call (write m) s)).
Proof.
  intros Hm Ho. destruct (write m (s_world s)) as [r w] eqn:E. eapply performs_call; [exact E|by eapply Ho|by eapply write_advances].
Qed.

Lemma performs_read {A} ctx (q : db -> result A) s : performs s (snd (call (read ctx q) s)).
Proof.
  destruct (read ctx q (s_world s)) as [r w] eqn:E. destruct (read_db _ _ _ _ _ E) as [Hd Hg].
  assert (advances (w_gen (s_world s)) (w_gen w)) by (rewrite Hg; apply advances_refl). eapply performs_call; [exact E|by apply op_read|done].
Qed.

Lemma performs_new s : performs s (snd (NewID_of s)).
Proof.
  intros Hg. unfold NewID_of. pose proof (new_id_wf _ Hg) as Hw. assert (advances (w_gen (s_world s)) (snd (new_id (w_gen (s_world s))))) as Ha
    by (apply advances_new, advances_refl). destruct (new_id _) as [id g]. split; [|done]. apply rtc_once. by apply op_read.
Qed.

(** Transactions made of one UPDATE. *)
Lemma draws_updating {B} p f (k : nat -> tx G B) : (forall n, reads (k n)) -> draws (n <-t update_deliveries p f ;; k n).
Proof. intros Hk. apply draws_bind; [apply draws_update|]. intros n d g. destruct (Hk n d g) as [-> _]. apply advances_refl. Qed.

Ltac updating := apply performs_write; [apply draws_updating; intros; first [apply reads_affect | apply reads_ret]|].

(** *** Requests *)

Definition keeps {A} (m : handler G A) : Prop := forall s, performs s (snd (m s)).

Lemma messageSend_keeps req now : headers_ok req -> time_ok now -> keeps (messageSend req now).
Proof.
  intros [_ Hh] Hn s. unfold messageSend. destruct (String.eqb _ _); [apply performs_refl|]. destruct (absent _); [apply performs_refl|].
  destruct (valid (sm_payload req)) eqn:Ev; [|apply performs_refl]. cbn [negb]. intros Hg.
  destruct (performs_new s Hg) as [P1 G1]. pose proof (new_issued (w_gen (s_world s)) Hg) as Hi.
  assert (fst (NewID_of s) = fst (new_id (w_gen (s_world s))) /\ w_gen (s_world (snd (NewID_of s))) = snd (new_id (w_gen (s_world s)))) as [E1 E2]
    by (unfold NewID_of; by destruct (new_id _)). rewrite <- E1, <- E2 in Hi. clear E1 E2. destruct (NewID_of s) as [id s1]. cbn [fst snd] in *.
  destruct (performs_new s1 G1) as [P2 G2]. assert (advances (w_gen (s_world s1)) (w_gen (s_world (snd (NewID_of s1))))) as Ha
    by (unfold NewID_of; apply advances_new; destruct (new_id _); apply advances_refl).
  apply (issued_advances _ _ _ G1 Ha) in Hi. clear Ha. destruct (NewID_of s1) as [tr s2]. cbn [fst snd] in *.
  set (m := mkMessage id (sm_queue req) (sm_payload req) (stamp (sm_headers req)) tr None None None now).
  assert (message_ok m) as Hm by (split; [done| |done]; cbn [m msg_headers]; unfold valid; by rewrite (stamp_reads _ Hh)).
  destruct (performs_write (append_tx m) s2 (draws_append m)) as [P3 G3]; [|done|].
  { intros r w. by apply op_append. }
  fold (AppendMessage (G := G) m) in P3, G3. destruct (call (AppendMessage m) s2) as [[n|e] s3]; cbn [snd] in *; [|split; [by do 2 (etrans; [eassumption|])|done]].
  assert (s_world (if 0 <? n then WorkAdded n s3 else s3) = s_world s3) as -> by by destruct (0 <? n). split; [by do 2 (etrans; [eassumption|])|done].
Qed.

Lemma draws_apply name definition now : draws (o <-t tx_query (fun d =>
      match latest name (t_actions d) with
      | None => Ok None
      | Some r => a <-! wrap_errors ("read current action " +:+ name) (scanAction r) ;; Ok (Some a)
      end) ;;
    match o with
    | None => applyInsert (G := G) name definition now (mkAct name 0 "" true 0)
    | Some cur => if String.eqb (ac_definition cur) definition then tx_ret (cur, false) else applyInsert name definition now cur
    end).
Proof.
  assert (forall cur, draws (applyInsert (G := G) name definition now cur)) as Hi
    by (intros cur; unfold applyInsert; apply draws_bind; [apply draws_insert_action|intros; apply draws_ret]).
  apply draws_bind; [apply draws_query|]. intros [cur|]; [|apply Hi]. destruct (String.eqb _ _); [apply draws_ret|apply Hi].
Qed.

Lemma actionApply_keeps req now : time_ok now -> keeps (actionApply req now).
Proof.
  intros Hn s. unfold actionApply. destruct (absent _); [apply performs_refl|]. destruct (ParseJSON (aa_definition req)) as [a|e] eqn:Ep; [|apply performs_refl].
  cbn [Canonical]. assert (performs s (snd (call (ApplyAction (act_name a) (print (action_json a)) now) s))) as Hp.
  { apply performs_write; [apply draws_apply|]. intros r w Hw. by eapply (op_apply (aa_definition req) a). }
  by destruct (call _ s) as [[[x changed]|e] s'].
Qed.

Lemma handleCtrl_keeps name now : time_ok now -> keeps (handleCtrl name now).
Proof.
  intros Hn s. unfold handleCtrl. assert (performs s (snd (call (CancelDeliveries name "action disabled" now) s))) as Hp
    by (updating; intros r w; by apply op_cancel). destruct (call _ s) as [[n|e] s']; [|done]. eapply performs_trans; [exact Hp|by apply performs_same].
Qed.

Lemma setActionEnabled_keeps req on fate now : time_ok now -> keeps (setActionEnabled req on fate now).
Proof.
  intros Hn s. unfold setActionEnabled. destruct (String.eqb _ _); [apply performs_refl|].
  assert (performs s (snd (call (SetActionEnabled (rq_name req) on) s))) as Hp.
  { apply performs_write; [|intros r w; by apply op_enable]. apply draws_bind; [apply draws_query|]. intros [v|]; [|apply draws_fail].
    apply draws_bind; [apply draws_modify|]. intros []. apply draws_query. }
  destruct (call _ s) as [[a|e] s1]; [|done]. cbn [snd] in Hp. destruct on; [done|]. unfold CancelAction.
  destruct fate; [|done|]; pose proof (handleCtrl_keeps (ac_name a) now Hn s1) as Hc; (destruct (handleCtrl _ _ s1) as [[n|e] s2]; by eapply performs_trans).
Qed.

Lemma deliveryReplay_keeps req : keeps (deliveryReplay req).
Proof.
  intros s. unfold deliveryReplay. destruct (String.eqb _ _); [apply performs_refl|].
  assert (performs s (snd (call (ReplayDelivery (rq_id req)) s))) as Hp.
  { apply performs_write; [|intros r w; by apply op_replay]. apply draws_updating. intros []; apply reads_query. }
  destruct (call _ s) as [[d|e] s']; [|done]. eapply performs_trans; [exact Hp|by apply performs_same].
Qed.

Lemma reading_keeps {A B} ctx (q : db -> result A) (f : A -> B) :
  keeps (fun s => match call (read ctx q) s with (Err e, s) => (Err e, s) | (Ok a, s) => (Ok (f a), s) end).
Proof. intros s. pose proof (performs_read ctx q s) as Hp. by destruct (call _ s) as [[a|e] s']. Qed.

Lemma guarded_keeps {A} (b : bool) (r : result A) (m : handler G A) : keeps m -> keeps (fun s => if b then (r, s) else m s).
Proof. intros Hm s. destruct b; [apply performs_refl|apply Hm]. Qed.

Lemma answering_keeps {A} (f : A -> reply) (m : handler G A) : keeps m -> keeps (answering f m).
Proof. intros Hm s. specialize (Hm s). unfold answering. by destruct (m s) as [[a|e] s']. Qed.

Lemma handle_keeps {Req Resp : Type} (cd : codec Req) (fn : Req -> handler G Resp) body s :
  (forall b req, decoded cd b = Ok req -> keeps (fn req)) -> performs s (snd (handle cd fn body s)).
Proof.
  intros Hfn. unfold handle. destruct (read_body body) as [b|e]; [|apply performs_refl].
  destruct (decoded cd b) as [req|e] eqn:Ed; [|apply performs_refl]. specialize (Hfn b req Ed s).
  destruct (fn req s) as [[a|e] s']; [done|]. by destruct (errorStatus e).
Qed.

Lemma request_performs endpoint body now fate s : time_ok now -> performs s (snd (ServeHTTP endpoint body now fate s)).
Proof.
  intros Hn. unfold ServeHTTP.
  repeat (match goal with |- context [if String.eqb endpoint ?e then _ else _] => destruct (String.eqb endpoint e); [apply handle_keeps; intros b req Hd; apply answering_keeps|] end);
    [apply messageSend_keeps; [by eapply Send_headers|done]
    |unfold messageList; apply guarded_keeps, reading_keeps|unfold messageShow; apply guarded_keeps, reading_keeps|intros s'; apply performs_read
    |by apply actionApply_keeps|apply reading_keeps
    |unfold actionShow; do 2 apply guarded_keeps; apply reading_keeps|by apply setActionEnabled_keeps|by apply setActionEnabled_keeps
    |unfold deliveryList; apply guarded_keeps, reading_keeps|unfold deliveryShow; apply guarded_keeps, reading_keeps|apply deliveryReplay_keeps|apply performs_refl].
Qed.

(** *** The loop *)

Lemma resolve_performs id st msg now s : st <> StateFailed -> time_ok now -> performs s (resolve id st msg now s).
Proof.
  intros Hst Hn. unfold resolve. assert (performs s (snd (call (ResolveDelivery id st msg now) s))) as Hp
    by (updating; intros r w; by apply op_resolve). destruct (call _ s) as [[u|e] s']; [|done]. eapply performs_trans; [exact Hp|by apply performs_same].
Qed.

Lemma verdict_failed st : verdict st = true -> st <> StateFailed.
Proof. by intros Hv ->. Qed.

Lemma vet_performs ai wk now s : time_ok now -> performs s (snd (vet c ai wk now s)).
Proof.
  intros Hn. destruct (vet_cases c ai wk now s) as [(cache & ->)|(cache & st & msg & Hv & ->)]; [by apply performs_same|]. cbn [snd].
  eapply performs_trans; [by apply (performs_same s (with_cache cache s))|]. apply resolve_performs; [by apply verdict_failed|done].
Qed.

Lemma dispatch_action_performs fuel ai now : time_ok now -> forall s s', dispatch_action fuel c ai now s = Some s' -> performs s s'.
Proof.
  intros Hn. induction fuel as [|fuel IH]; intros s s'; [done|]. cbn [dispatch_action].
  destruct (_ <? _); [|intros [= <-]; apply performs_refl]. pose proof (performs_read ("next eligible for " +:+ ai_name ai) _ s : performs s (snd (call (NextEligible (ai_name ai) now) s))) as Hp.
  destruct (call (NextEligible (ai_name ai) now) s) as [[wk|e] s1]; [|by intros [= <-]]. cbn [snd] in Hp.
  pose proof (vet_performs ai wk now s1 Hn) as Hv. destruct (vet c ai wk now s1) as [[] s2]; cbn [snd] in Hv; intros Hd.
  - assert (performs s2 (snd (call (ClaimDelivery (d_id (wk_delivery wk)) (ai_version ai) now) s2))) as Hc by (updating; intros r w; by apply op_claim).
    destruct (call (ClaimDelivery _ _ _) s2) as [[u|e] s3]; cbn [snd] in Hc.
    + eapply performs_trans; [exact Hp|]. eapply performs_trans; [exact Hv|]. eapply performs_trans; [exact Hc|]. apply IH in Hd.
      eapply performs_trans; [|exact Hd]. by apply performs_same.
    + injection Hd as <-. eapply performs_trans; [exact Hp|]. by eapply performs_trans.
  - eapply performs_trans; [exact Hp|]. eapply performs_trans; [exact Hv|]. by apply IH.
Qed.

Lemma cancelSuperseded_performs fuel ai now : time_ok now -> forall s s', cancelSuperseded fuel ai now s = Some s' -> performs s s'.
Proof.
  intros Hn. induction fuel as [|fuel IH]; intros s s'; [done|]. cbn [cancelSuperseded].
  pose proof (performs_read ("next eligible for " +:+ ai_name ai) _ s : performs s (snd (call (NextEligible (ai_name ai) now) s))) as Hp.
  destruct (call (NextEligible (ai_name ai) now) s) as [[wk|e] s1]; [|by intros [= <-]]. cbn [snd] in Hp.
  assert (performs s1 (snd (call (ResolveDelivery (d_id (wk_delivery wk)) StateCancelled (superseded (ai_version ai)) now) s1))) as Hr
    by (updating; intros r w; by apply op_resolve).
  destruct (call (ResolveDelivery _ _ _ _) s1) as [[u|e] s2]; cbn [snd] in Hr; intros Hd.
  - eapply performs_trans; [exact Hp|]. eapply performs_trans; [exact Hr|]. apply IH in Hd. eapply performs_trans; [|exact Hd]. by apply performs_same.
  - injection Hd as <-. by eapply performs_trans.
Qed.

Lemma dispatch_performs fuel now s s' : time_ok now -> dispatch fuel c now s = Some s' -> performs s s'.
Proof.
  intros Hn. unfold dispatch. assert (performs s (snd (call (loadActions c) s))) as Hl.
  { unfold call, loadActions. destruct (ListActions (s_world s)) as [r w] eqn:E. destruct (read_db _ _ _ _ _ E) as [Hd Hg].
    assert (performs s (with_world w s)) as Hp by (intros Hw; cbn [s_world with_world]; rewrite Hg; split; [apply rtc_once, op_read; [done|rewrite Hg; apply advances_refl]|done]).
    by destruct r. }
  destruct (call (loadActions c) s) as [[l|e] s1]; [|by intros [= <-]]. cbn [snd] in Hl. intros Hd. eapply performs_trans; [exact Hl|].
  clear Hl. revert s1 Hd. induction l as [|ai l IH]; intros s1; cbn [dispatch_all]; [intros [= <-]; apply performs_refl|].
  intros Hd. apply bind_Some in Hd as (s2 & H1 & H2). eapply performs_trans; [|by apply IH].
  destruct (IsJoin (ai_def ai)); [by eapply cancelSuperseded_performs|by eapply dispatch_action_performs].
Qed.

(** *** Results *)

Lemma time_ok_between a b t : time_ok a -> time_ok b -> a <= t <= b -> time_ok t.
Proof.
  unfold time_ok, Second. intros Ha Hb Ht. pose proof (Z.div_le_mono a t 1000000000 ltac:(lia) ltac:(lia)).
  pose proof (Z.div_le_mono t b 1000000000 ltac:(lia) ltac:(lia)). lia.
Qed.

Lemma backoff_range attempt k : 0 < BackoffCap c -> 0 <= k < 2 ^ 53 ->
  (if 2 ^ 62 <=? BackoffCap c then - 2 ^ 63 else 0) <= backoff c attempt k <= 2 * BackoffCap c.
Proof.
  intros Hc Hk. assert (0 < raw_backoff c attempt <= BackoffCap c) as Hr.
  { unfold raw_backoff. destruct (Z.ltb_spec (BackoffCap c) (int64 (Z.shiftl (BackoffBase c) (attempt - 1)))); cbn [orb]; [lia|].
    destruct (Z.leb_spec (int64 (Z.shiftl (BackoffBase c) (attempt - 1))) 0); lia. }
  destruct (jittered_bounds c attempt k Hk ltac:(lia)) as [Hl Hu].
  destruct (Z.leb_spec (2 ^ 62) (BackoffCap c)), (backoff_cases c attempt k Hk ltac:(lia)) as [[? ->]|[? ->]]; lia.
Qed.

Lemma output_headers_valid m : valid (output_headers m) = true.
Proof.
  unfold output_headers. set (n := int64 _). assert (good max_nesting (JObj [("hops", JNum (dec n))])) as Hg.
  { apply good_obj. split; [done|]. constructor; [|constructor]. split; [simpl; ascii_utf8|apply dec_num_lit]. }
  destruct (parse_print _ Hg) as [Hp _]. unfold valid.
  match goal with |- context [parse ?t] => replace (parse t) with (Some (JObj [("hops", JNum (dec n))])) by (symmetry; exact Hp) end. done.
Qed.

Lemma job_outputs_ok j r now (w w' : world G) outs :
  time_ok now -> id_wf (w_gen w) -> job_outputs j r now w = (Ok outs, w') ->
  List.Forall message_ok outs /\ List.Forall (issued (w_gen w')) (map msg_id outs).
Proof.
  intros Hn Hg. unfold job_outputs. destruct (j_failed j); [done|]. destruct (e_err r); [done|].
  pose proof (parseNDJSON_lines (e_stdout r)) as Hv. destruct (parseNDJSON _) as [lines|e]; [|done]. destruct Hv as [_ Hv].
  destruct (String.eqb _ _); [intros [= <- _]; by split|]. unfold buildOutputs.
  pose proof (build_outputs_spec (j_work j) (j_action j) (output_headers (wk_message (j_work j))) lines now (w_gen w)) as Hb. cbn zeta in Hb.
  destruct (build_outputs _ _ _ _ _ _) as [out g]. cbn [fst snd] in Hb. destruct Hb as (Hp & Hi & -> & Hf). intros [= <- <-]. cbn [w_gen]. split.
  - apply List.Forall_forall. intros m Hm. rewrite Forall_forall in Hf. destruct (Hf m) as (_ & Hh & _ & _ & _ & _ & Ht); [by apply list_elem_of_In|].
    split; [|rewrite Hh; apply output_headers_valid|by rewrite Ht]. rewrite Forall_forall in Hv. apply Hv. rewrite <- Hp. by apply list_elem_of_In, in_map.
  - rewrite Hi. by apply draw_issued.
Qed.

Lemma job_outputs_world j r now (w w' : world G) x : job_outputs j r now w = (x, w') -> w_db w' = w_db w /\ advances (w_gen w) (w_gen w').
Proof.
  assert (advances (w_gen w) (w_gen w)) by apply advances_refl.
  unfold job_outputs. destruct (j_failed j); [by intros [= _ <-]|]. destruct (e_err r); [by intros [= _ <-]|].
  destruct (parseNDJSON _) as [lines|e]; [|by intros [= _ <-]]. destruct (String.eqb _ _); [by intros [= _ <-]|]. unfold buildOutputs.
  pose proof (build_outputs_spec (j_work j) (j_action j) (output_headers (wk_message (j_work j))) lines now (w_gen w)) as Hb. cbn zeta in Hb.
  destruct (build_outputs _ _ _ _ _ _) as [out g]. destruct Hb as (_ & _ & Hg & _). cbn [snd] in Hg. intros [= _ <-]. split; [done|]. by exists (length lines).
Qed.

Lemma apply_performs k r now rnd s : 0 < BackoffCap c -> clock_ok now -> 0 <= rnd < 2 ^ 53 -> performs s (apply c k r now rnd s).
Proof.
  intros Hc (Hn & Hn2 & Hn3) Hr. unfold apply. destruct (s_running s !! k) as [j|]; [|apply performs_refl].
  set (s0 := add_inflight _ _ _). change (s_world s0) with (s_world s). intros Hg.
  destruct (job_outputs j (job_result j r) now (s_world s)) as [outs w] eqn:Ej. destruct (job_outputs_world _ _ _ _ _ _ Ej) as [Hd Ha].
  assert (performs s (with_world w s0)) as Hp by (intros Hg'; split; [by apply rtc_once, op_read|by eapply advances_wf]).
  destruct outs as [outs|e].
  - destruct (job_outputs_ok _ _ _ _ _ _ Hn Hg Ej) as [Hm Hi].
    assert (performs (with_world w s0) (snd (call (CompleteDelivery (d_id (wk_delivery (j_work j))) (e_stderr_tail (job_result j r)) outs now) (with_world w s0)))) as Hq.
    { apply performs_write; [apply draws_bind; [apply draws_transition|intros; apply draws_outputs]|]. intros x w' Hx. eapply op_complete; [exact Hn|exact Hm|exact Hi|exact Hx]. }
    destruct (call _ _) as [[n|e] s2]; revert Hg; cbn [snd] in Hq; [|by eapply performs_trans]. eapply performs_trans; [exact Hp|].
    eapply performs_trans; [exact Hq|]. by apply performs_same.
  - set (d := wk_delivery (j_work j)) in *. set (gate := now + backoff c (d_attempt d) rnd).
    assert (time_ok gate) as Hgate.
    { pose proof (backoff_range (d_attempt d) rnd Hc Hr) as [Hl Hu].
      destruct (Z.leb_spec (2 ^ 62) (BackoffCap c)) as [Hbig|_].
      - apply (time_ok_between (now - 2 ^ 63) (now + 2 * BackoffCap c)); [by apply Hn3|done|unfold gate; lia].
      - apply (time_ok_between now (now + 2 * BackoffCap c)); [done|done|unfold gate; lia]. }
    set (isdead := ai_maxAttempts (j_action j) <=? d_attempt d).
    assert (performs (with_world w s0) (snd (call (FailDelivery (d_id d) isdead gate (err_msg e) (e_stderr_tail (job_result j r)) now) (with_world w s0)))) as Hq
      by (apply performs_write; [apply draws_transition|]; intros x w' Hx; eapply op_fail; [exact Hn|exact Hgate|exact Hx]).
    destruct (call _ _) as [[n|e'] s2]; revert Hg; cbn [snd] in Hq; [|by eapply performs_trans]. eapply performs_trans; [exact Hp|].
    eapply performs_trans; [exact Hq|]. apply performs_same. by destruct isdead.
Qed.

Lemma pgid_performs id pgid s : performs s (onStart id pgid s).
Proof. unfold onStart. updating. intros r w. by apply op_pgid. Qed.

Lemma arm_performs now s : performs s (snd (armTimer now s)).
Proof.
  unfold armTimer. pose proof (performs_read "next retry" _ s : performs s (snd (call NextRetryAt s))) as Hp. by destruct (call NextRetryAt s) as [[t|e] s'].
Qed.

(** ** The invariant of the store *)

(** A function of the daemon, or a single write of any of them, between others. *)
Inductive daemon_op : sched G -> sched G -> Prop :=
| do_request endpoint body now fate s : clock_ok now -> daemon_op s (snd (ServeHTTP endpoint body now fate s))
| do_dispatch fuel now s s' : clock_ok now -> dispatch fuel c now s = Some s' -> daemon_op s s'
| do_apply k r now rnd s : clock_ok now -> 0 <= rnd < 2 ^ 53 -> daemon_op s (apply c k r now rnd s)
| do_ctrl name now s : clock_ok now -> daemon_op s (snd (handleCtrl name now s))
| do_pgid id pgid s : daemon_op s (onStart id pgid s)
| do_arm now s : daemon_op s (snd (armTimer now s))
| do_write s w : write_op (s_world s) w -> daemon_op s (with_world w s).

Lemma daemon_op_sound s s' : 0 < BackoffCap c -> world_sound (s_world s) -> daemon_op s s' -> world_sound (s_world s').
Proof.
  intros Hc Hs Hop. assert (performs s s' -> world_sound (s_world s')) as Hk by (intros Hp; destruct (Hp (sa_gen _ _ Hs)); by eapply rtc_sound).
  destruct Hop as [endpoint body now fate s [Hn _]|fuel now s s' [Hn _] Hd|k r now rnd s Hn Hr|name now s [Hn _]|id pgid s|now s|s w Hw].
  - apply Hk. by apply request_performs.
  - apply Hk. by eapply dispatch_performs.
  - apply Hk. by apply apply_performs.
  - apply Hk. by apply handleCtrl_keeps.
  - apply Hk, pgid_performs.
  - apply Hk, arm_performs.
  - by eapply write_op_keeps.
Qed.

Lemma reap_each_ops l now : time_ok now -> forall (w w' : world G) kills r, reap_each l now w = (kills, r, w') -> rtc write_op w w'.
Proof.
  intros Hn. induction l as [|d l IH]; intros w w' kills r; cbn [reap_each]; [by intros [= _ _ <-]|].
  destruct (ResetOrphan (d_id d) now w) as [[u|e] w1] eqn:E.
  - destruct (reap_each l now w1) as [[ks r1] w2] eqn:E2. intros [= _ _ <-]. eapply rtc_l; [by eapply op_orphan|by eapply IH].
  - intros [= _ _ <-]. eapply rtc_once. by eapply op_orphan.
Qed.

Lemma reap_sound now (w w' : world G) kills r : time_ok now -> world_sound w -> ReapOrphans now w = (kills, r, w') -> world_sound w'.
Proof.
  intros Hn Hs. unfold ReapOrphans, ClaimedDeliveries, listDeliveries. destruct (read _ _ w) as [x w1] eqn:E. destruct (read_db _ _ _ _ _ E) as [Hd Hg].
  assert (world_sound w1) by (unfold world_sound; by rewrite Hd, Hg). destruct x as [l|e]; [|by intros [= _ _ <-]].
  intros Hr. eapply rtc_sound; [by eapply reap_each_ops|done].
Qed.

(** C4. The store is well typed as long as the daemon lives.  Keys are
    unique, versions dense, payloads and headers valid JSON, definitions
    canonical texts of accepted actions, times texts of instants, failed
    deliveries have a gate, references resolve, and identifiers are older than
    what will be issued: recovery and start keep this, and so does any sequence
    of requests, dispatches, results and single writes of either in between. *)
Theorem store_typed now w kills r w1 s s' :
  0 < BackoffCap c -> clock_ok now -> world_sound w ->
  ReapOrphans now w = (kills, r, w1) -> seed w1 = Ok s -> rtc daemon_op s s' -> world_sound (s_world s').
Proof.
  intros Hc [Hn _] Hs Hr Hseed Hops. apply (reap_sound _ _ _ _ _ Hn Hs) in Hr. unfold seed, CountActiveDeliveries in Hseed.
  destruct (read _ _ w1) as [[n|e] w2] eqn:E; [|done]. injection Hseed as <-. destruct (read_db _ _ _ _ _ E) as [Hd Hg].
  assert (world_sound w2) as H2 by (unfold world_sound; by rewrite Hd, Hg). change w2 with (s_world (mkSched w2 n ∅ NewCache [])) in H2.
  induction Hops; eauto using daemon_op_sound.
Qed.
End Programs.

(** ** Witness: a life from the empty store to a launch *)

Definition demo_empty : world id_stream := mkWorld empty_db demo_gen [].
Definition demo_start : @sched id_stream toy_cel := mkSched (H0 := toy_cel) demo_empty 0 ∅ (NewCache (H := toy_cel)) [].
Definition demo_definition : string :=
  "{" +:+ dq "name" +:+ ":" +:+ dq "sum" +:+ ", " +:+ dq "inputs" +:+ ":[{" +:+ dq "queue" +:+ ":" +:+ dq "raw" +:+ "}]," +:+
  dq "actor" +:+ ":" +:+ dq "subprocess" +:+ "," +:+ dq "instructions" +:+ ":{" +:+ dq "command" +:+ ":[" +:+ dq "./run.sh" +:+ "]}," +:+
  dq "output" +:+ ":" +:+ dq "sums" +:+ "}".
Definition demo_applied := snd (ServeHTTP (H0 := toy_cel) "action.apply" (Ok (body_of "definition" demo_definition)) Second Served demo_start).
Definition demo_sent := snd (ServeHTTP (H0 := toy_cel) "message.send" (Ok send_body) (2 * Second) Served demo_applied).
Definition demo_dispatched : @sched id_stream toy_cel := default demo_sent (dispatch 4 default_config (3 * Second) demo_sent).

Lemma demo_clock : List.Forall (fun n => clock_ok default_config (n * Second)) [1; 2; 3; 4].
Proof. repeat (apply List.Forall_cons || apply List.Forall_nil); repeat split; vm_compute; congruence. Qed.

Lemma demo_at n : In n [1; 2; 3; 4] -> clock_ok default_config (n * Second).
Proof. pose proof demo_clock as Hc. rewrite List.Forall_forall in Hc. apply Hc. Qed.

Lemma demo_time n : In n [1; 2; 3; 4] -> time_ok (n * Second).
Proof. intros Hn. by apply demo_at. Qed.

Lemma demo_wf : id_wf demo_gen.
Proof. split; [split; simpl; lia|]. intros i. unfold input_ok, demo_env, byte_ok; simpl. repeat constructor; lia. Qed.

(** The operations that lead to the launch. *)
Lemma demo_ops : rtc (daemon_op (H0 := toy_cel) default_config) demo_start demo_dispatched.
Proof.
  eapply rtc_l; [apply (do_request default_config "action.apply"), (demo_at 1); by left|]. fold demo_applied.
  eapply rtc_l; [apply (do_request default_config "message.send"), (demo_at 2); right; by left|]. fold demo_sent.
  apply rtc_once. apply (do_dispatch default_config 4 (3 * Second)); [apply demo_at; do 2 right; by left|].
  unfold demo_dispatched. assert (is_Some (dispatch 4 default_config (3 * Second) demo_sent)) as [x Hx]; [|by rewrite Hx].
  assert (fmap s_active (dispatch 4 default_config (3 * Second) demo_sent) = Some 1) as Hj by (vm_compute; reflexivity).
  destruct (dispatch _ _ _ _); [by eexists|done].
Qed.

Lemma demo_empty_sound : world_sound (H0 := toy_cel) demo_empty.
Proof. split; [apply empty_sound|exact demo_wf|constructor|constructor]. Qed.

Lemma dispatched_sound : world_sound (H0 := toy_cel) (s_world demo_dispatched).
Proof.
  pose proof demo_ops as Ho. assert (world_sound (H0 := toy_cel) (s_world demo_start)) as Hs by exact demo_empty_sound.
  revert Hs. induction Ho as [|x y z Hxy Hyz IH]; [done|]. intros Hs. apply IH. by eapply (daemon_op_sound (H0 := toy_cel) default_config).
Qed.

Lemma store_typed_witness :
  world_sound (H0 := toy_cel) (s_world demo_dispatched) /\ map d_state (t_deliveries (s_db demo_dispatched)) = [StateClaimed].
Proof.
  split; [|vm_compute; reflexivity].
  apply (store_typed (H0 := toy_cel) default_config Second demo_empty [] (Ok tt) demo_empty demo_start demo_dispatched).
  - done.
  - apply (demo_at 1). by left.
  - exact demo_empty_sound.
  - reflexivity.
  - reflexivity.
  - exact demo_ops.
Defined.
