(* ===== verification/Answers.v ===== *)
(** The answers of a daemon whose store is sound.

    On a store that satisfies the invariant of Sound, with a database that does
    not fail, no request is answered with status 500 and every answer encodes:
    the errors a client sees are its own ([never_internal]). *)
From S2P Require Import Prelude GoTime Float64 Json JsonText RawText Action DurationText Cel Validate Canon Ids Db Registry Deliveries Messages Wire Executor Scheduler System Api Sound.

(** ** What the wire can write *)

Definition writes {A} (c : codec A) (a : A) : Prop := exists t, c_text c a = Ok t.
Create HintDb wire.

Lemma writes_string s : writes c_string s.
Proof. by eexists. Qed.
Lemma writes_int n : writes c_int n.
Proof. by eexists. Qed.
Lemma writes_bool b : writes c_bool b.
Proof. by eexists. Qed.
Lemma writes_time t : time_ok t -> writes c_time t.
Proof. intros Ht. eexists. cbn [c_text c_time]. by rewrite decide_True. Qed.
Lemma writes_raw s : valid s = true -> writes c_raw s.
Proof. intros Hv. eexists. cbn [c_text c_raw]. unfold marshal_raw. by rewrite Hv. Qed.
Lemma writes_ptr {A} (c : codec A) o : (forall a, o = Some a -> writes c a) -> writes (c_ptr c) o.
Proof. intros Ho. destruct o as [a|]; [by apply Ho|by exists "null"]. Qed.

Lemma writes_list {A} (c : codec A) l : List.Forall (writes c) l -> writes (c_list c) l.
Proof.
  intros Hl. assert (exists ts, rmap (c_text c) l = Ok ts) as [ts Hts].
  { induction Hl as [|a l [t Ht] Hl [ts IH]]; [by exists []|]. exists (t :: ts). cbn [rmap]. by rewrite Ht, IH. }
  exists (arr_text ts). cbn [c_text c_list]. by rewrite Hts.
Qed.

Lemma writes_struct {A} (zero : A) fs a : List.Forall (fun f => writes (sf_codec f) (sf_get f a)) fs -> writes (c_struct zero fs) a.
Proof.
  intros Hf. assert (exists l, struct_members fs a = Ok l) as [l Hl].
  { induction Hf as [|f fs [t Ht] Hf [l IH]]; [by exists []|]. cbn [struct_members]. destruct (sf_omit f (sf_get f a)); [by exists l|].
    rewrite Ht, IH. by eexists. }
  exists (obj_text l). cbn [c_text c_struct]. by rewrite Hl.
Qed.
#[export] Hint Resolve writes_string writes_int writes_bool writes_time writes_raw writes_ptr writes_list : wire.

Ltac writing := apply writes_struct; repeat (apply List.Forall_cons || apply List.Forall_nil); cbn; eauto with wire.

Lemma writes_only {A} key (c : codec A) a : writes c a -> writes (c_only key c) a.
Proof. intros Ha. writing. Qed.

(** *** The values of the store *)

Lemma writes_message m : message_ok m -> writes c_Message (toAPIMessage m).
Proof. intros [M1 M2 M3]. destruct m; cbn in *. writing. Qed.

(** A delivery whose times are texts of instants. *)
Definition delivery_times (d : delivery) : Prop :=
  (forall t, d_not_before d = Some t -> time_ok t) /\ (forall t, d_claimed_at d = Some t -> time_ok t) /\ (forall t, d_completed_at d = Some t -> time_ok t).

Lemma writes_delivery d : delivery_times d -> writes c_Delivery (toAPIDelivery d).
Proof. intros (D1 & D2 & D3). destruct d; cbn in *. writing. Qed.

Definition action_ok (a : action) : Prop := valid (ac_definition a) = true /\ time_ok (ac_created_at a).

Lemma writes_action a : action_ok a -> writes c_Action (toAPIAction a).
Proof. intros [A1 A2]. destruct a; cbn in *. writing. Qed.

Lemma writes_summary a : action_ok a -> writes c_ActionSummary (summary a).
Proof.
  intros [A1 A2]. unfold summary. destruct (unmarshal_Action _); destruct a; cbn in *; writing;
    apply writes_list, List.Forall_forall; auto with wire.
Qed.

(** ** Scans of sound rows succeed *)

Lemma scan_message r : message_sound r -> exists m, scanMessage r = Ok m /\ message_ok m.
Proof.
  intros [M1 M2 (t & Ht & Hc)]. unfold scanMessage. rewrite Hc, parse_fmt_time by done. eexists. split; [done|]. by split.
Qed.

Lemma scan_time o : opt_time o -> exists t, nullTime o = Ok t /\ forall x, t = Some x -> time_ok x.
Proof.
  intros Ho. destruct o as [s|]; [|by exists None]. destruct (Ho s eq_refl) as (t & Ht & ->). exists (Some t). cbn [nullTime].
  rewrite parse_fmt_time by done. split; [done|]. by intros x [= <-].
Qed.

Lemma scan_delivery r : delivery_sound r -> exists d, scanDelivery r = Ok d /\ delivery_times d.
Proof.
  intros [D1 D2 D3 _]. unfold scanDelivery. destruct (scan_time _ D1) as (t1 & -> & H1). destruct (scan_time _ D2) as (t2 & -> & H2).
  destruct (scan_time _ D3) as (t3 & -> & H3). eexists. split; [reflexivity|]. by split_and!.
Qed.

(** All rows of a selection scan, to values with what a scanned row has. *)
Lemma scan_rows {A B} (scan : A -> result B) (R : A -> Prop) (P : B -> Prop) l :
  (forall r, R r -> exists b, scan r = Ok b /\ P b) -> List.Forall R l -> exists bs, scan_all scan l = Ok bs /\ List.Forall P bs.
Proof.
  intros Hs. induction 1 as [|r l Hr Hl (bs & IH & Hp)]; [by exists []|]. destruct (Hs r Hr) as (b & Hb & Hpb). exists (b :: bs).
  cbn [scan_all]. rewrite Hb. cbn [rbind]. rewrite IH. split; [done|by constructor].
Qed.

Lemma Forall_perm_rows {A} (P : A -> Prop) p l l' : l' ≡ₚ rows p l -> List.Forall P l -> List.Forall P l'.
Proof.
  intros Hp Hl. rewrite List.Forall_forall in *. intros x Hx. apply Hl. apply list_elem_of_In in Hx. rewrite Hp in Hx.
  apply list_elem_of_In, List.filter_In in Hx. tauto.
Qed.

Lemma take_In {A} (l : list A) n x : In x (take n l) -> In x l.
Proof. intros Hx. rewrite <- (take_drop n l). apply in_or_app. by left. Qed.

(** A page, newest first, of a table. *)
Lemma page_Forall {A} (P : A -> Prop) (key : A -> string) (p : A -> bool) n t :
  List.Forall P t -> List.Forall P (take n (rev (order_by key (rows p t)))).
Proof.
  intros Ht. apply List.Forall_forall. intros r Hr. rewrite List.Forall_forall in Ht. apply Ht.
  apply take_In, in_rev, list_elem_of_In in Hr. rewrite order_by_perm in Hr. apply list_elem_of_In, List.filter_In in Hr. tauto.
Qed.

Lemma head_In {A} (p : A -> bool) l r : head (rows p l) = Some r -> In r l /\ p r = true.
Proof.
  intros Hh. apply List.filter_In. unfold rows in Hh. destruct (List.filter p l); [done|]. injection Hh as ->. by left.
Qed.

Section Answers.
Context {G : Type} `{IdSource G} `{CelLib}.

Lemma stored_valid r : action_sound r -> valid (ac_definition r) = true.
Proof. intros [_ (data & a & Hp & -> & _)]. destruct (ParseJSON_reads data a Hp) as (_ & Hr & _). unfold valid. by rewrite Hr. Qed.

Lemma scan_action r : action_sound r -> exists a, scanAction r = Ok a /\ action_ok a.
Proof.
  intros Hr. pose proof (stored_valid r Hr) as Hv. destruct Hr as [(t & Ht & Hc) _]. unfold scanAction. rewrite Hc, parse_fmt_time by done.
  eexists. split; [done|]. by split.
Qed.

(** Every enabled definition decodes for fan-out. *)
Lemma subscribers_read queue l : List.Forall action_sound l -> exists names, subscriber_names queue l = Ok names.
Proof.
  induction 1 as [|r l [_ (data & a & Hp & Hd & _)] Hl (ns & IH)]; [by exists []|]. cbn [subscriber_names].
  rewrite Hd, (decode_agree _ _ (ParseJSON_stored _ _ Hp)), IH. by eexists.
Qed.

(** ** Handlers that do not fail inside *)

Definition fine {A} (P : A -> Prop) (m : handler G A) : Prop := forall s,
  world_sound (s_world s) -> w_faults (s_world s) = [] -> id_live (w_gen (s_world (snd (m s)))) ->
  match fst (m s) with Ok a => P a | Err e => err_is e <> ErrOther end.

Lemma guarded_fine {A} (P : A -> Prop) (b : bool) e (m : handler G A) :
  err_is e <> ErrOther -> fine P m -> fine P (fun s => if b then (Err e, s) else m s).
Proof. intros He Hm s. destruct b; [done|apply Hm]. Qed.

Lemma answering_fine {A} (P : reply -> Prop) (f : A -> reply) (m : handler G A) : fine (fun a => P (f a)) m -> fine P (answering f m).
Proof. intros Hm s Hs Hf Hl. specialize (Hm s Hs Hf). unfold answering in *. by destruct (m s) as [[a|e] s']; apply Hm. Qed.

(** A query by a statement that scans. *)
Lemma reading_fine {A B} (P : B -> Prop) ctx (q : db -> result A) (f : A -> B) :
  (forall d g, sound_at (G := G) d g -> match q d with Ok a => P (f a) | Err e => err_is e <> ErrOther end) ->
  fine P (fun s => match call (read ctx q) s with (Err e, s) => (Err e, s) | (Ok a, s) => (Ok (f a), s) end).
Proof.
  intros Hq s Hs Hf _. unfold call, read, next_fault. rewrite Hf. specialize (Hq _ _ Hs). by destruct (q _).
Qed.

Lemma messageList_fine req : fine (List.Forall message_ok) (messageList req).
Proof.
  unfold messageList. apply guarded_fine; [done|]. apply reading_fine. intros d g [Hs _ _ _].
  edestruct (scan_rows scanMessage message_sound message_ok) as (l & -> & Hl); [exact scan_message| |cbn [wrap_errors]].
  - apply page_Forall, (ss_messages _ Hs).
  - apply List.Forall_map. eapply List.Forall_impl; [|exact Hl]. by intros [].
Qed.

Lemma head_Forall {A} (P : A -> Prop) (p : A -> bool) t r : List.Forall P t -> head (rows p t) = Some r -> P r.
Proof. intros Ht Hr. rewrite List.Forall_forall in Ht. by apply Ht, (head_In p). Qed.

Lemma messageShow_fine req : fine message_ok (messageShow req).
Proof.
  unfold messageShow. apply guarded_fine; [done|]. apply reading_fine. intros d g [Hs _ _ _].
  destruct (head (rows _ _)) as [r|] eqn:Eh; [|done]. apply (head_Forall _ _ _ _ (ss_messages _ Hs)) in Eh.
  destruct (scan_message r Eh) as (m & -> & Hm). cbn [wrap_errors]. by destruct m.
Qed.

Lemma queueList_fine : fine (fun _ => True) queueList.
Proof. intros s Hs Hf _. unfold queueList, call, ListQueues, read, next_fault. by rewrite Hf. Qed.

Lemma actionList_fine : fine (List.Forall (writes c_ActionSummary)) actionList.
Proof.
  apply reading_fine. intros d g [Hs _ _ _].
  edestruct (scan_rows scanAction action_sound action_ok) as (l & -> & Hl); [exact scan_action| |cbn [wrap_errors]].
  - eapply Forall_perm_rows; [apply order_by_perm|apply (ss_actions _ Hs)].
  - apply List.Forall_map. eapply List.Forall_impl; [|exact Hl]. apply writes_summary.
Qed.

Lemma actionShow_fine req : fine action_ok (actionShow req).
Proof.
  unfold actionShow. do 2 (apply guarded_fine; [done|]). apply reading_fine. intros d g [Hs _ _ _]. pose proof (ss_actions _ Hs) as Ha.
  destruct (selected _ _ _) as [r|] eqn:E; [|by destruct (_ =? _)].
  assert (action_sound r) as Hr.
  { unfold selected in E. destruct (_ =? _); [|by apply (head_Forall _ _ _ _ Ha E)].
    rewrite List.Forall_forall in Ha. apply Ha. by apply (latest_spec _ _ _ E). }
  destruct (scan_action r Hr) as (a & -> & Hok). by destruct a.
Qed.

Lemma deliveryList_fine req : fine (List.Forall (writes c_Delivery)) (deliveryList req).
Proof.
  unfold deliveryList. apply guarded_fine; [done|]. apply reading_fine. intros d g [Hs _ _ _].
  edestruct (scan_rows scanDelivery delivery_sound delivery_times) as (l & -> & Hl); [exact scan_delivery| |cbn [wrap_errors]].
  - apply page_Forall, (ss_deliveries _ Hs).
  - apply List.Forall_map. eapply List.Forall_impl; [|exact Hl]. apply writes_delivery.
Qed.

Lemma deliveryShow_fine req : fine (writes c_Delivery) (deliveryShow req).
Proof.
  unfold deliveryShow. apply guarded_fine; [done|]. apply reading_fine. intros d g [Hs _ _ _].
  destruct (head (rows _ _)) as [r|] eqn:Eh; [|done]. apply (head_Forall _ _ _ _ (ss_deliveries _ Hs)) in Eh.
  destruct (scan_delivery r Eh) as (v & -> & Hv). by apply writes_delivery.
Qed.

(** *** Requests that write *)

Lemma advances_live (g g' : G) : id_wf g -> advances g g' -> id_live g' -> id_live g.
Proof. intros Hg [n ->]. by apply draw_live. Qed.

(** Fresh pairs are inserted as long as identifiers are issued. *)
Lemma insert_live mid names d (g : G) :
  id_wf g -> ids_below g (t_deliveries d) -> mid ∈ map msg_id (t_messages d) -> NoDup names ->
  (forall r, In r (t_deliveries d) -> d_message_id r = Some mid -> d_action_name r ∉ names) ->
  id_live (snd (insert_deliveries mid names d g)) -> exists d', fst (insert_deliveries mid names d g) = Ok (tt, d').
Proof.
  revert d g; induction names as [|name names IH]; intros d g Hwf Hb Hm Hnd Hp; [by exists d|]. apply NoDup_cons in Hnd as [Hni Hnd].
  cbn [insert_deliveries]. unfold tx_bind at 1 3, tx_new_id. pose proof (new_id_wf g Hwf) as Hwf'. pose proof (new_id_above g) as Habv.
  pose proof (new_id_below g Hwf) as Hbel. pose proof (id_below_mono g) as Hmono. destruct (new_id g) as [id g1]. cbn [fst snd] in *. intros Hl.
  assert (id_live g1) as Hl1.
  { eapply advances_live; [done| |exact Hl]. apply draws_bind; [apply draws_insert_delivery|intros; apply draws_insert_deliveries]. }
  assert (forall r, In r (t_deliveries d) -> d_id r <> id) as Hid.
  { intros r Hr He. apply (str_lt_irrefl id). apply Habv; [done..|]. rewrite <- He. by apply Hb. }
  revert Hl. unfold tx_bind. rewrite insertDelivery_fresh; [|done| |done].
  2:{ intros r Hr Hm' He. apply (Hp r Hr Hm'). rewrite He. left. }
  apply IH; [done| |done|done|].
  - intros r Hr. apply in_app_iff in Hr as [Hr|[<-|[]]]; cbn [pending_row d_id]; [apply Hmono; auto|auto].
  - intros r Hr Hm' Hin. apply in_app_iff in Hr as [Hr|[<-|[]]]; [|done]. apply (Hp r Hr Hm'). by right.
Qed.

(** An append of a message with a fresh identifier. *)
Lemma append_fine m d (g : G) :
  sound_at d g -> message_fresh m d -> id_live (snd (append_tx m d g)) -> exists n d', fst (append_tx m d g) = Ok (n, d').
Proof.
  intros [Hs Hwf _ Hd] Hf. set (d1 := set_messages (t_messages d ++ [row_of_message m]) d).
  destruct (subscribers_read (msg_queue m) (enabled_current (t_actions d))) as [names Hnames].
  { eapply Forall_perm_rows; [apply order_by_perm|apply (ss_actions _ Hs)]. }
  assert (append_tx m d g = (_ <-t insert_deliveries (msg_id m) names ;; tx_ret (Z.of_nat (length names))) d1 g) as ->.
  { unfold append_tx, materializeDeliveries, tx_bind at 1. destruct (insertMessage_cases m d g) as [[_ ->]|[Hn _]]; [|done].
    unfold tx_bind at 1, tx_query, tx_of. cbn [set_messages t_actions]. by rewrite Hnames. }
  intros Hl. destruct (insert_live (msg_id m) names d1 g) as [d' Hd'].
  - done.
  - intros r Hr. rewrite List.Forall_forall in Hd. apply Hd; [by apply in_map|]. eapply advances_live; [done| |exact Hl].
    apply draws_bind; [apply draws_insert_deliveries|intros; apply draws_ret].
  - cbn [d1 set_messages t_messages]. rewrite map_app. apply elem_of_app. right. left.
  - eapply sublist_NoDup; [by apply enabled_current_NoDup, (ss_versions _ Hs)|by eapply subscriber_names_sublist].
  - intros r Hr Hm. exfalso. destruct (ss_references _ Hs r Hr) as (i & Hi & Hin). assert (i = msg_id m) as -> by congruence. by destruct Hf.
  - revert Hl. unfold tx_bind. by destruct (insert_deliveries _ _ _ _) as [[[[] d2]|e] g2].
  - unfold tx_bind. destruct (insert_deliveries _ _ _ _) as [r g2]. cbn [fst] in Hd'. subst r. by eexists _, _.
Qed.

Lemma NewID_of_world (s : sched G) : NewID_of s =
  (fst (new_id (w_gen (s_world s))), with_world (mkWorld (w_db (s_world s)) (snd (new_id (w_gen (s_world s)))) (w_faults (s_world s))) s).
Proof. unfold NewID_of. by destruct (new_id _). Qed.

Lemma messageSend_fine req now : time_ok now -> fine (writes c_SendMessageResponse) (messageSend req now).
Proof.
  intros Hn s Hs Hf. unfold messageSend. destruct (String.eqb _ _); [done|]. destruct (absent _); [done|].
  destruct (valid _) eqn:Ev; [|done]. cbn [negb]. rewrite !NewID_of_world. pose proof (new_id_above (w_gen (s_world s))) as Ha.
  pose proof (sa_gen _ _ Hs) as Hwf. pose proof (new_id_wf _ Hwf) as Hwf1. pose proof (new_id_live _ Hwf1) as Hl1.
  assert (advances (w_gen (s_world s)) (snd (new_id (snd (new_id (w_gen (s_world s))))))) as Hadv.
  { apply advances_new, advances_new, advances_refl. }
  cbn [s_world with_world w_db w_gen w_faults] in *. destruct (new_id (w_gen (s_world s))) as [id g1]. cbn [fst snd] in *.
  destruct (new_id g1) as [tr g2]. cbn [fst snd] in *. set (m := mkMessage id _ _ _ _ _ _ _ _).
  pose proof (sound_advances _ _ _ Hadv Hs) as Hs2. unfold call, with_world, AppendMessage. cbn [s_world]. rewrite Hf, write_no_fault.
  intros Hl. assert (id_live (snd (append_tx m (w_db (s_world s)) g2))) as Hla.
  { revert Hl. destruct (append_tx _ _ _) as [[[n d']|e] g3]; [|done]. cbn [s_world]. by destruct (0 <? n). }
  destruct (append_fine m _ g2 Hs2) as (n & d' & Hd).
  - split; [|done]. intros Hin. apply (str_lt_irrefl id). assert (id_live g2) as Hg2 by (eapply advances_live; [apply (sa_gen _ _ Hs2)|apply draws_append|exact Hla]).
    apply Ha; [done|by apply Hl1|]. pose proof (sa_messages _ _ Hs) as Hm. rewrite List.Forall_forall in Hm.
    apply Hm; [by apply list_elem_of_In|]. by eapply advances_live.
  - done.
  - destruct (append_tx _ _ _) as [r g3]. cbn [fst] in Hd. subst r. cbn [fst]. writing.
Qed.

Lemma actionApply_fine req now : cel_env = Ok tt -> time_ok now -> fine (fun _ => True) (actionApply req now).
Proof.
  intros Henv Hn s Hs Hf _. unfold actionApply. destruct (absent _); [done|]. destruct (ParseJSON (aa_definition req)) as [a|e] eqn:Ep.
  - cbn [Canonical]. pose proof (ApplyAction_cases (act_name a) (print (action_json a)) now (s_world s) (sound_registry _ (sa_db _ _ Hs)) Hn) as Hc.
    unfold call. destruct (ApplyAction _ _ _ _) as [[[x b]|e] w]; [done|]. by destruct Hc.
  - cbn [fst]. by rewrite (ParseJSON_errors _ Henv _ Ep).
Qed.

Lemma setActionEnabled_fine req on now : fine (fun _ => True) (setActionEnabled req on Served now).
Proof.
  intros s Hs Hf _. unfold setActionEnabled. destruct (String.eqb _ _); [done|]. unfold call.
  pose proof (SetActionEnabled_cases (rq_name req) on (s_world s) (sound_registry _ (sa_db _ _ Hs))) as Hc.
  destruct (s_world s) as [d g fs] eqn:Ew. cbn [w_faults] in Hf. subst fs. unfold SetActionEnabled in Hc |- *. rewrite write_no_fault in Hc |- *.
  match type of Hc with match (match ?m with _ => _ end) with _ => _ end => destruct m as [[[a d']|e] g'] end.
  - destruct on; [done|]. cbn [CancelAction]. unfold handleCtrl, call, CancelDeliveries. cbn [s_world with_world]. by rewrite write_no_fault.
  - destruct Hc as [_ [Hc|[_ Hc]]]; [done|]. cbn [fst]. by rewrite Hc.
Qed.

Lemma deliveryReplay_fine req : fine (writes c_Delivery) (deliveryReplay req).
Proof.
  intros s Hs Hf _. unfold deliveryReplay. destruct (String.eqb _ _); [done|]. unfold call, ReplayDelivery.
  destruct (s_world s) as [d g fs] eqn:Ew. cbn [w_faults] in Hf. subst fs. rewrite write_no_fault. unfold tx_bind, update_deliveries.
  set (p := fun r => with_id (rq_id req) r && in_state [StateDead] r). destruct Hs as [Hs _ _ _]. cbn [w_db] in Hs.
  destruct (affected p (t_deliveries d)) as [|k] eqn:Ea; unfold tx_query, tx_of; [by destruct (head _)|].
  apply (sound_update p replay_row) in Hs; [|done|done|intros; apply replay_sound]. unfold getDelivery.
  destruct (head (rows (with_id (rq_id req)) _)) as [r|] eqn:Eh.
  - apply (head_Forall _ _ _ _ (ss_deliveries _ Hs)) in Eh. destruct (scan_delivery r Eh) as (v & -> & Hv). by apply writes_delivery.
  - exfalso. destruct (proj1 (affected_pos p (t_deliveries d))) as (r & Hr & Hp); [lia|]. cbn [set_deliveries t_deliveries] in Eh.
    assert (In (replay_row r) (rows (with_id (rq_id req)) (update p replay_row (t_deliveries d)))) as Hin.
    { apply List.filter_In. split; [|by apply andb_true_iff in Hp as [Hp _]]. unfold update. apply in_map_iff. exists r. by rewrite Hp. }
    by destruct (rows _ _).
Qed.

(** ** The theorem *)

(** What a route answers is no failure of its own, and encodes. *)
Definition proper (r : response reply) : Prop :=
  match r with Replied a => is_ok (reply_text a) = true | Failed status _ _ => status <> 500 end.

Lemma writes_reply a : match a with
    | ASent r => writes c_SendMessageResponse r | AMessages l => List.Forall message_ok l | AMessage m => message_ok m
    | AQueues _ | AApplied _ | AEnabled _ => True | AActions l => List.Forall (writes c_ActionSummary) l | AAction a => action_ok a
    | ADeliveries l => List.Forall (writes c_Delivery) l | ADelivery d => writes c_Delivery d end -> is_ok (reply_text a) = true.
Proof.
  assert (forall m, message_ok m -> writes c_Message m) as Hm by (intros m Hm; pose proof (writes_message m Hm) as Hw; by destruct m).
  assert (forall A (c : codec A) x, writes c x -> is_ok (c_text c x) = true) as Hw by (intros A c x [t ->]; done).
  destruct a as [r|l|m|l|r|l|a|r|l|d]; intros Ha; cbn [reply_text]; apply Hw; try done.
  - apply writes_only, writes_list. eapply List.Forall_impl; [|exact Ha]. exact Hm.
  - by apply Hm.
  - apply writes_only, writes_list, List.Forall_forall. intros x _. writing.
  - writing.
  - by apply writes_only, writes_list.
  - pose proof (writes_action a Ha) as Hx. by destruct a.
  - writing.
  - by apply writes_only, writes_list.
Qed.

Lemma handle_fine {Req Resp : Type} (cd : codec Req) (fn : Req -> handler G Resp) (P : Resp -> Prop) body s :
  (forall b req, decoded cd b = Ok req -> fine P (fn req)) -> world_sound (s_world s) -> w_faults (s_world s) = [] ->
  id_live (w_gen (s_world (snd (handle cd fn body s)))) ->
  match fst (handle cd fn body s) with Replied a => P a | Failed st _ _ => st <> 500 end.
Proof.
  intros Hfn Hs Hf. unfold handle. destruct (read_body body) as [b|e]; [|done]. destruct (decoded cd b) as [req|e] eqn:Ed; [|done].
  specialize (Hfn b req Ed s Hs Hf). destruct (fn req s) as [[a|e] s']; cbn [fst snd] in *; [done|]. unfold errorStatus.
  intros Hl. destruct (err_is e) eqn:Ee; try done; by apply Hfn in Hl.
Qed.

Lemma fine_impl {A} (P Q : A -> Prop) (m : handler G A) : (forall a, P a -> Q a) -> fine P m -> fine Q m.
Proof. intros Hpq Hm s Hs Hf Hl. specialize (Hm s Hs Hf Hl). destruct (fst (m s)); auto. Qed.

(** C21. On a store that satisfies the invariant, with a database that
    does not fail and a loop that serves its cancellations, no request - any
    endpoint, any body - is answered with an internal error, and every answer
    encodes: what a client is told to be wrong is its own doing. *)
Theorem never_internal endpoint body now s :
  cel_env = Ok tt -> time_ok now -> world_sound (s_world s) -> w_faults (s_world s) = [] ->
  id_live (w_gen (s_world (snd (ServeHTTP endpoint body now Served s)))) ->
  proper (fst (ServeHTTP endpoint body now Served s)).
Proof.
  intros Henv Hn Hs Hf. unfold ServeHTTP.
  assert (forall (Req : Type) (cd : codec Req) (fn : Req -> handler G reply), (forall req, fine (fun a => is_ok (reply_text a) = true) (fn req)) ->
    id_live (w_gen (s_world (snd (handle cd fn body s)))) -> proper (fst (handle cd fn body s))) as Hh.
  { intros Req cd fn Hfn Hl. pose proof (handle_fine cd fn _ body s (fun b req _ => Hfn req) Hs Hf Hl) as Hx. by destruct (fst _). }
  repeat (match goal with |- context [if String.eqb endpoint ?e then _ else _] => destruct (String.eqb endpoint e);
    [apply Hh; intros req; apply answering_fine; (eapply fine_impl; [intros a Ha; by apply writes_reply|])|] end); [..|done];
    try first [by apply messageSend_fine|apply messageList_fine|apply messageShow_fine|apply queueList_fine|by apply actionApply_fine|apply actionList_fine
      |apply actionShow_fine|apply setActionEnabled_fine|apply deliveryList_fine|apply deliveryShow_fine|apply deliveryReplay_fine].
Qed.
(** ** Outcomes are stored *)

(** The messages of a completion: fresh identifiers, an origin that exists. *)
Lemma outputs_fine outs : forall d (g : G),
  sound_at d g -> List.Forall message_ok outs -> NoDup (map msg_id outs) -> List.Forall (issued g) (map msg_id outs) ->
  List.Forall (fun m => message_fresh m d) outs -> id_live (snd (append_outputs outs d g)) ->
  exists n d', fst (append_outputs outs d g) = Ok (n, d').
Proof.
  induction outs as [|m outs IH]; intros d g Hs Hm Hnd Hi Hf; [by exists 0, d|]. cbn [map] in Hnd, Hi. apply NoDup_cons in Hnd as [Hni Hnd].
  inversion_clear Hm as [|? ? Hm1 Hm2]; inversion_clear Hi as [|? ? Hi1 Hi2]; inversion_clear Hf as [|? ? Hf1 Hf2].
  assert (forall e, append_outputs (m :: outs) e g = (n <-t append_tx m ;; k <-t append_outputs outs ;; tx_ret (n + k)) e g) as ->
    by (intros e; cbn [append_outputs]; unfold append_tx, tx_bind; by destruct (insertMessage m e g) as [[[[] ?]|?] ?]).
  pose proof (draws_append m d g) as Hd. unfold tx_bind. intros Hl.
  assert (id_live (snd (append_tx m d g))) as Hl1.
  { destruct (append_tx m d g) as [[[n d1]|e] g1] eqn:Ea; [|done]. cbn [fst snd] in *. eapply advances_live; [by eapply advances_wf; [apply (sa_gen _ _ Hs)|]| |exact Hl].
    apply draws_bind; [apply draws_outputs|intros; apply draws_ret]. }
  destruct (append_fine m d g Hs Hf1 Hl1) as (n & d1 & Ha). destruct (append_tx m d g) as [r g1] eqn:Ea. cbn [fst snd] in *. subst r.
  destruct (IH d1 g1) as (k & d2 & Hx); [by eapply append_keeps|done..| | | |].
  - eapply List.Forall_impl; [|exact Hi2]. intros i Hx. by eapply issued_advances; [apply (sa_gen _ _ Hs)|..].
  - apply append_ok in Ea as (ids & names & _ & _ & (_ & _ & ->)). apply List.Forall_forall. intros x Hx. rewrite List.Forall_forall in Hf2.
    destruct (Hf2 x Hx) as [X1 X2]. unfold message_fresh. cbn [t_messages]. rewrite map_app. cbn [map]. split.
    + rewrite elem_of_app, list_elem_of_singleton. intros [Hin|Hin]; [done|]. apply Hni. cbn [row_of_message msg_id] in Hin. rewrite <- Hin.
      by apply list_elem_of_In, in_map.
    + intros o Ho. destruct (X2 o Ho) as [Hin| ->]; [left; apply elem_of_app; by left|by right].
  - revert Hl. by destruct (append_outputs outs d1 g1) as [[[k d2]|e] g2].
  - destruct (append_outputs outs d1 g1) as [r g2]. cbn [fst] in Hx. subst r. by eexists _, _.
Qed.
(** A claimed delivery completes. *)
Lemma complete_fine id tail outs now d (g : G) :
  time_ok now -> sound_at d g -> List.Forall message_ok outs -> NoDup (map msg_id outs) -> List.Forall (issued g) (map msg_id outs) ->
  List.Forall (fun m => message_fresh m d) outs -> ~ refused id claimed (t_deliveries d) ->
  id_live (snd (complete_tx id tail outs now d g)) -> exists n d', fst (complete_tx id tail outs now d g) = Ok (n, d').
Proof.
  intros Hn Hs Hm Hnd Hi Hf Hr. unfold complete_tx. fold claimed. unfold tx_bind.
  set (p := fun r => with_id id r && claimed r). set (f := done_row tail (fmt_time now)).
  assert (keeps_id f) as Hk by done.
  destruct (transition_cases "complete" id claimed p f (fun r => eq_refl) Hk d g (ss_delivery_ids _ (sa_db _ _ Hs))) as [[Ht _]|(e & _ & Hr')]; [|done].
  rewrite Ht. apply outputs_fine; [|done..].
  eapply (update_tx_keeps p f (fun n => mustAffect n "complete" id)); [|intros; apply reads_affect|exact Hs|exact Ht].
  split; [done|done|]. intros; by apply done_sound.
Qed.

(** The outputs of a result are fresh on a store that knows their origin. *)
Lemma job_outputs_fresh j r now (w w' : world G) outs :
  world_sound w -> msg_id (wk_message (j_work j)) ∈ map msg_id (t_messages (w_db w)) -> id_live (w_gen w') -> job_outputs j r now w = (Ok outs, w') ->
  NoDup (map msg_id outs) /\ List.Forall (fun m => message_fresh m (w_db w)) outs.
Proof.
  intros Hs Ho Hl. unfold job_outputs. destruct (j_failed j); [done|]. destruct (e_err r); [done|].
  destruct (parseNDJSON _) as [lines|e]; [|done]. destruct (String.eqb _ _); [intros [= <- _]; split; [apply NoDup_nil_2|constructor]|].
  unfold buildOutputs. pose proof (build_outputs_spec (j_work j) (j_action j) (output_headers (wk_message (j_work j))) lines now (w_gen w)) as Hb.
  cbn zeta in Hb. destruct (build_outputs _ _ _ _ _ _) as [out g]. cbn [fst snd] in Hb. destruct Hb as (_ & Hi & -> & Hf). intros [= <- <-].
  cbn [w_gen] in Hl. destruct (draw_sorted (length lines) (w_gen w) (sa_gen _ _ Hs) Hl) as [Hsort Habove]. rewrite Hi. split.
  - clear -Hsort. induction Hsort as [|x l Hl IH Hx]; [apply NoDup_nil_2|]. apply NoDup_cons. split; [|done]. intros Hin. rewrite List.Forall_forall in Hx.
    apply list_elem_of_In, Hx in Hin. by apply str_lt_irrefl in Hin.
  - apply List.Forall_forall. intros m Hm. split.
    + intros Hin. pose proof (sa_messages _ _ Hs) as Hiss. rewrite List.Forall_forall in Hiss. apply list_elem_of_In in Hin. apply Hiss in Hin.
      assert (id_live (w_gen w)) as Hl0 by (eapply draw_live; [apply (sa_gen _ _ Hs)|exact Hl]). specialize (Habove _ (Hin Hl0)).
      rewrite <- Hi, Forall_forall in Habove. apply (str_lt_irrefl (msg_id m)), Habove, list_elem_of_In. by apply in_map.
    + rewrite Forall_forall in Hf. destruct (Hf m) as (_ & _ & _ & _ & _ & Hor & _); [by apply list_elem_of_In|]. rewrite Hor. intros o [= <-]. by left.
Qed.
Lemma draws_complete id tail outs now : draws (complete_tx (G := G) id tail outs now).
Proof. apply draws_bind; [apply draws_transition|intros; apply draws_outputs]. Qed.

Lemma job_outputs_faults j r now (w w' : world G) x : job_outputs j r now w = (x, w') -> w_faults w' = w_faults w.
Proof.
  unfold job_outputs. destruct (j_failed j); [by intros [= _ <-]|]. destruct (e_err r); [by intros [= _ <-]|].
  destruct (parseNDJSON _); [|by intros [= _ <-]]. destruct (String.eqb _ _); [by intros [= _ <-]|]. unfold buildOutputs.
  destruct (build_outputs _ _ _ _ _ _). by intros [= _ <-].
Qed.

(** The row of a completed delivery. *)
Lemma complete_tx_row id tail outs now d (g : G) n d' g' :
  NoDup (map d_id (t_deliveries d)) -> complete_tx id tail outs now d g = (Ok (n, d'), g') ->
  exists r, find_row id (t_deliveries d) = Some r /\ find_row id (t_deliveries d') = Some (done_row tail (fmt_time now) r).
Proof.
  intros Hnd Hx. unfold complete_tx in Hx. fold claimed in Hx. apply tx_bind_ok in Hx as ([] & d1 & g1 & Ht & Ho).
  assert (keeps_id (done_row tail (fmt_time now))) as Hk by done.
  destruct (transition_cases "complete" id claimed _ _ (fun r => eq_refl) Hk d g Hnd) as [[Ht' (r & Hr & _ & Hr' & _)]|(e & Ht' & _)]; rewrite Ht' in Ht; [|done].
  injection Ht as <- <-. exists r. split; [done|]. apply append_outputs_ok, appended_all_prefix in Ho as (_ & _ & news & -> & _ & _).
  cbn [set_deliveries t_deliveries]. revert Hr'. unfold find_row, rows. rewrite List.filter_app. by destruct (List.filter _ _).
Qed.

(** The state an execution leaves its delivery in. *)
Definition outcome_state (j : job) (outs : result (list message)) : dstate :=
  match outs with
  | Ok _ => StateDone
  | Err _ => if ai_maxAttempts (j_action j) <=? d_attempt (wk_delivery (j_work j)) then StateDead else StateFailed
  end.

(** The row is in the state of the outcome. *)
Lemma outcome_settles c k j r now rnd (s : sched G) row :
  time_ok now -> world_sound (s_world s) -> w_faults (s_world s) = [] -> s_running s !! k = Some j ->
  find_row (d_id (wk_delivery (j_work j))) (t_deliveries (s_db s)) = Some row -> d_state row = StateClaimed ->
  msg_id (wk_message (j_work j)) ∈ map msg_id (t_messages (s_db s)) ->
  id_live (w_gen (s_world (apply c k r now rnd s))) ->
  exists row', find_row (d_id (wk_delivery (j_work j))) (t_deliveries (s_db (apply c k r now rnd s))) = Some row' /\
    d_state row' = outcome_state j (fst (job_outputs j (job_result j r) now (s_world s))).
Proof.
  intros Hn Hs Hf Hj Hrow Hst Ho. unfold apply. rewrite Hj. set (s0 := add_inflight _ _ _). change (s_world s0) with (s_world s).
  set (id := d_id (wk_delivery (j_work j))) in *. assert (~ refused id claimed (t_deliveries (s_db s))) as Hnr.
  { intros Hr. specialize (Hr row Hrow). unfold claimed, in_state in Hr. by rewrite Hst in Hr. }
  destruct (job_outputs j (job_result j r) now (s_world s)) as [outs w] eqn:Ej. destruct (job_outputs_world _ _ _ _ _ _ Ej) as [Hd Ha].
  assert (w_faults w = []) as Hfw by (rewrite <- Hf; by apply job_outputs_faults in Ej). pose proof (sound_advances _ _ _ Ha Hs) as Hsw.
  unfold s_db in *. destruct w as [d g fs]; cbn [w_db w_gen w_faults] in *. subst d fs. unfold call. cbn [s_world with_world].
  destruct outs as [outs|e]; cbn [fst outcome_state].
  - unfold CompleteDelivery. rewrite write_no_fault. intros Hl.
    assert (id_live (snd (complete_tx id (e_stderr_tail (job_result j r)) outs now (w_db (s_world s)) g))) as Hlc.
    { revert Hl. by destruct (complete_tx _ _ _ _ _ _) as [[[n d']|e] g']. }
    destruct (job_outputs_ok _ _ _ _ _ _ Hn (sa_gen _ _ Hs) Ej) as [Hm Hi]. cbn [w_gen] in Hi.
    assert (id_live g) as Hlg by (eapply advances_live; [apply (sa_gen _ _ Hsw)|apply draws_complete|exact Hlc]).
    destruct (job_outputs_fresh j (job_result j r) now (s_world s) (mkWorld (w_db (s_world s)) g []) outs Hs Ho Hlg Ej) as [Hnd Hfr].
    destruct (complete_fine id (e_stderr_tail (job_result j r)) outs now (w_db (s_world s)) g Hn Hsw Hm Hnd Hi Hfr Hnr Hlc) as (n & d' & Hc).
    destruct (complete_tx _ _ _ _ _ _) as [x g'] eqn:Ec. cbn [fst] in Hc. subst x. cbn [s_world with_world].
    apply complete_tx_row in Ec; [|apply (ss_delivery_ids _ (sa_db _ _ Hs))]. destruct Ec as (r0 & Hr0 & Hr1). eexists. split; [exact Hr1|done].
  - set (isdead := _ <=? _). set (gate := now + _). unfold FailDelivery. rewrite write_no_fault. fold claimed.
    destruct (transition_cases "fail" id claimed (fun r => with_id id r && claimed r) (failed_row isdead (fmt_time gate) (err_msg e) (e_stderr_tail (job_result j r)) (fmt_time now))
      (fun r => eq_refl) ltac:(by destruct isdead) (w_db (s_world s)) g (ss_delivery_ids _ (sa_db _ _ Hs))) as [[-> (r0 & _ & _ & Hr & _)]|(e' & _ & Hr')]; [|done].
    intros _. destruct isdead; (eexists; split; [exact Hr|done]).
Qed.

(** C8. No result is lost: on a store that satisfies the invariant, with a
    database that does not fail, applying the result of a claimed delivery stores
    its outcome, whatever the process returned.  Success: the row is done, every
    output is appended, in order, with a pending delivery for each of its
    subscribers, and the counter moves by those deliveries less one.  Failure: the
    row is failed behind its gate, or dead when the attempts are spent; nothing
    else changes. *)
Theorem outcome_stored c k j r now rnd (s : sched G) row :
  time_ok now -> world_sound (s_world s) -> w_faults (s_world s) = [] -> s_running s !! k = Some j ->
  find_row (d_id (wk_delivery (j_work j))) (t_deliveries (s_db s)) = Some row -> d_state row = StateClaimed ->
  msg_id (wk_message (j_work j)) ∈ map msg_id (t_messages (s_db s)) ->
  id_live (w_gen (s_world (apply c k r now rnd s))) ->
  let s' := apply c k r now rnd s in
  let res := job_result j r in
  match fst (job_outputs j res now (s_world s)) with
  | Ok outs => completed j (e_stderr_tail res) outs now (s_db s) (s_db s') (s_active s' - s_active s)
  | Err e => retried c j (err_msg e) (e_stderr_tail res) now rnd (s_db s) (s_db s') (s_active s' - s_active s)
  end /\
  exists row', find_row (d_id (wk_delivery (j_work j))) (t_deliveries (s_db s')) = Some row' /\
    d_state row' = outcome_state j (fst (job_outputs j res now (s_world s))).
Proof.
  intros Hn Hs Hf Hj Hrow Hst Ho Hl. cbn zeta. destruct (outcome_settles c k j r now rnd s row Hn Hs Hf Hj Hrow Hst Ho Hl) as (row' & Hrow' & Hst').
  split; [|by exists row']. destruct (apply_stores c k j r now rnd s (ss_delivery_ids _ (sa_db _ _ Hs)) Hj) as (_ & _ & [[Hd _]|Hx]); [|exact Hx].
  exfalso. unfold s_db in *. rewrite Hd, Hrow in Hrow'. injection Hrow' as <-. rewrite Hst in Hst'. revert Hst'.
  unfold outcome_state. destruct (fst (job_outputs _ _ _ _)); [done|]. by destruct (_ <=? _).
Qed.
End Answers.

(** ** Witnesses: the demo daemon with one execution in flight *)

Lemma never_internal_witness :
  proper (fst (ServeHTTP (H0 := toy_cel) "message.send" (Ok send_body) (4 * Second) Served demo_dispatched)) /\
  fst (respond (fst (ServeHTTP (H0 := toy_cel) "message.send" (Ok send_body) (4 * Second) Served demo_dispatched))) = 200.
Proof.
  split; [|vm_compute; reflexivity].
  apply (never_internal (H0 := toy_cel) "message.send" (Ok send_body) (4 * Second) demo_dispatched).
  - done.
  - apply (demo_time 4). do 3 right. by left.
  - exact dispatched_sound.
  - vm_compute. reflexivity.
  - vm_compute. reflexivity.
Defined.

Definition demo_result : Result := mkResult ("{" +:+ dq "n" +:+ ":1}" +:+ newline) "" None.
Definition demo_settled := apply default_config 0 demo_result (4 * Second) 12345 demo_dispatched.

Lemma outcome_stored_witness :
  match s_running demo_dispatched with
  | [j] => exists m row', completed j "" [m] (4 * Second) (s_db demo_dispatched) (s_db demo_settled) (s_active demo_settled - s_active demo_dispatched) /\
      msg_queue m = "sums" /\ find_row (d_id (wk_delivery (j_work j))) (t_deliveries (s_db demo_settled)) = Some row' /\ d_state row' = StateDone
  | _ => False
  end.
Proof.
  pose proof (fun j row => outcome_stored (H0 := toy_cel) default_config 0 j demo_result (4 * Second) 12345 demo_dispatched row) as Hx.
  assert (match s_running demo_dispatched with
    | [j] => match find_row (d_id (wk_delivery (j_work j))) (t_deliveries (s_db demo_dispatched)) with Some row => bool_decide (d_state row = StateClaimed) | None => false end
             && bool_decide (msg_id (wk_message (j_work j)) ∈ map msg_id (t_messages (s_db demo_dispatched)))
             && match fst (job_outputs j (job_result j demo_result) (4 * Second) (s_world demo_dispatched)) with Ok [m] => String.eqb (msg_queue m) "sums" | _ => false end
             && String.eqb (e_stderr_tail (job_result j demo_result)) ""
    | _ => false end = true) as Hd by (vm_compute; reflexivity).
  assert (w_faults (s_world demo_dispatched) = []) as Hf by (vm_compute; reflexivity).
  assert (id_live (w_gen (s_world demo_settled))) as Hl by (vm_compute; reflexivity).
  destruct (s_running demo_dispatched) as [|j []] eqn:Ej; [discriminate Hd| |discriminate Hd].
  apply andb_true_iff in Hd as [Hd Ht%String.eqb_eq]. apply andb_true_iff in Hd as [Hd He]. apply andb_true_iff in Hd as [Hd Hm%bool_decide_eq_true].
  destruct (find_row _ (t_deliveries (s_db demo_dispatched))) as [row|] eqn:Er; [|discriminate Hd]. apply bool_decide_eq_true in Hd.
  destruct (Hx j row) as (Hc & row' & Hr & Hs); [by apply (demo_time 4); do 3 right; left|exact dispatched_sound|exact Hf|reflexivity|exact Er|exact Hd|exact Hm|exact Hl|].
  cbn zeta in Hc, Hr, Hs. rewrite Ht in Hc. destruct (fst (job_outputs _ _ _ _)) as [[|m []]|e]; try discriminate He. apply String.eqb_eq in He.
  exists m, row'. split; [exact Hc|]. split; [exact He|]. split; [exact Hr|]. rewrite Hs. reflexivity.
Defined.
