(* ===== verification/Idle.v ===== *)
(** When the daemon may stop for idleness: the requests in flight
    (internal/api/server.go), the busy counter of the scheduler, and the two
    probes of the idle tracker (internal/daemon/daemon.go).

    Requests come and go while the loop and the watch of the tracker run.  A tick
    evaluates [InFlight() > 0 || Busy()]: two reads, at two instants.  Lifecycle
    has the instants at which the tracker ticks; here is what the daemon may
    conclude when both reads answer no. *)
From S2P Require Import Prelude GoTime Float64 Json JsonText RawText Action Cel Canon Ids Db Registry Deliveries Messages Wire Executor Scheduler System Api Sound.

Inductive probe := PInFlight | PBusy.
#[global] Instance probe_eq_dec : EqDecision probe.
Proof. solve_decision. Defined.

(** The order in which the daemon's busy function evaluates them. *)
Definition probes : list probe := [PInFlight; PBusy].

Section Idle.
Context {G : Type} `{IdSource G} `{CelLib} (c : Config) (order : list probe).

(** A request being served: what it has committed and not announced yet, and
    whether it arrived after the probe of InFlight. *)
Record request := mkRequest { q_owed : Z; q_late : bool }.

Record server := mkServer {
  v_sched : sched G;
  v_found : option (actionInfo * Work);
  v_requests : list request;
  v_inFlight : Z;           (** the atomic counter *)
  v_watch : list probe      (** the probes of this tick still to come; none is left when it closes the channel *)
}.

Definition debt (l : list request) : Z := foldr (fun q n => q_owed q + n) 0 l.
Definition sys_of (v : server) : sys G := mkSys (v_sched v) (v_found v) (debt (v_requests v)).

Definition with_sys (y : sys G) (l : list request) (v : server) : server :=
  mkServer (y_sched y) (y_found y) l (v_inFlight v) (v_watch v).

(** What a probe reads. *)
Definition reads_busy (p : probe) (v : server) : bool :=
  match p with PInFlight => 0 <? v_inFlight v | PBusy => Busy (v_sched v) end.

Definition is_late (v : server) : bool := negb (bool_decide (PInFlight ∈ v_watch v)).

Inductive serve_step : server -> server -> Prop :=
| S_arrive v :    (** ServeHTTP: inFlight.Add(1) *)
    serve_step v (mkServer (v_sched v) (v_found v) (v_requests v ++ [mkRequest 0 (is_late v)]) (v_inFlight v + 1) (v_watch v))
| S_request v i q y :    (** its handler commits or announces *)
    v_requests v !! i = Some q -> other_step (sys_of v) y ->
    serve_step v (with_sys y (<[i := mkRequest (q_owed q + (y_owed y - debt (v_requests v))) (q_late q)]> (v_requests v)) v)
| S_finish v i q :       (** inFlight.Add(-1), with everything announced *)
    v_requests v !! i = Some q -> q_owed q = 0 ->
    serve_step v (mkServer (v_sched v) (v_found v) (delete i (v_requests v)) (v_inFlight v - 1) (v_watch v))
| S_loop v y : loop_step c (sys_of v) y -> serve_step v (with_sys y (v_requests v) v)
| S_worker v y : other_step (sys_of v) y -> y_owed y = debt (v_requests v) -> serve_step v (with_sys y (v_requests v) v)
| S_probe v p ps :
    v_watch v = p :: ps ->
    serve_step v (mkServer (v_sched v) (v_found v) (v_requests v) (v_inFlight v) (if reads_busy p v then order else ps)).

(** Before the first request, at the first tick. *)
Definition started (s : sched G) : server := mkServer s None [] 0 order.

(** ** The invariant *)

Lemma debt_app l1 l2 : debt (l1 ++ l2) = debt l1 + debt l2.
Proof. induction l1 as [|q l IH]; [done|]. cbn [app debt foldr]. fold (debt (l ++ l2)). fold (debt l). lia. Qed.

Lemma debt_delete i q l : l !! i = Some q -> debt (delete i l) = debt l - q_owed q.
Proof.
  intros Hi. rewrite delete_take_drop, debt_app. rewrite <- (take_drop_middle l i q Hi) at 3. rewrite debt_app. cbn [debt foldr]. unfold debt. lia.
Qed.

Lemma debt_insert i q q' l : l !! i = Some q -> debt (<[i := q']> l) = debt l - q_owed q + q_owed q'.
Proof.
  intros Hi. rewrite insert_take_drop by by eapply lookup_lt_Some. rewrite debt_app.
  rewrite <- (take_drop_middle l i q Hi) at 3. rewrite debt_app. cbn [debt foldr]. unfold debt. lia.
Qed.

Lemma loop_owed y y' : loop_step c y y' -> y_owed y' = y_owed y.
Proof. by destruct 1. Qed.

Record server_ok (v : server) : Prop := {
  vo_sys : sys_ok (sys_of v);
  vo_count : v_inFlight v = Z.of_nat (length (v_requests v));
  vo_watch : exists k, v_watch v = drop k order;
  vo_late : PInFlight ∉ v_watch v -> Forall (fun q => q_late q = true) (v_requests v)
}.
Lemma busy_none p v : server_ok v -> p = PInFlight -> reads_busy p v = false -> v_requests v = [].
Proof.
  intros Hv -> Hb. cbn [reads_busy] in Hb. apply Z.ltb_ge in Hb. rewrite (vo_count _ Hv) in Hb. destruct (v_requests v); [done|]. cbn [length] in Hb. lia.
Qed.

Lemma late_insert i (q : request) n l : l !! i = Some q -> Forall (fun q => q_late q = true) l -> Forall (fun q => q_late q = true) (<[i := mkRequest n (q_late q)]> l).
Proof. intros Hi Hl. apply Forall_insert; [done|]. exact (Forall_lookup_1 _ l i q Hl Hi). Qed.

Lemma serve_step_ok v v' : server_ok v -> serve_step v v' -> server_ok v'.
Proof.
  intros Hv Hs. pose proof Hv as [V1 V2 V3 V4]. destruct Hs as [v|v i q y Hi Ho|v i q Hi Hq|v y Hl|v y Ho Hw|v p ps Hp].
  - split; cbn [v_watch v_requests v_inFlight]; [|rewrite length_app; cbn [length]; lia|done|].
    + unfold sys_of in *. cbn [v_sched v_found v_requests]. rewrite debt_app. cbn [debt foldr q_owed]. by replace (debt (v_requests v) + (0 + 0)) with (debt (v_requests v)) by lia.
    + intros Hn. apply Forall_app. split; [by apply V4|]. apply Forall_singleton. unfold is_late. cbn [q_late]. by rewrite bool_decide_eq_false_2.
  - split; cbn [v_watch v_requests v_inFlight with_sys]; [|by rewrite length_insert|done|].
    + pose proof (other_step_ok _ _ V1 Ho) as Hy. unfold sys_of. cbn [v_sched v_found v_requests with_sys]. rewrite (debt_insert i q) by done. cbn [q_owed].
      replace (debt (v_requests v) - q_owed q + (q_owed q + (y_owed y - debt (v_requests v)))) with (y_owed y) by lia. by destruct y.
    + intros Hn. apply late_insert; auto.
  - split; cbn [v_watch v_requests v_inFlight]; [| |done|].
    + unfold sys_of in *. cbn [v_sched v_found v_requests]. rewrite (debt_delete i q) by done. by replace (debt (v_requests v) - q_owed q) with (debt (v_requests v)) by lia.
    + rewrite length_delete by by eexists. pose proof (lookup_lt_Some _ _ _ Hi). lia.
    + intros Hn. specialize (V4 Hn). rewrite Forall_forall in *. intros x Hx. apply V4. rewrite delete_take_drop in Hx. apply elem_of_app in Hx as [Hx|Hx].
      * rewrite <- (take_drop i (v_requests v)). apply elem_of_app. by left.
      * rewrite <- (take_drop (S i) (v_requests v)). apply elem_of_app. by right.
  - split; cbn [v_watch v_requests v_inFlight with_sys]; [|done..]. pose proof (loop_step_ok c _ _ V1 Hl) as Hy. unfold sys_of. cbn [v_sched v_found v_requests with_sys].
    apply loop_owed in Hl. cbn [sys_of y_owed] in Hl. rewrite <- Hl. by destruct y.
  - split; cbn [v_watch v_requests v_inFlight with_sys]; [|done..]. pose proof (other_step_ok _ _ V1 Ho) as Hy. unfold sys_of. cbn [v_sched v_found v_requests with_sys].
    rewrite <- Hw. by destruct y.
  - split; cbn [v_watch v_requests v_inFlight]; [done|done| |].
    + destruct (reads_busy p v); [by exists 0%nat|]. destruct V3 as [k Hk]. exists (S k). rewrite <- Nat.add_1_r, <- drop_drop, <- Hk, Hp. done.
    + destruct (reads_busy p v) eqn:Eb; intros Hn.
      * apply V4. destruct V3 as [k Hk]. rewrite Hk. intros Hin. apply Hn. rewrite <- (take_drop k order). apply elem_of_app. by right.
      * destruct (decide (p = PInFlight)) as [He|Hne]; [by rewrite (busy_none p v Hv He Eb)|]. apply V4. rewrite Hp, not_elem_of_cons. by split.
Qed.
Lemma serve_steps_ok v v' : server_ok v -> rtc serve_step v v' -> server_ok v'.
Proof. intros Hv Hs. induction Hs; eauto using serve_step_ok. Qed.

Lemma started_ok w (s : sched G) : NoDup (map d_id (t_deliveries (w_db w))) -> seed w = Ok s -> server_ok (started s).
Proof.
  intros Hnd Hs. destruct (start_ok w s Hnd Hs) as [Hok _]. split; [exact Hok|done|by exists 0%nat|]. intros _. constructor.
Qed.
End Idle.

Section Decision.
Context {G : Type} `{IdSource G} `{CelLib} (c : Config).

(** C7. The daemon does not stop with work it was told of: when a tick finds
    both probes negative, whatever requests, workers and the loop did in between,
    every pending, waiting or claimed delivery is one that a request in flight
    has committed and not announced, and all requests in flight arrived after
    the probe of InFlight; so with none in flight nothing is left to execute. *)
Theorem idle_decision (w : world G) s v v' :
  NoDup (map d_id (t_deliveries (w_db w))) -> seed w = Ok s ->
  rtc (serve_step c probes) (started probes s) v -> serve_step c probes v v' -> v_watch v <> [] -> v_watch v' = [] ->
  active (w_db (s_world (v_sched v'))) <= debt (v_requests v') /\
  Forall (fun q => q_late q = true) (v_requests v') /\
  (v_requests v' = [] -> forall r, In r (t_deliveries (w_db (s_world (v_sched v')))) -> is_active r = false).
Proof.
  intros Hnd Hs Hp Hst Hne He. pose proof (serve_steps_ok c probes _ _ (started_ok probes w s Hnd Hs) Hp) as Hv.
  pose proof (serve_step_ok c probes _ _ Hv Hst) as [V1 _ _ V4]. assert (active (w_db (s_world (v_sched v'))) <= debt (v_requests v')) as Ha.
  { pose proof (ok_counter _ V1) as Hc. unfold y_db, sys_of in Hc. cbn [y_sched y_owed] in Hc. enough (s_active (v_sched v') <= 0) by lia.
    clear Hc V1 V4 Hs Hnd Hp. destruct Hst as [v|v i q y|v i q|v y|v y|v p ps Hw]; cbn [v_watch with_sys v_sched] in *; try done.
    destruct (vo_watch _ _ Hv) as [k Hk]. destruct (reads_busy p v) eqn:Eb; [done|]. subst ps. rewrite Hw in Hk.
    assert (p = PBusy) as -> by (destruct k as [|[|[|k]]]; by simplify_eq/=). by apply Z.ltb_ge in Eb. }
  split_and!; [done|by apply V4; rewrite He; apply not_elem_of_nil|]. intros Hr r Hin. rewrite Hr in Ha. cbn [debt foldr] in Ha.
  apply not_true_iff_false. intros Hact. unfold active in Ha.
  assert (0 < affected is_active (t_deliveries (w_db (s_world (v_sched v')))))%nat by (apply affected_pos; by exists r). lia.
Qed.
End Decision.

(** ** A request between the probes *)

(** The demo daemon with one action subscribed to "raw" and nothing to do. *)
Definition demo_quiet : sched (H0 := toy_cel) id_stream := mkSched (H0 := toy_cel) (s_world demo_applied) 0 ∅ (NewCache (H := toy_cel)) [].

Lemma demo_quiet_seeded : seed (H0 := toy_cel) (s_world demo_applied) = Ok demo_quiet.
Proof.
  assert (w_faults (s_world demo_applied) = []) as Hf by (vm_compute; reflexivity).
  assert (affected is_active (t_deliveries (w_db (s_world demo_applied))) = 0%nat) as Ha by (vm_compute; reflexivity).
  unfold seed, CountActiveDeliveries, read, next_fault. rewrite Hf, Ha. reflexivity.
Qed.

Definition demo_append : message := mkMessage "zz" "raw" "{}" "{}" "t" None None None Second.

Definition after_append : world id_stream := snd (AppendMessage demo_append (s_world demo_applied)).

Lemma demo_append_ok : AppendMessage demo_append (s_world demo_applied) = (Ok 1, after_append).
Proof.
  assert (fst (AppendMessage demo_append (s_world demo_applied)) = Ok 1) as Hf by (vm_compute; reflexivity).
  unfold after_append. rewrite <- Hf. apply surjective_pairing.
Qed.

(** The request's steps: it arrives, commits, announces and ends. *)
Definition in_service (s : sched (H0 := toy_cel) id_stream) (q : list request) (ps : list probe) : server (H0 := toy_cel) :=
  mkServer s None q (Z.of_nat (length q)) ps.
Definition demo_committed : sched (H0 := toy_cel) id_stream := with_world after_append demo_quiet.

Lemma demo_commits order ps late :
  serve_step (H0 := toy_cel) default_config order (in_service demo_quiet [mkRequest 0 late] ps) (in_service demo_committed [mkRequest 1 late] ps).
Proof.
  apply (S_request default_config order (in_service demo_quiet [mkRequest 0 late] ps) 0 (mkRequest 0 late) (mkSys demo_committed None 1)); [done|].
  exact (H_append demo_quiet None 0 demo_append 1 after_append demo_append_ok).
Qed.

Lemma demo_announces order ps late :
  serve_step (H0 := toy_cel) default_config order (in_service demo_committed [mkRequest 1 late] ps) (in_service (WorkAdded 1 demo_committed) [mkRequest 0 late] ps).
Proof.
  apply (S_request default_config order (in_service demo_committed [mkRequest 1 late] ps) 0 (mkRequest 1 late) (mkSys (WorkAdded 1 demo_committed) None 0)); [done|].
  exact (H_work_added demo_committed None 1 1).
Qed.

Lemma demo_finishes order ps s late : serve_step (H0 := toy_cel) default_config order (in_service s [mkRequest 0 late] ps) (in_service s [] ps).
Proof. by apply (S_finish default_config order (in_service s [mkRequest 0 late] ps) 0 (mkRequest 0 late)). Qed.

Lemma demo_arrives order ps s : serve_step (H0 := toy_cel) default_config order (in_service s [] ps) (in_service s [mkRequest 0 (negb (bool_decide (PInFlight ∈ ps)))] ps).
Proof. exact (S_arrive default_config order (in_service s [] ps)). Qed.

Lemma demo_probes order p ps s q : reads_busy p (in_service s q (p :: ps)) = false ->
  serve_step (H0 := toy_cel) default_config order (in_service s q (p :: ps)) (in_service s q ps).
Proof. intros Hb. pose proof (S_probe default_config order (in_service s q (p :: ps)) p ps eq_refl) as Hs. by rewrite Hb in Hs. Qed.

(** The order matters: with Busy read first, the request slips between the two
    and the daemon stops with its delivery pending and nothing in flight. *)
Example probes_swapped : let order := [PBusy; PInFlight] in let v := in_service (WorkAdded 1 demo_committed) [] [] in
  rtc (serve_step (H0 := toy_cel) default_config order) (started order demo_quiet) v /\ v_watch v = [] /\ Busy (v_sched v) = true /\
  active (w_db (s_world (v_sched v))) = 1.
Proof.
  cbn zeta. split; [|split; [reflexivity|split; [vm_compute; reflexivity|vm_compute; reflexivity]]].
  eapply rtc_l; [apply demo_arrives|]. eapply rtc_l; [apply demo_probes; vm_compute; reflexivity|].
  eapply rtc_l; [apply demo_commits|]. eapply rtc_l; [apply demo_announces|]. eapply rtc_l; [apply demo_finishes|].
  apply rtc_once. apply demo_probes. reflexivity.
Qed.

(** In the daemon's order the same request is late: what it committed is not
    announced, and it is in flight. *)
Lemma idle_decision_witness :
  let v := in_service demo_committed [mkRequest 1 true] [] in
  active (w_db (s_world (v_sched v))) <= debt (v_requests v) /\ active (w_db (s_world (v_sched v))) = 1.
Proof.
  cbn zeta. split; [|vm_compute; reflexivity].
  refine (proj1 (idle_decision (H0 := toy_cel) default_config (s_world demo_applied) demo_quiet (in_service demo_committed [mkRequest 1 true] [PBusy])
    (in_service demo_committed [mkRequest 1 true] []) _ _ _ _ _ _)).
  - apply NoDup_nil_2.
  - exact demo_quiet_seeded.
  - eapply rtc_l; [apply demo_probes; reflexivity|]. eapply rtc_l; [apply demo_arrives|]. apply rtc_once, demo_commits.
  - apply demo_probes. vm_compute. reflexivity.
  - done.
  - done.
Defined.
