(* ===== verification/Open.v ===== *)
(** Opening the database: internal/store/store.go (Open, open, Close, migrate).

    SQLite runs a migration's script on the schema: [exec] is a parameter.  The
    round trips of migrate fail by the faults of the file, as those of Db do by
    the faults of a world; a failed transaction leaves the file as it was.
    [migrate_once] is what the table schema_migrations is for: over any number of
    starts, interrupted anywhere, each script runs once and in order. *)
From S2P Require Import Prelude GoTime Json Db Registry.

(** ** The embedded scripts *)

(** An embed.FS with one directory: its names, and its files by path. *)
Record embedFS := mkFS { fs_dir : result (list string); fs_file : string -> result string }.

(** ** The file *)

Section Migrate.
Context {S : Type} (exec : string -> S -> result S) (fs : embedFS).

Record dbfile := mkFile {
  f_schema : S;                                    (** what the scripts create *)
  f_migrations : option (list (string * string));  (** schema_migrations (name, applied_at), once created *)
  f_faults : list (option string)
}.

Definition next_trip (f : dbfile) : option string * dbfile :=
  match f_faults f with
  | [] => (None, f)
  | e :: fs => (e, mkFile (f_schema f) (f_migrations f) fs)
  end.

(** CREATE TABLE IF NOT EXISTS schema_migrations. *)
Definition create_table (f : dbfile) : result unit * dbfile :=
  match next_trip f with
  | (Some e, f) => (Err (errorf e), f)
  | (None, f) => (Ok tt, mkFile (f_schema f) (Some (default [] (f_migrations f))) (f_faults f))
  end.

Definition no_table : err := errorf "no such table: schema_migrations".

(** SELECT COUNT( * ) FROM schema_migrations WHERE name = ?. *)
Definition count_applied (name : string) (f : dbfile) : result Z * dbfile :=
  match next_trip f with
  | (Some e, f) => (Err (errorf e), f)
  | (None, f) =>
      match f_migrations f with
      | None => (Err no_table, f)
      | Some l => (Ok (Z.of_nat (affected (fun r => String.eqb (fst r) name) l)), f)
      end
  end.

(** The write transaction of one migration. *)
Definition run_migration (name src : string) (now : time) (f : dbfile) : result unit * dbfile :=
  match next_trip f with
  | (Some e, f) => (Err (wrapf "begin write" (errorf e)), f)
  | (None, f) =>
      match exec src (f_schema f), f_migrations f with
      | Err e, _ => (Err e, f)
      | Ok _, None => (Err no_table, f)
      | Ok s, Some l =>
          if existsb (fun r => String.eqb (fst r) name) l then (Err (errorf "constraint failed"), f)
          else
            match next_trip f with
            | (Some e, f) => (Err (wrapf "commit" (errorf e)), f)
            | (None, f) => (Ok tt, mkFile s (Some (l ++ [(name, fmt_time now)])) (f_faults f))
            end
      end
  end.

Fixpoint migrate_each (clock : string -> time) (names : list string) (f : dbfile) : result unit * dbfile :=
  match names with
  | [] => (Ok tt, f)
  | name :: names =>
      match count_applied name f with
      | (Err e, f) => (Err (wrapf ("check migration " +:+ name) e), f)
      | (Ok applied, f) =>
          if 0 <? applied then migrate_each clock names f
          else
            match fs_file fs ("migrations/" +:+ name) with
            | Err e => (Err (wrapf ("read migration " +:+ name) e), f)
            | Ok src =>
                match run_migration name src (clock name) f with
                | (Err e, f) => (Err (wrapf ("apply migration " +:+ name) e), f)
                | (Ok _, f) => migrate_each clock names f
                end
            end
      end
  end.

(** migrate; [clock name] is what nowUTC reads when [name] is recorded. *)
Definition migrate (clock : string -> time) (f : dbfile) : result unit * dbfile :=
  match create_table f with
  | (Err e, f) => (Err (wrapf "create schema_migrations" e), f)
  | (Ok _, f) =>
      match fs_dir fs with
      | Err e => (Err (wrapf "read migrations" e), f)
      | Ok names => migrate_each clock (order_by id names) f
      end
  end.

(** *** What it does *)

Definition names_of (f : dbfile) : list string := map fst (default [] (f_migrations f)).

(** The names not recorded in [done]. *)
Definition unrecorded (recorded names : list string) : list string := rows (fun n => bool_decide (n ∉ recorded)) names.

Fixpoint exec_all (srcs : list string) (s : S) : result S :=
  match srcs with
  | [] => Ok s
  | src :: srcs => s <-! exec src s ;; exec_all srcs s
  end.

Lemma exec_all_app l1 l2 s : exec_all (l1 ++ l2) s = (s <-! exec_all l1 s ;; exec_all l2 s).
Proof. revert s. induction l1 as [|src l1 IH]; intros s; [done|]. cbn [app exec_all]. destruct (exec src s); [apply IH|done]. Qed.

Lemma next_trip_same f e f' : next_trip f = (e, f') -> f_schema f' = f_schema f /\ f_migrations f' = f_migrations f.
Proof. unfold next_trip. destruct (f_faults f); by intros [= _ <-]. Qed.

Lemma next_trip_none f e f' : f_faults f = [] -> next_trip f = (e, f') -> e = None /\ f' = f.
Proof. unfold next_trip. intros ->. by intros [= <- <-]. Qed.

(** A file [f'] reached from [f] by running the first [k] of the scripts [l]. *)
Definition ran (srcs : string -> string) (l : list string) (k : nat) (f f' : dbfile) : Prop :=
  names_of f' = names_of f ++ take k l /\ exec_all (map srcs (take k l)) (f_schema f) = Ok (f_schema f').

Lemma ran_none srcs l f f' : f_schema f' = f_schema f -> names_of f' = names_of f -> ran srcs l 0 f f'.
Proof. intros Hs Hn. split; [by rewrite Hn, take_0, app_nil_r|by rewrite Hs]. Qed.

Lemma ran_cons srcs n l k f f1 f2 : ran srcs [n] 1 f f1 -> ran srcs l k f1 f2 -> ran srcs (n :: l) (Datatypes.S k) f f2.
Proof.
  intros [N1 E1] [N2 E2]. split; [rewrite N2, N1; cbn [take]; by rewrite <- app_assoc|]. cbn [take map exec_all] in E1 |- *.
  destruct (exec (srcs n) (f_schema f)) as [s|]; [|done]. cbn [rbind] in E1 |- *. by injection E1 as ->.
Qed.

Lemma ran_from srcs l k f f0 f1 : f_schema f0 = f_schema f -> f_migrations f0 = f_migrations f -> ran srcs l k f0 f1 -> ran srcs l k f f1.
Proof. unfold ran, names_of. by intros -> ->. Qed.

Lemma unrecorded_cons recorded n names :
  unrecorded recorded (n :: names) = if bool_decide (n ∉ recorded) then n :: unrecorded recorded names else unrecorded recorded names.
Proof. done. Qed.

Lemma unrecorded_new recorded n names : n ∉ names -> unrecorded (recorded ++ [n]) names = unrecorded recorded names.
Proof.
  intros Hn. apply rows_ext_in. intros x Hx. apply bool_decide_ext. rewrite not_elem_of_app, list_elem_of_singleton.
  apply list_elem_of_In in Hx. split; [by intros []|]. intros Hr. split; [done|]. by intros ->.
Qed.
(** ** One pass *)

Lemma count_spec name f r f' :
  count_applied name f = (r, f') -> f_schema f' = f_schema f /\ f_migrations f' = f_migrations f /\
  forall n, r = Ok n -> (0 <? n) = bool_decide (name ∈ names_of f).
Proof.
  unfold count_applied. destruct (next_trip f) as [e f1] eqn:E. destruct (next_trip_same _ _ _ E) as [E1 E2]. destruct e as [e|]; [by intros [= <- <-]|].
  rewrite E2. unfold names_of. destruct (f_migrations f) as [l|]; [|by intros [= <- <-]]. intros [= <- <-]. split_and!; [done|done|]. intros n [= <-].
  cbn [default]. case_bool_decide as Hn.
  - apply Z.ltb_lt. enough (0 < affected (fun r => String.eqb (fst r) name) l)%nat by lia. apply affected_pos.
    apply list_elem_of_In, in_map_iff in Hn as (x & <- & Hx). exists x. split; [done|]. apply String.eqb_refl.
  - apply Z.ltb_ge. enough (~ (0 < affected (fun r => String.eqb (fst r) name) l)%nat) by lia. intros Hp. apply affected_pos in Hp as (x & Hx & He).
    apply String.eqb_eq in He as <-. apply Hn, list_elem_of_In. by apply in_map.
Qed.

Lemma run_migration_spec srcs name now f r f' :
  run_migration name (srcs name) now f = (r, f') ->
  match r with Ok _ => ran srcs [name] 1 f f' /\ f_migrations f' <> None | Err _ => f_schema f' = f_schema f /\ f_migrations f' = f_migrations f end.
Proof.
  unfold run_migration. destruct (next_trip f) as [e f1] eqn:E. destruct (next_trip_same _ _ _ E) as [E1 E2]. destruct e as [e|]; [by intros [= <- <-]|].
  rewrite E1, E2. destruct (exec (srcs name) (f_schema f)) as [s|e] eqn:Ex; [|by intros [= <- <-]]. destruct (f_migrations f) as [l|] eqn:Em; [|by intros [= <- <-]].
  destruct (existsb _ _); [by intros [= <- <-]|]. destruct (next_trip f1) as [e f2] eqn:E3. destruct (next_trip_same _ _ _ E3) as [E4 E5].
  destruct e as [e|]; intros [= <- <-]; [by rewrite E4, E5, E1, E2|]. split; [|done]. unfold ran, names_of. rewrite Em. cbn [f_migrations f_schema default take map exec_all].
  rewrite Ex. split; [|done]. exact (map_app fst l [(name, fmt_time now)]).
Qed.

Lemma migrate_each_spec srcs clock names : forall f r f',
  NoDup names -> (forall n, In n names -> fs_file fs ("migrations/" +:+ n) = Ok (srcs n)) -> f_migrations f <> None ->
  migrate_each clock names f = (r, f') ->
  let todo := unrecorded (names_of f) names in
  exists k, (k <= length todo)%nat /\ ran srcs todo k f f' /\ (r = Ok tt -> k = length todo) /\ f_migrations f' <> None.
Proof.
  induction names as [|name names IH]; intros f r f' Hnd Hsrc Ht; cbn [migrate_each]; cbn zeta.
  { intros [= <- <-]. exists 0%nat. split_and!; [done|by apply ran_none|done|done]. }
  apply NoDup_cons in Hnd as [Hni Hnd]. destruct (count_applied name f) as [c f1] eqn:Ec. destruct (count_spec _ _ _ _ Ec) as (C1 & C2 & C3).
  assert (names_of f1 = names_of f) as Hn1 by (unfold names_of; by rewrite C2). rewrite unrecorded_cons.
  destruct c as [n|e]; [|intros [= <- <-]; exists 0%nat; split_and!; [lia|by apply ran_none|done|congruence]]. rewrite (C3 n eq_refl).
  assert (f_migrations f1 <> None) as Ht1 by congruence.
  destruct (decide (name ∈ names_of f)) as [Hin|Hout].
  - rewrite (bool_decide_eq_true_2 (name ∈ _)), (bool_decide_eq_false_2 (name ∉ _)) by (done || by intros Hx). intros Hm.
    destruct (IH f1 r f' Hnd ltac:(intros; apply Hsrc; by right) Ht1 Hm) as (k & Hk & Hr & Hok & Ht'). rewrite Hn1 in *. exists k. split_and!; [done| |done|done].
    by eapply ran_from.
  - rewrite (bool_decide_eq_false_2 (name ∈ _)), (bool_decide_eq_true_2 (name ∉ _)) by done. rewrite (Hsrc name) by by left.
    destruct (run_migration name (srcs name) (clock name) f1) as [x f2] eqn:Er. apply run_migration_spec in Er. destruct x as [u|e].
    + destruct Er as [Hr1 Ht2]. intros Hm. destruct (IH f2 r f' Hnd ltac:(intros; apply Hsrc; by right) Ht2 Hm) as (k & Hk & Hr & Hok & Ht').
      pose proof Hr1 as [Hn2 _]. rewrite Hn2, Hn1 in Hk, Hr, Hok. cbn [take] in Hk, Hr, Hok. rewrite unrecorded_new in Hk, Hr, Hok by done.
      exists (Datatypes.S k). cbn [length]. split_and!; [lia| |intros Hx; by rewrite (Hok Hx)|done]. eapply ran_from; [exact C1|exact C2|]. by eapply ran_cons.
    + destruct Er as [R1 R2]. intros [= <- <-]. exists 0%nat. split_and!; [lia| |done|congruence]. apply ran_none; [congruence|].
      unfold names_of. by rewrite R2, C2.
Qed.

Lemma names_snoc s l n at' faults : names_of (mkFile s (Some (l ++ [(n, at')])) faults) = map fst l ++ [n].
Proof. exact (map_app fst l [(n, at')]). Qed.

(** Without a fault a pass over runnable scripts ends. *)
Lemma migrate_each_total srcs clock names : forall f s,
  NoDup names -> (forall n, In n names -> fs_file fs ("migrations/" +:+ n) = Ok (srcs n)) -> f_migrations f <> None -> f_faults f = [] ->
  exec_all (map srcs (unrecorded (names_of f) names)) (f_schema f) = Ok s ->
  exists f', migrate_each clock names f = (Ok tt, f').
Proof.
  induction names as [|name names IH]; intros f s Hnd Hsrc Ht Hf; cbn [migrate_each]; [by eexists|]. apply NoDup_cons in Hnd as [Hni Hnd].
  destruct (count_applied name f) as [c f1] eqn:Ec. destruct (count_spec _ _ _ _ Ec) as (C1 & C2 & C3). rewrite unrecorded_cons.
  unfold count_applied, next_trip in Ec. rewrite Hf in Ec. destruct (f_migrations f) as [l|] eqn:El; [|done]. injection Ec as <- <-. rewrite (C3 _ eq_refl).
  destruct (decide (name ∈ names_of f)) as [Hin|Hout].
  - rewrite (bool_decide_eq_true_2 (name ∈ _)), (bool_decide_eq_false_2 (name ∉ _)) by (done || by intros Hx). intros Hx. eapply (IH f s); [done|by intros; apply Hsrc; right|congruence|done|done].
  - rewrite (bool_decide_eq_false_2 (name ∈ _)), (bool_decide_eq_true_2 (name ∉ _)) by done. rewrite (Hsrc name) by by left. cbn [map exec_all]. intros Hx.
    apply rbind_ok in Hx as (s1 & Hs1 & Hx). unfold run_migration, next_trip. rewrite Hf, Hs1, El.
    assert (existsb (fun r => String.eqb (fst r) name) l = false) as ->.
    { apply not_true_is_false. intros He. apply existsb_exists in He as (x & Hin & He). apply String.eqb_eq in He as <-. apply Hout. unfold names_of. rewrite El.
      by apply list_elem_of_In, in_map. }
    cbn [f_faults]. rewrite ?Hf. eapply (IH _ s); [done|by intros; apply Hsrc; right|done|done|]. rewrite names_snoc. cbn [f_schema].
    unfold names_of in Hx. rewrite El in Hx. by rewrite unrecorded_new.
Qed.
(** ** Many starts *)

Definition with_faults (faults : list (option string)) (f : dbfile) : dbfile := mkFile (f_schema f) (f_migrations f) faults.

(** Any number of runs of migrate, each with faults of its own. *)
Inductive attempts : dbfile -> dbfile -> Prop :=
| attempts_none f : attempts f f
| attempts_more f faults clock r f1 f2 : migrate clock (with_faults faults f) = (r, f1) -> attempts f1 f2 -> attempts f f2.

Lemma migrate_spec srcs names clock f r f' :
  fs_dir fs = Ok names -> NoDup names -> (forall n, In n names -> fs_file fs ("migrations/" +:+ n) = Ok (srcs n)) ->
  migrate clock f = (r, f') ->
  let todo := unrecorded (names_of f) (order_by id names) in
  exists k, (k <= length todo)%nat /\ ran srcs todo k f f' /\ (r = Ok tt -> k = length todo).
Proof.
  intros Hd Hnd Hsrc. unfold migrate, create_table. destruct (next_trip f) as [e f1] eqn:E. destruct (next_trip_same _ _ _ E) as [E1 E2].
  destruct e as [e|]; [intros [= <- <-]; exists 0%nat; split_and!; [lia| |done]; apply ran_none; [done|unfold names_of; by rewrite E2]|].
  rewrite Hd. set (f2 := mkFile _ _ _). intros Hm. assert (names_of f2 = names_of f) as Hn by (unfold names_of, f2; cbn; by rewrite E2).
  destruct (migrate_each_spec srcs clock (order_by id names) f2 r f') as (k & Hk & Hr & Hok & _); [by rewrite order_by_perm| |done|done|].
  - intros n Hin. apply Hsrc. apply list_elem_of_In in Hin. rewrite order_by_perm in Hin. by apply list_elem_of_In.
  - rewrite Hn in *. exists k. split_and!; [done| |done]. destruct Hr as [R1 R2]. split; [congruence|]. change (f_schema f2) with (f_schema f1) in R2. by rewrite <- E1.
Qed.

(** What is left after the first [k]. *)
Lemma unrecorded_after recorded k names : NoDup names ->
  unrecorded (recorded ++ take k (unrecorded recorded names)) names = drop k (unrecorded recorded names).
Proof.
  intros Hnd. set (todo := unrecorded recorded names). assert (NoDup todo) as Ht by (unfold todo, unrecorded, rows; apply NoDup_ListNoDup, List.NoDup_filter; by apply NoDup_ListNoDup).
  transitivity (rows (fun n => bool_decide (n ∉ take k todo)) (rows (fun n => bool_decide (n ∉ recorded)) names)).
  - rewrite rows_rows. unfold unrecorded at 1. apply rows_ext_in. intros n _. rewrite <- bool_decide_and. apply bool_decide_ext. by rewrite not_elem_of_app.
  - fold (unrecorded recorded names). fold todo. clearbody todo. clear Hnd. revert k. induction Ht as [|n l Hn Hl IH]; intros k; [by rewrite drop_nil|]. destruct k as [|k]; cbn [take drop].
    + unfold rows. apply forallb_filter_id, forallb_forall. intros x _. apply bool_decide_eq_true_2. by intros Hx%elem_of_nil.
    + unfold rows. cbn [List.filter]. rewrite bool_decide_eq_false_2 by (rewrite not_elem_of_cons; tauto). rewrite <- (IH k). apply rows_ext_in.
      intros x Hx. apply bool_decide_ext. rewrite not_elem_of_cons. apply list_elem_of_In in Hx. split; [tauto|]. intros Hk. split; [by intros ->|done].
Qed.

Lemma attempts_ran srcs names f f' :
  fs_dir fs = Ok names -> NoDup names -> (forall n, In n names -> fs_file fs ("migrations/" +:+ n) = Ok (srcs n)) -> attempts f f' ->
  exists k, (k <= length (unrecorded (names_of f) (order_by id names)))%nat /\ ran srcs (unrecorded (names_of f) (order_by id names)) k f f'.
Proof.
  intros Hd Hnd Hsrc. assert (NoDup (order_by id names)) as Hno by by rewrite order_by_perm.
  induction 1 as [f|f faults clock r f1 f2 Hm Ha (k2 & Hk2 & N2 & E2)]; [exists 0%nat; split; [lia|by apply ran_none]|].
  destruct (migrate_spec srcs names clock _ r f1 Hd Hnd Hsrc Hm) as (k1 & Hk1 & (N1 & E1) & _). change (names_of (with_faults faults f)) with (names_of f) in *.
  cbn [f_schema with_faults] in E1. set (todo := unrecorded (names_of f) (order_by id names)) in *.
  assert (unrecorded (names_of f1) (order_by id names) = drop k1 todo) as Hu by (rewrite N1; by apply unrecorded_after). rewrite Hu in *.
  rewrite length_drop in Hk2. exists (k1 + k2)%nat. split; [lia|]. unfold ran. rewrite <- take_take_drop. split; [by rewrite N2, N1, <- app_assoc|].
  rewrite map_app, exec_all_app, E1. exact E2.
Qed.

(** C20. Each migration runs once and in order of its name, however many
    starts it takes and wherever they are cut short: when migrate succeeds after
    any number of failed or complete attempts, the schema is that of the scripts
    that were not recorded at first, run once each in order, and all of them are
    recorded after those; at any time in between it is that of some first of
    them; and once they can run and the database answers, migrate succeeds. *)
Theorem migrate_once srcs names f f1 :
  fs_dir fs = Ok names -> NoDup names -> (forall n, In n names -> fs_file fs ("migrations/" +:+ n) = Ok (srcs n)) ->
  attempts f f1 ->
  let todo := unrecorded (names_of f) (order_by id names) in
  (exists k, ran srcs todo k f f1) /\
  (forall clock faults f2, migrate clock (with_faults faults f1) = (Ok tt, f2) ->
     names_of f2 = names_of f ++ todo /\ exec_all (map srcs todo) (f_schema f) = Ok (f_schema f2)) /\
  (forall clock, is_ok (exec_all (map srcs todo) (f_schema f)) = true -> exists f2, migrate clock (with_faults [] f1) = (Ok tt, f2)).
Proof.
  intros Hd Hnd Hsrc Ha. cbn zeta. assert (NoDup (order_by id names)) as Hno by by rewrite order_by_perm.
  destruct (attempts_ran srcs names f f1 Hd Hnd Hsrc Ha) as (k & Hk & N1 & E1). set (todo := unrecorded (names_of f) (order_by id names)) in *.
  assert (unrecorded (names_of f1) (order_by id names) = drop k todo) as Hu by (rewrite N1; by apply unrecorded_after). split_and!.
  - by exists k.
  - intros clock faults f2 Hm. destruct (migrate_spec srcs names clock _ _ f2 Hd Hnd Hsrc Hm) as (k2 & _ & (N2 & E2) & Hok).
    change (names_of (with_faults faults f1)) with (names_of f1) in *. cbn [f_schema with_faults] in E2. rewrite Hu in *. rewrite (Hok eq_refl), firstn_all in N2, E2.
    rewrite <- (take_drop k todo). split; [by rewrite N2, N1, <- app_assoc|]. rewrite map_app, exec_all_app, E1. exact E2.
  - intros clock Hx. destruct (exec_all (map srcs todo) (f_schema f)) as [s|e] eqn:Es; [|done]. rewrite <- (take_drop k todo), map_app, exec_all_app, E1 in Es. cbn [rbind] in Es.
    unfold migrate, create_table, next_trip. cbn [f_faults with_faults]. rewrite Hd. eapply (migrate_each_total srcs clock _ _ s); [done| |done|done|].
    + intros n Hin. apply Hsrc. apply list_elem_of_In in Hin. rewrite order_by_perm in Hin. by apply list_elem_of_In.
    + match goal with |- context [names_of (mkFile ?s ?m ?x)] => change (names_of (mkFile s m x)) with (names_of f1) end. by rewrite Hu.
Qed.
End Migrate.
Arguments dbfile : clear implicits.

(** ** Handles *)

Definition unreserved (c : ascii) : bool :=
  let n := N_of_ascii c in
  ((48 <=? n) && (n <=? 57) || (65 <=? n) && (n <=? 90) || (97 <=? n) && (n <=? 122))%N || existsb (Ascii.eqb c) ["-"; "_"; "."; "~"]%char.

Definition hex_upper (n : N) : ascii := default "0"%char (String.get (N.to_nat n) "0123456789ABCDEF").

(** url.QueryEscape. *)
Fixpoint QueryEscape (s : string) : string :=
  match s with
  | EmptyString => ""
  | String c r =>
      if Ascii.eqb c " " then String "+" (QueryEscape r)
      else if unreserved c then String c (QueryEscape r)
      else String "%" (String (hex_upper (N_of_ascii c / 16)) (String (hex_upper (N_of_ascii c mod 16)) (QueryEscape r)))
  end.

(** url.Values.Encode, of values in the order of their keys. *)
Fixpoint Encode (q : list (string * string)) : string :=
  match q with
  | [] => ""
  | [(k, v)] => QueryEscape k +:+ "=" +:+ QueryEscape v
  | (k, v) :: q => QueryEscape k +:+ "=" +:+ QueryEscape v +:+ "&" +:+ Encode q
  end.

(** The data source of a handle: every transaction of the writer is BEGIN
    IMMEDIATE. *)
Definition pragmas : list (string * string) :=
  [("_pragma", "busy_timeout(5000)"); ("_pragma", "journal_mode(WAL)"); ("_pragma", "foreign_keys(ON)"); ("_pragma", "synchronous(NORMAL)")].
Definition dsn (path : string) (writer : bool) : string :=
  "file:" +:+ path +:+ "?" +:+ Encode (pragmas ++ if writer then [("_txlock", "immediate")] else []).

Example dsn_writer : dsn "/tmp/s.db" true =
  "file:/tmp/s.db?_pragma=busy_timeout%285000%29&_pragma=journal_mode%28WAL%29&_pragma=foreign_keys%28ON%29&_pragma=synchronous%28NORMAL%29&_txlock=immediate".
Proof. reflexivity. Qed.

(** open: sql.Open, then a Ping; [hs] are the handles open so far, by data
    source. *)
Definition open (sqlOpen ping : string -> option err) (path : string) (writer : bool) (hs : list string) : result string * list string :=
  let d := dsn path writer in
  match sqlOpen d with
  | Some e => (Err (wrapf "open database" e), hs)
  | None =>
      match ping d with
      | Some e => (Err (wrapf ("open database " +:+ path) e), hs)
      | None => (Ok d, hs ++ [d])
      end
  end.

Definition close (d : string) (hs : list string) : list string := rows (fun x => negb (String.eqb x d)) hs.

(** Close closes both handles, whatever either answers. *)
Definition Close (w r : string) (wErr rErr : option err) (hs : list string) : option err * list string :=
  (match wErr with Some e => Some e | None => rErr end, close w (close r hs)).

Section Open.
Context {S : Type} (exec : string -> S -> result S) (fs : embedFS) (sqlOpen ping : string -> option err).

Definition Open (mkdir : option err) (path : string) (clock : string -> time) (hs : list string) (f : dbfile S) :
    result (string * string) * list string * dbfile S :=
  match mkdir with
  | Some e => (Err (wrapf "create database dir" e), hs, f)
  | None =>
      match open sqlOpen ping path true hs with
      | (Err e, hs) => (Err e, hs, f)
      | (Ok w, hs) =>
          match open sqlOpen ping path false hs with
          | (Err e, hs) => (Err e, close w hs, f)
          | (Ok r, hs) =>
              match migrate exec fs clock f with
              | (Err e, f) => (Err e, snd (Close w r None None hs), f)
              | (Ok _, f) => (Ok (w, r), hs, f)
              end
          end
      end
  end.

Lemma close_last d hs : ~ In d hs -> close d (hs ++ [d]) = hs.
Proof.
  intros Hn. unfold close, rows. rewrite List.filter_app. cbn [List.filter]. rewrite String.eqb_refl. cbn [negb]. rewrite app_nil_r.
  apply forallb_filter_id, forallb_forall. intros x Hx. apply negb_true_iff, String.eqb_neq. by intros ->.
Qed.

Lemma dsn_distinct path : dsn path true <> dsn path false.
Proof.
  intros He. apply (f_equal String.length) in He. unfold dsn in He. rewrite !str_length_app in He.
  assert (String.length (Encode (pragmas ++ [])) < String.length (Encode (pragmas ++ [("_txlock", "immediate")])))%nat as Hl
    by (apply Nat.ltb_lt; vm_compute; reflexivity).
  cbn [app] in *. lia.
Qed.

(** Open leaves its two handles open when it succeeds, and none when it fails. *)
Lemma Open_handles mkdir path clock hs f :
  ~ In (dsn path true) hs -> ~ In (dsn path false) hs ->
  match Open mkdir path clock hs f with
  | (Ok (w, r), hs', f') => w = dsn path true /\ r = dsn path false /\ hs' = hs ++ [w; r] /\ migrate exec fs clock f = (Ok tt, f')
  | (Err _, hs', _) => hs' = hs
  end.
Proof.
  intros Hw Hr. pose proof (dsn_distinct path) as Hd. unfold Open, open. destruct mkdir; [done|]. destruct (sqlOpen _); [done|]. destruct (ping _); [done|].
  assert (~ In (dsn path false) (hs ++ [dsn path true])) as Hr'.
  { intros Hin. apply in_app_or in Hin as [Hin|[Hin|[]]]; done. }
  destruct (sqlOpen _); [by apply close_last|]. destruct (ping _); [by apply close_last|].
  destruct (migrate exec fs clock f) as [[u|e] f']; cbn [snd Close].
  - rewrite <- app_assoc. by destruct u.
  - by rewrite close_last, close_last.
Qed.
End Open.

(** ** Witness: three scripts, a first start cut short by the second commit *)

Definition demo_names : list string := ["0002_actions.sql"; "0003_deliveries.sql"; "0001_messages.sql"].
Definition demo_src (name : string) : string := "-- " +:+ name.
Definition demo_scripts : embedFS :=
  mkFS (Ok demo_names) (fun path => Ok (demo_src (String.substring 11 (String.length path) path))).
Definition demo_exec (src : string) (s : list string) : result (list string) := Ok (s ++ [src]).
Definition demo_file : dbfile (list string) := mkFile [] None [].
Definition demo_cut : dbfile (list string) :=
  snd (migrate demo_exec demo_scripts (fun _ => 0) (with_faults [None; None; None; None; None; None; Some "disk I/O error"] demo_file)).

Lemma migrate_once_witness :
  names_of demo_cut = ["0001_messages.sql"] /\
  exists f2, migrate demo_exec demo_scripts (fun _ => Second) (with_faults [] demo_cut) = (Ok tt, f2) /\
    names_of f2 = ["0001_messages.sql"; "0002_actions.sql"; "0003_deliveries.sql"] /\
    f_schema f2 = map demo_src ["0001_messages.sql"; "0002_actions.sql"; "0003_deliveries.sql"].
Proof.
  split; [vm_compute; reflexivity|].
  destruct (migrate_once demo_exec demo_scripts demo_src demo_names demo_file demo_cut) as (_ & Hall & Htot).
  - reflexivity.
  - apply (bool_decide_unpack _). vm_compute. exact I.
  - intros n Hn. repeat (destruct Hn as [<-|Hn]; [vm_compute; reflexivity|]). destruct Hn.
  - eapply attempts_more; [|apply attempts_none]. apply surjective_pairing.
  - destruct (Htot (fun _ => Second) eq_refl) as [f2 Hf2]. exists f2. split; [exact Hf2|]. destruct (Hall _ _ _ Hf2) as [Hn Hs].
    split; [exact Hn|].
    assert (Ok (f_schema f2) = Ok (map demo_src ["0001_messages.sql"; "0002_actions.sql"; "0003_deliveries.sql"])) as Hx by (rewrite <- Hs; vm_compute; reflexivity).
    by injection Hx.
Defined.
