(* ===== verification/Loop.v ===== *)
(** The event loop: Scheduler.Run, with the wake-up channel, the select and the
    drain of internal/scheduler/scheduler.go, interleaved with the request
    handlers and the workers.

    System.v says what every interleaving keeps; here the loop has a program
    point, so that what it has looked at when it goes to sleep can be stated.
    The nudge channel has one slot: a boolean.  An announcement (WorkAdded)
    follows the commit it announces: [r_owed] are the numbers committed and not
    announced yet.  The last four fields are ghosts: the time and the actions of
    the last dispatch, the actions it gave up on after a database error, and
    whether a handler has made deliveries pending since the loop last woke. *)
From S2P Require Import Prelude GoTime Float64 Json Action Cel Ids Db Registry Deliveries Executor Scheduler System.

(** The program point of Run. *)
Inductive phase :=
| PLoad                                                           (** about to dispatch *)
| PDispatch (todo : list actionInfo)                              (** the actions dispatch has left *)
| PFound (ai : actionInfo) (wk : Work) (todo : list actionInfo)   (** one selected, not acted on yet *)
| PArm                                                            (** dispatch is over *)
| PSelect (wait : Z)                                              (** in select, the timer armed *)
| PDrain
| PStopped.

(** total of s.inflight. *)
Definition total (m : gmap string Z) : Z := map_fold (fun _ v acc => v + acc) 0 m.

Section Loop.
Context {G : Type} `{IdSource G} `{CelLib}.

Record run := mkRun {
  r_sched : sched G;
  r_phase : phase;
  r_nudge : bool;
  r_owed : list Z;
  r_now : time;
  r_loaded : list actionInfo;
  r_skipped : list string;
  r_fresh : bool
}.

Definition r_db (r : run) : db := w_db (s_world (r_sched r)).

(** Whether apply stored the outcome, and so nudged. *)
Definition apply_nudges (c : Config) (k : nat) (r : Result) (now rnd : Z) (s : sched G) : bool :=
  match s_running s !! k with
  | None => false
  | Some j =>
      let d := wk_delivery (j_work j) in
      let r := job_result j r in
      let '(outputs, w) := job_outputs j r now (s_world s) in
      match outputs with
      | Ok outputs => is_ok (fst (CompleteDelivery (d_id d) (e_stderr_tail r) outputs now w))
      | Err e =>
          is_ok (fst (FailDelivery (d_id d) (ai_maxAttempts (j_action j) <=? d_attempt d) (now + backoff c (d_attempt d) rnd)
                        (err_msg e) (e_stderr_tail r) now w))
      end
  end.

(** Handlers and workers: anything but the phase and the dispatch's own record. *)
Definition with_handler (s : sched G) (nudge : bool) (owed : list Z) (fresh : bool) (r : run) : run :=
  mkRun s (r_phase r) nudge owed (r_now r) (r_loaded r) (r_skipped r) fresh.

Definition commit (w : world G) (r : run) : run :=
  with_handler (with_world w (r_sched r)) (r_nudge r) (r_owed r) (r_fresh r) r.

(** A commit that makes [n] deliveries pending, announced when there are any. *)
Definition commit_work (w : world G) (n : Z) (r : run) : run :=
  with_handler (with_world w (r_sched r)) (r_nudge r) (if 0 <? n then r_owed r ++ [n] else r_owed r) (r_fresh r || (0 <? n)) r.

Inductive handler_step : run -> run -> Prop :=
| R_append r m n w :
    AppendMessage m (s_world (r_sched r)) = (Ok n, w) -> handler_step r (commit_work w n r)
| R_replay r id d w :
    ReplayDelivery id (s_world (r_sched r)) = (Ok d, w) -> handler_step r (commit_work w 1 r)
| R_announce r a n b :
    r_owed r = a ++ n :: b -> handler_step r (with_handler (WorkAdded n (r_sched r)) true (a ++ b) (r_fresh r) r)
| R_new_id r g :
    handler_step r (commit (mkWorld (r_db r) g (w_faults (s_world (r_sched r)))) r)
| R_read {A} r ctx (q : db -> result A) x w :
    read ctx q (s_world (r_sched r)) = (x, w) -> handler_step r (commit w r)
| R_apply_action r name definition now x w :
    ApplyAction name definition now (s_world (r_sched r)) = (x, w) -> handler_step r (commit w r)
| R_enable r name on x w :
    SetActionEnabled name on (s_world (r_sched r)) = (x, w) -> handler_step r (commit w r)
| R_refused {A} r (m : tx G A) e w :
    write m (s_world (r_sched r)) = (Err e, w) -> handler_step r (commit w r)
| R_pgid r id pgid :
    handler_step r (with_handler (onStart id pgid (r_sched r)) (r_nudge r) (r_owed r) (r_fresh r) r).

(** The loop goroutine. *)
Inductive run_loop (c : Config) : run -> run -> Prop :=
| R_load s n o t L K F now l w :
    loadActions c (s_world s) = (Ok l, w) ->
    run_loop c (mkRun s PLoad n o t L K F) (mkRun (with_world w s) (PDispatch l) n o now l [] F)
| R_load_fails s n o t L K F now e w :
    loadActions c (s_world s) = (Err e, w) ->
    run_loop c (mkRun s PLoad n o t L K F) (mkRun (with_world w s) PArm n o now [] [] F)
| R_over s n o t L K F :
    run_loop c (mkRun s (PDispatch []) n o t L K F) (mkRun s PArm n o t L K F)
| R_full s n o t L K F ai l :
    IsJoin (ai_def ai) = false -> ai_concurrency ai <= inflight s (ai_name ai) ->
    run_loop c (mkRun s (PDispatch (ai :: l)) n o t L K F) (mkRun s (PDispatch l) n o t L K F)
| R_select s n o t L K F ai l wk w :
    IsJoin (ai_def ai) = true \/ inflight s (ai_name ai) < ai_concurrency ai ->
    NextEligible (ai_name ai) t (s_world s) = (Ok wk, w) ->
    run_loop c (mkRun s (PDispatch (ai :: l)) n o t L K F) (mkRun (with_world w s) (PFound ai wk l) n o t L K F)
| R_none s n o t L K F ai l e w :
    IsJoin (ai_def ai) = true \/ inflight s (ai_name ai) < ai_concurrency ai ->
    NextEligible (ai_name ai) t (s_world s) = (Err e, w) ->
    run_loop c (mkRun s (PDispatch (ai :: l)) n o t L K F)
      (mkRun (with_world w s) (PDispatch l) n o t L (if decide (err_is e = ErrNotFound) then K else ai_name ai :: K) F)
| R_verdict s n o t L K F ai wk l st msg cache :
    IsJoin (ai_def ai) = false -> vet_decision c ai (wk_message wk) (s_cache s) = (Some (st, msg), cache) ->
    run_loop c (mkRun s (PFound ai wk l) n o t L K F)
      (mkRun (resolve (d_id (wk_delivery wk)) st msg t (with_cache cache s)) (PDispatch (ai :: l)) n o t L K F)
| R_launch s n o t L K F ai wk l cache w :
    IsJoin (ai_def ai) = false -> vet_decision c ai (wk_message wk) (s_cache s) = (None, cache) ->
    ClaimDelivery (d_id (wk_delivery wk)) (ai_version ai) t (s_world s) = (Ok tt, w) ->
    run_loop c (mkRun s (PFound ai wk l) n o t L K F)
      (mkRun (launch ai (mkWork (counted (wk_delivery wk)) (wk_message wk))
                (add_inflight (ai_name ai) 1 (with_world w (with_cache cache s)))) (PDispatch (ai :: l)) n o t L K F)
| R_claim_fails s n o t L K F ai wk l cache e w :
    IsJoin (ai_def ai) = false -> vet_decision c ai (wk_message wk) (s_cache s) = (None, cache) ->
    ClaimDelivery (d_id (wk_delivery wk)) (ai_version ai) t (s_world s) = (Err e, w) ->
    run_loop c (mkRun s (PFound ai wk l) n o t L K F)
      (mkRun (with_world w (with_cache cache s)) (PDispatch l) n o t L (ai_name ai :: K) F)
| R_supersede s n o t L K F ai wk l w :
    IsJoin (ai_def ai) = true ->
    ResolveDelivery (d_id (wk_delivery wk)) StateCancelled (superseded (ai_version ai)) t (s_world s) = (Ok tt, w) ->
    run_loop c (mkRun s (PFound ai wk l) n o t L K F)
      (mkRun (add_active (-1) (with_world w s)) (PDispatch (ai :: l)) n o t L K F)
| R_supersede_fails s n o t L K F ai wk l e w :
    IsJoin (ai_def ai) = true ->
    ResolveDelivery (d_id (wk_delivery wk)) StateCancelled (superseded (ai_version ai)) t (s_world s) = (Err e, w) ->
    run_loop c (mkRun s (PFound ai wk l) n o t L K F) (mkRun (with_world w s) (PDispatch l) n o t L (ai_name ai :: K) F)
| R_arm s n o t L K F now :
    run_loop c (mkRun s PArm n o t L K F) (mkRun (snd (armTimer now s)) (PSelect (fst (armTimer now s))) n o t L K F)
| R_nudge s d o t L K F :
    run_loop c (mkRun s (PSelect d) true o t L K F) (mkRun s PLoad false o t L K false)
| R_timer s d n o t L K F :
    run_loop c (mkRun s (PSelect d) n o t L K F) (mkRun s PLoad n o t L K false)
| R_result s d n o t L K F k j res now rnd :
    s_running s !! k = Some j ->
    run_loop c (mkRun s (PSelect d) n o t L K F)
      (mkRun (apply c k res now rnd s) PLoad (n || apply_nudges c k res now rnd s) o t L K false)
| R_ctrl s d n o t L K F name now :
    run_loop c (mkRun s (PSelect d) n o t L K F) (mkRun (snd (handleCtrl name now s)) PLoad n o t L K false)
| R_cancelled s d n o t L K F :
    run_loop c (mkRun s (PSelect d) n o t L K F) (mkRun s PDrain n o t L K F)
| R_drain s n o t L K F k j res now rnd :
    0 < total (s_inflight s) -> s_running s !! k = Some j ->
    run_loop c (mkRun s PDrain n o t L K F)
      (mkRun (apply c k res now rnd s) PDrain (n || apply_nudges c k res now rnd s) o t L K F)
| R_stop s n o t L K F :
    total (s_inflight s) <= 0 -> run_loop c (mkRun s PDrain n o t L K F) (mkRun s PStopped n o t L K F).

Definition run_step (c : Config) (r r' : run) : Prop := run_loop c r r' \/ handler_step r r'.

Inductive run_steps (c : Config) : run -> run -> Prop :=
| run_refl r : run_steps c r r
| run_next r1 r2 r3 : run_step c r1 r2 -> run_steps c r2 r3 -> run_steps c r1 r3.

(** Run after the seed: ready is closed and the loop entered. *)
Definition start_run (s : sched G) (now : time) : run := mkRun s PLoad false [] now [] [] false.

(** ** The loop is the system's loop *)

Definition found (p : phase) : option (actionInfo * Work) :=
  match p with PFound ai wk _ => Some (ai, wk) | _ => None end.
Definition owed_sum (l : list Z) : Z := foldr Z.add 0 l.
Definition to_sys (r : run) : sys G := mkSys (r_sched r) (found (r_phase r)) (owed_sum (r_owed r)).

Lemma owed_sum_app a b : owed_sum (a ++ b) = owed_sum a + owed_sum b.
Proof. unfold owed_sum. induction a as [|x a IH]; simpl; lia. Qed.

Lemma vet_verdict c ai m cache st msg cache' : vet_decision c ai m cache = (Some (st, msg), cache') -> verdict st = true.
Proof. unfold vet_decision. intros Hv. repeat (case_match; simplify_eq/=; try done). Qed.

Lemma append_nonneg m (w w' : world G) n : AppendMessage m w = (Ok n, w') -> 0 <= n.
Proof. intros Ha. apply write_ok, append_ok in Ha as (ids & names & -> & _). lia. Qed.

Lemma with_world_same (s : sched G) : with_world (s_world s) s = s.
Proof. by destruct s. Qed.

(** A selected delivery of an action that is no join was selected with room. *)
Definition has_room (r : run) : Prop :=
  match r_phase r with
  | PFound ai _ _ => IsJoin (ai_def ai) = true \/ inflight (r_sched r) (ai_name ai) < ai_concurrency ai
  | _ => True
  end.

Lemma handler_system r r' : handler_step r r' -> other_step (to_sys r) (to_sys r').
Proof.
  intros Hs. destruct Hs as [r m n w Ha|r id d w Ha|r a n b Ho|r g|A r ctx q x w Hr|r name def now x w Ha|r name on x w Ha|A r m e w Ha|r id pgid];
    unfold to_sys; simpl.
  - replace (owed_sum (if 0 <? n then r_owed r ++ [n] else r_owed r)) with (owed_sum (r_owed r) + n).
    + by apply (H_append _ _ _ m).
    + pose proof (append_nonneg _ _ _ _ Ha). destruct (Z.ltb_spec 0 n); [rewrite owed_sum_app; simpl|]; lia.
  - rewrite owed_sum_app. apply (H_replay _ _ _ id d w Ha).
  - rewrite Ho, !owed_sum_app. simpl. replace (owed_sum a + owed_sum b) with (owed_sum a + (n + owed_sum b) - n) by lia. apply H_work_added.
  - by apply H_read.
  - apply H_read. by destruct (read_db _ _ _ _ _ Hr).
  - by eapply H_apply_action.
  - by eapply H_enable.
  - by eapply (H_failed _ _ _ m).
  - apply W_pgid.
Qed.

Lemma L_read_call c s o {A} (m : M G A) r w ctx (q : db -> result A) :
  m = read ctx q -> m (s_world s) = (r, w) -> loop_step c (mkSys s None o) (mkSys (with_world w s) None o).
Proof. intros -> Hr. destruct (read_db _ _ _ _ _ Hr). by apply L_read. Qed.

Lemma loadActions_db c (w : world G) r w' : loadActions c w = (r, w') -> w_db w' = w_db w /\ w_gen w' = w_gen w.
Proof.
  unfold loadActions. destruct (ListActions w) as [[rows|e] w1] eqn:El; intros [= <- <-]; by apply (read_db _ _ _ _ _ El).
Qed.

Lemma armTimer_world now (s : sched G) : exists w, snd (armTimer now s) = with_world w s /\ w_db w = w_db (s_world s) /\ w_gen w = w_gen (s_world s).
Proof.
  unfold armTimer, call. destruct (NextRetryAt (s_world s)) as [[t|e] w] eqn:E; exists w; (split; [done|]); by apply (read_db _ _ _ _ _ E).
Qed.

Lemma run_loop_system c r r' : has_room r -> run_loop c r r' -> steps c (to_sys r) (to_sys r').
Proof.
  intros Hroom Hs. unfold to_sys. destruct Hs as [s n o t L K F now l w Hl|s n o t L K F now e w Hl|s n o t L K F|s n o t L K F ai l Hj Hi
    |s n o t L K F ai l wk w Hg He|s n o t L K F ai l e w Hg He|s n o t L K F ai wk l st msg cache Hj Hv|s n o t L K F ai wk l cache w Hj Hv Hc
    |s n o t L K F ai wk l cache e w Hj Hv Hc|s n o t L K F ai wk l w Hj Hc|s n o t L K F ai wk l e w Hj Hc|s n o t L K F now|s d o t L K F|s d n o t L K F
    |s d n o t L K F k j res now rnd Hk|s d n o t L K F name now|s d n o t L K F|s n o t L K F k j res now rnd Ht Hk|s n o t L K F Ht];
    cbn [r_sched r_phase r_owed found]; try apply steps_refl.
  - destruct (loadActions_db _ _ _ _ Hl). eapply steps_loop; [by apply L_read|apply steps_refl].
  - destruct (loadActions_db _ _ _ _ Hl). eapply steps_loop; [by apply L_read|apply steps_refl].
  - eapply steps_loop; [by apply (L_select c s _ ai t wk w)|apply steps_refl].
  - destruct (read_db _ _ _ _ _ He). eapply steps_loop; [by apply L_read|apply steps_refl].
  - eapply steps_loop; [apply (L_cache c s _ _ cache)|]. eapply steps_loop; [|apply steps_refl]. apply L_resolve. by eapply vet_verdict.
  - eapply steps_loop; [apply (L_cache c s _ _ cache)|]. eapply steps_loop; [|apply steps_refl].
    simpl in Hroom. apply (L_claim c (with_cache cache s) _ ai wk t w); [done|]. destruct Hroom as [Hr|Hr]; [congruence|done].
  - eapply steps_loop; [apply (L_cache c s _ _ cache)|]. eapply steps_loop; [|apply steps_refl]. by apply (L_claim_fails c (with_cache cache s) _ ai wk t e).
  - eapply steps_loop; [apply (L_resolve c s _ ai wk StateCancelled (superseded (ai_version ai)) t eq_refl)|]. unfold resolve, call. rewrite Hc. apply steps_refl.
  - eapply steps_loop; [apply (L_resolve c s _ ai wk StateCancelled (superseded (ai_version ai)) t eq_refl)|]. unfold resolve, call. rewrite Hc. apply steps_refl.
  - destruct (armTimer_world now s) as (w & -> & Hd & Hg). eapply steps_loop; [by apply L_read|apply steps_refl].
  - eapply steps_loop; [apply L_apply|apply steps_refl].
  - eapply steps_loop; [apply L_ctrl|apply steps_refl].
  - eapply steps_loop; [apply L_apply|apply steps_refl].
Qed.

(** Nothing but the loop changes the executions in flight. *)
Lemma handler_inflight r r' : handler_step r r' ->
  s_inflight (r_sched r') = s_inflight (r_sched r) /\ s_running (r_sched r') = s_running (r_sched r) /\ r_phase r' = r_phase r.
Proof. intros Hs. destruct Hs; try done. simpl. unfold onStart, call. by destruct (SetDeliveryPgid _ _ _). Qed.

Lemma run_step_room c r r' : run_step c r r' -> has_room r -> has_room r'.
Proof.
  intros [Hl|Ho] Hr.
  - destruct Hl; unfold has_room; simpl; try done.
  - destruct (handler_inflight _ _ Ho) as (Hi & _ & Hp). unfold has_room, inflight in *. by rewrite Hp, Hi.
Qed.

(** ** Every delivery has its message *)

(** The foreign key of deliveries. *)
Definition linked (d : db) : Prop := forall r, In r (t_deliveries d) -> joined (t_messages d) r = true.

Lemma joined_spec t r : joined t r = true <-> exists m, In m t /\ d_message_id r = Some (msg_id m).
Proof.
  unfold joined. split.
  - destruct (message_for t r) as [m|] eqn:E; [|done]. intros _. exists m. by apply message_for_In.
  - intros (m & Hm & Hr). unfold message_for. rewrite Hr. destruct (head _) eqn:E; [done|].
    assert (In m (rows (fun x => String.eqb (msg_id x) (msg_id m)) t)) as Hin by (apply List.filter_In; by rewrite String.eqb_refl).
    by destruct (rows _ t).
Qed.

(** Messages are kept, and each delivery is an old one's or has its message. *)
Definition extends (d d' : db) : Prop :=
  (forall m, In m (t_messages d) -> In m (t_messages d')) /\
  forall r', In r' (t_deliveries d') ->
    (exists r, In r (t_deliveries d) /\ d_message_id r = d_message_id r') \/ joined (t_messages d') r' = true.

Lemma extends_linked d d' : extends d d' -> linked d -> linked d'.
Proof.
  intros [Hm Hr] Hl r' Hr'. destruct (Hr r' Hr') as [(r & Hin & He)|]; [|done].
  apply joined_spec. apply Hl, joined_spec in Hin as (m & Hinm & Hmr). exists m. split; [auto|congruence].
Qed.

Lemma extends_same d d' : t_deliveries d' = t_deliveries d -> t_messages d' = t_messages d -> extends d d'.
Proof. intros Hd Hm. split; [by rewrite Hm|]. intros r Hr. left. exists r. by rewrite <- Hd. Qed.

Lemma extends_update p f d : (forall r, d_message_id (f r) = d_message_id r) -> extends d (set_deliveries (update p f (t_deliveries d)) d).
Proof.
  intros Hf. split; [done|]. intros r' Hr'. left. simpl in Hr'. unfold update in Hr'. apply in_map_iff in Hr' as (r & <- & Hr). exists r.
  split; [done|]. by destruct (p r).
Qed.

Lemma extends_appended outs n d d' : appended_all outs n d d' -> extends d d'.
Proof.
  intros Ha. apply appended_all_prefix in Ha as (_ & Hm & news & Hd & _ & Hf). split.
  - intros m Hin. rewrite Hm. apply in_app_iff. by left.
  - intros r Hr. rewrite Hd in Hr. apply in_app_iff in Hr as [Hr|Hr]; [left; by exists r|]. right.
    rewrite Forall_forall in Hf. destruct (Hf r (proj2 (list_elem_of_In _ _) Hr)) as (_ & _ & m & Hin & He). apply joined_spec.
    exists (row_of_message m). split; [|done]. rewrite Hm. apply in_app_iff. right. by apply in_map.
Qed.

Lemma extends_trans d1 d2 d3 : extends d1 d2 -> extends d2 d3 -> extends d1 d3.
Proof.
  intros [M1 R1] [M2 R2]. split; [auto|]. intros r3 H3. destruct (R2 r3 H3) as [(r2 & H2 & E2)|]; [|by right].
  destruct (R1 r2 H2) as [(r1 & H1 & E1)|Hj]; [left; exists r1; split; [done|congruence]|]. right.
  apply joined_spec. apply joined_spec in Hj as (m & Hm & He). exists m. split; [auto|congruence].
Qed.

Lemma append_extends m (w w' : world G) n : AppendMessage m w = (Ok n, w') -> extends (w_db w) (w_db w').
Proof.
  intros Ha. apply write_ok, append_ok in Ha as (ids & names & _ & _ & Ha). apply (extends_appended [m] (Z.of_nat (length names) + 0)).
  econstructor; [exact Ha|constructor].
Qed.

Lemma resolve_extends id st msg now (s : sched G) :
  NoDup (map d_id (t_deliveries (w_db (s_world s)))) -> extends (w_db (s_world s)) (w_db (s_world (resolve id st msg now s))).
Proof.
  intros Hnd. unfold resolve, call. pose proof (ResolveDelivery_cases id st msg now (s_world s) Hnd) as Hc.
  destruct (ResolveDelivery id st msg now (s_world s)) as [[u|e] w]; simpl; destruct Hc as [Hc Hd].
  - rewrite Hd. by apply extends_update.
  - rewrite Hc. by apply extends_same.
Qed.

Lemma apply_extends c k r now rnd (s : sched G) :
  NoDup (map d_id (t_deliveries (w_db (s_world s)))) -> extends (w_db (s_world s)) (w_db (s_world (apply c k r now rnd s))).
Proof.
  intros Hnd. unfold apply. destruct (s_running s !! k) as [j|]; [|by apply extends_same]. set (s0 := add_inflight _ _ _).
  pose proof (job_outputs_db j (job_result j r) now (s_world s0)) as Hdb. change (w_db (s_world s0)) with (w_db (s_world s)) in Hdb.
  destruct (job_outputs j (job_result j r) now (s_world s0)) as [[outs|e] w]; simpl in Hdb; unfold call; cbn [s_world with_world];
    rewrite <- Hdb in Hnd |- *.
  - pose proof (complete_cases (d_id (wk_delivery (j_work j))) (e_stderr_tail (job_result j r)) outs now w Hnd) as Hc.
    destruct (CompleteDelivery _ _ outs now w) as [[n|e] w']; simpl; [|rewrite Hc; by apply extends_same].
    destruct Hc as (d1 & _ & -> & _ & Ho). eapply extends_trans; [|by eapply extends_appended]. by apply extends_update.
  - match goal with |- context [FailDelivery ?id ?dd ?g ?m ?t now w] => pose proof (FailDelivery_cases id dd g m t now w Hnd) as Hc; destruct (FailDelivery id dd g m t now w) as [[u|e'] w'] end.
    + destruct Hc as [_ Hd]. assert (w_db (s_world (if ai_maxAttempts (j_action j) <=? d_attempt (wk_delivery (j_work j))
        then add_active (-1) (with_world w' (with_world w s0)) else with_world w' (with_world w s0))) = w_db w') as -> by by destruct (_ <=? _).
      rewrite Hd. by apply extends_update.
    + simpl. destruct Hc as [-> _]. by apply extends_same.
Qed.

(** ** What the loop has looked at *)

(** Nothing of an action was eligible at time [t]. *)
Definition quiet (name : string) (t : time) (d : db) : Prop :=
  forall r, In r (t_deliveries d) -> is_eligible name (fmt_time t) r = false.

(** Why the dispatch left an action: no room, an error of the store, or nothing
    eligible. *)
Definition settled (r : run) (ai : actionInfo) : Prop :=
  (IsJoin (ai_def ai) = false /\ ai_concurrency ai <= inflight (r_sched r) (ai_name ai)) \/
  In (ai_name ai) (r_skipped r) \/ quiet (ai_name ai) (r_now r) (r_db r).

(** The actions the dispatch is done with are settled. *)
Definition looked_at (r : run) : Prop :=
  match r_phase r with
  | PLoad | PDrain | PStopped => True
  | PDispatch todo => exists past, r_loaded r = past ++ todo /\ List.Forall (settled r) past
  | PFound ai _ todo => exists past, r_loaded r = past ++ ai :: todo /\ List.Forall (settled r) past
  | PArm | PSelect _ => List.Forall (settled r) (r_loaded r)
  end.

Record run_ok (r : run) : Prop := {
  rok_sys : sys_ok (to_sys r);
  rok_room : has_room r;
  rok_linked : linked (r_db r);
  rok_fresh : r_fresh r = true -> r_owed r <> [] \/ r_nudge r = true;
  rok_looked : r_fresh r = true \/ looked_at r
}.

Lemma eligible_unclaimed name now r : is_eligible name now r = true -> unclaimed r = true.
Proof.
  unfold is_eligible, unclaimed. intros Hr. apply andb_true_iff in Hr as [_ Hr]. apply in_state_In.
  apply orb_true_iff in Hr as [Hr|Hr]; [|apply andb_true_iff in Hr as [Hr _]]; apply in_state_In, list_elem_of_singleton in Hr; rewrite Hr.
  - by left.
  - right. by left.
Qed.

Lemma not_eligible name now r : unclaimed r = false -> is_eligible name now r = false.
Proof. intros Hr. apply not_true_iff_false. intros He. apply eligible_unclaimed in He. congruence. Qed.

(** Updates that make nothing pending keep an action quiet. *)
Lemma quiet_update name t p f d d' :
  t_deliveries d' = update p f (t_deliveries d) -> (forall r, p r = true -> unclaimed (f r) = false) -> quiet name t d -> quiet name t d'.
Proof.
  intros Hd Hf Hq r' Hr'. rewrite Hd in Hr'. unfold update in Hr'. apply in_map_iff in Hr' as (r & <- & Hr).
  destruct (p r) eqn:E; [apply not_eligible; auto|auto].
Qed.

Lemma quiet_same name t d d' : t_deliveries d' = t_deliveries d -> quiet name t d -> quiet name t d'.
Proof. intros Hd Hq r Hr. apply Hq. by rewrite <- Hd. Qed.

(** ErrNotFound from NextEligible means that nothing is eligible. *)
Lemma NextEligible_none name t (w w' : world G) e :
  linked (w_db w) -> NextEligible name t w = (Err e, w') -> err_is e = ErrNotFound -> quiet name t (w_db w).
Proof.
  intros Hl Hn He. unfold NextEligible, read in Hn. destruct (next_fault w) as [[f|] w1] eqn:Ef; [by injection Hn as <- <-|].
  assert (w_db w1 = w_db w) as Hw by (unfold next_fault in Ef; destruct (w_faults w); by simplify_eq/=). rewrite Hw in Hn.
  destruct (head (order_by d_id (eligible_rows name (fmt_time t) (w_db w)))) as [r|] eqn:Eh.
  - apply order_by_head in Eh as [Hin _]. apply List.filter_In in Hin as [_ Hj]. apply andb_true_iff in Hj as [_ Hj].
    unfold joined in Hj. destruct (message_for _ r) as [m|]; [|done]. unfold scanMessage in Hn.
    destruct (parse_time _); simpl in Hn; [|by injection Hn as <- <-]. unfold nullTime in Hn.
    destruct (d_not_before r) as [s|]; [|done]. destruct (parse_time s); simpl in Hn; [done|]. by injection Hn as <- <-.
  - apply order_by_head_none in Eh. intros r Hr. apply not_true_iff_false. intros Hel.
    assert (In r (eligible_rows name (fmt_time t) (w_db w))) as Hin; [|by rewrite Eh in Hin].
    apply List.filter_In. split; [done|]. rewrite Hel. by apply Hl.
Qed.

Lemma settled_mono r r' ai :
  (forall name, inflight (r_sched r) name <= inflight (r_sched r') name) -> (forall n, In n (r_skipped r) -> In n (r_skipped r')) ->
  r_now r' = r_now r -> (forall name, quiet name (r_now r) (r_db r) -> quiet name (r_now r) (r_db r')) ->
  settled r ai -> settled r' ai.
Proof.
  intros Hi Hs Ht Hq [[Hj Hc]|[Hk|Hz]]; unfold settled; rewrite ?Ht; [left|right; left; auto|right; right; auto].
  split; [done|]. specialize (Hi (ai_name ai)). lia.
Qed.

Lemma looked_mono r r' :
  (forall name, inflight (r_sched r) name <= inflight (r_sched r') name) -> (forall n, In n (r_skipped r) -> In n (r_skipped r')) ->
  r_now r' = r_now r -> (forall name, quiet name (r_now r) (r_db r) -> quiet name (r_now r) (r_db r')) ->
  r_phase r' = r_phase r -> r_loaded r' = r_loaded r -> looked_at r -> looked_at r'.
Proof.
  intros Hi Hs Ht Hq Hp Hl. unfold looked_at. rewrite Hp, Hl.
  assert (forall l, List.Forall (settled r) l -> List.Forall (settled r') l) as Hf by (intros l; apply List.Forall_impl; intros ai; by apply settled_mono).
  destruct (r_phase r); try done; try (intros (past & He & Hpast); exists past; auto); auto.
Qed.

(** *** Handlers *)

Lemma commit_ok r w : run_ok r -> sys_ok (to_sys (commit w r)) -> extends (r_db r) (w_db w) -> t_deliveries (w_db w) = t_deliveries (r_db r) -> run_ok (commit w r).
Proof.
  intros [I1 I2 I3 I4 I5] Hs He Hd. split; [done|exact I2|by apply (extends_linked (r_db r))|exact I4|].
  destruct I5 as [|I5]; [by left|]. right. apply (looked_mono r); try done. intros name. by apply quiet_same.
Qed.

Lemma commit_work_ok r w n :
  run_ok r -> sys_ok (to_sys (commit_work w n r)) -> extends (r_db r) (w_db w) ->
  (n <= 0 -> t_deliveries (w_db w) = t_deliveries (r_db r)) -> run_ok (commit_work w n r).
Proof.
  intros [I1 I2 I3 I4 I5] Hs He Hd. split; [done|exact I2|by apply (extends_linked (r_db r))| |]; simpl.
  - destruct (Z.ltb_spec 0 n); simpl; [left; by destruct (r_owed r)|]. by rewrite orb_false_r.
  - destruct (Z.ltb_spec 0 n) as [|Hn]; simpl; [left; by rewrite orb_true_r|]. rewrite orb_false_r.
    destruct I5 as [|I5]; [by left|]. right. apply (looked_mono r); try done. intros name. apply quiet_same. by apply Hd.
Qed.

Lemma handler_ok r r' : run_ok r -> handler_step r r' -> run_ok r'.
Proof.
  intros Hok Hs. pose proof (other_step_ok _ _ (rok_sys _ Hok) (handler_system _ _ Hs)) as Hsys. pose proof (ok_ids _ (rok_sys _ Hok)) as Hnd.
  destruct Hs as [r m n w Ha|r id d w Hr|r a n b Ho|r g|A r ctx q x w Hr|r name def now x w Ha|r name on x w Ha|A r m e w Ha|r id pgid].
  - apply commit_work_ok; [done|done|by eapply append_extends|]. intros Hn. apply write_ok, append_ok in Ha as (ids & names & -> & _ & _ & Hl & Hd).
    destruct names; [|simpl in Hn; lia]. destruct ids; [|done]. unfold r_db. rewrite Hd. simpl. by rewrite app_nil_r.
  - apply commit_work_ok; [done|done| |lia]. pose proof (ReplayDelivery_cases id (s_world (r_sched r)) Hnd) as Hc. rewrite Hr in Hc.
    unfold ReplayDelivery in Hr. apply write_ok in Hr. apply tx_bind_ok in Hr as (k & d1 & g1 & Hu & Hr).
    injection Hu as <- <- <-. destruct (affected _ _); unfold tx_query, tx_of in Hr; [by destruct (head _)|].
    destruct (getDelivery _ _); [|done]. injection Hr as _ <- _. by apply extends_update.
  - destruct Hok as [I1 I2 I3 I4 I5]. split; [done|exact I2|exact I3|by right|]. destruct I5 as [|I5]; [by left|]. right. by apply (looked_mono r).
  - apply commit_ok; [done|done|by apply extends_same|done].
  - destruct (read_db _ _ _ _ _ Hr) as [Hd _]. apply commit_ok; [done|done|apply extends_same; by rewrite Hd|by rewrite Hd].
  - destruct (apply_action_keeps _ _ _ _ _ _ Ha). apply commit_ok; [done|done|by apply extends_same|done].
  - destruct (set_enabled_keeps _ _ _ _ _ Ha). apply commit_ok; [done|done|by apply extends_same|done].
  - apply write_error in Ha. apply commit_ok; [done|done|apply extends_same; by rewrite Ha|by rewrite Ha].
  - assert (w_db (s_world (onStart id pgid (r_sched r))) = r_db r \/
      w_db (s_world (onStart id pgid (r_sched r))) = set_deliveries (update (fun x => with_id id x && claimed x) (pgid_row pgid) (t_deliveries (r_db r))) (r_db r)) as Hd.
    { unfold onStart, call. destruct (SetDeliveryPgid id pgid (s_world (r_sched r))) as [[u|e] w] eqn:E; simpl; unfold SetDeliveryPgid in E;
        [|left; by apply write_error in E]. right. fold claimed in E. apply write_ok in E. apply tx_bind_ok in E as (n & d1 & g1 & Hu & He).
      injection Hu as _ <- <-. unfold tx_ret in He. by injection He as _ <- _. }
    assert (forall name, inflight (onStart id pgid (r_sched r)) name = inflight (r_sched r) name) as Hi
      by (intros name; unfold onStart, call, inflight; by destruct (SetDeliveryPgid _ _ _)).
    destruct Hok as [I1 I2 I3 I4 I5]. split; [done| | |exact I4|].
    + unfold has_room in *. simpl. destruct (r_phase r); try done. by rewrite Hi.
    + apply (extends_linked (r_db r)); [|done]. unfold r_db at 2. simpl. destruct Hd as [-> | ->]; [by apply extends_same|by apply extends_update].
    + destruct I5 as [|I5]; [by left|]. right. apply (looked_mono r); try done; [intros name; simpl; rewrite Hi; lia|].
      intros name. unfold r_db at 2. simpl. destruct Hd as [-> | ->]; [done|]. apply (quiet_update name _ (fun x => with_id id x && claimed x) (pgid_row pgid)); [done|].
      intros x Hx. apply andb_true_iff in Hx as [_ Hx]. by apply claimed_unclaimed in Hx.
Qed.

(** *** The loop *)

Lemma call_quiet name t p f (w w' : world G) :
  w_db w' = set_deliveries (update p f (t_deliveries (w_db w))) (w_db w) -> (forall r, p r = true -> unclaimed (f r) = false) ->
  quiet name t (w_db w) -> quiet name t (w_db w').
Proof. intros Hd Hf. apply (quiet_update _ _ p f); [by rewrite Hd|done]. Qed.

Lemma resolve_quiet name t id st msg now (s : sched G) :
  NoDup (map d_id (t_deliveries (w_db (s_world s)))) -> verdict st = true ->
  quiet name t (w_db (s_world s)) -> quiet name t (w_db (s_world (resolve id st msg now s))).
Proof.
  intros Hnd Hv Hq. unfold resolve, call. pose proof (ResolveDelivery_cases id st msg now (s_world s) Hnd) as Hc.
  destruct (ResolveDelivery id st msg now (s_world s)) as [[u|e] w]; simpl; destruct Hc as [Hc Hd]; [|by rewrite Hc].
  eapply call_quiet; [exact Hd| |done]. intros r _. by apply verdict_not_unclaimed.
Qed.

Lemma resolve_keeps id st msg now (s : sched G) : s_inflight (resolve id st msg now s) = s_inflight s.
Proof. unfold resolve, call. by destruct (ResolveDelivery id st msg now (s_world s)) as [[u|e] w]. Qed.

(** One more action is done with. *)
Lemma looked_past r r' ai l :
  (forall name, inflight (r_sched r) name <= inflight (r_sched r') name) -> (forall n, In n (r_skipped r) -> In n (r_skipped r')) ->
  r_now r' = r_now r -> (forall name, quiet name (r_now r) (r_db r) -> quiet name (r_now r) (r_db r')) -> r_loaded r' = r_loaded r ->
  (exists past, r_loaded r = past ++ ai :: l /\ List.Forall (settled r) past) -> settled r' ai ->
  exists past, r_loaded r' = past ++ l /\ List.Forall (settled r') past.
Proof.
  intros Hi Hs Ht Hq Hl (past & He & Hp) Ha. exists (past ++ [ai]). split; [by rewrite Hl, He, <- app_assoc|].
  apply List.Forall_app. split; [|constructor; [done|constructor]]. eapply List.Forall_impl; [|exact Hp]. intros x. by apply settled_mono.
Qed.

(** The same actions are, in a state with more executions and no more work. *)
Lemma looked_still r r' todo :
  (forall name, inflight (r_sched r) name <= inflight (r_sched r') name) -> (forall n, In n (r_skipped r) -> In n (r_skipped r')) ->
  r_now r' = r_now r -> (forall name, quiet name (r_now r) (r_db r) -> quiet name (r_now r) (r_db r')) -> r_loaded r' = r_loaded r ->
  (exists past, r_loaded r = past ++ todo /\ List.Forall (settled r) past) ->
  exists past, r_loaded r' = past ++ todo /\ List.Forall (settled r') past.
Proof.
  intros Hi Hs Ht Hq Hl (past & He & Hp). exists past. split; [by rewrite Hl|]. eapply List.Forall_impl; [|exact Hp]. intros x. by apply settled_mono.
Qed.

Lemma looked_loop c r r' : sys_ok (to_sys r) -> linked (r_db r) -> looked_at r -> run_loop c r r' -> looked_at r'.
Proof.
  intros Hok Hlk Hl Hs. pose proof (ok_ids _ Hok) as Hnd. unfold y_db in Hnd. destruct Hs as [s n o t L K F now l w Ha|s n o t L K F now e w Ha|s n o t L K F|s n o t L K F ai l Hj Hi
    |s n o t L K F ai l wk w Hg He|s n o t L K F ai l e w Hg He|s n o t L K F ai wk l st msg cache Hj Hv|s n o t L K F ai wk l cache w Hj Hv Hc
    |s n o t L K F ai wk l cache e w Hj Hv Hc|s n o t L K F ai wk l w Hj Hc|s n o t L K F ai wk l e w Hj Hc|s n o t L K F now|s d o t L K F|s d n o t L K F
    |s d n o t L K F k j res now rnd Hk|s d n o t L K F name now|s d n o t L K F|s n o t L K F k j res now rnd Ht Hk|s n o t L K F Ht];
    try exact I; unfold looked_at in Hl |- *; cbn [r_phase r_sched y_sched to_sys s_world with_world] in *.
  - exists []. by split.
  - constructor.
  - destruct Hl as (past & He & Hp). simpl in He. rewrite app_nil_r in He. by subst.
  - eapply looked_past; [| | | | |exact Hl|]; try done. by left.
  - destruct (read_db _ _ _ _ _ He) as [Hd _]. eapply looked_still; [| | | | |exact Hl]; try done. intros name. apply quiet_same; unfold r_db; simpl; by rewrite Hd.
  - destruct (read_db _ _ _ _ _ He) as [Hd _]. eapply looked_past; [| | | | |exact Hl|]; try done.
    + intros x Hx. simpl in *. destruct (decide _); [done|by right].
    + intros name. apply quiet_same; unfold r_db; simpl; by rewrite Hd.
    + unfold settled; simpl. right. destruct (decide (err_is e = ErrNotFound)) as [Hn|Hn]; [right|left; by left].
      unfold r_db; simpl. rewrite Hd. by apply (NextEligible_none _ _ _ _ _ Hlk He).
  - eapply looked_still; [| | | | |exact Hl]; try done.
    + intros name. unfold inflight; simpl. rewrite resolve_keeps. simpl. lia.
    + intros name. simpl. apply (resolve_quiet name t _ st msg t (with_cache cache s)); [done|]. by eapply vet_verdict.
  - pose proof (ClaimDelivery_cases (d_id (wk_delivery wk)) (ai_version ai) t (s_world s) Hnd) as Hcc. rewrite Hc in Hcc. destruct Hcc as [_ Hd].
    eapply looked_still; [| | | | |exact Hl]; try done.
    + intros name. change (inflight s name <= inflight (add_inflight (ai_name ai) 1 (with_world w (with_cache cache s))) name). rewrite inflight_add.
      change (inflight (with_world w (with_cache cache s)) name) with (inflight s name). destruct (String.eqb _ _); lia.
    + intros name. eapply call_quiet; [exact Hd|done].
  - unfold ClaimDelivery in Hc. apply write_error in Hc. eapply looked_past; [| | | | |exact Hl|]; try done.
    + intros x Hx. by right.
    + intros name. apply quiet_same; unfold r_db; simpl; by rewrite Hc.
    + right. left. by left.
  - pose proof (ResolveDelivery_cases (d_id (wk_delivery wk)) StateCancelled (superseded (ai_version ai)) t (s_world s) Hnd) as Hcc. rewrite Hc in Hcc.
    destruct Hcc as [_ Hd]. eapply looked_still; [| | | | |exact Hl]; try done. intros name. eapply call_quiet; [exact Hd|done].
  - unfold ResolveDelivery in Hc. apply write_error in Hc. eapply looked_past; [| | | | |exact Hl|]; try done.
    + intros x Hx. by right.
    + intros name. apply quiet_same; unfold r_db; simpl; by rewrite Hc.
    + right. left. by left.
  - destruct (armTimer_world now s) as (w & -> & Hd & _). eapply List.Forall_impl; [|exact Hl]. intros ai. apply settled_mono; try done.
    intros name. apply quiet_same; unfold r_db; simpl; by rewrite Hd.
Qed.

Lemma cancel_extends name now (s : sched G) : extends (w_db (s_world s)) (w_db (s_world (snd (handleCtrl name now s)))).
Proof.
  unfold handleCtrl, call. pose proof (CancelDeliveries_cases name "action disabled" now (s_world s)) as Hc.
  destruct (CancelDeliveries name "action disabled" now (s_world s)) as [[n|e] w]; simpl.
  - destruct Hc as ((Hm & _) & Hf & _). split; [by rewrite Hm|]. intros r' Hr'. left. destruct (Forall2_In_r Hf Hr') as (r & Hr & He).
    exists r. split; [done|]. by destruct (_ && _); rewrite He.
  - destruct Hc as [-> _]. by apply extends_same.
Qed.

Lemma extends_loop c r r' : sys_ok (to_sys r) -> run_loop c r r' -> extends (r_db r) (r_db r').
Proof.
  intros Hok Hs. pose proof (ok_ids _ Hok) as Hnd. unfold y_db in Hnd. unfold r_db. destruct Hs as [s n o t L K F now l w Ha|s n o t L K F now e w Ha|s n o t L K F|s n o t L K F ai l Hj Hi
    |s n o t L K F ai l wk w Hg He|s n o t L K F ai l e w Hg He|s n o t L K F ai wk l st msg cache Hj Hv|s n o t L K F ai wk l cache w Hj Hv Hc
    |s n o t L K F ai wk l cache e w Hj Hv Hc|s n o t L K F ai wk l w Hj Hc|s n o t L K F ai wk l e w Hj Hc|s n o t L K F now|s d o t L K F|s d n o t L K F
    |s d n o t L K F k j res now rnd Hk|s d n o t L K F name now|s d n o t L K F|s n o t L K F k j res now rnd Ht Hk|s n o t L K F Ht];
    cbn [r_sched y_sched to_sys s_world with_world with_cache launch add_inflight add_active] in *; try by apply extends_same.
  - destruct (loadActions_db _ _ _ _ Ha) as [-> _]. by apply extends_same.
  - destruct (loadActions_db _ _ _ _ Ha) as [-> _]. by apply extends_same.
  - destruct (read_db _ _ _ _ _ He) as [-> _]. by apply extends_same.
  - destruct (read_db _ _ _ _ _ He) as [-> _]. by apply extends_same.
  - by apply (resolve_extends _ _ _ _ (with_cache cache s)).
  - pose proof (ClaimDelivery_cases (d_id (wk_delivery wk)) (ai_version ai) t (s_world s) Hnd) as Hcc. rewrite Hc in Hcc.
    destruct Hcc as [_ ->]. by apply extends_update.
  - unfold ClaimDelivery in Hc. apply write_error in Hc as ->. by apply extends_same.
  - pose proof (ResolveDelivery_cases (d_id (wk_delivery wk)) StateCancelled (superseded (ai_version ai)) t (s_world s) Hnd) as Hcc. rewrite Hc in Hcc.
    destruct Hcc as [_ ->]. by apply extends_update.
  - unfold ResolveDelivery in Hc. apply write_error in Hc as ->. by apply extends_same.
  - destruct (armTimer_world now s) as (w & -> & Hd & _). simpl. rewrite Hd. by apply extends_same.
  - by apply apply_extends.
  - apply cancel_extends.
  - by apply apply_extends.
Qed.

Lemma run_step_ok c r r' : run_ok r -> run_step c r r' -> run_ok r'.
Proof.
  intros Hok Hs. destruct (Hs) as [Hl|Ho]; [|by eapply handler_ok]. pose proof Hok as [I1 I2 I3 I4 I5]. split.
  - eapply steps_ok; [exact I1|]. by apply run_loop_system.
  - by eapply run_step_room.
  - eapply extends_linked; [by eapply extends_loop|done].
  - destruct Hl; simpl in *; try done. intros HF. destruct (I4 HF) as [|Hn]; [by left|]. right. by rewrite Hn.
  - assert (r_fresh r' = false \/ r_fresh r' = r_fresh r) as Hf by (destruct Hl; auto).
    destruct I5 as [HF|Hlook]; [|right; by eapply looked_loop].
    destruct Hl; simpl in *; try (by left); by right.
Qed.

Lemma run_steps_ok c r r' : run_ok r -> run_steps c r r' -> run_ok r'.
Proof. intros Hok Hs. induction Hs as [|r1 r2 r3 Hst _ IH]; [done|]. apply IH. by apply (run_step_ok c r1). Qed.

Lemma start_run_ok (w : world G) s now :
  NoDup (map d_id (t_deliveries (w_db w))) -> linked (w_db w) -> seed w = Ok s -> run_ok (start_run s now).
Proof.
  intros Hnd Hl Hs. destruct (start_ok w s Hnd Hs) as [Hok Hd]. split; [done|done| |done|by right]. unfold r_db. simpl. by rewrite Hd.
Qed.

(** C5. No wake-up is lost.  Whenever the loop sleeps in select with the
    nudge channel empty and no handler about to announce, each action it loaded
    in its last dispatch is at its concurrency limit - so a result will wake it
    -, or the store refused an operation on it in that dispatch, or none of its
    deliveries was eligible at the time of that dispatch, whatever handlers
    committed meanwhile; and the busy counter is the number of active
    deliveries. *)
Theorem no_lost_wakeup c (w : world G) s now r d :
  NoDup (map d_id (t_deliveries (w_db w))) -> linked (w_db w) -> seed w = Ok s ->
  run_steps c (start_run s now) r -> r_phase r = PSelect d -> r_nudge r = false -> r_owed r = [] ->
  (forall ai, In ai (r_loaded r) ->
     (IsJoin (ai_def ai) = false /\ ai_concurrency ai <= running_of (ai_name ai) (s_running (r_sched r))) \/
     In (ai_name ai) (r_skipped r) \/
     forall x, In x (t_deliveries (r_db r)) -> is_eligible (ai_name ai) (fmt_time (r_now r)) x = false) /\
  s_active (r_sched r) = active (r_db r).
Proof.
  intros Hnd Hl Hs Hp Hph Hn Ho. pose proof (run_steps_ok c _ _ (start_run_ok w s now Hnd Hl Hs) Hp) as [I1 I2 I3 I4 I5]. split.
  - destruct I5 as [HF|Hlook]; [destruct (I4 HF); congruence|]. unfold looked_at in Hlook. rewrite Hph in Hlook.
    rewrite List.Forall_forall in Hlook. intros ai Hai. destruct (Hlook ai Hai) as [[Hj Hc]|Hr]; [left|by right]. split; [done|].
    pose proof (ok_inflight _ I1 (ai_name ai)) as Hi. simpl in Hi. by rewrite <- Hi.
  - pose proof (ok_counter _ I1) as Hc. simpl in Hc. rewrite Ho in Hc. unfold y_db in Hc. simpl in Hc. unfold r_db. lia.
Qed.

(** ** The dispatch of the code *)

Lemma run_trans c r1 r2 r3 : run_steps c r1 r2 -> run_steps c r2 r3 -> run_steps c r1 r3.
Proof. intros Hs. induction Hs; [done|]. intros H3. eapply run_next; [done|auto]. Qed.

Lemma run_one c r1 r2 r3 : run_loop c r1 r2 -> run_steps c r2 r3 -> run_steps c r1 r3.
Proof. intros Hs. apply run_next. by left. Qed.

Lemma vet_decided c ai wk t (s : sched G) b s' : vet c ai wk t s = (b, s') ->
  exists cache, match fst (vet_decision c ai (wk_message wk) (s_cache s)) with
  | None => b = true /\ s' = with_cache cache s /\ vet_decision c ai (wk_message wk) (s_cache s) = (None, cache)
  | Some (st, msg) => b = false /\ s' = resolve (d_id (wk_delivery wk)) st msg t (with_cache cache s) /\
      vet_decision c ai (wk_message wk) (s_cache s) = (Some (st, msg), cache)
  end.
Proof. unfold vet. destruct (vet_decision c ai (wk_message wk) (s_cache s)) as [[[st msg]|] cache]; intros [= <- <-]; by exists cache. Qed.

(** The loop over one action runs to the next one. *)
Lemma dispatch_action_runs fuel c ai now (s s' : sched G) n o L K F l :
  IsJoin (ai_def ai) = false -> dispatch_action fuel c ai now s = Some s' ->
  exists K', run_steps c (mkRun s (PDispatch (ai :: l)) n o now L K F) (mkRun s' (PDispatch l) n o now L K' F).
Proof.
  intros Hj. revert s K; induction fuel as [|fuel IH]; intros s K; [done|]. cbn [dispatch_action].
  destruct (Z.ltb_spec (inflight s (ai_name ai)) (ai_concurrency ai)) as [Hlt|Hge].
  2:{ intros [= <-]. exists K. eapply run_one; [by apply R_full|apply run_refl]. }
  unfold call at 1. destruct (NextEligible (ai_name ai) now (s_world s)) as [[wk|e] w] eqn:En.
  2:{ intros [= <-]. eexists. eapply run_one; [by eapply R_none; [right|]|apply run_refl]. }
  destruct (vet c ai wk now (with_world w s)) as [b s1] eqn:Ev. destruct (vet_decided _ _ _ _ _ _ _ Ev) as [cache Hv]. intros Hd.
  assert (forall r3, run_steps c (mkRun (with_world w s) (PFound ai wk l) n o now L K F) r3 ->
    run_steps c (mkRun s (PDispatch (ai :: l)) n o now L K F) r3) as Hsel by (intros r3; apply run_one; eapply R_select; [by right|exact En]).
  destruct (fst (vet_decision c ai (wk_message wk) (s_cache (with_world w s)))) as [[st msg]|].
  - destruct Hv as (-> & -> & Hv). destruct (IH _ K Hd) as [K' Hr]. exists K'. apply Hsel. eapply run_one; [by eapply R_verdict|exact Hr].
  - destruct Hv as (-> & -> & Hv). unfold call in Hd. cbn [s_world with_cache with_world] in Hd.
    destruct (ClaimDelivery (d_id (wk_delivery wk)) (ai_version ai) now w) as [[[]|e] w2] eqn:Ec.
    + destruct (IH _ K Hd) as [K' Hr]. exists K'. apply Hsel. eapply run_one; [by eapply R_launch|exact Hr].
    + injection Hd as <-. eexists. apply Hsel. eapply run_one; [by eapply R_claim_fails|apply run_refl].
Qed.

Lemma cancelSuperseded_runs fuel c ai now (s s' : sched G) n o L K F l :
  IsJoin (ai_def ai) = true -> cancelSuperseded fuel ai now s = Some s' ->
  exists K', run_steps c (mkRun s (PDispatch (ai :: l)) n o now L K F) (mkRun s' (PDispatch l) n o now L K' F).
Proof.
  intros Hj. revert s K; induction fuel as [|fuel IH]; intros s K; [done|]. cbn [cancelSuperseded].
  unfold call at 1. destruct (NextEligible (ai_name ai) now (s_world s)) as [[wk|e] w] eqn:En.
  2:{ intros [= <-]. eexists. eapply run_one; [by eapply R_none; [left|]|apply run_refl]. }
  intros Hd. assert (forall r3, run_steps c (mkRun (with_world w s) (PFound ai wk l) n o now L K F) r3 ->
    run_steps c (mkRun s (PDispatch (ai :: l)) n o now L K F) r3) as Hsel by (intros r3; apply run_one; eapply R_select; [by left|exact En]).
  unfold call in Hd. cbn [s_world with_world] in Hd.
  destruct (ResolveDelivery (d_id (wk_delivery wk)) StateCancelled (superseded (ai_version ai)) now w) as [[[]|e] w2] eqn:Ec.
  - destruct (IH _ K Hd) as [K' Hr]. exists K'. apply Hsel. eapply run_one; [by eapply R_supersede|exact Hr].
  - injection Hd as <-. eexists. apply Hsel. eapply run_one; [by eapply R_supersede_fails|apply run_refl].
Qed.

(** Dispatch and armTimer, as a path. *)
Lemma dispatch_path fuel c now now2 (s s' : sched G) n o t L K F :
  dispatch fuel c now s = Some s' ->
  exists r, run_steps c (mkRun s PLoad n o t L K F) r /\
    r_sched r = snd (armTimer now2 s') /\ r_phase r = PSelect (fst (armTimer now2 s')) /\ r_nudge r = n /\ r_owed r = o /\ r_now r = now /\
    r_loaded r = match fst (loadActions c (s_world s)) with Ok l => l | Err _ => [] end.
Proof.
  unfold dispatch, call. destruct (loadActions c (s_world s)) as [[l|e] w] eqn:El.
  - intros Hd. assert (forall l0 s0 K0, dispatch_all fuel c l0 now s0 = Some s' ->
      exists K', run_steps c (mkRun s0 (PDispatch l0) n o now l K0 F) (mkRun s' PArm n o now l K' F)) as Hall.
    { clear. induction l0 as [|ai l0 IH]; intros s0 K0 Hd; cbn [dispatch_all] in Hd.
      - injection Hd as <-. exists K0. eapply run_one; [apply R_over|apply run_refl].
      - apply bind_Some in Hd as (s1 & H1 & H2). destruct (IsJoin (ai_def ai)) eqn:Ej.
        + destruct (cancelSuperseded_runs fuel c ai now s0 s1 n o l K0 F l0 Ej H1) as [K1 Hr]. destruct (IH s1 K1 H2) as [K2 Hr2].
          exists K2. by eapply run_trans.
        + destruct (dispatch_action_runs fuel c ai now s0 s1 n o l K0 F l0 Ej H1) as [K1 Hr]. destruct (IH s1 K1 H2) as [K2 Hr2].
          exists K2. by eapply run_trans. }
    destruct (Hall l _ [] Hd) as [K' Hr].
    exists (mkRun (snd (armTimer now2 s')) (PSelect (fst (armTimer now2 s'))) n o now l K' F). split; [|by split_and!].
    eapply run_one; [by apply R_load|]. eapply run_trans; [exact Hr|]. eapply run_one; [apply (R_arm c s' n o now l K' F now2)|apply run_refl].
  - intros [= <-]. exists (mkRun (snd (armTimer now2 (with_world w s))) (PSelect (fst (armTimer now2 (with_world w s)))) n o now [] [] F).
    split; [|by split_and!]. eapply run_one; [by apply (R_load_fails c s n o t L K F now e w)|].
    eapply run_one; [apply (R_arm c (with_world w s) n o now [] [] F now2)|apply run_refl].
Qed.

(** The dispatch and armTimer of the code, uninterrupted, are a path of
    the loop from the point where it is about to dispatch to its select. *)
Theorem dispatch_runs fuel c now now2 (s s' : sched G) n o t L K F :
  dispatch fuel c now s = Some s' ->
  exists r, run_steps c (mkRun s PLoad n o t L K F) r /\
    r_sched r = snd (armTimer now2 s') /\ r_phase r = PSelect (fst (armTimer now2 s')) /\ r_nudge r = n /\ r_owed r = o /\ r_now r = now /\
    r_loaded r = match fst (loadActions c (s_world s)) with Ok l => l | Err _ => [] end.
Proof. exact (dispatch_path fuel c now now2 s s' n o t L K F). Qed.

(** ** Drain *)

(** What a worker's report brings to apply: which execution, its result, the
    clock and the jitter drawn. *)
Record arrival := mkArrival { a_job : nat; a_result : Result; a_now : Z; a_rnd : Z }.

(** The loop of drain over the reports in the order they arrive; [None] while
    it still waits.  The flag says that every outcome was stored. *)
Fixpoint drain (c : Config) (l : list arrival) (s : sched G) : option (bool * sched G) :=
  if 0 <? total (s_inflight s) then
    match l with
    | [] => None
    | a :: l =>
        let stored := apply_nudges c (a_job a) (a_result a) (a_now a) (a_rnd a) s in
        '(b, s') ← drain c l (apply c (a_job a) (a_result a) (a_now a) (a_rnd a) s);
        Some (stored && b, s')
    end
  else Some (true, s).

(** Each execution reports once. *)
Fixpoint reports (n : nat) (l : list arrival) : Prop :=
  match n, l with
  | O, _ => True
  | S n, a :: l => (a_job a <= n)%nat /\ reports n l
  | S _, [] => False
  end.

Lemma total_delete m n : total m = default 0 (m !! n) + total (delete n m).
Proof.
  unfold total. destruct (m !! n) as [v|] eqn:E; simpl.
  - rewrite (map_fold_delete_L _ _ n v m); [done| |done]. intros. lia.
  - by rewrite delete_id.
Qed.

Lemma total_zero m : (forall n, default 0 (m !! n) = 0) -> total m = 0.
Proof.
  induction m as [|n v m Hn IH] using map_ind; intros Hz; [done|]. rewrite (total_delete _ n), Hz, delete_insert_id by done.
  rewrite IH; [done|]. intros k. specialize (Hz k). destruct (decide (n = k)) as [<-|Hne]; [by rewrite Hn|]. by rewrite lookup_insert_ne in Hz.
Qed.

(** The counts add up to the number of executions. *)
Lemma total_running jobs : forall m, (forall n, default 0 (m !! n) = running_of n jobs) -> total m = Z.of_nat (length jobs).
Proof.
  induction jobs as [|j jobs IH]; intros m Hm; [by apply total_zero|]. set (n := ai_name (j_action j)).
  specialize (IH (<[n := running_of n jobs]> m)). rewrite (total_delete m n), Hm.
  assert (forall x, running_of x (j :: jobs) = running_of x jobs + (if String.eqb n x then 1 else 0)) as Hc.
  { intros x. unfold running_of, affected, rows; simpl. fold n. destruct (String.eqb n x); simpl; lia. }
  rewrite (total_delete _ n), lookup_insert_eq, delete_insert_eq in IH. simpl in IH. rewrite Hc, String.eqb_refl.
  enough (running_of n jobs + total (delete n m) = Z.of_nat (length jobs)) by (simpl length; lia).
  apply IH. intros x. destruct (decide (n = x)) as [<-|Hne]; [by rewrite lookup_insert_eq|]. rewrite lookup_insert_ne, Hm, Hc by done.
  destruct (String.eqb_spec n x); [done|lia].
Qed.

Lemma total_length (r : sys G) : sys_ok r -> total (s_inflight (y_sched r)) = Z.of_nat (length (s_running (y_sched r))).
Proof. intros Hok. apply total_running. intros n. apply (ok_inflight _ Hok n). Qed.

Lemma stored_complete id tail outs now (w w' : world G) n :
  NoDup (map d_id (t_deliveries (w_db w))) -> CompleteDelivery id tail outs now w = (Ok n, w') ->
  in_table (w_db w') id (fun r => negb (claimed r)).
Proof.
  intros Hnd Hc. pose proof (complete_cases id tail outs now w Hnd) as H'. rewrite Hc in H'. destruct H' as (d1 & _ & _ & (r & _ & _ & Hr & _) & Ha).
  apply appended_all_prefix in Ha as (_ & _ & news & Hd & _). exists (done_row tail (fmt_time now) r). split; [|done]. rewrite Hd. by apply find_row_app.
Qed.

(** An execution whose outcome was stored leaves no claim. *)
Lemma apply_releases c k j r now rnd (s : sched G) :
  NoDup (map d_id (t_deliveries (w_db (s_world s)))) -> s_running s !! k = Some j -> apply_nudges c k r now rnd s = true ->
  in_table (w_db (s_world (apply c k r now rnd s))) (job_id j) (fun x => negb (claimed x)).
Proof.
  intros Hnd Hj. unfold apply_nudges, apply. rewrite Hj. set (s0 := add_inflight _ _ _). change (s_world s0) with (s_world s).
  pose proof (job_outputs_db j (job_result j r) now (s_world s)) as Hdb.
  destruct (job_outputs j (job_result j r) now (s_world s)) as [[outs|e] w]; simpl in Hdb; unfold call; cbn [s_world with_world]; rewrite <- Hdb in Hnd.
  - destruct (CompleteDelivery _ _ outs now w) as [[n|e] w'] eqn:Ec; [|done]. intros _. by apply (stored_complete _ _ _ _ _ _ _ Hnd Ec).
  - match goal with |- context [FailDelivery ?id ?dd ?g ?m ?t now w] => pose proof (FailDelivery_cases id dd g m t now w Hnd) as Hc; destruct (FailDelivery id dd g m t now w) as [[u|e'] w'] end; [|done].
    intros _. destruct Hc as [(x & _ & _ & Hx & _) _].
    assert (forall b : bool, w_db (s_world (if b then add_active (-1) (with_world w' (with_world w s0)) else with_world w' (with_world w s0))) = w_db w') as -> by by intros [].
    eexists. split; [exact Hx|]. by destruct (_ <=? _).
Qed.

Lemma not_claimed d id : in_table d id (fun x => negb (claimed x)) -> ~ in_table d id claimed.
Proof. intros (r & Hr & Hn) (r' & Hr' & Hc). rewrite Hr in Hr'. injection Hr' as <-. by rewrite Hc in Hn. Qed.

(** C26. A stop is orderly: once each execution in flight has reported, in
    whatever order, drain returns with none left - neither earlier nor later -
    and, if the store kept every outcome, none of their deliveries is left
    claimed; the busy counter stays exact. *)
Theorem drain_complete c l (s : sched G) :
  sys_ok (mkSys s None 0) -> reports (length (s_running s)) l ->
  exists b s', drain c l s = Some (b, s') /\ s_running s' = [] /\ s_active s' = active (w_db (s_world s')) /\
    (b = true -> forall j, In j (s_running s) -> ~ in_table (w_db (s_world s')) (job_id j) claimed) /\
    (forall k, (k < length (s_running s))%nat -> drain c (take k l) s = None).
Proof.
  intros Hok Hr. assert (forall n l s, sys_ok (mkSys s None 0) -> length (s_running s) = n -> reports n l ->
    exists b s', drain c l s = Some (b, s') /\ s_running s' = [] /\ sys_ok (mkSys s' None 0) /\
      (forall id, ~ In id (map job_id (s_running s)) -> in_table (w_db (s_world s)) id (fun x => negb (claimed x)) ->
         in_table (w_db (s_world s')) id (fun x => negb (claimed x))) /\
      (b = true -> forall j, In j (s_running s) -> in_table (w_db (s_world s')) (job_id j) (fun x => negb (claimed x)))) as Hgen.
  { clear. induction n as [|n IH]; intros l s Hok Hlen Hr; pose proof (total_length _ Hok) as Ht; simpl in Ht; rewrite Hlen in Ht.
    - exists true, s. destruct (s_running s) eqn:Es; [|done]. split_and!; try done. destruct l; simpl; by rewrite Ht.
    - destruct l as [|a l]; [done|]. destruct Hr as [Ha Hr]. cbn [drain]. replace (0 <? total (s_inflight s)) with true by (symmetry; apply Z.ltb_lt; lia).
      destruct (lookup_lt_is_Some_2 (s_running s) (a_job a)) as [j Hj]; [lia|]. set (s1 := apply c (a_job a) (a_result a) (a_now a) (a_rnd a) s).
      pose proof (L_apply_ok c (a_job a) (a_result a) (a_now a) (a_rnd a) s 0 Hok) as Hok1. fold s1 in Hok1.
      destruct (apply_moves c (a_job a) j (a_result a) (a_now a) (a_rnd a) s (ok_ids _ Hok) Hj) as (k & (_ & _ & Hm & _) & _ & Hrun & _). fold s1 in Hm, Hrun.
      destruct (delete_others job_id _ _ _ (ok_jobs _ Hok) Hj) as [Hnd Ho]. cbn [y_sched] in Hnd, Ho.
      destruct (IH l s1 Hok1) as (b & s' & Hd & Hrun' & Hok' & Hk & Hb); [rewrite Hrun, length_delete by eauto; lia|done|].
      assert (~ In (job_id j) (map job_id (s_running s1))) as Hnj.
      { rewrite Hrun. intros Hin. apply in_map_iff in Hin as (y & He & Hy). by destruct (Ho y Hy). }
      rewrite Hd. simpl. eexists _, s'. split_and!; [done|done|done| |].
      + intros id Hni Hin. apply Hk.
        * rewrite Hrun. intros Hin'. apply Hni. apply in_map_iff in Hin' as (y & <- & Hy). apply in_map. by destruct (Ho y Hy).
        * apply Hm; [|done]. intros ->. apply Hni. apply in_map, list_elem_of_In. by eapply list_elem_of_lookup_2.
      + intros Hb' x Hx. apply andb_true_iff in Hb' as [Hst Hb']. destruct (decide (job_id x = job_id j)) as [He|Hne].
        * rewrite He. apply Hk; [done|]. by apply apply_releases; [apply (ok_ids _ Hok)| |].
        * apply Hb; [done|]. rewrite Hrun. apply list_elem_of_In. apply list_elem_of_In, list_elem_of_lookup in Hx as (i & Hi).
          apply list_elem_of_lookup. destruct (Nat.lt_trichotomy i (a_job a)) as [Hl|[Hl|Hl]]; [exists i; by rewrite list_lookup_delete_lt|subst i; rewrite Hj in Hi; congruence|].
          exists (i - 1)%nat. rewrite list_lookup_delete_ge by lia. by replace (S (i - 1)) with i by lia. }
  destruct (Hgen _ l s Hok eq_refl Hr) as (b & s' & Hd & Hrun & Hok' & _ & Hb). exists b, s'. split_and!; [done|done| | |].
  - pose proof (ok_counter _ Hok') as Ha. unfold y_db in Ha. simpl in Ha. lia.
  - intros Hbt j Hj. by apply not_claimed, Hb.
  - clear -Hok Hr. intros k. revert l s Hok Hr. induction k as [|k IH]; intros l s Hok Hr Hk;
      pose proof (total_length _ Hok) as Ht; simpl in Ht; destruct (length (s_running s)) as [|n] eqn:En; try lia;
      (destruct l as [|a l]; [done|]); cbn [take drain]; (replace (0 <? total (s_inflight s)) with true by (symmetry; apply Z.ltb_lt; lia)); [done|].
    destruct Hr as [Ha Hr]. destruct (lookup_lt_is_Some_2 (s_running s) (a_job a)) as [j Hj]; [lia|].
    destruct (apply_moves c (a_job a) j (a_result a) (a_now a) (a_rnd a) s (ok_ids _ Hok) Hj) as (m & _ & _ & Hrun & _).
    assert (length (s_running (apply c (a_job a) (a_result a) (a_now a) (a_rnd a) s)) = n) as Hn by (rewrite Hrun, length_delete by eauto; lia).
    rewrite IH; [done|by apply (L_apply_ok c)|by rewrite Hn|lia].
Qed.
End Loop.
Arguments run G {_}.

(** ** Witnesses *)

Lemma demo_linked : linked (w_db demo_dw).
Proof. intros r [<-|[<-|[<-|[<-|[]]]]]; reflexivity. Qed.

Lemma demo_dispatch : { s' | dispatch 4 default_config (10 * Second) demo_seed = Some s' }.
Proof.
  assert (fmap s_active (dispatch 4 default_config (10 * Second) demo_seed) = Some 2) as Hj by (vm_compute; reflexivity).
  destruct (dispatch 4 default_config (10 * Second) demo_seed) as [s'|]; [by exists s'|done].
Qed.

(** The demo daemon dispatches once and sleeps; its action was looked at. *)
Lemma no_lost_wakeup_witness :
  exists (r : run (H0 := toy_cel) id_stream) d, r_phase r = PSelect d /\ map ai_name (r_loaded r) = ["sum"] /\
    forall ai, In ai (r_loaded r) ->
     (IsJoin (ai_def ai) = false /\ ai_concurrency ai <= running_of (ai_name ai) (s_running (r_sched r))) \/
     In (ai_name ai) (r_skipped r) \/
     forall x, In x (t_deliveries (r_db r)) -> is_eligible (ai_name ai) (fmt_time (r_now r)) x = false.
Proof.
  destruct demo_dispatch as [s' Hd].
  destruct (dispatch_path (H0 := toy_cel) 4 default_config (10 * Second) (10 * Second) demo_seed s' false [] 0 [] [] false Hd) as (r & Hr & _ & Hp & Hn & Ho & _ & Hl).
  exists r. eexists. split; [exact Hp|]. split; [rewrite Hl; vm_compute; reflexivity|].
  apply (no_lost_wakeup (H0 := toy_cel) default_config demo_dw demo_seed 0 r _ demo_nodup demo_linked demo_seeded Hr Hp Hn Ho).
Defined.

Lemma dispatch_runs_witness :
  exists s' r, dispatch 4 default_config (10 * Second) demo_seed = Some s' /\
    run_steps (H0 := toy_cel) default_config (start_run demo_seed 0) r /\ r_phase r = PSelect (fst (armTimer (10 * Second) s')).
Proof.
  destruct demo_dispatch as [s' Hd].
  destruct (dispatch_runs (H0 := toy_cel) 4 default_config (10 * Second) (10 * Second) demo_seed s' false [] 0 [] [] false Hd) as (r & Hr & _ & Hp & _).
  exists s', r. split; [exact Hd|]. split; [exact Hr|exact Hp].
Defined.

(** The execution of the demo reports while the daemon stops. *)
Lemma drain_complete_witness :
  exists s', drain default_config [mkArrival 0 (mkResult "" "" None) (12 * Second) 0] (y_sched demo_launched) = Some (true, s') /\
    s_running s' = [] /\ ~ in_table (w_db (s_world s')) "d2" claimed.
Proof.
  assert (sys_ok (H0 := toy_cel) (mkSys (y_sched demo_launched) None 0)) as Hok.
  { apply (steps_ok (H0 := toy_cel) default_config (mkSys (H0 := toy_cel) demo_seed None 0)); [apply (start_ok (H0 := toy_cel) demo_dw demo_seed demo_nodup demo_seeded)|].
    eapply steps_trans; [exact demo_select|]. eapply steps_cons; [exact demo_launch|constructor]. }
  assert (fst <$> drain default_config [mkArrival 0 (mkResult "" "" None) (12 * Second) 0] (y_sched demo_launched) = Some true) as Hb by (vm_compute; reflexivity).
  destruct (drain_complete (H0 := toy_cel) default_config [mkArrival 0 (mkResult "" "" None) (12 * Second) 0] (y_sched demo_launched) Hok ltac:(split; [apply Nat.le_0_l|exact I]))
    as (b & s' & Hd & Hr & _ & Hc & _).
  rewrite Hd in Hb. assert (b = true) as Hbt by (revert Hb; clear; by intros [= ->]). rewrite Hbt in Hd, Hc. exists s'. split; [exact Hd|]. split; [exact Hr|].
  destruct (s_running (y_sched demo_launched)) as [|j js] eqn:Ej; [by vm_compute in Ej|].
  assert (job_id j = "d2") as Hj by (assert (head (job_id <$> s_running (y_sched demo_launched)) = Some "d2") as Hh by (vm_compute; reflexivity); rewrite Ej in Hh; by injection Hh).
  rewrite <- Hj. apply (Hc eq_refl). by left.
Defined.
