(* ===== verification/Settings.v ===== *)
(** Configuration: internal/config/config.go, and what Spawn passes on of it.

    viper is a parameter: a function from the defaults set on it to the values
    it resolves.  What the code relies on is [env_wins]: with AutomaticEnv and
    the prefix SONATA, a non-empty variable beats the config file and the
    default.  package filepath is modelled as far as it is used, for Unix. *)
From S2P Require Import Prelude GoTime Json JsonText Action DurationText.

(** ** path/filepath *)

Definition slash : ascii := "/"%char.
Definition IsAbs (p : string) : bool := has_prefix "/" p.

(** One element of a path, over the elements kept so far, last first. *)
Definition keep (rooted : bool) (kept : list string) (elem : string) : list string :=
  if String.eqb elem "" || String.eqb elem "." then kept
  else if String.eqb elem ".." then
    match kept with
    | [] => if rooted then [] else [".."]
    | last :: rest => if String.eqb last ".." then ".." :: kept else rest
    end
  else elem :: kept.

Definition Clean (p : string) : string :=
  if String.eqb p "" then "."
  else
    let elems := rev (foldl (keep (IsAbs p)) [] (split_on slash p)) in
    if IsAbs p then "/" +:+ join "/" elems
    else match elems with [] => "." | _ => join "/" elems end.

Definition Join (dir name : string) : string :=
  if String.eqb dir "" then if String.eqb name "" then "" else Clean name
  else Clean (dir +:+ "/" +:+ name).

(** The process environment: HOME, the XDG variables (empty when unset), and the
    working directory. *)
Record environ := mkEnviron { HOME : string; XDG_STATE_HOME : string; XDG_CONFIG_HOME : string; wd : result string }.

Definition UserHomeDir (e : environ) : result string :=
  if String.eqb (HOME e) "" then Err (errorf "$HOME is not defined") else Ok (HOME e).

Definition Abs (e : environ) (p : string) : result string :=
  if IsAbs p then Ok (Clean p) else d <-! wd e ;; Ok (Join d p).

(** ** Configuration *)

Definition SocketName : string := "sonata.sock".
Definition DatabaseName : string := "sonata.db".

Record Config := mkConfig {
  StateDir : string;
  Socket : string;
  Database : string;
  LogLevel : string;
  IdleTimeout : Z;
  MaxHops : Z;
  DefaultMaxAttempts : Z;
  DefaultTaskTimeout : Z;
  BackoffBase : Z;
  BackoffCap : Z;
  StdoutCap : Z
}.

Definition LockPath (c : Config) : string := Join (StateDir c) "sonata.lock".
Definition StartLockPath (c : Config) : string := Join (StateDir c) "sonata.start.lock".
Definition LogPath (c : Config) : string := Join (StateDir c) "daemon.log".

(** Env: what the spawned daemon gets. *)
Definition Env (c : Config) : list string := [
  "SONATA_STATE_DIR=" +:+ StateDir c;
  "SONATA_SOCKET=" +:+ Socket c;
  "SONATA_DATABASE=" +:+ Database c;
  "SONATA_LOG_LEVEL=" +:+ LogLevel c;
  "SONATA_IDLE_TIMEOUT=" +:+ Duration_String (IdleTimeout c);
  "SONATA_MAX_HOPS=" +:+ dec (MaxHops c);
  "SONATA_DEFAULT_MAX_ATTEMPTS=" +:+ dec (DefaultMaxAttempts c);
  "SONATA_DEFAULT_TASK_TIMEOUT=" +:+ Duration_String (DefaultTaskTimeout c);
  "SONATA_BACKOFF_BASE=" +:+ Duration_String (BackoffBase c);
  "SONATA_BACKOFF_CAP=" +:+ Duration_String (BackoffCap c);
  "SONATA_STDOUT_CAP=" +:+ dec (StdoutCap c)
].

(** What viper is told, and what it answers. *)
Inductive default := DString (s : string) | DDuration (d : Z) | DInt (n : Z).
Record values := mkValues {
  GetString : string -> string;
  GetDuration : string -> Z;
  GetInt : string -> Z
}.
Definition viper : Type := list (string * default) -> values.

(** The search for a config file: names are replaced, paths added. *)
Inductive search := SearchFile (file : string) | SearchName (name : string) (paths : list string).
Definition SetConfigName (name : string) (s : search) : search :=
  match s with SearchName _ paths => SearchName name paths | SearchFile f => SearchFile f end.
Definition AddConfigPath (path : string) (s : search) : search :=
  match s with SearchName name paths => SearchName name (paths ++ [path]) | SearchFile f => SearchFile f end.

(** ReadInConfig. *)
Inductive config_read := ConfigRead | ConfigNotFound | ConfigFails (e : err).

Definition DefaultStateDir (e : environ) : result string :=
  if negb (String.eqb (XDG_STATE_HOME e) "") then Ok (Join (XDG_STATE_HOME e) "sonata")
  else match UserHomeDir e with
       | Err x => Err (wrapf "resolve home directory" x)
       | Ok home => Ok (Clean (home +:+ "/.local/state/sonata"))
       end.

Definition userConfigDir (e : environ) : result string :=
  if negb (String.eqb (XDG_CONFIG_HOME e) "") then Ok (Join (XDG_CONFIG_HOME e) "sonata")
  else home <-! UserHomeDir e ;; Ok (Clean (home +:+ "/.config/sonata")).

Definition defaults (def : string) : list (string * default) := [
  ("state_dir", DString def);
  ("log_level", DString "info");
  ("idle_timeout", DDuration 0);
  ("max_hops", DInt 100);
  ("default_max_attempts", DInt 3);
  ("default_task_timeout", DDuration (5 * Minute));
  ("backoff_base", DDuration Second);
  ("backoff_cap", DDuration Minute);
  ("stdout_cap", DInt (4 * 2 ^ 20))
].

Definition config_search (e : environ) (cfgFile : string) : search :=
  if negb (String.eqb cfgFile "") then SearchFile cfgFile
  else
    let s := AddConfigPath "." (SetConfigName "sonata" (SearchName "" [])) in
    match userConfigDir e with
    | Ok dir => AddConfigPath dir (SetConfigName "config" s)
    | Err _ => s
    end.

(** A missing file is an error when it was named. *)
Definition read_config (cfgFile : string) (r : config_read) : result unit :=
  match r with
  | ConfigRead => Ok tt
  | ConfigNotFound => if String.eqb cfgFile "" then Ok tt else Err (errorf ("read config " +:+ cfgFile))
  | ConfigFails x => Err (wrapf (if String.eqb cfgFile "" then "read config" else "read config " +:+ cfgFile) x)
  end.

Definition expand (e : environ) (p : string) : result string :=
  if String.eqb p "" then Ok ""
  else
    p <-! (if has_prefix "~" p then
             match UserHomeDir e with
             | Err x => Err (wrapf ("expand " +:+ dq p) x)
             | Ok home => Ok (Join home (trim_prefix "~" p))
             end
           else Ok p) ;;
    match Abs e p with
    | Err x => Err (wrapf ("resolve " +:+ dq p) x)
    | Ok abs => Ok abs
    end.

Definition derive (e : environ) (explicit stateDir name : string) : result string :=
  if String.eqb explicit "" then Ok (Join stateDir name) else expand e explicit.

Definition Load (e : environ) (v : viper) (cfgFile : string) (read : search -> config_read) : result Config :=
  def <-! DefaultStateDir e ;;
  _ <-! read_config cfgFile (read (config_search e cfgFile)) ;;
  let v := v (defaults def) in
  stateDir <-! expand e (GetString v "state_dir") ;;
  socket <-! derive e (GetString v "socket") stateDir SocketName ;;
  database <-! derive e (GetString v "database") stateDir DatabaseName ;;
  Ok (mkConfig stateDir socket database (GetString v "log_level") (GetDuration v "idle_timeout") (GetInt v "max_hops")
        (GetInt v "default_max_attempts") (GetDuration v "default_task_timeout") (GetDuration v "backoff_base")
        (GetDuration v "backoff_cap") (GetInt v "stdout_cap")).

(** ** The environment of the spawned daemon *)

(** os.Environ with later entries over earlier ones. *)
Definition lookup_env (name : string) (vars : list string) : string :=
  foldl (fun acc entry => if has_prefix (name +:+ "=") entry then trim_prefix (name +:+ "=") entry else acc) "" vars.

Definition upper_byte (c : ascii) : ascii :=
  let n := N_of_ascii c in if ((97 <=? n) && (n <=? 122))%N then ascii_of_N (n - 32) else c.
Fixpoint upper (s : string) : string := match s with "" => "" | String c r => String (upper_byte c) (upper r) end.

(** New: the variable of a key has the prefix SONATA_, in upper case, with
    underscores for dashes and dots. *)
Fixpoint EnvKeyReplacer (s : string) : string :=
  match s with "" => "" | String c r => String (if Ascii.eqb c "-" || Ascii.eqb c "." then "_" else c)%char (EnvKeyReplacer r) end.
Definition env_name (key : string) : string := EnvKeyReplacer (upper ("SONATA_" +:+ key)).

(** What the code relies on of viper with AutomaticEnv: a non-empty variable is
    the value, converted to a duration or an integer where it is one. *)
Definition env_wins (vars : list string) (v : viper) : Prop :=
  forall defs key text, lookup_env (env_name key) vars = text -> text <> "" ->
    GetString (v defs) key = text /\
    (forall d, ParseDuration text = Some d -> GetDuration (v defs) key = d) /\
    (forall n, - 2 ^ 63 <= n < 2 ^ 63 -> text = dec n -> GetInt (v defs) key = n).

(** Durations and integers of 64 bits. *)
Definition int64 (n : Z) : Prop := - 2 ^ 63 <= n < 2 ^ 63.
Definition typed (v : viper) : Prop := forall defs key, int64 (GetDuration (v defs) key) /\ int64 (GetInt (v defs) key).

(** *** Paths *)

(** A name that Clean keeps. *)
Definition plain_name (s : string) : Prop := s <> "" /\ s <> "." /\ s <> ".." /\ split_on slash s = [s].
Definition clean_path (p : string) : Prop := exists elems, Forall plain_name elems /\ p = "/" +:+ join "/" elems.

Lemma split_app sep a b : split_on sep a = [a] -> split_on sep (a +:+ String sep b) = a :: split_on sep b.
Proof.
  induction a as [|c a IH]; intros Ha.
  - rewrite str_app_nil_l. cbn [split_on]. by rewrite Ascii.eqb_refl.
  - rewrite str_app_cons. cbn [split_on] in *. destruct (Ascii.eqb_spec c sep); [done|].
    pose proof (split_on_nonempty sep a). destruct (split_on sep a) as [|l ls] eqn:E; [done|]. injection Ha as -> ->. by rewrite IH.
Qed.

Lemma split_join elems : elems <> [] -> Forall (fun s => split_on slash s = [s]) elems -> split_on slash (join "/" elems) = elems.
Proof.
  intros Hne Hf. induction Hf as [|x l Hx Hf IH]; [done|]. destruct l as [|y l]; [done|].
  change (join "/" (x :: y :: l)) with (x +:+ String slash (join "/" (y :: l))). by rewrite split_app, IH.
Qed.

Lemma split_parts sep s x : In x (split_on sep s) -> split_on sep x = [x].
Proof.
  revert x; induction s as [|c s IH]; intros x; simpl; [by intros [<-|[]]|].
  destruct (Ascii.eqb_spec c sep) as [->|Hne]; [intros [<-|Hx]; [done|by apply IH]|].
  pose proof (split_on_nonempty sep s). destruct (split_on sep s) as [|l ls] eqn:E; [done|]. intros [<-|Hx].
  - simpl. destruct (Ascii.eqb_spec c sep); [done|]. by rewrite (IH l (or_introl eq_refl)).
  - apply IH. by right.
Qed.

Lemma keep_plain kept elem : Forall plain_name kept -> split_on slash elem = [elem] -> Forall plain_name (keep true kept elem).
Proof.
  intros Hk He. unfold keep. destruct (String.eqb_spec elem ""); [done|]. destruct (String.eqb_spec elem "."); [done|]. simpl.
  destruct (String.eqb_spec elem ".."); [|by constructor]. destruct Hk as [|last rest Hl Hr]; [constructor|].
  destruct (String.eqb_spec last ".."); [by destruct Hl as (_ & _ & ? & _)|done].
Qed.

Lemma fold_plain elems kept : Forall plain_name kept -> Forall (fun s => split_on slash s = [s]) elems ->
  Forall plain_name (foldl (keep true) kept elems).
Proof. intros Hk He. revert kept Hk; induction He as [|x l Hx He IH]; intros kept Hk; [done|]. by apply IH, keep_plain. Qed.

Lemma Clean_rooted p : IsAbs p = true -> clean_path (Clean p).
Proof.
  intros Ha. destruct p as [|c p]; [done|]. unfold Clean. rewrite Ha. cbn [String.eqb]. eexists. split; [|reflexivity].
  apply Forall_rev, fold_plain; [done|]. apply Forall_forall. intros x Hx. eapply split_parts. apply list_elem_of_In. exact Hx.
Qed.

Lemma keep_all elems kept : Forall plain_name elems -> foldl (keep true) kept elems = rev elems ++ kept.
Proof.
  intros He. revert kept; induction He as [|x l (H1 & H2 & H3 & _) He IH]; intros kept; [done|]. simpl. rewrite IH, <- app_assoc. unfold keep.
  destruct (String.eqb_spec x ""); [done|]. destruct (String.eqb_spec x "."); [done|]. by destruct (String.eqb_spec x "..").
Qed.

Lemma Clean_clean p : clean_path p -> Clean p = p.
Proof.
  intros (elems & He & ->). unfold Clean. change ("/" +:+ join "/" elems) with (String slash (join "/" elems)).
  assert (IsAbs (String slash (join "/" elems)) = true) as -> by done. cbn [String.eqb split_on]. rewrite Ascii.eqb_refl.
  destruct (decide (elems = [])) as [->|Hne]; [done|].
  assert (Forall (fun s => split_on slash s = [s]) elems) as Hs by (eapply Forall_impl; [exact He|by intros x (_ & _ & _ & ?)]).
  rewrite split_join by done.
  simpl foldl. rewrite keep_all by done. by rewrite app_nil_r, rev_involutive.
Qed.

Lemma clean_path_abs p : clean_path p -> IsAbs p = true /\ p <> "" /\ has_prefix "~" p = false.
Proof. by intros (elems & _ & ->). Qed.

(** expand yields an absolute, clean path, and leaves such a path alone. *)
Lemma expand_clean e p q : (forall d, wd e = Ok d -> IsAbs d = true) -> expand e p = Ok q -> p <> "" -> clean_path q.
Proof.
  intros Hwd He Hne. unfold expand in He. destruct (String.eqb_spec p ""); [done|].
  apply rbind_ok in He as (p' & _ & He). unfold Abs in He. destruct (IsAbs p') eqn:Ha.
  - injection He as <-. by apply Clean_rooted.
  - destruct (wd e) as [d|] eqn:Ed; simpl in He; [|done]. injection He as <-. specialize (Hwd d eq_refl).
    unfold Join. destruct (String.eqb_spec d "") as [->|]; [done|]. apply Clean_rooted. by destruct d.
Qed.

Lemma expand_id e p : clean_path p -> expand e p = Ok p.
Proof.
  intros Hp. destruct (clean_path_abs p Hp) as (Ha & Hne & Ht). unfold expand, Abs. destruct (String.eqb_spec p ""); [done|].
  rewrite Ht. simpl. by rewrite Ha, Clean_clean.
Qed.

Lemma Join_clean dir name : clean_path dir -> clean_path (Join dir name).
Proof.
  intros Hd. destruct (clean_path_abs dir Hd) as (Ha & Hne & _). unfold Join. destruct (String.eqb_spec dir ""); [done|].
  apply Clean_rooted. by destruct dir.
Qed.

Lemma derive_clean e explicit dir name p : (forall d, wd e = Ok d -> IsAbs d = true) ->
  derive e explicit dir name = Ok p -> clean_path dir -> clean_path p.
Proof.
  intros Hwd Hp Hd. unfold derive in Hp. destruct (String.eqb_spec explicit "").
  - injection Hp as <-. by apply Join_clean.
  - by eapply expand_clean.
Qed.

Lemma Env_lookup vars c :
  lookup_env (env_name "state_dir") (vars ++ Env c) = StateDir c /\
  lookup_env (env_name "socket") (vars ++ Env c) = Socket c /\
  lookup_env (env_name "database") (vars ++ Env c) = Database c /\
  lookup_env (env_name "log_level") (vars ++ Env c) = LogLevel c /\
  lookup_env (env_name "idle_timeout") (vars ++ Env c) = Duration_String (IdleTimeout c) /\
  lookup_env (env_name "max_hops") (vars ++ Env c) = dec (MaxHops c) /\
  lookup_env (env_name "default_max_attempts") (vars ++ Env c) = dec (DefaultMaxAttempts c) /\
  lookup_env (env_name "default_task_timeout") (vars ++ Env c) = Duration_String (DefaultTaskTimeout c) /\
  lookup_env (env_name "backoff_base") (vars ++ Env c) = Duration_String (BackoffBase c) /\
  lookup_env (env_name "backoff_cap") (vars ++ Env c) = Duration_String (BackoffCap c) /\
  lookup_env (env_name "stdout_cap") (vars ++ Env c) = dec (StdoutCap c).
Proof. unfold lookup_env. rewrite !foldl_app. split_and!; reflexivity. Qed.

Lemma dec_nonempty n : dec n <> "".
Proof.
  assert (forall k, 0 <= k -> pad 10 (dec_digits k) k <> "") as Hk.
  { intros k Hk. destruct (dec_digits_first k Hk) as [->|(w & -> & _)]; [done|]. by rewrite pad_cons by lia. }
  unfold dec. destruct (Z.ltb_spec n 0); [done|by apply Hk].
Qed.

Lemma Duration_String_nonempty d : int64 d -> Duration_String d <> "".
Proof. intros Hd He. pose proof (ParseDuration_String d Hd) as Hp. rewrite He in Hp. done. Qed.

Section Child.
Context (vars : list string) (c : Config) (v : viper) (Hv : env_wins (vars ++ Env c) v).

Lemma child_string key text defs : lookup_env (env_name key) (vars ++ Env c) = text -> text <> "" -> GetString (v defs) key = text.
Proof. intros Ht Hne. by destruct (Hv defs key text Ht Hne). Qed.

Lemma child_duration key d defs : lookup_env (env_name key) (vars ++ Env c) = Duration_String d -> int64 d -> GetDuration (v defs) key = d.
Proof.
  intros Ht Hd. destruct (Hv defs key _ Ht (Duration_String_nonempty d Hd)) as (_ & Hg & _). by apply Hg, ParseDuration_String.
Qed.

Lemma child_int key n defs : lookup_env (env_name key) (vars ++ Env c) = dec n -> int64 n -> GetInt (v defs) key = n.
Proof. intros Ht Hn. destruct (Hv defs key _ Ht (dec_nonempty n)) as (_ & _ & Hg). by apply Hg. Qed.
End Child.

(** What Load yields, but for an empty state directory. *)
Lemma Load_shape e v cfgFile read c : (forall d, wd e = Ok d -> IsAbs d = true) -> typed v -> Load e v cfgFile read = Ok c -> StateDir c <> "" ->
  is_ok (DefaultStateDir e) = true /\ clean_path (StateDir c) /\ clean_path (Socket c) /\ clean_path (Database c) /\
  int64 (IdleTimeout c) /\ int64 (MaxHops c) /\ int64 (DefaultMaxAttempts c) /\ int64 (DefaultTaskTimeout c) /\
  int64 (BackoffBase c) /\ int64 (BackoffCap c) /\ int64 (StdoutCap c).
Proof.
  intros Hwd Hv Hl Hne. unfold Load in Hl. apply rbind_ok in Hl as (def & Hdef & Hl). apply rbind_unit_ok in Hl as [_ Hl].
  apply rbind_ok in Hl as (dir & Hdir & Hl). apply rbind_ok in Hl as (sock & Hsock & Hl). apply rbind_ok in Hl as (db & Hdb & Hl).
  injection Hl as <-. cbn [StateDir Socket Database IdleTimeout MaxHops DefaultMaxAttempts DefaultTaskTimeout BackoffBase BackoffCap StdoutCap] in *.
  rewrite Hdef. assert (clean_path dir).
  { eapply expand_clean; [done|exact Hdir|]. intros He. rewrite He in Hdir. by injection Hdir as <-. }
  split_and!; try done; try (by eapply derive_clean); by apply Hv.
Qed.

(** C37. A spawned daemon resolves the configuration of the process that
    spawned it.  Whatever flags, variables and files that one resolved it from,
    and whatever the daemon's own config file and inherited variables say, the
    variables of Env make its Load yield the same values in every field: paths
    are absolute and clean, so that resolving them again changes nothing, and
    durations and integers are read back from their text.  The configuration
    must have a state directory and a log level (viper takes an empty variable
    for an unset one), and the daemon's own config file must be readable. *)
Theorem Env_round_trip e v cfgFile read c vars v' read' :
  (forall d, wd e = Ok d -> IsAbs d = true) -> typed v -> Load e v cfgFile read = Ok c -> StateDir c <> "" -> LogLevel c <> "" ->
  env_wins (vars ++ Env c) v' -> read_config "" (read' (config_search e "")) = Ok tt ->
  Load e v' "" read' = Ok c.
Proof.
  intros Hwd Hty Hl Hdir Hlog Hv Hread.
  destruct (Load_shape e v cfgFile read c Hwd Hty Hl Hdir) as (Hdef & Hd & Hs & Hb & T1 & T2 & T3 & T4 & T5 & T6 & T7).
  destruct (Env_lookup vars c) as (E1 & E2 & E3 & E4 & E5 & E6 & E7 & E8 & E9 & E10 & E11).
  destruct (clean_path_abs _ Hs) as (_ & Hsne & _). destruct (clean_path_abs _ Hb) as (_ & Hbne & _).
  unfold Load. destruct (DefaultStateDir e) as [def|]; [|done]. cbn [rbind]. rewrite Hread. cbn [rbind]. cbn zeta.
  rewrite (child_string _ _ _ Hv "state_dir" _ _ E1), (child_string _ _ _ Hv "socket" _ _ E2), (child_string _ _ _ Hv "database" _ _ E3) by done.
  unfold derive. destruct (String.eqb_spec (Socket c) ""); [done|]. destruct (String.eqb_spec (Database c) ""); [done|].
  rewrite !expand_id by done. cbn [rbind].
  rewrite (child_string _ _ _ Hv "log_level" _ _ E4) by done.
  rewrite (child_duration _ _ _ Hv "idle_timeout" _ _ E5), (child_duration _ _ _ Hv "default_task_timeout" _ _ E8),
    (child_duration _ _ _ Hv "backoff_base" _ _ E9), (child_duration _ _ _ Hv "backoff_cap" _ _ E10) by done.
  rewrite (child_int _ _ _ Hv "max_hops" _ _ E6), (child_int _ _ _ Hv "default_max_attempts" _ _ E7), (child_int _ _ _ Hv "stdout_cap" _ _ E11) by done.
  by destruct c.
Qed.

(** The file ./sonata.yaml, first in the documented search path, is looked for
    only when there is no home directory: the second SetConfigName replaces its
    name. *)
Lemma sonata_yaml_unsearched e dir : userConfigDir e = Ok dir -> config_search e "" = SearchName "config" ["."; dir].
Proof. intros Hd. unfold config_search. cbn. by rewrite Hd. Qed.

(** An empty log level does not reach the daemon: the variable is taken for unset. *)
Example empty_level_is_dropped c : LogLevel c = "" -> lookup_env (env_name "log_level") (Env c) = "".
Proof. intros Hl. destruct (Env_lookup [] c) as (_ & _ & _ & He & _). by rewrite Hl in He. Qed.

(** ** A viper that reads the environment over the defaults *)

Definition toy_default (defs : list (string * default)) (key : string) : default :=
  foldr (fun kd acc => if String.eqb (fst kd) key then snd kd else acc) (DString "") defs.

Definition toy_viper (vars : list string) : viper := fun defs => mkValues
  (fun key => let text := lookup_env (env_name key) vars in
     if String.eqb text "" then match toy_default defs key with DString s => s | _ => "" end else text)
  (fun key => let text := lookup_env (env_name key) vars in
     match ParseDuration text, toy_default defs key with Some d, _ => d | None, DDuration d => d | None, _ => 0 end)
  (fun key => let text := lookup_env (env_name key) vars in
     match lit_int text, toy_default defs key with Some n, _ => n | None, DInt n => n | None, _ => 0 end).

Lemma toy_env_wins vars : env_wins vars (toy_viper vars).
Proof.
  intros defs key text Ht Hne. unfold toy_viper. cbn [GetString GetDuration GetInt]. rewrite Ht. split_and!.
  - by destruct (String.eqb_spec text "").
  - by intros d ->.
  - intros n Hn ->. by rewrite lit_int_dec.
Qed.

Definition demo_environ : environ := mkEnviron "/home/u" "" "" (Ok "/work").
Definition demo_viper : viper := fun _ => mkValues
  (fun key => if String.eqb key "state_dir" then "~/s/../state" else if String.eqb key "database" then "./data.db"
              else if String.eqb key "log_level" then "debug" else "")
  (fun _ => 90 * Second) (fun _ => 7).
Definition demo_config : Config :=
  mkConfig "/home/u/state" "/home/u/state/sonata.sock" "/work/data.db" "debug"
    (90 * Second) 7 7 (90 * Second) (90 * Second) (90 * Second) 7.

Lemma Env_round_trip_witness :
  Load demo_environ (toy_viper (["SONATA_SOCKET=/old"; "HOME=/home/u"] ++ Env demo_config)) "" (fun _ => ConfigNotFound) = Ok demo_config.
Proof.
  apply (Env_round_trip demo_environ demo_viper "" (fun _ => ConfigNotFound) demo_config ["SONATA_SOCKET=/old"; "HOME=/home/u"]); try done.
  - by intros d [= <-].
  - apply toy_env_wins.
Defined.
