(* ===== verification/Daemon.v ===== *)
(** The daemon process: internal/daemon (lock.go, ensure.go, spawn.go, daemon.go).

    The first part is the start-up protocol between processes: the daemon lock,
    the start lock, the socket file, and the steps that EnsureRunning, Run and
    Stop take on them.  The kernel's part is what flock(2), unlink(2), bind(2)
    and process death do: a lock has one holder and is free when it dies, a
    socket file outlives its listener.  The rest is pure: the pid in the lock
    file, the poll of AcquireWait, the idle tracker. *)
From S2P Require Import Prelude GoTime Json.

(** ** Processes *)

(** Where Run is.  It holds the daemon lock from [DWrite] on. *)
Inductive dpc :=
| DWait       (** AcquireWait *)
| DWrite      (** WritePID next *)
| DClean      (** os.Remove of the stale socket next *)
| DListen     (** net.Listen next *)
| DBoot       (** listening; the store, orphans and the scheduler next *)
| DAbort      (** one of those failed; the listener is open until the process exits *)
| DServe
| DDrain      (** the listener is closed; in-flight work ends *)
| DUnlink     (** the deferred os.Remove of the socket next *)
| DRelease.   (** the deferred Release next *)

(** Where EnsureRunning is.  It holds the start lock from [EProbe] to [EUnlink]. *)
Inductive epc :=
| EWait
| EProbe             (** the first health request *)
| EClean             (** nothing answered: os.Remove of the stale socket next *)
| ESpawn
| EReady (child : Z) (** WaitReady *)
| EStop (child : Z)  (** it never became ready: Stop *)
| EUnlink            (** Stop after its SIGKILL: os.Remove of the socket next *)
| EDone.

(** Where Stop is, called by the down command, which takes no lock. *)
Inductive xpc := XTerm (pid : Z) | XUnlink | XDone.

Inductive proc := Daemon (pc : dpc) | Ensure (pc : epc) | Down (pc : xpc).

Record os := mkOs {
  o_procs : gmap Z proc;
  o_start : option Z;   (** holder of the start lock *)
  o_lock : option Z;    (** holder of the daemon lock *)
  o_sock : option Z     (** the socket file, by the process that bound it *)
}.

Definition set_proc (p : Z) (x : proc) (o : os) : os := mkOs (<[p := x]> (o_procs o)) (o_start o) (o_lock o) (o_sock o).
Definition set_start (h : option Z) (o : os) : os := mkOs (o_procs o) h (o_lock o) (o_sock o).
Definition set_lock (h : option Z) (o : os) : os := mkOs (o_procs o) (o_start o) h (o_sock o).
Definition set_sock (h : option Z) (o : os) : os := mkOs (o_procs o) (o_start o) (o_lock o) h.

(** Process death: the kernel releases its locks, its socket file stays. *)
Definition released (p : Z) (h : option Z) : option Z := if decide (h = Some p) then None else h.
Definition die (p : Z) (o : os) : os := mkOs (delete p (o_procs o)) (released p (o_start o)) (released p (o_lock o)) (o_sock o).

Definition listening (x : proc) : bool := match x with Daemon (DBoot | DAbort | DServe) => true | _ => false end.
Definition serving (x : proc) : bool := match x with Daemon DServe => true | _ => false end.
(** Not listening yet, but bound to. *)
Definition starting (x : proc) : bool := match x with Daemon (DWait | DWrite | DClean | DListen) => true | _ => false end.

(** A connection to the socket path: the process that accepts it. *)
Definition reached (o : os) (q : Z) : Prop :=
  o_sock o = Some q /\ exists x, o_procs o !! q = Some x /\ listening x = true.
(** Client.Health answers, from [q]. *)
Definition answers (o : os) (q : Z) : Prop := o_sock o = Some q /\ o_procs o !! q = Some (Daemon DServe).
(** Client.Health is ErrNoDaemon: no file, or nobody behind it. *)
Definition no_daemon (o : os) : Prop := forall q, ~ reached o q.

(** ** Steps *)

(** Run. *)
Inductive daemon_step (p : Z) : dpc -> os -> os -> Prop :=
| D_acquire o : o_lock o = None -> daemon_step p DWait o (set_lock (Some p) (set_proc p (Daemon DWrite) o))
| D_give_up o : daemon_step p DWait o (die p o)
| D_write o : daemon_step p DWrite o (set_proc p (Daemon DClean) o)
| D_write_fails o : daemon_step p DWrite o (set_proc p (Daemon DRelease) o)
| D_clean o : daemon_step p DClean o (set_sock None (set_proc p (Daemon DListen) o))
| D_clean_fails o : daemon_step p DClean o (set_proc p (Daemon DRelease) o)
| D_listen o : o_sock o = None -> daemon_step p DListen o (set_sock (Some p) (set_proc p (Daemon DBoot) o))
| D_listen_fails o : daemon_step p DListen o (set_proc p (Daemon DRelease) o)
| D_serve o : daemon_step p DBoot o (set_proc p (Daemon DServe) o)
| D_chmod_fails o : daemon_step p DBoot o (set_sock None (set_proc p (Daemon DRelease) o))
| D_boot_fails o : daemon_step p DBoot o (set_proc p (Daemon DAbort) o)
| D_abort o : daemon_step p DAbort o (set_sock None (set_proc p (Daemon DRelease) o))
| D_serve_fails o : daemon_step p DServe o (set_sock None (set_proc p (Daemon DUnlink) o))  (** Serve closes it *)
| D_shutdown o : daemon_step p DServe o (set_sock None (set_proc p (Daemon DDrain) o))  (** closing the listener unlinks *)
| D_drained o : daemon_step p DDrain o (set_proc p (Daemon DUnlink) o)
| D_unlink o : daemon_step p DUnlink o (set_sock None (set_proc p (Daemon DRelease) o))
| D_release o : daemon_step p DRelease o (die p o).

(** EnsureRunning. *)
Inductive ensure_step (p : Z) : epc -> os -> os -> Prop :=
| E_acquire o : o_start o = None -> ensure_step p EWait o (set_start (Some p) (set_proc p (Ensure EProbe) o))
| E_give_up o : ensure_step p EWait o (set_proc p (Ensure EDone) o)
| E_healthy o q : answers o q -> ensure_step p EProbe o (set_start None (set_proc p (Ensure EDone) o))
| E_probe_fails o : ensure_step p EProbe o (set_start None (set_proc p (Ensure EDone) o))
| E_nobody o : no_daemon o -> ensure_step p EProbe o (set_proc p (Ensure EClean) o)
| E_clean o : ensure_step p EClean o (set_sock None (set_proc p (Ensure ESpawn) o))
| E_clean_fails o : ensure_step p EClean o (set_start None (set_proc p (Ensure EDone) o))
| E_spawn o child : o_procs o !! child = None -> child <> p ->
    ensure_step p ESpawn o (set_proc child (Daemon DWait) (set_proc p (Ensure (EReady child)) o))
| E_spawn_fails o : ensure_step p ESpawn o (set_start None (set_proc p (Ensure EDone) o))
| E_ready o child : answers o child -> ensure_step p (EReady child) o (set_start None (set_proc p (Ensure EDone) o))
| E_mismatch o child q : answers o q -> q <> child -> ensure_step p (EReady child) o (set_start None (set_proc p (Ensure EDone) o))
| E_timeout o child : ensure_step p (EReady child) o (set_proc p (Ensure (EStop child)) o)
| E_stopped o child : o_procs o !! child = None -> ensure_step p (EStop child) o (set_start None (set_proc p (Ensure EDone) o))
| E_kill o child : child <> p -> ensure_step p (EStop child) o (set_proc p (Ensure EUnlink) (die child o))
| E_unlink o : ensure_step p EUnlink o (set_start None (set_sock None (set_proc p (Ensure EDone) o))).

(** Stop, from the down command. *)
Inductive down_step (p : Z) : xpc -> os -> os -> Prop :=
| X_gone o pid : o_procs o !! pid = None -> down_step p (XTerm pid) o (set_proc p (Down XDone) o)
| X_kill o pid : pid <> p -> down_step p (XTerm pid) o (set_proc p (Down XUnlink) (die pid o))
| X_unlink o : down_step p XUnlink o (set_sock None (set_proc p (Down XDone) o)).

(** What happens on one machine.  A daemon may crash at any time, and is told to
    stop by a signal ([D_shutdown]).  The last four rules are the runs in which
    the start lock is not all there is: a foreground daemon (the daemon command),
    a down, and a client interrupted in EnsureRunning. *)
Inductive move : os -> os -> Prop :=
| M_daemon o p pc o' : o_procs o !! p = Some (Daemon pc) -> daemon_step p pc o o' -> move o o'
| M_ensure o p pc o' : o_procs o !! p = Some (Ensure pc) -> ensure_step p pc o o' -> move o o'
| M_crash o p pc : o_procs o !! p = Some (Daemon pc) -> move o (die p o)
| M_client o p : o_procs o !! p = None -> move o (set_proc p (Ensure EWait) o).

Inductive loose_move : os -> os -> Prop :=
| L_move o o' : move o o' -> loose_move o o'
| L_foreground o p : o_procs o !! p = None -> loose_move o (set_proc p (Daemon DWait) o)
| L_down o p pid : o_procs o !! p = None -> loose_move o (set_proc p (Down (XTerm pid)) o)
| L_down_step o p pc o' : o_procs o !! p = Some (Down pc) -> down_step p pc o o' -> loose_move o o'
| L_interrupt o p pc : o_procs o !! p = Some (Ensure pc) -> loose_move o (die p o).

Definition machine : os := mkOs ∅ None None None.

(** ** The locks *)

Definition holds_lock (x : proc) : bool := match x with Daemon DWait => false | Daemon _ => true | _ => false end.
Definition holds_start (x : proc) : bool := match x with Ensure (EWait | EDone) => false | Ensure _ => true | _ => false end.

(** A lock is held by the process whose program point says so, and no other. *)
Definition lock_ok (holds : proc -> bool) (h : option Z) (m : gmap Z proc) : Prop :=
  forall p, h = Some p <-> exists x, m !! p = Some x /\ holds x = true.

Lemma lock_holder holds h m p x : lock_ok holds h m -> m !! p = Some x -> holds x = true -> h = Some p.
Proof. intros Hl Hp Hx. apply Hl. by exists x. Qed.

Lemma lock_only holds h m p q x y :
  lock_ok holds h m -> m !! p = Some x -> m !! q = Some y -> holds x = true -> holds y = true -> p = q.
Proof. intros Hl Hp Hq Hx Hy. pose proof (lock_holder _ _ _ _ _ Hl Hp Hx). pose proof (lock_holder _ _ _ _ _ Hl Hq Hy). congruence. Qed.

Lemma lock_keep holds h m p x :
  lock_ok holds h m -> match m !! p with Some y => holds y | None => false end = holds x -> lock_ok holds h (<[p := x]> m).
Proof.
  intros Hl Hx q. rewrite (Hl q). destruct (decide (p = q)) as [<-|Hne].
  - rewrite lookup_insert_eq. split.
    + intros (y & Hy & Hh). exists x. rewrite Hy in Hx. split; [done|congruence].
    + intros (y & [= <-] & Hh). destruct (m !! p) as [y|]; [exists y; split; congruence|congruence].
  - by rewrite lookup_insert_ne.
Qed.

Lemma lock_take holds m p x : lock_ok holds None m -> holds x = true -> lock_ok holds (Some p) (<[p := x]> m).
Proof.
  intros Hl Hx q. destruct (decide (p = q)) as [<-|Hne].
  - rewrite lookup_insert_eq. split; [by exists x|done].
  - rewrite lookup_insert_ne by done. split; [congruence|]. intros Hy. by apply Hl in Hy.
Qed.

Lemma lock_drop holds m p x : lock_ok holds (Some p) m -> holds x = false -> lock_ok holds None (<[p := x]> m).
Proof.
  intros Hl Hx q. destruct (decide (p = q)) as [<-|Hne].
  - rewrite lookup_insert_eq. split; [done|]. intros (y & [= <-] & Hh). congruence.
  - rewrite lookup_insert_ne by done. split; [done|]. intros Hy. apply Hl in Hy. congruence.
Qed.

Lemma lock_die holds h m p : lock_ok holds h m -> lock_ok holds (released p h) (delete p m).
Proof.
  intros Hl q. unfold released. destruct (decide (p = q)) as [<-|Hne].
  - rewrite lookup_delete_eq. split; [|by intros (y & ? & _)]. destruct (decide (h = Some p)); [done|congruence].
  - rewrite lookup_delete_ne, <- (Hl q) by done. destruct (decide (h = Some p)) as [->|]; [|done]. split; congruence.
Qed.

Record os_ok (o : os) : Prop := {
  ok_lock : lock_ok holds_lock (o_lock o) (o_procs o);
  ok_start : lock_ok holds_start (o_start o) (o_procs o);
  ok_listen : forall p, o_procs o !! p = Some (Daemon DListen) -> o_sock o = None
}.

Create HintDb locks.
#[local] Hint Resolve lock_die : locks.

(** Program points of the processes that a move leaves alone. *)
Ltac lookups :=
  repeat match goal with
  | H : <[?p := _]> _ !! ?q = Some _ |- _ =>
      destruct (decide (p = q)) as [<-|?]; [rewrite lookup_insert_eq in H; simplify_eq|rewrite lookup_insert_ne in H by done]
  | H : delete ?p _ !! ?q = Some _ |- _ =>
      destruct (decide (p = q)) as [<-|?]; [by rewrite lookup_delete_eq in H|rewrite lookup_delete_ne in H by done]
  end.

(** A lock after a move: kept, taken, dropped or lost with its holder. *)
Ltac lock_move Hp :=
  first
  [ by apply lock_keep; [|rewrite Hp]
  | by apply lock_take; [congruence|]
  | eapply lock_drop; [|done]; match goal with
      H : lock_ok ?holds _ _ |- _ => rewrite <- (lock_holder holds _ _ _ _ H Hp eq_refl); exact H end
  | by auto with locks ].

Lemma daemon_step_ok o p pc o' : os_ok o -> o_procs o !! p = Some (Daemon pc) -> daemon_step p pc o o' -> os_ok o'.
Proof.
  intros [Il Is Isock] Hp Hs. destruct Hs as [o Hl|o|o|o|o|o|o Hsock|o|o|o|o|o|o|o|o|o|o]; split; simpl; try (by lock_move Hp); try done.
  all: try (by intros q Hq; lookups; eapply Isock).
  - apply lock_take; [by rewrite <- Hl|done].
  - intros q Hq. lookups. exfalso. pose proof (lock_only _ _ _ _ _ _ _ Il Hp Hq eq_refl eq_refl). congruence.
Qed.

Lemma die_ok o p : os_ok o -> os_ok (die p o).
Proof. intros [Il Is Isock]. split; simpl; [by auto with locks..|]. intros q Hq. lookups. by eapply Isock. Qed.

(** A process that starts, or a step that changes the socket at most, keeps the locks. *)
Lemma idle_ok o p x :
  os_ok o -> match o_procs o !! p with Some y => holds_lock y | None => false end = holds_lock x ->
  match o_procs o !! p with Some y => holds_start y | None => false end = holds_start x ->
  x <> Daemon DListen -> os_ok (set_proc p x o).
Proof.
  intros [Il Is Isock] Hl Hs Hx. split; simpl; [by apply lock_keep..|]. intros q Hq. lookups. by eapply Isock.
Qed.

Lemma sock_gone_ok o : os_ok o -> os_ok (set_sock None o).
Proof. intros [Il Is Isock]. by split. Qed.

(** EnsureRunning returns, dropping the start lock. *)
Lemma leave_ok o p pc : os_ok o -> o_procs o !! p = Some (Ensure pc) -> holds_start (Ensure pc) = true ->
  os_ok (set_start None (set_proc p (Ensure EDone) o)).
Proof.
  intros [Il Is Isock] Hp Hh. split; simpl.
  - by apply lock_keep; [|rewrite Hp].
  - eapply lock_drop; [|done]. by rewrite <- (lock_holder _ _ _ _ _ Is Hp Hh).
  - intros q Hq. lookups. by eapply Isock.
Qed.
#[local] Hint Resolve die_ok sock_gone_ok : locks.

Lemma ensure_step_ok o p pc o' : os_ok o -> o_procs o !! p = Some (Ensure pc) -> ensure_step p pc o o' -> os_ok o'.
Proof.
  intros Hok Hp Hs. destruct Hs as [o Hst|o|o q _|o|o _|o|o|o child Hc Hne|o|o child _|o child q _ _|o child|o child _|o child Hne|o].
  all: try (by eapply leave_ok).
  all: try (by apply idle_ok; [|rewrite Hp..|]).
  - destruct Hok as [Il Is Isock]. split; simpl; [by apply lock_keep; [|rewrite Hp]|by apply lock_take; [rewrite <- Hst|]|].
    intros q Hq. lookups. by eapply Isock.
  - by apply sock_gone_ok, idle_ok; [|rewrite Hp..|].
  - apply idle_ok; [by apply idle_ok; [|rewrite Hp..|]|simpl; by rewrite lookup_insert_ne, Hc..|done].
  - apply idle_ok; [by apply die_ok|simpl; by rewrite lookup_delete_ne, Hp by done..|done].
  - eapply leave_ok in Hok; [|done..]. by destruct Hok.
Qed.

Lemma down_step_ok o p pc o' : os_ok o -> o_procs o !! p = Some (Down pc) -> down_step p pc o o' -> os_ok o'.
Proof.
  intros Hok Hp Hs. destruct Hs as [o pid _|o pid Hne|o].
  - by apply idle_ok; [|rewrite Hp..|].
  - apply idle_ok; [by apply die_ok|simpl; by rewrite lookup_delete_ne, Hp by done..|done].
  - by apply sock_gone_ok, idle_ok; [|rewrite Hp..|].
Qed.

Lemma move_ok o o' : os_ok o -> move o o' -> os_ok o'.
Proof.
  intros Hok Hm. destruct Hm as [o p pc o' Hp Hs|o p pc o' Hp Hs|o p pc _|o p Hp].
  - by eapply daemon_step_ok.
  - by eapply ensure_step_ok.
  - by apply die_ok.
  - by apply idle_ok; [|rewrite Hp..|].
Qed.

Lemma loose_move_ok o o' : os_ok o -> loose_move o o' -> os_ok o'.
Proof.
  intros Hok Hm. destruct Hm as [o o' Hm|o p Hp|o p pid Hp|o p pc o' Hp Hs|o p pc _].
  - by eapply move_ok.
  - by apply idle_ok; [|rewrite Hp..|].
  - by apply idle_ok; [|rewrite Hp..|].
  - by eapply down_step_ok.
  - by apply die_ok.
Qed.

Lemma machine_ok : os_ok machine.
Proof. split; simpl; [intros p; split; [done|intros (x & Hx & _); by rewrite lookup_empty in Hx]..|done]. Qed.

(** Any run, foreground daemons, downs and interrupted clients included. *)
Lemma loose_run_ok o : rtc loose_move machine o -> os_ok o.
Proof. apply (rtc_ind_r os_ok machine); [exact machine_ok|intros a b _ Hm Ha; by eapply loose_move_ok]. Qed.

(** ** Managed runs *)

(** A daemon on its way up, or up. *)
Definition live (x : proc) : bool := starting x || match x with Daemon (DBoot | DServe) => true | _ => false end.
Definition ensuring (child : Z) (x : proc) : Prop := x = Ensure (EReady child) \/ x = Ensure (EStop child).
Definition clearing (x : proc) : Prop := x = Ensure EClean \/ x = Ensure ESpawn \/ x = Ensure EUnlink.

(** When every daemon is spawned by EnsureRunning: a bound daemon owns the
    socket file, a daemon that does not serve yet has the holder of the start
    lock waiting for it, the holder finds no other, and removes the socket and
    spawns only when there is none. *)
Record managed (o : os) : Prop := {
  mg_ok : os_ok o;
  mg_bound : forall q x, o_procs o !! q = Some x -> live x = true -> starting x = false -> o_sock o = Some q;
  mg_young : forall q x, o_procs o !! q = Some x -> live x = true -> serving x = false ->
    exists e y, o_procs o !! e = Some y /\ ensuring q y;
  mg_clear : forall e y, o_procs o !! e = Some y -> clearing y -> forall q x, o_procs o !! q = Some x -> live x = false;
  mg_only : forall e y c, o_procs o !! e = Some y -> ensuring c y -> forall q x, o_procs o !! q = Some x -> live x = true -> q = c
}.

Lemma ensuring_holds c y : ensuring c y -> holds_start y = true.
Proof. by intros [-> | ->]. Qed.
Lemma clearing_holds y : clearing y -> holds_start y = true.
Proof. by intros [-> | [-> | ->]]. Qed.
Lemma bound_holds x : live x = true -> starting x = false -> holds_lock x = true.
Proof. by destruct x as [[]| |]. Qed.
#[local] Hint Resolve ensuring_holds clearing_holds bound_holds : locks.

(** A client moves on: it may clear when no daemon lives, and wait for [c] when
    no other does; it stops waiting for a daemon when that one serves or is gone. *)
Lemma client_moves o o' p x :
  managed o -> os_ok o' -> o_procs o' = <[p := x]> (o_procs o) -> live x = false ->
  (forall q z, q <> p -> o_procs o !! q = Some z -> live z = true ->
     o_sock o' = o_sock o /\ ~ clearing x /\ (forall c, ensuring c x -> q = c) /\
     (serving z = false -> forall y, o_procs o !! p = Some y -> ensuring q y -> ensuring q x)) ->
  managed o'.
Proof.
  intros [Hok Hb Hy Hc Ho] Hok' Hprocs Hx Hnew. split; [done|rewrite Hprocs..].
  - intros q y Hq Hl Hs. lookups; [congruence|]. destruct (Hnew q y) as (-> & _); [congruence|done..|]. by eapply Hb.
  - intros q y Hq Hl Hs. lookups; [congruence|]. destruct (Hy q y Hq Hl Hs) as (e & z & He & Hz).
    destruct (decide (p = e)) as [<-|Hne].
    + exists p, x. rewrite lookup_insert_eq. split; [done|]. destruct (Hnew q y) as (_ & _ & _ & Hk); [congruence|done..|by eapply Hk].
    + exists e, z. by rewrite lookup_insert_ne.
  - intros e y He Hcy q z Hq. lookups; try done; [|by eapply (Hc e y)].
    destruct (live z) eqn:El; [|done]. destruct (Hnew q z) as (_ & Hncl & _); [congruence|done..].
  - intros e y c He Hey q z Hq Hl. lookups; try congruence; [|by eapply (Ho e y)].
    destruct (Hnew q z) as (_ & _ & Heq & _); [congruence|done..|by apply Heq].
Qed.

(** Daemon [p] moves on; it was live if it is, and touches the socket with the lock only. *)
Lemma daemon_moves o o' p pc pc' :
  managed o -> os_ok o' -> o_procs o !! p = Some (Daemon pc) -> o_procs o' = <[p := Daemon pc']> (o_procs o) ->
  (live (Daemon pc') = true -> live (Daemon pc) = true /\ (serving (Daemon pc') = false -> serving (Daemon pc) = false)) ->
  (live (Daemon pc') = true -> starting (Daemon pc') = false -> o_sock o' = Some p) ->
  o_sock o' = o_sock o \/ holds_lock (Daemon pc) = true ->
  managed o'.
Proof.
  intros [Hok Hb Hy Hc Ho] Hok' Hp Hprocs Hlive Hbound Hsock. split; [done|rewrite Hprocs..].
  - intros q y Hq Hl Hs. lookups; [by apply Hbound|]. destruct Hsock as [->|Hh]; [by eapply Hb|].
    assert (q = p) by (eapply (lock_only _ _ _ q p _ _ (ok_lock _ Hok)); eauto with locks). congruence.
  - intros q y Hq Hl Hs.
    assert (exists z, o_procs o !! q = Some z /\ live z = true /\ serving z = false) as (z & Hz & Hlz & Hsz).
    { lookups; [destruct (Hlive Hl) as [? Hns]; eauto|eauto]. }
    destruct (Hy q z Hz Hlz Hsz) as (e & w & He & Hw). exists e, w. split; [|done].
    rewrite lookup_insert_ne; [done|]. intros ->. destruct Hw as [-> | ->]; congruence.
  - intros e y He Hcy q z Hq. lookups; try (by destruct Hcy as [? |[? | ?]]); [|by eapply (Hc e y)].
    destruct (live (Daemon pc')) eqn:E; [|done]. destruct (Hlive eq_refl) as [Hl _]. pose proof (Hc e y He Hcy p _ Hp). congruence.
  - intros e y c He Hey q z Hq Hl. lookups; try (by destruct Hey); [|by eapply (Ho e y)].
    destruct (Hlive Hl) as [Hl' _]. by eapply (Ho e y).
Qed.

Lemma die_managed o p : managed o -> (forall y c q z, o_procs o !! p = Some y -> ensuring c y -> o_procs o !! q = Some z -> live z = true -> serving z = true) ->
  managed (die p o).
Proof.
  intros [Hok Hb Hy Hc Ho] Hleave. split; [by apply die_ok|simpl..].
  - intros q y Hq Hl Hs. lookups. by eapply Hb.
  - intros q y Hq Hl Hs. lookups. destruct (Hy q y Hq Hl Hs) as (e & z & He & Hz).
    destruct (decide (e = p)) as [->|Hne]; [rewrite (Hleave z q q y) in Hs by done; done|].
    exists e, z. by rewrite lookup_delete_ne.
  - intros e y He Hcy q z Hq. lookups. by eapply (Hc e y).
  - intros e y c He Hey q z Hq Hl. lookups. by eapply (Ho e y).
Qed.

Lemma daemon_step_managed o p pc o' : managed o -> o_procs o !! p = Some (Daemon pc) -> daemon_step p pc o o' -> managed o'.
Proof.
  intros Hm Hp Hs. pose proof (daemon_step_ok _ _ _ _ (mg_ok _ Hm) Hp Hs) as Hok'.
  assert (managed (die p o)) as Hdie.
  { apply die_managed; [done|]. intros y c q z Hy Hey. destruct Hey as [-> | ->]; congruence. }
  destruct Hs; try done; (eapply daemon_moves; [exact Hm|exact Hok'|exact Hp|reflexivity|done|..]; simpl; try done; auto).
  intros _ _. by eapply (mg_bound _ Hm).
Qed.

(** EnsureRunning starts its child. *)
Lemma spawn_managed o p child :
  managed o -> o_procs o !! p = Some (Ensure (EReady child)) -> o_procs o !! child = None -> managed (set_proc child (Daemon DWait) o).
Proof.
  intros [Hok Hb Hy Hc Ho] Hp Hch. split; [by apply idle_ok; [|rewrite Hch..|]|simpl..].
  - intros q y Hq Hl Hs. lookups. by eapply Hb.
  - intros q y Hq Hl Hs.
    assert (exists e z, o_procs o !! e = Some z /\ ensuring q z) as (e & z & He & Hz).
    { lookups; [exists p, (Ensure (EReady child)); split; [done|by left]|by eapply Hy]. }
    exists e, z. split; [|done]. rewrite lookup_insert_ne; [done|congruence].
  - intros e y He Hcy q z Hq. exfalso. lookups; try (by destruct Hcy as [? |[? | ?]]).
    all: assert (e = p) as -> by (eapply (lock_only _ _ _ e p _ _ (ok_start _ Hok)); eauto with locks).
    all: destruct Hcy as [-> |[-> | ->]]; congruence.
  - intros e y c He Hey q z Hq Hl. lookups; try (by destruct Hey); [|by eapply (Ho e y)].
    assert (e = p) as -> by (eapply (lock_only _ _ _ e p _ _ (ok_start _ Hok)); eauto with locks). destruct Hey as [-> | ->]; congruence.
Qed.

Ltac points :=
  repeat match goal with
  | H : clearing _ |- _ => destruct H as [?|[?|?]]
  | H : ensuring _ _ |- _ => destruct H as [?|?]
  end; simplify_eq.

Lemma answers_serves o q : answers o q -> exists x, o_procs o !! q = Some x /\ live x = true.
Proof. intros [_ H]. by exists (Daemon DServe). Qed.

(** Nobody answers the holder of the start lock: no daemon lives. *)
Lemma nobody_lives o p : managed o -> o_procs o !! p = Some (Ensure EProbe) -> no_daemon o ->
  forall q x, o_procs o !! q = Some x -> live x = false.
Proof.
  intros [Hok Hb Hy Hc Ho] Hp Hno q x Hq. destruct (live x) eqn:Hl; [|done]. exfalso.
  destruct (serving x) eqn:Hs.
  - apply (Hno q). split; [by apply (Hb q x); [..|destruct x as [[]| |]]|]. exists x. split; [done|by destruct x as [[]| |]].
  - destruct (Hy q x Hq Hl Hs) as (e & y & He & Hey).
    assert (e = p) as -> by (eapply (lock_only _ _ _ e p _ _ (ok_start _ Hok)); eauto with locks). destruct Hey as [-> | ->]; congruence.
Qed.

Lemma ensure_step_managed o p pc o' : managed o -> o_procs o !! p = Some (Ensure pc) -> ensure_step p pc o o' -> managed o'.
Proof.
  intros Hm Hp Hs. pose proof (ensure_step_ok _ _ _ _ (mg_ok _ Hm) Hp Hs) as Hok'.
  assert (Hclear : clearing (Ensure pc) -> forall q z, o_procs o !! q = Some z -> live z = true -> False).
  { intros Hcl q z Hq Hl. pose proof (mg_clear _ Hm p _ Hp Hcl q z Hq). congruence. }
  assert (Honly : forall c, ensuring c (Ensure pc) -> forall q z, o_procs o !! q = Some z -> live z = true -> q = c).
  { intros c Hc q z. by apply (mg_only _ Hm p _ c Hp Hc). }
  assert (Hstep : forall x o1, os_ok o1 -> o_procs o1 = <[p := x]> (o_procs o) -> live x = false -> (forall q z, q <> p -> o_procs o !! q = Some z -> live z = true ->
     o_sock o1 = o_sock o /\ ~ clearing x /\ (forall c, ensuring c x -> q = c) /\ (serving z = false -> ensuring q (Ensure pc) -> ensuring q x)) -> managed o1).
  { intros x o1 H1 H2 H3 H4. eapply client_moves; [done..|]. intros q z Hq Hz Hl. destruct (H4 q z) as (?&?&?&?); [done..|].
    split_and!; [done..|]. intros ? y Hy. rewrite Hp in Hy. injection Hy as <-. auto. }
  destruct Hs as [o Hst|o|o q Hq|o|o Hno|o|o|o child Hc Hne|o|o child Ha|o child q Ha Hq|o child|o child Hg|o child Hne|o].
  8: { apply (spawn_managed _ p); [|simpl; by rewrite lookup_insert_eq|simpl; by rewrite lookup_insert_ne].
       eapply Hstep; [by apply idle_ok; [apply Hm|rewrite Hp..|]|reflexivity|reflexivity|].
       intros r z _ Hz Hl. destruct (Hclear (or_intror (or_introl eq_refl)) r z Hz Hl). }
  13: { assert (managed (die child o)) as Hd.
        { apply die_managed; [apply Hm|]. intros y c q z Hy Hey Hq Hl. rewrite <- (Honly child (or_intror eq_refl) q z Hq Hl) in Hy.
          rewrite Hq in Hy. injection Hy as <-. by destruct Hey as [-> | ->]. }
        eapply (client_moves _ _ p); [exact Hd|exact Hok'|reflexivity|reflexivity|]. simpl.
        intros r z _ Hz Hl. lookups. by pose proof (Honly child (or_intror eq_refl) r z Hz Hl). }
  all: eapply Hstep; [exact Hok'|reflexivity|reflexivity|intros r z Hr Hz Hl].
  all: try (split_and!; [done|intros ?|intros ? ?|intros ? ?]; by points).
  - pose proof (nobody_lives _ _ Hm Hp Hno r z Hz). congruence.
  - destruct (Hclear (or_introl eq_refl) r z Hz Hl).
  - assert (r = child) as -> by (by apply (Honly child (or_introl eq_refl) r z)). destruct Ha as [_ Ha].
    split_and!; [done|intros ?; by points|intros ? ?; by points|rewrite Ha in Hz; by injection Hz as <-].
  - destruct Hq. destruct Ha as [_ Ha]. by apply (Honly child (or_introl eq_refl) q _ Ha).
  - rewrite (Honly child (or_introl eq_refl) r z Hz Hl). split_and!; [done|intros ?; by points|intros ? ?; by points|by right].
  - destruct (Hclear (or_intror (or_intror eq_refl)) r z Hz Hl).
Qed.

Lemma machine_managed : managed machine.
Proof. split; [exact machine_ok|simpl; intros *; rewrite lookup_empty; done..]. Qed.

Lemma move_managed o o' : managed o -> move o o' -> managed o'.
Proof.
  intros Hm Hmv. destruct Hmv as [o p pc o' Hp Hs|o p pc o' Hp Hs|o p pc Hp|o p Hp].
  - by eapply daemon_step_managed.
  - by eapply ensure_step_managed.
  - apply die_managed; [done|]. intros y c q z Hy Hey. destruct Hey as [-> | ->]; congruence.
  - eapply (client_moves _ _ p); [exact Hm|by apply idle_ok; [apply Hm|rewrite Hp..|]|reflexivity|done|].
    intros q z _ _ _. split_and!; [done|intros ?; by points|intros ? ?; by points|congruence].
Qed.

Lemma managed_run o : rtc move machine o -> managed o.
Proof. apply (rtc_ind_r managed machine); [exact machine_managed|intros a b _ Hm Ha; by eapply move_managed]. Qed.

(** ** Wedged *)

(** A daemon serves on a socket that is gone. *)
Definition wedged (o : os) (q : Z) : Prop := o_procs o !! q = Some (Daemon DServe) /\ o_sock o = None.

(** A move that leaves [q] serving. *)
Definition move_beside (q : Z) (o o' : os) : Prop := loose_move o o' /\ o_procs o' !! q = Some (Daemon DServe).

(** Only a daemon that listens gives the socket file an owner. *)
Lemma sock_moves o o' : loose_move o o' ->
  o_sock o' = o_sock o \/ o_sock o' = None \/ exists p, o_procs o !! p = Some (Daemon DListen).
Proof.
  intros Hm. destruct Hm as [o o' Hm|o p Hp|o p pid Hp|o p pc o' Hp Hs|o p pc _]; try (by left).
  - destruct Hm as [o p pc o' Hp Hs|o p pc o' Hp Hs|o p pc _|o p Hp]; try (by left); destruct Hs; simpl; eauto.
  - destruct Hs; simpl; eauto.
Qed.

Lemma wedged_moves o o' q : os_ok o -> wedged o q -> move_beside q o o' -> wedged o' q.
Proof.
  intros Hok [Hq Hs] [Hm Hq']. split; [done|]. destruct (sock_moves _ _ Hm) as [-> |[? |[p Hp]]]; [done..|].
  assert (p = q) as -> by (by apply (lock_only _ _ _ p q _ _ (ok_lock _ Hok) Hp Hq)). congruence.
Qed.

Lemma beside_run q o o' : os_ok o -> wedged o q -> rtc (move_beside q) o o' -> os_ok o' /\ wedged o' q.
Proof.
  intros Hok Hw. apply (rtc_ind_r (fun o' => os_ok o' /\ wedged o' q)); [done|].
  intros a b _ Hm [Ha Hwa]. split; [by apply (loose_move_ok a); [|apply Hm]|by eapply wedged_moves].
Qed.

(** ** Concrete runs *)

(** Client 1 finds nobody; the foreground daemon 2 starts and serves; client 1
    then removes the stale socket, which is daemon 2's. *)
Definition race_end : os := mkOs {[1 := Ensure ESpawn; 2 := Daemon DServe]} (Some 1) (Some 2) None.

Ltac client p rule := eapply rtc_l; [eapply (M_ensure _ p); [reflexivity|apply rule; first [reflexivity|done|by intros q [? _]]]|].
Ltac server p rule := eapply rtc_l; [eapply (M_daemon _ p); [reflexivity|apply rule; first [reflexivity|done]]|].
Ltac loose_client p rule := eapply rtc_l; [eapply L_move, (M_ensure _ p); [reflexivity|apply rule; first [reflexivity|done|by intros q [? _]]]|].
Ltac loose_server p rule := eapply rtc_l; [eapply L_move, (M_daemon _ p); [reflexivity|apply rule; first [reflexivity|done]]|].

Lemma race_run : rtc loose_move machine race_end.
Proof.
  eapply rtc_l; [eapply L_move, (M_client _ 1); reflexivity|].
  loose_client 1 E_acquire. loose_client 1 E_nobody.
  eapply rtc_l; [eapply (L_foreground _ 2); reflexivity|].
  loose_server 2 D_acquire. loose_server 2 D_write. loose_server 2 D_clean. loose_server 2 D_listen. loose_server 2 D_serve.
  loose_client 1 E_clean. reflexivity.
Qed.

(** Daemon 1 crashes while it serves, leaving its socket; daemon 2 takes over. *)
Definition takeover_end : os := mkOs {[2 := Daemon DListen]} None (Some 2) None.

Lemma takeover_run : rtc loose_move machine takeover_end.
Proof.
  eapply rtc_l; [eapply (L_foreground _ 1); reflexivity|].
  loose_server 1 D_acquire. loose_server 1 D_write. loose_server 1 D_clean. loose_server 1 D_listen. loose_server 1 D_serve.
  eapply rtc_l; [eapply (L_foreground _ 2); reflexivity|].
  eapply rtc_l; [eapply L_move, (M_crash _ 1); reflexivity|].
  loose_server 2 D_acquire. loose_server 2 D_write. loose_server 2 D_clean. reflexivity.
Qed.

(** Client 1 spawns daemon 2, which serves; client 3 waits for the start lock. *)
Definition spawn_end : os := mkOs {[1 := Ensure (EReady 2); 2 := Daemon DServe; 3 := Ensure EWait]} (Some 1) (Some 2) (Some 2).

Lemma spawn_run : rtc move machine spawn_end.
Proof.
  eapply rtc_l; [eapply (M_client _ 1); reflexivity|]. client 1 E_acquire. client 1 E_nobody. client 1 E_clean.
  eapply rtc_l; [eapply (M_ensure _ 1); [reflexivity|by apply (E_spawn 1 _ 2)]|].
  eapply rtc_l; [eapply (M_client _ 3); reflexivity|].
  server 2 D_acquire. server 2 D_write. server 2 D_clean. server 2 D_listen. server 2 D_serve. reflexivity.
Qed.

(** ** The protocol *)

(** C36. Whatever else runs on the machine (foreground daemons, downs,
    clients killed in EnsureRunning, crashes): at most one process is past the
    daemon lock, so at most one daemon serves; a daemon that removes the socket
    file before it listens removes one that nobody listens behind, as the
    comment there claims; and when it listens the file is gone, so that
    net.Listen never fails with the address in use. *)
Theorem lock_owns_socket o : rtc loose_move machine o ->
  (forall p q x y, o_procs o !! p = Some x -> o_procs o !! q = Some y -> holds_lock x = true -> holds_lock y = true -> p = q) /\
  (forall p, o_procs o !! p = Some (Daemon DClean) -> no_daemon o) /\
  (forall p, o_procs o !! p = Some (Daemon DListen) -> o_sock o = None).
Proof.
  intros Hr. destruct (loose_run_ok o Hr) as [Il Is Isock].
  split; [intros p q x y Hp Hq; by apply (lock_only _ _ _ p q x y Il)|split; [|exact Isock]].
  intros p Hp q (_ & x & Hq & Hx). assert (p = q) as -> by (apply (lock_only _ _ _ p q _ _ Il Hp Hq); [done|by destruct x as [[]| |]]).
  rewrite Hp in Hq. by injection Hq as <-.
Qed.

(** C17. When every daemon is spawned by EnsureRunning - no daemon in the
    foreground, no down, no client interrupted in the middle of its call (see
    [move]) - however the calls and the daemons' crashes and shutdowns
    interleave: a daemon that serves owns the
    socket file, so that every client reaches it; no two daemons are on their
    way up or up at once, so concurrent calls collapse into a single spawn; and
    the daemon that answers the call that spawned one is the spawned one (the
    check that fails loudly never fails). *)
Theorem one_live_daemon o : rtc move machine o ->
  (forall q, o_procs o !! q = Some (Daemon DServe) -> answers o q) /\
  (forall q r x y, o_procs o !! q = Some x -> o_procs o !! r = Some y -> live x = true -> live y = true -> q = r) /\
  (forall e c q, o_procs o !! e = Some (Ensure (EReady c)) -> answers o q -> q = c).
Proof.
  intros Hr. pose proof (managed_run o Hr) as [Hok Hb Hy Hc Ho]. split; [|split].
  - intros q Hq. split; [by apply (Hb q _ Hq)|done].
  - intros q r x y Hq Hry Hx Hyl. destruct (serving x) eqn:Ex; destruct (serving y) eqn:Ey.
    + assert (o_sock o = Some q) by (apply (Hb q x Hq Hx); by destruct x as [[]| |]).
      assert (o_sock o = Some r) by (apply (Hb r y Hry Hyl); by destruct y as [[]| |]). congruence.
    + destruct (Hy r y Hry Hyl Ey) as (e & z & He & Hz). by apply (Ho e z r He Hz q x).
    + destruct (Hy q x Hq Hx Ex) as (e & z & He & Hz). symmetry. by apply (Ho e z q He Hz r y).
    + destruct (Hy q x Hq Hx Ex) as (e & z & He & Hz). symmetry. by apply (Ho e z q He Hz r y).
  - intros e c q He [_ Hq]. by apply (Ho e _ c He (or_introl eq_refl) q _ Hq).
Qed.

(** C39. The comment in EnsureRunning, that holding the start lock means no
    daemon can appear, does not hold: daemons run in the foreground take no
    start lock. Once a daemon serves on a socket file that is gone, then for as
    long as it runs, whatever every other process does, no client is answered
    and no other daemon gets past the daemon lock. *)
Theorem wedged_stays o o' q : rtc loose_move machine o -> wedged o q -> rtc (move_beside q) o o' ->
  (forall r, ~ answers o' r) /\ (forall r pc, o_procs o' !! r = Some (Daemon pc) -> r <> q -> pc = DWait).
Proof.
  intros Hr Hw Hrun. destruct (beside_run q o o' (loose_run_ok o Hr) Hw Hrun) as [Hok [Hq Hs]]. split.
  - intros r [Hr' _]. congruence.
  - intros r pc Hp Hne. destruct (holds_lock (Daemon pc)) eqn:E; [|by destruct pc].
    by destruct Hne, (lock_only _ _ _ r q _ _ (ok_lock _ Hok) Hp Hq E).
Qed.

Lemma lock_owns_socket_witness : o_sock takeover_end = None.
Proof. by apply (proj2 (proj2 (lock_owns_socket takeover_end takeover_run)) 2). Defined.

Lemma one_live_daemon_witness : answers spawn_end 2.
Proof. by apply (proj1 (one_live_daemon spawn_end spawn_run)). Defined.

(** The wedge goes on after client 1 spawns daemon 3. *)
Lemma wedged_stays_witness : exists o, rtc (move_beside 2) race_end o /\ o_procs o !! 3 = Some (Daemon DWait) /\ forall r, ~ answers o r.
Proof.
  assert (rtc (move_beside 2) race_end (set_proc 3 (Daemon DWait) (set_proc 1 (Ensure (EReady 3)) race_end))) as Hrun.
  { apply rtc_once. split; [|reflexivity]. eapply L_move, (M_ensure _ 1); [reflexivity|by apply (E_spawn 1 _ 3)]. }
  eexists. split; [exact Hrun|split; [reflexivity|]].
  exact (proj1 (wedged_stays race_end _ 2 race_run (conj eq_refl eq_refl) Hrun)).
Defined.
