(* ===== verification/Lifecycle.v ===== *)
(** The decisions of one daemon process and of the down command, without the
    interleaving of Daemon.v: the pid in the lock file and who reads it (lock.go,
    spawn.go, internal/cli/down.go), the poll of AcquireWait, and the idle
    tracker (daemon.go). *)
From S2P Require Import Prelude GoTime Json JsonText.

(** ** The lock file *)

(** strconv.Atoi: like a number literal, with a plus sign allowed. *)
Definition Atoi (s : string) : option Z :=
  match s with
  | String "+" (String "-" _) => None
  | String "+" r => lit_int r
  | _ => lit_int s
  end.

(** WritePID on the file's content.  A failing WriteAt may have written a part. *)
Definition WritePID (truncate : option err) (write : option (nat * err)) (sync : option err) (pid : Z) (content : string) :
    result unit * string :=
  let text := dec pid +:+ String (chr 10) "" in
  match truncate, write, sync with
  | Some e, _, _ => (Err (wrapf "truncate lock" e), content)
  | None, Some (n, e), _ => (Err (wrapf "write pid" e), String.substring 0 n text)
  | None, None, Some e => (Err e, text)
  | None, None, None => (Ok tt, text)
  end.

Definition ReadPID (path : string) (file : result string) : result Z :=
  b <-! file ;;
  match Atoi (trim_space b) with
  | Some pid => Ok pid
  | None => Err (errorf ("parse pid in " +:+ path))
  end.

(** What Acquire answers: the lock, ErrLocked, or another error. *)
Inductive attempt := Acquired | Locked | AcquireFails (e : err).

(** RunningPID releases at once the lock it gets. *)
Definition RunningPID (path : string) (lock : attempt) (file : result string) : Z * bool :=
  match lock with
  | Acquired => (0, false)
  | AcquireFails _ => (0, false)
  | Locked => match ReadPID path file with Ok pid => (pid, true) | Err _ => (0, true) end
  end.

(** AcquireWait, by what each try answers and the clock read after it; [None]
    while it has not returned. *)
Fixpoint AcquireWait (deadline : Z) (tries : list (attempt * Z)) : option attempt :=
  match tries with
  | [] => None
  | (Locked, now) :: tries => if deadline <? now then Some Locked else AcquireWait deadline tries
  | (a, _) :: _ => Some a
  end.

(** ** Stopping *)

(** What kill(2) answers. *)
Inductive sent := Sent | ESRCH | EPERM | SignalFails.
Definition sent_err (s : sent) : err := errorf (match s with EPERM => "operation not permitted" | _ => "signal failed" end).

Definition Alive (pid : Z) (signal0 : sent) : bool :=
  if pid <=? 0 then false else match signal0 with Sent | EPERM => true | _ => false end.

(** The poll of Stop: what each round sees, until the deadline. *)
Fixpoint stop_poll (pid deadline : Z) (rounds : list (Z * sent * bool)) : option bool :=
  match rounds with
  | [] => None
  | (now, signal0, socketExists) :: rounds =>
      if now <? deadline then
        if negb (Alive pid signal0) && negb socketExists then Some true else stop_poll pid deadline rounds
      else Some false
  end.

(** Stop answers [killed] and an error. *)
Definition Stop (pid deadline : Z) (term : sent) (rounds : list (Z * sent * bool)) (kill : sent) (remove : option err) :
    option (bool * option err) :=
  match term with
  | ESRCH => Some (false, None)
  | EPERM | SignalFails => Some (false, Some (wrapf ("signal pid " +:+ dec pid) (sent_err term)))
  | Sent =>
      match stop_poll pid deadline rounds with
      | None => None
      | Some true => Some (false, None)
      | Some false =>
          match kill with
          | EPERM | SignalFails => Some (true, Some (wrapf ("kill pid " +:+ dec pid) (sent_err kill)))
          | Sent | ESRCH => Some (true, fmap (wrapf "remove socket") remove)
          end
      end
  end.

(** What Client.Health answers: the pid of the daemon, ErrNoDaemon, or another
    error. *)
Inductive health := Healthy (pid : Z) | NoDaemon | HealthFails (e : err).

Definition ExitOperational : Z := 3.

(** resolveDaemonPID: the pid, if a daemon runs. *)
Definition resolveDaemonPID (path : string) (h : health) (lock : attempt) (file : result string) : result (option Z) :=
  match h with
  | Healthy pid => Ok (Some pid)
  | HealthFails e => Err (wrapf "probe daemon" e)
  | NoDaemon =>
      let '(pid, held) := RunningPID path lock file in
      if negb held then Ok None
      else if pid <=? 0 then Err (errorf ("a daemon holds " +:+ path +:+ " but its pid is unreadable"))
      else Ok (Some pid)
  end.

(** down, by its exit code and the pid it signals. *)
Definition down (path : string) (h : health) (lock : attempt) (file : result string) (stop : Z -> option (bool * option err)) :
    option (Z * option Z) :=
  match resolveDaemonPID path h lock file with
  | Err _ => Some (ExitOperational, None)
  | Ok None => Some (0, None)
  | Ok (Some pid) =>
      match stop pid with
      | None => None
      | Some (_, Some _) => Some (ExitOperational, Some pid)
      | Some (true, None) => Some (ExitOperational, Some pid)
      | Some (false, None) => Some (0, Some pid)
      end
  end.

(** ** The idle tracker *)

Inductive idle_event :=
| ITouch (now : Z)               (** a request arrived *)
| ITick (now : Z) (busy : bool). (** the ticker fired; what the busy probe would say *)

Definition event_time (e : idle_event) : Z := match e with ITouch now => now | ITick now _ => now end.

(** The ticker's period. *)
Definition watch_interval (timeout : Z) : Z :=
  let interval := timeout ÷ 4 in if interval <? 100000000 then 100000000 else interval.

(** watch, from the last activity: the instant at which it closes the channel. *)
Fixpoint watch (timeout last : Z) (evs : list idle_event) : option Z :=
  match evs with
  | [] => None
  | ITouch now :: evs => watch timeout now evs
  | ITick now busy :: evs =>
      if now - last <? timeout then watch timeout last evs
      else if busy then watch timeout now evs
      else Some now
  end.

(** newIdleTracker starts no watch without a timeout. *)
Definition idle_expired (timeout start : Z) (evs : list idle_event) : option Z :=
  if 0 <? timeout then watch timeout start evs else None.

(** ** The lock file *)

(** The bytes of a decimal numeral. *)
Definition numeral_byte (c : ascii) : bool := is_digit c || Ascii.eqb c "-".

Lemma numeral_byte_plain a : numeral_byte a = true ->
  ascii_space a = false /\ (forall b, space2 a b = false /\ space2 b a = false) /\ (forall b c, space3 a b c = false /\ space3 c b a = false).
Proof.
  intros Ha. assert (Hn : 45 <= Z.of_N (N_of_ascii a) <= 57).
  { unfold numeral_byte, is_digit in Ha. apply orb_true_iff in Ha as [Ha|Ha]; [rewrite andb_true_iff, !N.leb_le in Ha; lia|].
    apply Ascii.eqb_eq in Ha as ->. by vm_compute. }
  assert (forall n, 0x80 <= n -> byte_is n a = false) as Hb by (intros n Hge; unfold byte_is; apply Z.eqb_neq; lia).
  split_and!.
  - unfold ascii_space. apply orb_false_iff. rewrite andb_false_iff, !Z.leb_gt, Z.eqb_neq. lia.
  - intros b. unfold space2. rewrite !Hb by lia. by rewrite andb_false_r.
  - intros b c. unfold space3. rewrite !Hb by lia. cbn zeta.
    assert ((0x80 <=? Z.of_N (N_of_ascii a)) = false) as -> by (apply Z.leb_gt; lia).
    assert ((Z.of_N (N_of_ascii a) =? 0xA8) = false) as -> by (apply Z.eqb_neq; lia).
    assert ((Z.of_N (N_of_ascii a) =? 0xA9) = false) as -> by (apply Z.eqb_neq; lia).
    assert ((Z.of_N (N_of_ascii a) =? 0xAF) = false) as -> by (apply Z.eqb_neq; lia).
    by rewrite !andb_false_r.
Qed.

Lemma trim_left_numeral a s : numeral_byte a = true -> trim_left (String a s) = String a s.
Proof.
  intros Ha. destruct (numeral_byte_plain a Ha) as (H1 & H2 & H3). cbn [trim_left]. rewrite H1. destruct s as [|b s]; [done|].
  destruct (H2 b) as [-> _]. destruct s as [|c s]; [done|]. by destruct (H3 b c) as [-> _].
Qed.

Lemma trim_left_rev_numeral s : all_bytes numeral_byte s = true -> trim_left_rev s = s.
Proof.
  destruct s as [|a s]; [done|]. intros [Ha _]%andb_true_iff. destruct (numeral_byte_plain a Ha) as (H1 & H2 & H3). cbn [trim_left_rev]. rewrite H1.
  destruct s as [|b s]; [done|]. destruct (H2 b) as [_ ->]. destruct s as [|c s]; [done|]. by destruct (H3 b c) as [_ ->].
Qed.

Lemma trim_numeral s : all_bytes numeral_byte s = true -> s <> "" -> trim_space (s +:+ String (chr 10) "") = s.
Proof.
  intros Hs Hne. unfold trim_space. destruct s as [|a s]; [done|]. rewrite str_app_cons.
  rewrite trim_left_numeral by (by apply andb_true_iff in Hs as [? _]). rewrite <- str_app_cons, rev_onto_app.
  change (rev_onto (String (chr 10) "") (rev_onto (String a s) "")) with (String (chr 10) (rev_onto (String a s) "")).
  change (trim_left_rev (String (chr 10) (rev_onto (String a s) ""))) with (trim_left_rev (rev_onto (String a s) "")).
  rewrite trim_left_rev_numeral by (by rewrite all_bytes_rev, Hs). by rewrite rev_onto_inv, str_app_nil_r.
Qed.

Lemma pad_numeral w n : all_bytes numeral_byte (pad 10 w n) = true.
Proof.
  revert n; induction w as [|w IH]; intros n; [done|]. rewrite pad_cons by lia. cbn [all_bytes].
  destruct (digit_10 (n / 10 ^ Z.of_nat w mod 10)) as [Hd _]; [apply Z.mod_pos_bound; lia|]. unfold numeral_byte at 1. by rewrite Hd, IH.
Qed.

Lemma dec_numeral n : all_bytes numeral_byte (dec n) = true /\ dec n <> "".
Proof.
  assert (forall k, 0 <= k -> pad 10 (dec_digits k) k <> "") as Hk.
  { intros k Hk. destruct (dec_digits_first k Hk) as [->|(w & -> & _)]; [done|]. by rewrite pad_cons by lia. }
  unfold dec. destruct (Z.ltb_spec n 0); [|split; [apply pad_numeral|by apply Hk]].
  rewrite str_app_cons, str_app_nil_l. split; [cbn [all_bytes]; by rewrite pad_numeral|done].
Qed.

Lemma Atoi_dec n : - 2 ^ 63 <= n < 2 ^ 63 -> Atoi (dec n) = Some n.
Proof.
  intros Hn. unfold Atoi. rewrite <- (lit_int_dec n Hn). pose proof (proj1 (dec_numeral n)) as Hd. destruct (dec n) as [|c s]; [done|].
  apply andb_true_iff in Hd as [Hc _]. by destruct c as [[] [] [] [] [] [] [] []].
Qed.

Lemma ReadPID_WritePID path pid old : - 2 ^ 63 <= pid < 2 ^ 63 ->
  ReadPID path (Ok (snd (WritePID None None None pid old))) = Ok pid.
Proof.
  intros Hp. unfold ReadPID. simpl. destruct (dec_numeral pid) as [Hd Hne]. by rewrite trim_numeral, Atoi_dec.
Qed.

Lemma resolve_signals path h lock file p :
  resolveDaemonPID path h lock file = Ok (Some p) ->
  h = Healthy p \/ h = NoDaemon /\ lock = Locked /\ ReadPID path file = Ok p /\ 0 < p.
Proof.
  unfold resolveDaemonPID, RunningPID. destruct h as [q| |e]; [intros [= ->]; by left| |done].
  destruct lock as [| |e]; [done| |done]. destruct (ReadPID path file) as [q|e]; simpl; [|done].
  destruct (Z.leb_spec q 0); [done|]. intros [= ->]. by right.
Qed.

(** down, in every case of the health probe, the lock, the pid file and
    the stop: a process it signals answered the probe, or holds the daemon lock
    and wrote its pid there, a positive number; it exits 0 exactly when no
    daemon answers or holds the lock, or when the one it signalled stopped with
    its socket gone before the deadline, and 3 otherwise; and a daemon that does
    not answer but holds the lock is found by the pid that it wrote. *)
Theorem down_outcome path h lock file stop :
  (forall code p, down path h lock file stop = Some (code, Some p) ->
     h = Healthy p \/ h = NoDaemon /\ lock = Locked /\ ReadPID path file = Ok p /\ 0 < p) /\
  (forall code signalled, down path h lock file stop = Some (code, signalled) ->
     (code = 0 \/ code = ExitOperational) /\
     (code = 0 <-> resolveDaemonPID path h lock file = Ok None \/ exists p, signalled = Some p /\ stop p = Some (false, None))) /\
  (forall pid old, 0 < pid < 2 ^ 63 ->
     resolveDaemonPID path NoDaemon Locked (Ok (snd (WritePID None None None pid old))) = Ok (Some pid)).
Proof.
  split; [|split].
  - intros code p Hd. apply resolve_signals. unfold down in Hd. destruct (resolveDaemonPID path h lock file) as [[q|]|e]; [|done..].
    destruct (stop q) as [[[] [?|]]|]; by simplify_eq.
  - intros code signalled Hd. unfold down in Hd. destruct (resolveDaemonPID path h lock file) as [[q|]|e].
    + destruct (stop q) as [[[] [?|]]|] eqn:Es; simplify_eq; (split; [auto|split; [|intros [?|(p & [= <-] & Hp)]; [done|congruence]]]); try done. eauto.
    + simplify_eq. split; [auto|split; auto].
    + simplify_eq. split; [auto|split; [done|by intros [?|(p & ? & ?)]]].
  - intros pid old Hp. unfold resolveDaemonPID, RunningPID. rewrite ReadPID_WritePID by lia. simpl. destruct (Z.leb_spec pid 0); [lia|done].
Qed.

(** AcquireWait answers by its first try that is not ErrLocked; it gives
    up only at a try whose clock is past the deadline, every earlier one being
    before; and when each round takes at least the 20 ms of its sleep it
    returns within the tries that fit before the deadline and one more. *)
Theorem AcquireWait_polls deadline tries :
  (forall a, AcquireWait deadline tries = Some a ->
     exists pre now post, tries = pre ++ (a, now) :: post /\ (forall x, In x pre -> fst x = Locked /\ snd x <= deadline) /\
       (a = Locked -> deadline < now)) /\
  (forall start, tries <> [] -> (forall n x, tries !! n = Some x -> start + 20000000 * Z.of_nat n <= snd x) ->
     deadline - start < 20000000 * (Z.of_nat (length tries) - 1) -> AcquireWait deadline tries <> None).
Proof.
  split.
  - induction tries as [|[b now] tries IH]; intros a; simpl; [done|].
    destruct b as [| |e]; [by intros [= <-]; exists [], now, tries| |by intros [= <-]; exists [], now, tries].
    destruct (Z.ltb_spec deadline now) as [Hlt|Hge].
    + intros [= <-]. exists [], now, tries. by split.
    + intros Ha. destruct (IH a Ha) as (pre & n & post & -> & Hpre & Hl). exists ((Locked, now) :: pre), n, post.
      split; [done|]. split; [|done]. intros x [<-|Hx]; [done|by apply Hpre].
  - induction tries as [|[b now] tries IH]; intros start Hne Hclock Hlen; simpl in *; [done|].
    destruct b as [| |e]; [done| |done]. destruct (Z.ltb_spec deadline now); [done|].
    pose proof (Hclock 0%nat (Locked, now) eq_refl) as H0. simpl in H0.
    apply (IH (start + 20000000)); [intros ->; simpl in *; lia| |lia]. intros n x Hx. pose proof (Hclock (S n) x Hx). lia.
Qed.

(** ** The idle tracker *)

Fixpoint ordered_from (t : Z) (evs : list idle_event) : Prop :=
  match evs with
  | [] => True
  | e :: evs => t <= event_time e /\ ordered_from (event_time e) evs
  end.

(** Events that hold a daemon up: requests, and ticks that find it busy. *)
Definition activity (e : idle_event) : bool := match e with ITouch _ => true | ITick _ busy => busy end.

Lemma ordered_after t evs e : ordered_from t evs -> In e evs -> t <= event_time e.
Proof.
  revert t; induction evs as [|x evs IH]; intros t; [done|]. intros [Hx Ho] [<-|He]; [done|]. specialize (IH _ Ho He). lia.
Qed.

Lemma watch_quiet timeout last evs t :
  0 < timeout -> ordered_from last evs -> watch timeout last evs = Some t ->
  exists pre post, evs = pre ++ ITick t false :: post /\ last + timeout <= t /\ (forall now, In (ITouch now) pre -> now + timeout <= t).
Proof.
  intros Ht. revert last; induction evs as [|e evs IH]; intros last; [done|]. intros [He Ho] Hw.
  assert (forall l, last <= l -> watch timeout l evs = Some t -> ordered_from l evs -> (forall now, e = ITouch now -> now <= l) ->
    exists pre post, e :: evs = pre ++ ITick t false :: post /\ last + timeout <= t /\ (forall now, In (ITouch now) pre -> now + timeout <= t)) as Hgo.
  { intros l Hl Hwl Hol Hn. destruct (IH l Hol Hwl) as (pre & post & -> & Hlt & Hpre). exists (e :: pre), post.
    split; [done|]. split; [lia|]. intros now [->|Hin]; [specialize (Hn now eq_refl); lia|by apply Hpre]. }
  destruct e as [now|now busy]; simpl in *.
  - apply (Hgo now); [done|done|done|]. by intros ? [= ->].
  - destruct (Z.ltb_spec (now - last) timeout).
    + apply (Hgo last); [lia|done| |done]. clear -He Ho. destruct evs as [|x evs]; [done|]. simpl in *. split; [lia|apply Ho].
    + destruct busy; [apply (Hgo now); [lia|done|done|done]|]. injection Hw as <-. exists [], evs. split; [done|]. split; [lia|done].
Qed.

Lemma watch_fires timeout last pre t post :
  ordered_from last (pre ++ ITick t false :: post) -> last + timeout <= t ->
  (forall e, In e pre -> activity e = true -> event_time e + timeout <= t) ->
  exists t', watch timeout last (pre ++ ITick t false :: post) = Some t' /\ t' <= t.
Proof.
  revert last; induction pre as [|e pre IH]; intros last Ho Hl Hpre; simpl in *.
  - destruct (Z.ltb_spec (t - last) timeout); [lia|]. by exists t.
  - destruct Ho as [He Ho]. assert (Hrest : forall x, In x pre -> activity x = true -> event_time x + timeout <= t) by auto.
    destruct e as [now|now busy]; simpl in *.
    + apply IH; [done|apply (Hpre (ITouch now)); auto|done].
    + assert (now <= t) by (apply (ordered_after _ _ (ITick t false)) in Ho; [done|apply in_or_app; right; by left]).
      destruct (Z.ltb_spec (now - last) timeout).
      * apply IH; [|done|done]. clear -He Ho. destruct pre as [|x pre]; simpl in *; (split; [lia|apply Ho]).
      * destruct busy; [|by exists now]. apply IH; [done|apply (Hpre (ITick now true)); auto|done].
Qed.

(** C38. The daemon stops for idleness exactly when it should: only at a tick
    that finds nothing running, no request having arrived for the timeout; and,
    with one, no later than the first such tick after a timeout without a
    request and without a tick that finds work.  Ticks are a quarter of the
    timeout apart, or 100 ms. *)
Theorem idle_exact timeout start evs :
  (timeout <= 0 -> idle_expired timeout start evs = None) /\
  (forall t, 0 < timeout -> ordered_from start evs -> idle_expired timeout start evs = Some t ->
     exists pre post, evs = pre ++ ITick t false :: post /\ start + timeout <= t /\ (forall now, In (ITouch now) pre -> now + timeout <= t)) /\
  (forall pre t post, 0 < timeout -> ordered_from start evs -> evs = pre ++ ITick t false :: post -> start + timeout <= t ->
     (forall e, In e pre -> activity e = true -> event_time e + timeout <= t) ->
     exists t', idle_expired timeout start evs = Some t' /\ t' <= t) /\
  100000000 <= watch_interval timeout /\ (400000000 <= timeout -> watch_interval timeout = timeout ÷ 4).
Proof.
  unfold idle_expired, watch_interval. split_and!.
  - intros H. by destruct (Z.ltb_spec 0 timeout); [lia|].
  - intros t H Ho. destruct (Z.ltb_spec 0 timeout); [|lia]. by apply watch_quiet.
  - intros pre t post H Ho -> Hs Hpre. destruct (Z.ltb_spec 0 timeout); [|lia]. by apply watch_fires.
  - cbn zeta. destruct (Z.ltb_spec (timeout ÷ 4) 100000000); lia.
  - intros H. cbn zeta. rewrite Z.quot_div_nonneg by lia. destruct (Z.ltb_spec (timeout / 4) 100000000); [|done].
    assert (100000000 <= timeout / 4) by (apply Z.div_le_lower_bound; lia). lia.
Qed.

(** Work that ends before the timeout since the last request does not restart
    the countdown, contrary to the comment in watch: with a timeout of 10 min
    and work that ends a second earlier, the daemon stops a second later. *)
Example idle_countdown_not_restarted :
  idle_expired 600000000000 0 [ITick 150000000000 true; ITick 300000000000 true; ITick 450000000000 true; ITick 600000000000 false] = Some 600000000000.
Proof. reflexivity. Qed.

Lemma down_outcome_witness : resolveDaemonPID "lock" NoDaemon Locked (Ok ("1709" +:+ String (chr 10) "")) = Ok (Some 1709).
Proof. exact (proj2 (proj2 (down_outcome "lock" NoDaemon Locked (Ok "") (fun _ => None))) 1709 "" ltac:(lia)). Defined.

Lemma AcquireWait_polls_witness : AcquireWait 30000000 [(Locked, 0); (Locked, 20000000); (Locked, 40000000); (Locked, 60000000)] <> None.
Proof.
  apply (proj2 (AcquireWait_polls 30000000 _) 0); [done| |simpl; lia].
  intros n x Hx. repeat (destruct n as [|n]; [injection Hx as <-; simpl; lia|]). done.
Defined.

Lemma idle_exact_witness : exists t', idle_expired 1000000000 0 [ITouch 5; ITick 250000000 false; ITick 1000000005 false] = Some t' /\ t' <= 1000000005.
Proof.
  refine (proj1 (proj2 (proj2 (idle_exact 1000000000 0 _))) [ITouch 5; ITick 250000000 false] 1000000005 [] _ _ eq_refl _ _); [lia|by repeat split|lia|].
  intros e He Ha. destruct He as [<-|[<-|[]]]; simpl in *; [lia|done].
Defined.
