(* ===== verification/Restart.v ===== *)
(** Many lives of the daemon: what the messages an action emitted say about its
    deliveries, across retries, replays, crashes and restarts.

    A crash loses everything but the database.  The next life starts with
    ReapOrphans and the seeding of the busy counter, then runs like System. *)
From S2P Require Import Prelude GoTime Float64 Json Action Cel Ids Db Registry Deliveries Executor Scheduler System.

(** The delivery a message was emitted by: the (message, action) pair of a
    delivery, which is unique. *)
Definition origin (m : mrow) : option (string * string) :=
  match msg_origin_message m, msg_origin_action m with
  | Some i, Some a => Some (i, a)
  | _, _ => None
  end.
Definition pair_of (r : drow) : option (string * string) := i ← d_message_id r; Some (i, d_action_name r).
Definition emitted_by (r : drow) (m : mrow) : bool := bool_decide (origin m <> None /\ origin m = pair_of r).

(** The messages a delivery emitted. *)
Definition outputs_of (r : drow) (d : db) : list mrow := rows (emitted_by r) (t_messages d).

(** The columns of a delivery that never change. *)
Definition key_of (r : drow) : string * option string * string := (d_id r, d_message_id r, d_action_name r).
Definition keys (d : db) : list (string * option string * string) := map key_of (t_deliveries d).

(** The UNIQUE constraint of the table: one delivery per message and action. *)
Definition unique_pairs (d : db) : Prop :=
  forall r1 r2, In r1 (t_deliveries d) -> In r2 (t_deliveries d) -> pair_of r1 <> None -> pair_of r1 = pair_of r2 -> d_id r1 = d_id r2.

(** Nothing was emitted but by deliveries that are done. *)
Record emitted_once (d : db) : Prop := {
  eo_ids : NoDup (map d_id (t_deliveries d));
  eo_pairs : unique_pairs d;
  eo_done : forall m, In m (t_messages d) -> origin m <> None ->
    exists r, In r (t_deliveries d) /\ pair_of r = origin m /\ d_state r = StateDone
}.

(** ** What a transaction emits *)

(** The messages of [d'] are those of [d] and new ones, which come from clients
    or are all the outputs of a delivery claimed in [d] and done in [d']. *)
Definition emits (d d' : db) : Prop :=
  (unique_pairs d -> unique_pairs d') /\
  exists news, t_messages d' = t_messages d ++ news /\
    ((forall m, In m news -> origin m = None) \/
     exists id r r', find_row id (t_deliveries d) = Some r /\ claimed r = true /\
       find_row id (t_deliveries d') = Some r' /\ d_state r' = StateDone /\ forall m, In m news -> origin m = pair_of r).

Lemma keys_unique d d' : keys d' = keys d -> unique_pairs d -> unique_pairs d'.
Proof.
  intros Hk Hu r1 r2 H1 H2 Hp He.
  assert (forall r, In r (t_deliveries d') -> exists r0, In r0 (t_deliveries d) /\ key_of r0 = key_of r) as Hback.
  { intros r Hr. apply (in_map key_of) in Hr. fold (keys d') in Hr. rewrite Hk in Hr. unfold keys in Hr. apply in_map_iff in Hr as (r0 & ? & ?). eauto. }
  destruct (Hback r1 H1) as (s1 & Hs1 & K1), (Hback r2 H2) as (s2 & Hs2 & K2). unfold key_of in K1, K2. injection K1 as I1 M1 A1. injection K2 as I2 M2 A2.
  rewrite <- I1, <- I2. apply Hu; [done|done| |]; unfold pair_of in *; rewrite ?M1, ?M2, ?A1, ?A2; done.
Qed.

Lemma emits_kept d d' : keys d' = keys d -> t_messages d' = t_messages d -> emits d d'.
Proof. intros Hk Hm. split; [by apply keys_unique|]. exists []. rewrite app_nil_r. split; [done|]. by left. Qed.

Lemma emits_refl d : emits d d.
Proof. by apply emits_kept. Qed.

(** An UPDATE keeps the key columns. *)
Definition keeps_key (f : drow -> drow) : Prop := forall r, key_of (f r) = key_of r.

Lemma keys_update p f t : keeps_key f -> map key_of (update p f t) = map key_of t.
Proof. intros Hf. unfold update. rewrite map_map. apply map_ext. intros r. destruct (p r); [apply Hf|done]. Qed.

Lemma emits_update p f d : keeps_key f -> emits d (set_deliveries (update p f (t_deliveries d)) d).
Proof. intros Hf. apply emits_kept; [unfold keys; simpl; by apply keys_update|done]. Qed.

(** ** Emission through a step of the life cycle *)

Lemma link_pair r r' : link r r' -> pair_of r' = pair_of r.
Proof. intros (Hm & Ha & _). unfold pair_of. by rewrite Hm, Ha. Qed.

Lemma done_final r r' : link r r' -> d_state r = StateDone -> d_state r' = StateDone.
Proof.
  intros (_ & _ & He) Hd. unfold edge in He. rewrite Hd in He. apply andb_true_iff in He as [He _]. by apply bool_decide_eq_true in He.
Qed.

Lemma In_find d r : NoDup (map d_id (t_deliveries d)) -> In r (t_deliveries d) -> find_row (d_id r) (t_deliveries d) = Some r.
Proof. intros Hnd Hr. by apply find_row_in. Qed.

Lemma same_row d r1 r2 : emitted_once d -> In r1 (t_deliveries d) -> In r2 (t_deliveries d) -> pair_of r1 <> None -> pair_of r1 = pair_of r2 -> r1 = r2.
Proof.
  intros [Hnd Hu _] H1 H2 Hp He. pose proof (Hu r1 r2 H1 H2 Hp He) as Hid.
  pose proof (In_find d r1 Hnd H1) as F1. pose proof (In_find d r2 Hnd H2) as F2. rewrite Hid in F1. congruence.
Qed.

Lemma outputs_app r d d' news : t_messages d' = t_messages d ++ news -> outputs_of r d' = outputs_of r d ++ rows (emitted_by r) news.
Proof. intros Hm. unfold outputs_of, rows. by rewrite Hm, List.filter_app. Qed.

Lemma In_delete {A} k (l : list A) x : In x (delete k l) -> In x l.
Proof. revert k; induction l as [|y l IH]; intros [|k]; simpl; [done|done|by right|intros [->|Hx]; [by left|right; by apply (IH k)]]. Qed.

Lemma rows_none {A} (p : A -> bool) l : (forall x, In x l -> p x = false) -> rows p l = [].
Proof. intros Hp. unfold rows. induction l as [|x l IH]; [done|]. simpl. rewrite Hp by (by left). apply IH. intros y Hy. apply Hp. by right. Qed.

Lemma emission d d' : emitted_once d -> emits d d' -> evolves d d' -> NoDup (map d_id (t_deliveries d')) ->
  emitted_once d' /\ forall r, In r (t_deliveries d) -> d_state r = StateDone -> outputs_of r d' = outputs_of r d.
Proof.
  intros Ho (Hu & news & Hm & Hnews) He Hnd. pose proof Ho as [Hid Hp Hdone]. split.
  - split; [done|auto|]. intros m Hin Hne. rewrite Hm in Hin. apply in_app_or in Hin as [Hin|Hin].
    + destruct (Hdone m Hin Hne) as (r & Hr & Hpr & Hst). destruct (He (d_id r) r (In_find d r Hid Hr)) as (r' & Hr' & Hl).
      exists r'. destruct (find_row_Some _ _ _ Hr') as [? _]. split; [done|]. split; [by rewrite (link_pair _ _ Hl)|by apply (done_final r)].
    + destruct Hnews as [Hnone|(id & r & r' & Hr & _ & Hr' & Hst & Hor)]; [by rewrite Hnone in Hne|].
      destruct (He id r Hr) as (r2 & Hr2 & Hl). rewrite Hr' in Hr2. injection Hr2 as <-. exists r'.
      destruct (find_row_Some _ _ _ Hr') as [? _]. split; [done|]. split; [rewrite (link_pair _ _ Hl); by symmetry; apply Hor|done].
  - intros r Hr Hst. rewrite (outputs_app r d d' news Hm), rows_none; [by rewrite app_nil_r|]. intros m Hin. unfold emitted_by.
    apply bool_decide_eq_false. intros [Hne Heq]. destruct Hnews as [Hnone|(id & q & q' & Hq & Hc & _ & _ & Hor)]; [by rewrite Hnone in Hne|].
    destruct (find_row_Some _ _ _ Hq) as [Hq1 _]. rewrite (Hor m Hin) in Heq, Hne.
    assert (q = r) as -> by (by apply (same_row d)). pose proof (claimed_state r Hc). congruence.
Qed.

Section Restart.
Context {G : Type} `{IdSource G} `{CelLib}.

(** ** Inserts *)

Lemma insert_unique id mid name d (g : G) d' g' :
  insertDelivery id mid name d g = (Ok (tt, d'), g') -> unique_pairs d -> unique_pairs d'.
Proof.
  unfold insertDelivery. destruct (existsb (with_id id) _); [done|]. cbn [orb].
  destruct (existsb _ (t_deliveries d)) eqn:E; [done|]. cbn [orb]. destruct (negb _); [done|]. intros [= <- _] Hu r1 r2 H1 H2 Hp He. simpl in *.
  assert (forall r, In r (t_deliveries d) -> pair_of r <> Some (mid, name)) as Hno.
  { intros r Hr Hq. assert (existsb (fun r => bool_decide (d_message_id r = Some mid) && String.eqb (d_action_name r) name) (t_deliveries d) = true); [|congruence].
    apply existsb_exists. exists r. split; [done|]. unfold pair_of in Hq. destruct (d_message_id r) as [i|]; [|done]. simpl in Hq. injection Hq as -> ->.
    by rewrite bool_decide_eq_true_2, String.eqb_refl. }
  apply in_app_or in H1. apply in_app_or in H2. destruct H1 as [H1|[<-|[]]], H2 as [H2|[<-|[]]]; [by apply Hu| | |done].
  - destruct (Hno r1 H1). by rewrite He.
  - destruct (Hno r2 H2). by rewrite <- He.
Qed.

Lemma inserts_unique mid names d (g : G) d' g' :
  insert_deliveries mid names d g = (Ok (tt, d'), g') -> unique_pairs d -> unique_pairs d'.
Proof.
  revert d g; induction names as [|name names IH]; intros d g; cbn [insert_deliveries]; [by intros [= <- <-]|].
  intros Hr Hu. apply tx_bind_ok in Hr as (id & d1 & g1 & Hid & Hr). unfold tx_new_id in Hid. destruct (new_id g) as [i g2]. injection Hid as <- <- <-.
  apply tx_bind_ok in Hr as ([] & d2 & g3 & Hi & Hr). apply (IH d2 g3 Hr). by apply (insert_unique _ _ _ _ _ _ _ Hi).
Qed.

Lemma append_tx_unique m d (g : G) n d' g' : append_tx m d g = (Ok (n, d'), g') -> unique_pairs d -> unique_pairs d'.
Proof.
  unfold append_tx. intros Hr Hu. apply tx_bind_ok in Hr as ([] & d1 & g1 & Hi & Hr).
  assert (t_deliveries d1 = t_deliveries d) as Hd1.
  { destruct (insertMessage_cases m d g) as [(_ & Hi')|(_ & e & Hi')]; rewrite Hi' in Hi; [|done]. by injection Hi as <- _. }
  unfold materializeDeliveries in Hr. apply tx_bind_ok in Hr as (names & d2 & g2 & Hq & Hr).
  unfold tx_query, tx_of in Hq. destruct (subscriber_names _ _) as [ns|]; [|done]. injection Hq as -> -> ->.
  apply tx_bind_ok in Hr as ([] & d3 & g3 & Hins & Hr). unfold tx_ret in Hr. injection Hr as _ <- _.
  apply (inserts_unique _ _ _ _ _ _ Hins). unfold unique_pairs. by rewrite Hd1.
Qed.

Lemma append_outputs_unique outs d (g : G) n d' g' : append_outputs outs d g = (Ok (n, d'), g') -> unique_pairs d -> unique_pairs d'.
Proof.
  revert d g n; induction outs as [|m outs IH]; intros d g n; cbn [append_outputs]; [by intros [= <- <- <-]|].
  intros Hr. apply tx_bind_ok in Hr as ([] & d1 & g1 & Hi & Hr). apply tx_bind_ok in Hr as (k & d2 & g2 & Hm & Hr).
  apply tx_bind_ok in Hr as (j & d3 & g3 & Ho & Hr). unfold tx_ret in Hr. injection Hr as _ <- <-. intros Hu.
  eapply IH; [exact Ho|]. apply (append_tx_unique m d g k d2 g2); [|done]. unfold append_tx, tx_bind. by rewrite Hi.
Qed.

(** A message of a client. *)
Lemma append_emits m (w w' : world G) n :
  origin (row_of_message m) = None -> AppendMessage m w = (Ok n, w') -> emits (w_db w) (w_db w').
Proof.
  intros Ho Ha. apply write_ok in Ha. split; [by apply (append_tx_unique m _ (w_gen w) n _ (w_gen w'))|].
  apply append_ok in Ha as (ids & names & _ & _ & _ & _ & ->). exists [row_of_message m]. split; [done|]. left. intros x [<-|[]]. exact Ho.
Qed.

(** ** The completion of a delivery *)

Lemma complete_emits id tail outs now (w w' : world G) n r :
  NoDup (map d_id (t_deliveries (w_db w))) -> find_row id (t_deliveries (w_db w)) = Some r ->
  (forall m, In m outs -> origin (row_of_message m) = pair_of r) ->
  CompleteDelivery id tail outs now w = (Ok n, w') -> emits (w_db w) (w_db w').
Proof.
  intros Hnd Hr Hor He. pose proof (complete_cases id tail outs now w Hnd) as Hc. rewrite He in Hc.
  destruct Hc as (d1 & [Hm1 _] & Hd1 & (r0 & Hr0 & Hcl & Hr1 & _) & Hall). rewrite Hr in Hr0. injection Hr0 as <-.
  destruct (appended_all_prefix _ _ _ _ Hall) as (_ & Hmsgs & news & Hnews & _). split.
  - intros Hu. unfold CompleteDelivery in He. apply write_ok in He. unfold complete_tx in He. fold claimed in He.
    apply tx_bind_ok in He as ([] & d2 & g2 & Ht & Hout). eapply append_outputs_unique; [exact Hout|].
    destruct (transition_cases "complete" id claimed (fun r => with_id id r && claimed r) (done_row tail (fmt_time now))
      (fun r => eq_refl) ltac:(done) (w_db w) (w_gen w) Hnd) as [[Ht' _]|(e & Ht' & _)]; rewrite Ht' in Ht; [|done].
    injection Ht as <- _. revert Hu. apply keys_unique. unfold keys. simpl. by apply keys_update.
  - exists (map row_of_message outs). split; [by rewrite Hmsgs, Hm1|]. right.
    exists id, r, (done_row tail (fmt_time now) r). split_and!; [done|done|rewrite Hnews; by apply find_row_app|done|].
    intros m Hm. apply in_map_iff in Hm as (x & <- & Hx). by apply Hor.
Qed.

Lemma build_outputs_origin wk ai headers lines now (g : G) m :
  In m (fst (build_outputs wk ai headers lines now g)) -> origin (row_of_message m) = Some (msg_id (wk_message wk), ai_name ai).
Proof.
  revert g; induction lines as [|l lines IH]; intros g; cbn [build_outputs]; [done|]. destruct (new_id g) as [id g1].
  specialize (IH g1). destruct (build_outputs wk ai headers lines now g1) as [rest g2]. simpl. intros [<-|Hm]; [done|by apply IH].
Qed.

Lemma job_outputs_origin j r now (w w' : world G) outs m :
  job_outputs j r now w = (Ok outs, w') -> In m outs -> origin (row_of_message m) = Some (msg_id (wk_message (j_work j)), ai_name (j_action j)).
Proof.
  unfold job_outputs. destruct (j_failed j); [done|]. destruct (e_err r); [done|]. destruct (parseNDJSON _) as [lines|]; [|done].
  destruct (String.eqb _ _); [by intros [= <- _]|]. unfold buildOutputs.
  pose proof (build_outputs_origin (j_work j) (j_action j) (output_headers (wk_message (j_work j))) lines now (w_gen w) m) as Hb.
  destruct (build_outputs _ _ _ _ _ _) as [out g]. intros [= <- _]. exact Hb.
Qed.

(** ** Steps of one life *)

(** What the loop holds in memory about a delivery is what its row says. *)
Definition fits (d : db) (id : string) (ai : actionInfo) (m : message) : Prop :=
  exists r, find_row id (t_deliveries d) = Some r /\ pair_of r = Some (msg_id m, ai_name ai).

Record jobs_fit (y : sys G) : Prop := {
  jf_running : forall j, In j (s_running (y_sched y)) -> fits (y_db y) (job_id j) (j_action j) (wk_message (j_work j));
  jf_found : forall ai wk, y_found y = Some (ai, wk) -> fits (y_db y) (d_id (wk_delivery wk)) ai (wk_message wk)
}.

Lemma fits_evolves d d' id ai m : evolves d d' -> fits d id ai m -> fits d' id ai m.
Proof. intros He (r & Hr & Hp). destruct (He id r Hr) as (r' & Hr' & Hl). exists r'. split; [done|]. by rewrite (link_pair _ _ Hl). Qed.

Lemma NextEligible_fits ai now (w w' : world G) wk :
  NoDup (map d_id (t_deliveries (w_db w))) -> NextEligible (ai_name ai) now w = (Ok wk, w') -> fits (w_db w') (d_id (wk_delivery wk)) ai (wk_message wk).
Proof.
  intros Hnd He. destruct (NextEligible_row _ _ _ _ _ Hnd He) as (-> & r & Hr & _ & Hname & _). exists r. split; [done|].
  unfold NextEligible in He. destruct (read_db _ _ _ _ _ He) as [_ _]. apply read_ok in He. destruct (head _) as [x|] eqn:Eh; [|done].
  destruct (order_by_head _ _ _ Eh) as [Hin _]. apply List.filter_In in Hin as [Hin _].
  unfold message_for in He. destruct (d_message_id x) as [i|] eqn:Ei; [|done].
  destruct (head (rows (fun m => String.eqb (msg_id m) i) (t_messages (w_db w)))) as [m|] eqn:Em; [|done].
  destruct (scanMessage m) as [msg|] eqn:Es; [|done]. simpl in He. destruct (nullTime (d_not_before x)) as [nb|]; [|done]. simpl in He. injection He as <-. simpl in *.
  assert (r = x) as -> by (pose proof (In_find _ x Hnd Hin) as Hx; congruence).
  unfold pair_of. rewrite Ei. simpl. rewrite Hname. do 2 f_equal.
  assert (msg_id m = i) as <-.
  { destruct (rows (fun m => String.eqb (msg_id m) i) (t_messages (w_db w))) as [|z l] eqn:El; [done|]. injection Em as ->.
    assert (In m (rows (fun m => String.eqb (msg_id m) i) (t_messages (w_db w)))) as Hz by (rewrite El; by left).
    apply List.filter_In in Hz as [_ Hz]. by apply String.eqb_eq. }
  unfold scanMessage in Es. destruct (parse_time (msg_created_at m)); [|done]. by injection Es as <-.
Qed.

(** Jobs end, or the found delivery becomes one. *)
Lemma jobs_fit_next y y' :
  jobs_fit y -> evolves (y_db y) (y_db y') ->
  (forall j, In j (s_running (y_sched y')) -> In j (s_running (y_sched y)) \/
     exists ai wk, y_found y = Some (ai, wk) /\ job_id j = d_id (wk_delivery wk) /\ j_action j = ai /\ wk_message (j_work j) = wk_message wk) ->
  (forall ai wk, y_found y' = Some (ai, wk) -> y_found y = Some (ai, wk) \/ fits (y_db y') (d_id (wk_delivery wk)) ai (wk_message wk)) ->
  jobs_fit y'.
Proof.
  intros [Hr Hf] He Hjobs Hfound. split.
  - intros j Hj. apply (fits_evolves _ _ _ _ _ He). destruct (Hjobs j Hj) as [Hold|(ai & wk & Hw & -> & -> & ->)]; [by apply Hr|by apply Hf].
  - intros ai wk Hw. destruct (Hfound ai wk Hw) as [Hold|Hnew]; [|done]. apply (fits_evolves _ _ _ _ _ He). by apply Hf.
Qed.

Lemma loop_jobs_fit c y y' : sys_ok y -> jobs_fit y -> loop_step c y y' -> jobs_fit y'.
Proof.
  intros Hok Hj Hs. pose proof (loop_step_evolves c _ _ Hok Hs) as He. apply (jobs_fit_next y y' Hj He); clear Hj He.
  - destruct Hs as [s o ai now wk w Hn|s o w Hd _|s f o cache|s o ai wk st msg now Ht|s o ai wk now w Hc _|s o ai wk now e w Hc|s o k r now rnd|s o name now]; try (by left).
    + intros j Hj. left. unfold resolve, call in Hj. simpl in Hj. by destruct (ResolveDelivery _ _ _ _ _) as [[u|e] w].
    + intros j Hj. unfold launch in Hj. simpl in Hj. apply in_app_or in Hj as [Hj|[<-|[]]]; [by left|right]. by exists ai, wk.
    + intros j Hj. left. destruct (apply_running c k r now rnd s) as [Hr|Hr]; simpl in Hj |- *; rewrite Hr in Hj; [|done].
      by apply In_delete in Hj.
    + intros j Hj. left. unfold handleCtrl, call in Hj. simpl in Hj. by destruct (CancelDeliveries _ _ _ _) as [[u|e] w].
  - destruct Hs as [s o ai now wk w Hn|s o w Hd _|s f o cache|s o ai wk st msg now Ht|s o ai wk now w Hc _|s o ai wk now e w Hc|s o k r now rnd|s o name now]; try done.
    + intros ai' wk' [= <- <-]. right. apply (NextEligible_fits _ _ _ _ _ (ok_ids _ Hok) Hn).
    + by left.
Qed.

Lemma other_jobs_fit y y' : sys_ok y -> jobs_fit y -> other_step y y' -> jobs_fit y'.
Proof.
  intros Hok Hj Hs. pose proof (other_step_evolves _ _ Hok Hs) as He. apply (jobs_fit_next y y' Hj He).
  - intros j Hin. left. destruct Hs as [| | | | | | |s f o id pgid]; try done. unfold onStart, call in Hin. simpl in Hin. by destruct (SetDeliveryPgid _ _ _).
  - intros ai wk Hf. left. by destruct Hs.
Qed.

Lemma transition_db op id p f d (g : G) u d' g' :
  transition op id p f d g = (Ok (u, d'), g') -> d' = set_deliveries (update p f (t_deliveries d)) d.
Proof.
  unfold transition. intros Ht. apply tx_bind_ok in Ht as (n & d1 & g1 & Hu & Hm). injection Hu as _ <- <-. destruct n; [done|]. by injection Hm as _ <- _.
Qed.

(** The loop emits the outputs of the delivery it completes. *)
Lemma loop_emits c y y' : sys_ok y -> jobs_fit y -> loop_step c y y' -> emits (y_db y) (y_db y').
Proof.
  intros Hok Hj Hs. destruct Hs as [s o ai now wk w Hn|s o w Hd _|s f o cache|s o ai wk st msg now Ht|s o ai wk now w Hc _|s o ai wk now e w Hc|s o k r now rnd|s o name now];
    unfold y_db in *; simpl in *.
  - destruct (NextEligible_row _ _ _ _ _ (ok_ids _ Hok) Hn) as [-> _]. apply emits_refl.
  - rewrite Hd. apply emits_refl.
  - apply emits_refl.
  - unfold resolve, call. destruct (ResolveDelivery _ st msg now (s_world s)) as [[u|e] w] eqn:E; simpl.
    + unfold ResolveDelivery in E. apply write_ok, transition_db in E. rewrite E. by apply emits_update.
    + unfold ResolveDelivery in E. apply write_error in E. rewrite E. apply emits_refl.
  - unfold ClaimDelivery in Hc. apply write_ok, transition_db in Hc. rewrite Hc. by apply emits_update.
  - unfold ClaimDelivery in Hc. apply write_error in Hc. rewrite Hc. apply emits_refl.
  - unfold apply. destruct (s_running s !! k) as [j|] eqn:Hk; [|apply emits_refl]. set (s0 := add_inflight _ _ _).
    pose proof (job_outputs_db j (job_result j r) now (s_world s0)) as Hdb. change (w_db (s_world s0)) with (w_db (s_world s)) in Hdb.
    pose proof (job_outputs_origin j (job_result j r) now (s_world s0)) as Hor.
    destruct (job_outputs j (job_result j r) now (s_world s0)) as [[outs|e] w]; simpl in Hdb; unfold call; cbn [s_world with_world].
    + destruct (CompleteDelivery _ _ outs now w) as [[n|e] w'] eqn:Ec.
      * pose proof (jf_running _ Hj j ltac:(apply list_elem_of_In; by eapply list_elem_of_lookup_2)) as (x & Hx & Hp). unfold y_db in Hx; simpl in Hx.
        simpl. rewrite <- Hdb. rewrite <- Hdb in Hx. eapply complete_emits; [|exact Hx| |exact Ec].
        -- rewrite Hdb. apply (ok_ids _ Hok).
        -- intros m Hm. rewrite Hp. by apply (Hor w outs m).
      * unfold CompleteDelivery in Ec. apply write_error in Ec. simpl. rewrite Ec, Hdb. apply emits_refl.
    + destruct (FailDelivery _ _ _ _ _ now w) as [[n|e'] w'] eqn:Ec.
      * unfold FailDelivery in Ec. apply write_ok, transition_db in Ec. destruct (_ <=? _); simpl; rewrite Ec, Hdb; by apply emits_update.
      * unfold FailDelivery in Ec. apply write_error in Ec. simpl. rewrite Ec, Hdb. apply emits_refl.
  - unfold handleCtrl, call. destruct (CancelDeliveries name "action disabled" now (s_world s)) as [[n|e] w] eqn:Ec; simpl.
    + unfold CancelDeliveries in Ec. apply write_ok in Ec. unfold update_deliveries, tx_bind, tx_ret in Ec. injection Ec as _ <- _. by apply emits_update.
    + unfold CancelDeliveries in Ec. apply write_error in Ec. rewrite Ec. apply emits_refl.
Qed.

(** Handlers append what clients send, which has no origin (messageSend). *)
Definition client_only (d d' : db) : Prop := forall m, In m (t_messages d') -> In m (t_messages d) \/ origin m = None.

Lemma other_emits y y' : sys_ok y -> client_only (y_db y) (y_db y') -> other_step y y' -> emits (y_db y) (y_db y').
Proof.
  intros Hok Hcl Hs. destruct Hs as [s f o m n w Ha|s f o id d w Hr|s f o n|s f o name def now r w Ha|s f o name on r w Ha|s f o w Hd|A s f o m e w Ha|s f o id pgid];
    unfold y_db in *; simpl in *.
  - apply (append_emits m _ _ n); [|done]. apply write_ok in Ha. apply append_ok in Ha as (ids & names & _ & [Hfresh _] & _ & _ & Hdb).
    destruct (Hcl (row_of_message m)) as [Hin|Hno]; [rewrite Hdb; simpl; apply in_or_app; right; by left| |done].
    destruct Hfresh. change (msg_id m) with (msg_id (row_of_message m)). by apply list_elem_of_In, in_map.
  - unfold ReplayDelivery in Hr. apply write_ok in Hr. apply tx_bind_ok in Hr as (n & d1 & g1 & Hu & Hr). injection Hu as <- Hd1 _.
    assert (w_db w = d1) as ->; [|subst d1; by apply emits_update].
    destruct (affected _ _); unfold tx_query, tx_of in Hr; [by destruct (head _)|]. destruct (getDelivery _ _); [|done]. by injection Hr as _ <- _.
  - apply emits_refl.
  - destruct (apply_action_keeps name def now _ _ r Ha) as [Hd Hm]. apply emits_kept; [unfold keys; by rewrite Hd|done].
  - destruct (set_enabled_keeps name on _ _ r Ha) as [Hd Hm]. apply emits_kept; [unfold keys; by rewrite Hd|done].
  - rewrite Hd. apply emits_refl.
  - apply write_error in Ha. rewrite Ha. apply emits_refl.
  - unfold onStart, call. destruct (SetDeliveryPgid id pgid (s_world s)) as [[u|e] w] eqn:E; simpl.
    + unfold SetDeliveryPgid in E. apply write_ok in E. apply tx_bind_ok in E as (n & d1 & g1 & Hu & E). injection Hu as _ <- _.
      unfold tx_ret in E. injection E as _ <- _. by apply emits_update.
    + unfold SetDeliveryPgid in E. apply write_error in E. rewrite E. apply emits_refl.
Qed.

Lemma step_emits c y y' : sys_ok y -> jobs_fit y -> step c y y' -> client_only (y_db y) (y_db y') \/ loop_step c y y' ->
  sys_ok y' /\ jobs_fit y' /\ emits (y_db y) (y_db y') /\ evolves (y_db y) (y_db y').
Proof.
  intros Hok Hj [Hl|Ho] Hcl.
  - split_and!; [by apply (loop_step_ok c y)|by apply (loop_jobs_fit c y)|by apply (loop_emits c)|by apply (loop_step_evolves c)].
  - destruct Hcl as [Hcl|Hl].
    + split_and!; [by apply (other_step_ok y)|by apply (other_jobs_fit y)|by apply other_emits|by apply other_step_evolves].
    + split_and!; [by apply (loop_step_ok c y)|by apply (loop_jobs_fit c y)|by apply (loop_emits c)|by apply (loop_step_evolves c)].
Qed.

(** One life: steps in which only the loop appends outputs. *)
Inductive life (c : Config) : sys G -> sys G -> Prop :=
| life_refl y : life c y y
| life_loop y1 y2 y3 : loop_step c y1 y2 -> life c y2 y3 -> life c y1 y3
| life_other y1 y2 y3 : other_step y1 y2 -> client_only (y_db y1) (y_db y2) -> life c y2 y3 -> life c y1 y3.

(** The database, from the start of one process to its end, however it ends: in
    ReapOrphans, in the seeding, or at any moment of its run. *)
Inductive lifetime (c : Config) : db -> db -> Prop :=
| T_reap_fails (w : world G) now kills e w1 :
    ReapOrphans now w = (kills, Err e, w1) -> lifetime c (w_db w) (w_db w1)
| T_seed_fails (w : world G) now kills w1 e :
    ReapOrphans now w = (kills, Ok tt, w1) -> seed w1 = Err e -> lifetime c (w_db w) (w_db w1)
| T_run (w : world G) now kills w1 s y :
    ReapOrphans now w = (kills, Ok tt, w1) -> seed w1 = Ok s -> life c (mkSys s None 0) y -> lifetime c (w_db w) (y_db y).

(** What holds from one database to a later one. *)
Definition later (d d' : db) : Prop :=
  emitted_once d' /\
  (forall id r, find_row id (t_deliveries d) = Some r -> exists r', find_row id (t_deliveries d') = Some r' /\ rtc link r r') /\
  (forall r, In r (t_deliveries d) -> d_state r = StateDone -> outputs_of r d' = outputs_of r d).

Lemma later_refl d : emitted_once d -> later d d.
Proof. intros Ho. split; [done|]. split; [|done]. intros id r Hr. by exists r. Qed.

Lemma links_done r r' : rtc link r r' -> d_state r = StateDone -> d_state r' = StateDone /\ pair_of r' = pair_of r.
Proof.
  induction 1 as [|r1 r2 r3 Hl _ IH]; [done|]. intros Hd. destruct (IH (done_final _ _ Hl Hd)) as [H1 H2]. split; [done|]. by rewrite H2, (link_pair _ _ Hl).
Qed.

Lemma later_trans d1 d2 d3 : NoDup (map d_id (t_deliveries d1)) -> later d1 d2 -> later d2 d3 -> later d1 d3.
Proof.
  intros Hnd (_ & H2 & H3) (H4 & H5 & H6). split; [done|]. split.
  - intros id r Hr. destruct (H2 id r Hr) as (r' & Hr' & Hl). destruct (H5 id r' Hr') as (r'' & Hr'' & Hl'). exists r''. split; [done|by etrans].
  - intros r Hr Hd. rewrite <- (H3 r Hr Hd). destruct (H2 (d_id r) r (In_find _ _ Hnd Hr)) as (r' & Hr' & Hl).
    destruct (links_done r r' Hl Hd) as [Hd' Hp]. destruct (find_row_Some _ _ _ Hr') as [Hin _]. pose proof (H6 r' Hin Hd') as Ho.
    assert (forall d, outputs_of r d = outputs_of r' d) as Heq by (intros d; unfold outputs_of, emitted_by; by rewrite Hp). by rewrite !Heq.
Qed.

Lemma later_step d d' : emitted_once d -> emits d d' -> evolves d d' -> NoDup (map d_id (t_deliveries d')) -> later d d'.
Proof.
  intros Ho He Hv Hnd. destruct (emission d d' Ho He Hv Hnd) as [H1 H2]. split; [done|]. split; [|done].
  intros id r Hr. destruct (Hv id r Hr) as (r' & Hr' & Hl). exists r'. split; [done|by apply rtc_once].
Qed.

Lemma life_later c y y' : sys_ok y -> jobs_fit y -> emitted_once (y_db y) -> life c y y' -> later (y_db y) (y_db y').
Proof.
  intros Hok Hj Ho Hl. induction Hl as [y|y1 y2 y3 Hs _ IH|y1 y2 y3 Hs Hc _ IH]; [by apply later_refl| |];
    [destruct (step_emits c y1 y2 Hok Hj) as (Hok' & Hj' & He & Hv); [by left|by right|]
    |destruct (step_emits c y1 y2 Hok Hj) as (Hok' & Hj' & He & Hv); [by right|by left|]];
    pose proof (later_step _ _ Ho He Hv (ok_ids _ Hok')) as Hlt; (eapply later_trans; [apply (ok_ids _ Hok)|exact Hlt|apply IH; [done|done|apply Hlt]]).
Qed.

(** ** Recovery *)

Lemma orphan_link now r : claimed r = true -> link r (orphan_row now r).
Proof. intros Hr. split_and!; [done|done|]. unfold edge; simpl. rewrite (claimed_state _ Hr). apply Z.eqb_refl. Qed.

Lemma reset_later id now (w w' : world G) r : emitted_once (w_db w) -> ResetOrphan id now w = (r, w') -> later (w_db w) (w_db w').
Proof.
  intros Ho Hr. pose proof (ResetOrphan_db id now w) as Hdb. rewrite Hr in Hdb. destruct r as [u|e]; [|destruct Hdb as [-> _]; by apply later_refl].
  rewrite Hdb. apply later_step; [done|by apply emits_update| |simpl; by rewrite map_update; [apply Ho|]].
  apply (evolves_update (fun r => with_id id r && claimed r) (orphan_row (fmt_time now)) _ _ []); [done|by rewrite app_nil_r|].
  intros x Hx. apply andb_true_iff in Hx as [_ Hx]. by apply orphan_link.
Qed.

Lemma later_NoDup d d' : emitted_once d -> later d d' -> NoDup (map d_id (t_deliveries d')).
Proof. by intros _ [[? _ _] _]. Qed.

Lemma reap_each_later l now (w w' : world G) kills r : emitted_once (w_db w) -> reap_each l now w = (kills, r, w') -> later (w_db w) (w_db w').
Proof.
  revert w kills r; induction l as [|d l IH]; intros w kills r Ho; cbn [reap_each]; [intros [= _ _ <-]; by apply later_refl|].
  destruct (ResetOrphan (d_id d) now w) as [[u|e] w1] eqn:E; pose proof (reset_later _ _ _ _ _ Ho E) as Hl.
  - destruct (reap_each l now w1) as [[ks r1] w2] eqn:E2. intros [= _ _ <-]. eapply later_trans; [apply Ho|exact Hl|].
    apply (IH w1 ks r1); [apply Hl|done].
  - by intros [= _ _ <-].
Qed.

Lemma reap_later now (w w' : world G) kills r : emitted_once (w_db w) -> ReapOrphans now w = (kills, r, w') -> later (w_db w) (w_db w').
Proof.
  intros Ho. unfold ReapOrphans. destruct (ClaimedDeliveries w) as [[l|e] w1] eqn:E;
    (assert (w_db w1 = w_db w) as Hd by (unfold ClaimedDeliveries, listDeliveries in E; by destruct (read_db _ _ _ _ _ E))).
  - intros Hr. rewrite <- Hd in Ho |- *. by apply (reap_each_later l now w1 w' kills r).
  - intros [= _ _ <-]. rewrite Hd. by apply later_refl.
Qed.

Lemma start_fits (w : world G) s : NoDup (map d_id (t_deliveries (w_db w))) -> seed w = Ok s ->
  sys_ok (mkSys s None 0) /\ jobs_fit (mkSys s None 0) /\ w_db (s_world s) = w_db w.
Proof.
  intros Hnd Hs. destruct (start_ok w s Hnd Hs) as [Hok Hd]. split; [done|]. split; [|done]. split; [|done].
  intros j Hj. exfalso. unfold seed in Hs. destruct (CountActiveDeliveries w) as [[n|e] w']; [|done]. by injection Hs as <-.
Qed.

Lemma lifetime_later c d d' : emitted_once d -> lifetime c d d' -> later d d'.
Proof.
  intros Ho Hl. destruct Hl as [w now kills e w1 Hr|w now kills w1 e Hr _|w now kills w1 s y Hr Hs Hl]; [by apply (reap_later now w w1 kills (Err e))|by apply (reap_later now w w1 kills (Ok tt))|].
  pose proof (reap_later now w w1 kills (Ok tt) Ho Hr) as Hl1. destruct (start_fits w1 s (eo_ids _ (proj1 Hl1)) Hs) as (Hok & Hj & Hd).
  eapply later_trans; [apply Ho|exact Hl1|]. rewrite <- Hd. change (w_db (s_world s)) with (y_db (mkSys s None 0)).
  apply (life_later c); [done|done| |done]. unfold y_db; simpl. rewrite Hd. apply Hl1.
Qed.

Lemma lifetimes_later c d d' : emitted_once d -> rtc (lifetime c) d d' -> later d d'.
Proof.
  intros Ho. induction 1 as [d|d1 d2 d3 Hl _ IH]; [by apply later_refl|]. pose proof (lifetime_later c _ _ Ho Hl) as Hl1.
  eapply later_trans; [apply Ho|exact Hl1|]. apply IH. apply Hl1.
Qed.

(** Only done deliveries have outputs. *)
Lemma outputs_done d r m : emitted_once d -> In r (t_deliveries d) -> In m (outputs_of r d) -> d_state r = StateDone.
Proof.
  intros He Hin Hm. apply List.filter_In in Hm as [Hm Hq]. unfold emitted_by in Hq. apply bool_decide_eq_true in Hq as [Hne Heq].
  destruct (eo_done _ He m Hm Hne) as (q & Hq & Hp & Hst). rewrite (same_row d r q He Hin Hq); [done|congruence|congruence].
Qed.

(** C3. Outputs are emitted once, and no delivery is lost, however often the
    daemon is stopped, killed or restarted, and whatever is retried, replayed or
    cancelled: a message that an action emitted comes from a delivery that is
    done, so a delivery that is not has emitted nothing; once a delivery is done
    its outputs are what they will ever be; and every delivery is still there
    with its message and action, moved along the edges of its life cycle. *)
Theorem outputs_once c d d' :
  emitted_once d -> rtc (lifetime c) d d' ->
  (forall r m, In r (t_deliveries d') -> In m (outputs_of r d') -> d_state r = StateDone) /\
  (forall r, In r (t_deliveries d) -> d_state r = StateDone -> outputs_of r d' = outputs_of r d) /\
  (forall id r, find_row id (t_deliveries d) = Some r -> exists r', find_row id (t_deliveries d') = Some r' /\ rtc link r r').
Proof.
  intros Ho Hr. destruct (lifetimes_later c d d' Ho Hr) as (He & H2 & H3). split; [|done]. intros r m. by apply outputs_done.
Qed.
End Restart.

(** ** A life over a finished delivery and an orphan *)

Definition demo_done_row : drow :=
  mkDelivery "d1" (Some "m1") "a" (Some 1) StateDone 1 None None (Some "") None (Some (fmt_time 0)) (Some (fmt_time Second)).
Definition demo_done : db := mkDb
  [row_of_message demo_message; row_of_message demo_output]
  [mkAct "sum" 1 sample_def true (fmt_time 0)]
  [demo_done_row;
   mkDelivery "d2" (Some "m1") "b" (Some 1) StateClaimed 2 None (Some 77) None None (Some (fmt_time 0)) None;
   pending_row "d4" "m1" "sum"].
Definition demo_done_world : world id_stream := mkWorld demo_done demo_gen [].

Lemma demo_done_once : emitted_once demo_done.
Proof.
  split.
  - decide_now.
  - intros r1 r2 [<-|[<-|[<-|[]]]] [<-|[<-|[<-|[]]]] _ He; try done; by injection He.
  - intros m [<-|[<-|[]]] Hne; [by destruct Hne|]. exists demo_done_row. split; [by left|by split].
Qed.

Lemma demo_life : { d | lifetime (H0 := toy_cel) default_config demo_done d }.
Proof.
  assert (snd (fst (ReapOrphans (4 * Second) demo_done_world)) = Ok tt) as Hr by (vm_compute; reflexivity).
  assert (is_ok (seed (H0 := toy_cel) (snd (ReapOrphans (4 * Second) demo_done_world))) = true) as Hs by (vm_compute; reflexivity).
  destruct (ReapOrphans (4 * Second) demo_done_world) as [[kills r] w1] eqn:E. simpl in Hr, Hs. subst r.
  destruct (seed w1) as [s|e] eqn:Es; [|done]. exists (y_db (mkSys s None 0)).
  exact (T_run default_config demo_done_world (4 * Second) kills w1 s _ E Es (life_refl default_config _)).
Qed.

Lemma outputs_once_witness : exists d, rtc (lifetime (H0 := toy_cel) default_config) demo_done d /\ outputs_of demo_done_row d = [row_of_message demo_output].
Proof.
  destruct demo_life as [d Hd]. exists d. split; [exact (rtc_once _ _ Hd)|].
  destruct (outputs_once (H0 := toy_cel) default_config demo_done d demo_done_once (rtc_once _ _ Hd)) as (_ & Ho & _).
  rewrite (Ho demo_done_row); [vm_compute; reflexivity|left; reflexivity|reflexivity].
Defined.
