(* ===== verification/Boot.v ===== *)
(** Run, whole: internal/daemon/daemon.go.

    Run is what its calls answer, in order, with the deferred calls of every
    return.  Its trace says what it acquired, used and released ([Run_disciplined]);
    read as moves of one process it is a path of the start-up protocol of Daemon
    ([Run_refines]); and when it serves, recovery and seeding have been done on
    the store it opened ([Run_serves]). *)
From S2P Require Import Prelude GoTime Json Action Cel Canon Ids Db Registry Deliveries Executor Scheduler System Sound Answers Daemon Lifecycle.

(** ** Calls *)

(** The calls of Run on its resources. *)
Inductive call_name :=
| AMkdir | AAcquire | AWritePID | ARemoveStale | AListen | AChmod | ACloseListener
| AOpenStore | AReap | AStartSched | AReady | AServe | AShutdown | ACloseServer | AServed
| AStopSignals | AStopSched | AJoinSched | ACloseStore | ARemoveSocket | ARelease.

(** A call, and whether it succeeded. *)
Definition event : Type := call_name * bool.
Definition did (l : list call_name) : list event := map (fun a => (a, true)) l.

Inductive removal := Removed | NotExist | RemoveFails (e : err).

(** What ends the select of Run. *)
Inductive ending := ServeReturns (e : option err) | Signalled | IdleExpired.

Section Run.
Context {G : Type} `{IdSource G} `{CelLib}.

Record run_env := mkRunEnv {
  b_mkdir : option err;
  b_lock : attempt;               (** AcquireWait *)
  b_holder : Z * bool;            (** RunningPID, when it gave up *)
  b_write_pid : option err;
  b_stale : removal;
  b_listen : option err;
  b_chmod : option err;
  b_store : result (world G);     (** store.Open *)
  b_now : time;                   (** ReapOrphans *)
  b_end : ending;
  b_shutdown : option err
}.

Record run_out := mkOut {
  t_events : list event;
  t_result : result unit;
  t_serving : option (sched G)    (** the scheduler it started to serve with *)
}.

Definition stop (l : list event) (e : err) : run_out := mkOut l (Err e) None.
Definition after (l : list event) (k : run_out) : run_out := mkOut (l ++ t_events k) (t_result k) (t_serving k).
(** defer: the calls run last, on every return of [k]. *)
Definition deferring (l : list call_name) (k : run_out) : run_out := mkOut (t_events k ++ did l) (t_result k) (t_serving k).

Definition attempting (a : call_name) (o : option err) (wrap : err -> err) (k : run_out) : run_out :=
  match o with
  | Some e => stop [(a, false)] (wrap e)
  | None => after [(a, true)] k
  end.

(** From srv.Serve to the return. *)
Definition serve (s : sched G) (e : run_env) : run_out :=
  match b_end e with
  | ServeReturns (Some x) => mkOut [(AServe, true); (AServed, false)] (Err (wrapf "serve" x)) (Some s)
  | ServeReturns None => mkOut [(AServe, true); (AServed, true)] (Ok tt) (Some s)
  | Signalled | IdleExpired =>
      mkOut ([(AServe, true)] ++ match b_shutdown e with None => [(AShutdown, true)] | Some _ => [(AShutdown, false); (ACloseServer, true)] end ++ [(AServed, true)])
        (Ok tt) (Some s)
  end.

(** With the store open. *)
Definition run_store (w : world G) (e : run_env) : run_out :=
  match ReapOrphans (b_now e) w with
  | (_, Err x, _) => stop [(AReap, false)] (wrapf "reap orphans" x)
  | (_, Ok _, w) =>
      after [(AReap, true); (AStartSched, true)] (deferring [AStopSched; AJoinSched]
        (match seed w with
         | Err x => stop [(AReady, false)] (wrapf "scheduler failed to start" x)
         | Ok s => after [(AReady, true)] (deferring [AStopSignals] (serve s e))
         end))
  end.

(** With the lock held. *)
Definition run_locked (socket : string) (e : run_env) : run_out :=
  attempting AWritePID (b_write_pid e) (fun x => x)
    (attempting ARemoveStale (match b_stale e with RemoveFails x => Some x | _ => None end) (wrapf "remove stale socket")
      (attempting AListen (b_listen e) (wrapf ("listen on " +:+ socket))
        (match b_chmod e with
         | Some x => stop [(AChmod, false); (ACloseListener, true)] (wrapf "chmod socket" x)
         | None =>
             after [(AChmod, true)] (deferring [ARemoveSocket]
               (match b_store e with
                | Err x => stop [(AOpenStore, false)] (wrapf "open store" x)
                | Ok w => after [(AOpenStore, true)] (deferring [ACloseStore] (run_store w e))
                end))
         end))).

Definition Run (socket : string) (e : run_env) : run_out :=
  attempting AMkdir (b_mkdir e) (wrapf "create state dir")
    (match b_lock e with
     | Locked =>
         let '(pid, held) := b_holder e in
         stop [(AAcquire, false)]
           (errorf ("another daemon is already running" +:+ if held && (0 <? pid) then " (pid " +:+ Prelude.dec pid +:+ ")" else ""))
     | AcquireFails x => stop [(AAcquire, false)] x
     | Acquired => after [(AAcquire, true)] (deferring [ARelease] (run_locked socket e))
     end).
End Run.
Arguments run_env G : clear implicits.

(** ** Resources *)

Inductive resource := HLock | HSocket | HStore | HSched | HSignals.
#[global] Instance resource_eq_dec : EqDecision resource.
Proof. solve_decision. Defined.

(** What a call does to the resources held, the last acquired first; [None]:
    it is made without what it needs. *)
Definition on_event (held : list resource) (ev : event) : option (list resource) :=
  match ev, held with
  | (AMkdir, _), [] => Some []
  | (AAcquire, true), [] => Some [HLock]
  | (AAcquire, false), [] => Some []
  | (AWritePID, _), [HLock] | (ARemoveStale, _), [HLock] | (AListen, false), [HLock] => Some [HLock]
  | (AListen, true), [HLock] => Some [HSocket; HLock]
  | (AChmod, _), [HSocket; HLock] => Some held
  | (ACloseListener, _), [HSocket; HLock] => Some [HLock]
  | (AOpenStore, true), [HSocket; HLock] => Some (HStore :: held)
  | (AOpenStore, false), [HSocket; HLock] => Some held
  | (AReap, _), [HStore; HSocket; HLock] => Some held
  | (AStartSched, _), [HStore; HSocket; HLock] => Some (HSched :: held)
  | (AReady, true), HSched :: _ => Some (HSignals :: held)
  | (AReady, false), HSched :: _ => Some held
  | (AServe, _), HSignals :: HSched :: _ | (AShutdown, _), HSignals :: HSched :: _ | (ACloseServer, _), HSignals :: HSched :: _
  | (AServed, _), HSignals :: HSched :: _ => Some held
  | (AStopSignals, _), HSignals :: held => Some held
  | (AStopSched, _), HSched :: _ => Some held
  | (AJoinSched, _), HSched :: held => Some held
  | (ACloseStore, _), HStore :: held => Some held
  | (ARemoveSocket, _), HSocket :: held => Some held
  | (ARelease, _), [HLock] => Some []
  | _, _ => None
  end.

Fixpoint holding (held : list resource) (l : list event) : option (list resource) :=
  match l with
  | [] => Some held
  | ev :: l => held ← on_event held ev; holding held l
  end.

(** ** As moves of the protocol *)

(** What a call is in the protocol of Daemon: nothing, a move, or the end of the
    process. *)
Inductive move := Stay | Goto (pc : dpc) | Exit.

Definition move_of (pc : dpc) (ev : event) : move :=
  match pc, ev with
  | DWait, (AMkdir, false) | DWait, (AAcquire, false) => Exit
  | DWait, (AAcquire, true) => Goto DWrite
  | DWrite, (AWritePID, ok) => Goto (if ok : bool then DClean else DRelease)
  | DClean, (ARemoveStale, ok) => Goto (if ok : bool then DListen else DRelease)
  | DListen, (AListen, ok) => Goto (if ok : bool then DBoot else DRelease)
  | DBoot, (ACloseListener, _) => Goto DRelease
  | DBoot, (AOpenStore, false) | DBoot, (AReap, false) | DBoot, (AReady, false) => Goto DAbort
  | DBoot, (AServe, _) => Goto DServe
  | DServe, (AServed, _) => Goto DUnlink
  | DServe, (AShutdown, _) => Goto DDrain
  | DDrain, (AServed, _) => Goto DUnlink
  | DUnlink, (ARemoveSocket, _) | DAbort, (ARemoveSocket, _) => Goto DRelease
  | DRelease, (ARelease, _) => Exit
  | _, _ => Stay
  end.

(** The moves of process [p] that a trace makes, each a step of the protocol. *)
Inductive moves (p : Z) : dpc -> list event -> os -> os -> Prop :=
| moves_end pc o : o_procs o !! p = Some (Daemon pc) -> moves p pc [] o o
| moves_stay pc ev l o o' : move_of pc ev = Stay -> moves p pc l o o' -> moves p pc (ev :: l) o o'
| moves_goto pc pc' ev l o o1 o' :
    move_of pc ev = Goto pc' -> o_procs o !! p = Some (Daemon pc) -> daemon_step p pc o o1 -> o_procs o1 !! p = Some (Daemon pc') ->
    moves p pc' l o1 o' -> moves p pc (ev :: l) o o'
| moves_exit pc ev o o1 :
    move_of pc ev = Exit -> o_procs o !! p = Some (Daemon pc) -> daemon_step p pc o o1 -> o_procs o1 !! p = None -> moves p pc [ev] o o1.

Section Refines.
Context {G : Type} `{IdSource G} `{CelLib}.

(** C23. Run keeps the order of its resources: whatever its calls answer and
    however it ends, each of the daemon lock, the socket, the store, the
    scheduler and the signal handler is released exactly once, in the reverse
    order of acquisition, and is held by every call that needs it: nothing
    touches the socket or the database without the lock, recovery precedes the
    scheduler, requests are served only while it runs, and the store is closed
    after it has drained. *)
Theorem Run_disciplined socket (e : run_env G) : holding [] (t_events (Run socket e)) = Some [].
Proof.
  destruct e as [mk lock holder wp stale lis ch st now fin shut]. unfold Run. cbn [b_mkdir b_lock b_holder].
  destruct mk; [done|]. destruct lock as [| |x]; [|by destruct holder|done].
  unfold run_locked. cbn [b_write_pid b_stale b_listen b_chmod b_store].
  destruct wp; [done|]. destruct stale; [| |done]; (destruct lis; [done|]; destruct ch; [done|]; destruct st as [w|x]; [|done]; unfold run_store; cbn [b_now];
    destruct (ReapOrphans now w) as [[kills [u|x]] w1]; [|done]; destruct (seed w1) as [s|x]; [|done]; unfold serve; cbn [b_end b_shutdown];
    destruct fin as [[x|]| |]; try done; by destruct shut).
Qed.
Definition listened (l : list event) : bool := existsb (fun ev => match ev with (AListen, true) => true | _ => false end) l.

Ltac proc_at := first [assumption | cbn; apply lookup_insert_eq | cbn; apply lookup_delete_eq].
Ltac go rule := eapply moves_goto; [reflexivity|proc_at|by apply rule|proc_at|].
Ltac stay := repeat (eapply moves_stay; [reflexivity|]).
Ltac leave := eapply moves_exit; [reflexivity|proc_at|apply D_release|proc_at].

Ltac gone := split_and!; [cbn; apply lookup_delete_eq|cbn; unfold released; by rewrite ?decide_True|first [by intros _|intros Hx; cbn in Hx; discriminate Hx|reflexivity]].

(** From the listening socket to the death of the process. *)
Definition ends (p : Z) (l : list event) (o : os) : Prop :=
  exists o', moves p DBoot l o o' /\ o_procs o' !! p = None /\ o_lock o' = None /\ o_sock o' = None.

Lemma store_ends (w : world G) (e : run_env G) p o : o_procs o !! p = Some (Daemon DBoot) -> o_lock o = Some p ->
  ends p (t_events (run_store w e) ++ did [ACloseStore; ARemoveSocket; ARelease]) o.
Proof.
  intros Hp Hl. unfold ends, run_store. destruct (ReapOrphans (b_now e) w) as [[kills [u|x]] w1].
  2: { eexists. split; [go D_boot_fails; stay; go D_abort; leave|gone]. }
  destruct (seed w1) as [s|x]; [|eexists; split; [stay; go D_boot_fails; stay; go D_abort; leave|gone]].
  unfold serve. destruct (b_end e) as [[x|]| |].
  - eexists. split; [stay; go D_serve; go D_serve_fails; stay; go D_unlink; leave|gone].
  - eexists. split; [stay; go D_serve; go D_serve_fails; stay; go D_unlink; leave|gone].
  - destruct (b_shutdown e); eexists; (split; [stay; go D_serve; go D_shutdown; stay; go D_drained; stay; go D_unlink; leave|gone]).
  - destruct (b_shutdown e); eexists; (split; [stay; go D_serve; go D_shutdown; stay; go D_drained; stay; go D_unlink; leave|gone]).
Qed.

Lemma boot_ends (e : run_env G) p o : o_procs o !! p = Some (Daemon DBoot) -> o_lock o = Some p ->
  ends p (t_events (match b_chmod e with
         | Some x => stop [(AChmod, false); (ACloseListener, true)] (wrapf "chmod socket" x)
         | None => after [(AChmod, true)] (deferring [ARemoveSocket]
               (match b_store e with
                | Err x => stop [(AOpenStore, false)] (wrapf "open store" x)
                | Ok w => after [(AOpenStore, true)] (deferring [ACloseStore] (run_store w e))
                end))
         end) ++ did [ARelease]) o.
Proof.
  intros Hp Hl. destruct (b_chmod e) as [x|]; [unfold ends; eexists; split; [stay; go D_chmod_fails; leave|gone]|].
  destruct (b_store e) as [w|x]; [|unfold ends; eexists; split; [stay; go D_boot_fails; go D_abort; leave|gone]].
  destruct (store_ends w e p o Hp Hl) as (o' & Hm & Ho). exists o'. split; [|exact Ho]. cbn [after deferring t_events app].
  stay. rewrite <- !app_assoc. exact Hm.
Qed.

(** C11. Run refines the start-up protocol of Daemon: whatever its calls
    answer, what it does to the lock, the socket and itself is a path of steps
    of one process from its wait for the lock to its death; the lock is free
    after it and, when it listened, no socket file is left. *)
Theorem Run_refines socket (e : run_env G) p o :
  o_procs o !! p = Some (Daemon DWait) -> o_lock o = None ->
  exists o', moves p DWait (t_events (Run socket e)) o o' /\ o_procs o' !! p = None /\ o_lock o' = None /\
    (listened (t_events (Run socket e)) = true -> o_sock o' = None).
Proof.
  intros Hp Hl. unfold Run, attempting at 1.
  assert (forall ev, move_of DWait ev = Exit -> moves p DWait [ev] o (die p o)) as Hexit.
  { intros ev Hev. eapply moves_exit; [exact Hev|proc_at|apply D_give_up|proc_at]. }
  assert (o_procs (die p o) !! p = None /\ o_lock (die p o) = None) as [P0 L0].
  { split; [apply lookup_delete_eq|]. cbn. unfold released. rewrite Hl. by case_decide. }
  destruct (b_mkdir e) as [x|]; [exists (die p o); split_and!; [by apply Hexit|done..]|].
  destruct (b_lock e) as [| |x]; [|destruct (b_holder e); exists (die p o); split_and!; [cbn [after stop t_events app]; apply moves_stay; [done|by apply Hexit]|done..]
    |exists (die p o); split_and!; [cbn [after stop t_events app]; apply moves_stay; [done|by apply Hexit]|done..]].
  cbn [after deferring t_events app]. unfold run_locked, attempting.
  destruct (b_write_pid e) as [x|]; [eexists; split; [stay; go D_acquire; go D_write_fails; leave|gone]|].
  destruct (b_stale e) as [| |x]; [| |eexists; split; [stay; go D_acquire; go D_write; go D_clean_fails; leave|gone]];
    (destruct (b_listen e) as [x|]; [eexists; split; [stay; go D_acquire; go D_write; go D_clean; go D_listen_fails; leave|gone]|];
     set (o3 := set_sock (Some p) (set_proc p (Daemon DBoot) (set_sock None (set_proc p (Daemon DListen) (set_proc p (Daemon DClean) (set_lock (Some p) (set_proc p (Daemon DWrite) o)))))));
     destruct (boot_ends e p o3) as (o' & Hm & Hq1 & Hq2 & Hq3); [cbn; apply lookup_insert_eq|done|]; exists o'; split_and!; [|done..];
     cbn [after t_events app]; stay; go D_acquire; go D_write; go D_clean; eapply moves_goto; [reflexivity|proc_at|by apply D_listen|proc_at|exact Hm]).
Qed.

(** What Run serves with. *)
Lemma Run_serving socket (e : run_env G) s :
  t_serving (Run socket e) = Some s ->
  exists w kills w1, b_store e = Ok w /\ ReapOrphans (b_now e) w = (kills, Ok tt, w1) /\ seed w1 = Ok s.
Proof.
  unfold Run, attempting at 1. destruct (b_mkdir e); [done|]. destruct (b_lock e); [|by destruct (b_holder e)|done]. unfold run_locked, attempting.
  cbn [after deferring t_serving]. destruct (b_write_pid e); [done|]. destruct (b_stale e); [| |done]; (destruct (b_listen e); [done|];
    destruct (b_chmod e); [done|]; destruct (b_store e) as [w|x]; [|done]; cbn [after deferring t_serving]; unfold run_store;
    destruct (ReapOrphans (b_now e) w) as [[kills [[]|x]] w1] eqn:Er; [|done]; cbn [after deferring t_serving];
    destruct (seed w1) as [s'|x] eqn:Es; [|done]; cbn [after deferring t_serving]; intros Hs; exists w, kills, w1; split_and!; [done|done|];
    unfold serve in Hs; rewrite Es; destruct (b_end e) as [[]| |]; cbn in Hs; congruence).
Qed.
(** When Run serves, recovery is behind it: from a sound store the
    scheduler starts with a sound store, with every process group of the
    predecessor killed, no delivery left claimed, nothing running, and a busy
    counter that is the number of active deliveries. *)
Theorem Run_serves socket (e : run_env G) s :
  (forall w, b_store e = Ok w -> world_sound w) -> time_ok (b_now e) -> t_serving (Run socket e) = Some s ->
  exists w kills w1, b_store e = Ok w /\ ReapOrphans (b_now e) w = (kills, Ok tt, w1) /\
    kills = omap d_pgid (order_by d_id (rows claimed (t_deliveries (w_db w)))) /\
    world_sound (s_world s) /\ (forall r, In r (t_deliveries (w_db (s_world s))) -> claimed r = false) /\
    s_active s = active (w_db (s_world s)) /\ s_running s = [].
Proof.
  intros Hw Hn Hs. destruct (Run_serving socket e s Hs) as (w & kills & w1 & Hst & Hr & Hseed). exists w, kills, w1. specialize (Hw w Hst).
  pose proof (reap_sound _ _ _ _ _ Hn Hw Hr) as Hs1. pose proof (reap_resets (b_now e) w) as Hreset. rewrite Hr in Hreset. destruct Hreset as (_ & Hk & Hc).
  { intros r Hin. destruct (scan_delivery r) as (v & Hv & _); [|by exists v]. pose proof (ss_deliveries _ (sa_db _ _ Hw)) as Hd. rewrite List.Forall_forall in Hd. by apply Hd. }
  unfold seed, CountActiveDeliveries in Hseed. destruct (read _ _ w1) as [[n|x] w2] eqn:E; [|done]. injection Hseed as <-. destruct (read_db _ _ _ _ _ E) as [Hd Hg].
  apply read_ok in E. injection E as <-. cbn [s_world s_active s_running]. unfold world_sound. rewrite Hd, Hg. split_and!; try done.
  intros r Hin. apply not_true_iff_false. intros Hcl. assert (0 < affected claimed (t_deliveries (w_db w1)))%nat by (apply affected_pos; by exists r). lia.
Qed.
End Refines.

(** ** Witnesses: a start after a crash, ended by a signal *)

Definition demo_boot : run_env id_stream :=
  mkRunEnv None Acquired (0, false) None NotExist None None (Ok (s_world demo_dispatched)) (4 * Second) Signalled None.

Lemma Ok_inj {A} (a b : A) : Ok a = Ok b -> a = b.
Proof. by intros [= ->]. Qed.

Lemma demo_recovers : fst (ReapOrphans (4 * Second) (s_world demo_dispatched)) = ([], Ok tt) /\
  is_ok (seed (H0 := toy_cel) (snd (ReapOrphans (4 * Second) (s_world demo_dispatched)))) = true.
Proof. split; vm_compute; reflexivity. Qed.

Lemma Run_refines_witness :
  exists o', moves 7 DWait (t_events (Run (H0 := toy_cel) "s.sock" demo_boot)) (mkOs {[7 := Daemon DWait]} None None None) o' /\
    o_procs o' !! 7 = None /\ o_lock o' = None /\ o_sock o' = None.
Proof.
  destruct (Run_refines (H0 := toy_cel) "s.sock" demo_boot 7 (mkOs {[7 := Daemon DWait]} None None None)) as (o' & Hm & Hp & Hl & Hs); [reflexivity|reflexivity|].
  exists o'. split; [exact Hm|]. split; [exact Hp|]. split; [exact Hl|]. apply Hs. vm_compute. reflexivity.
Defined.

Lemma demo_serving : exists s, t_serving (Run (H0 := toy_cel) "s.sock" demo_boot) = Some s.
Proof.
  destruct demo_recovers as [Hr Hk]. unfold Run, demo_boot, run_locked, run_store. cbn [attempting after deferring t_serving b_mkdir b_lock b_write_pid b_stale b_listen b_chmod b_store b_now b_end].
  destruct (ReapOrphans (4 * Second) (s_world demo_dispatched)) as [[kills r] w1]. cbn [fst snd] in Hr, Hk. injection Hr as -> ->.
  destruct (seed w1) as [s|x]; [|discriminate Hk]. exists s. reflexivity.
Qed.

Lemma Run_serves_witness :
  exists s, t_serving (Run (H0 := toy_cel) "s.sock" demo_boot) = Some s /\ s_active s = active (w_db (s_world s)) /\ s_running s = [] /\
    (forall r, In r (t_deliveries (w_db (s_world s))) -> claimed r = false).
Proof.
  destruct demo_serving as [s Hs]. exists s. split; [exact Hs|].
  destruct (Run_serves (H0 := toy_cel) "s.sock" demo_boot s) as (w & kills & w1 & _ & _ & _ & _ & Hc & Ha & Hr).
  - intros w Hw. rewrite <- (Ok_inj (s_world demo_dispatched) w Hw). exact dispatched_sound.
  - apply (demo_time 4). do 3 right. by left.
  - exact Hs.
  - split; [exact Ha|]. split; [exact Hr|exact Hc].
Defined.
