(* ===== verification/Lives.v ===== *)
(** The daemon from its start to its end, over the database: Run of
    internal/daemon/daemon.go (Boot) with what happens while it serves (Idle).

    What a process does to the database, wherever it stops - before it opens the
    store, in recovery, in the seeding, or at any moment of serving - is a life in
    the sense of Restart ([process_lifetime]), so that what holds across lives
    holds across processes ([outputs_once_processes]). *)
From S2P Require Import Prelude GoTime Float64 Json JsonText RawText Action Cel Canon Ids Db Registry Deliveries Messages Wire Executor Scheduler System Api Sound Answers Idle Daemon Lifecycle Restart Boot.

Section Lives.
Context {G : Type} `{IdSource G} `{CelLib} (c : Config).

(** A step while the daemon serves: the handlers append what clients send. *)
Definition serving_step (v v' : server (G := G)) : Prop :=
  serve_step c probes v v' /\ (loop_step c (sys_of v) (sys_of v') \/ client_only (y_db (sys_of v)) (y_db (sys_of v'))).

Definition v_db (v : server (G := G)) : db := w_db (s_world (v_sched v)).

(** The store was opened. *)
Definition opened (l : list event) : bool := existsb (fun ev => match ev with (AOpenStore, true) => true | _ => false end) l.

(** One process on a database, by its calls [e]: the database it opens, and the
    one it leaves, when it ends or is killed. *)
Inductive process (socket : string) : db -> db -> Prop :=
| P_refused (e : run_env G) w :      (** it ends before it has the store *)
    b_store e = Ok w -> opened (t_events (Run socket e)) = false -> process socket (w_db w) (w_db w)
| P_fails (e : run_env G) w :        (** it does not come to serve *)
    b_store e = Ok w -> opened (t_events (Run socket e)) = true -> t_serving (Run socket e) = None ->
    process socket (w_db w) (w_db (snd (ReapOrphans (b_now e) w)))
| P_serves (e : run_env G) w s v :   (** from the first request to any moment *)
    b_store e = Ok w -> t_serving (Run socket e) = Some s -> rtc serving_step (started probes s) v ->
    process socket (w_db w) (v_db v).

(** ** Serving is a life *)

Lemma sys_eta (y : sys G) : mkSys (y_sched y) (y_found y) (y_owed y) = y.
Proof. by destruct y. Qed.

(** A step of the server is a step of the system, or none. *)
Lemma serve_step_system v v' : serve_step c probes v v' ->
  sys_of v' = sys_of v \/ loop_step c (sys_of v) (sys_of v') \/ other_step (sys_of v) (sys_of v').
Proof.
  destruct 1 as [v|v i q y Hq Ho|v i q Hq Hz|v y Hl|v y Ho Hw|v p ps Hw]; unfold sys_of; cbn [v_sched v_found v_requests with_sys].
  - left. rewrite debt_app. cbn. by rewrite !Z.add_0_r.
  - right; right. rewrite (debt_insert _ q) by done. cbn [q_owed]. replace (debt (v_requests v) - q_owed q + _) with (y_owed y) by lia. by rewrite sys_eta.
  - left. rewrite (debt_delete _ q) by done. by rewrite Hz, Z.sub_0_r.
  - right; left. pose proof (loop_owed _ _ _ Hl) as Hy. cbn [sys_of y_owed] in Hy.
    replace (mkSys (y_sched y) (y_found y) (debt (v_requests v))) with y by (rewrite <- Hy; symmetry; apply sys_eta). exact Hl.
  - right; right. replace (mkSys (y_sched y) (y_found y) (debt (v_requests v))) with y by (rewrite <- Hw; symmetry; apply sys_eta). exact Ho.
  - by left.
Qed.

Lemma serving_life v v' : rtc serving_step v v' -> life c (sys_of v) (sys_of v').
Proof.
  induction 1 as [v|v1 v2 v3 [Hs Hc] _ IH]; [constructor|]. destruct (serve_step_system v1 v2 Hs) as [He|[Hl|Ho]].
  - by rewrite <- He.
  - by eapply life_loop.
  - destruct Hc as [Hl|Hc]; [by eapply life_loop|by eapply life_other].
Qed.

(** ** A process is a life *)

Lemma opened_store socket (e : run_env G) w : b_store e = Ok w -> opened (t_events (Run socket e)) = true -> t_serving (Run socket e) = None ->
  (exists x, snd (fst (ReapOrphans (b_now e) w)) = Err x) \/
  snd (fst (ReapOrphans (b_now e) w)) = Ok tt /\ exists x, seed (snd (ReapOrphans (b_now e) w)) = Err x.
Proof.
  intros Hst. unfold Run, attempting at 1. destruct (b_mkdir e); [done|]. destruct (b_lock e); [|by destruct (b_holder e)|done].
  unfold run_locked, attempting. destruct (b_write_pid e); [done|].
  destruct (b_stale e); [| |done]; (destruct (b_listen e); [done|]; destruct (b_chmod e); [done|]; rewrite Hst; cbn [after deferring t_serving]; intros _;
    unfold run_store; destruct (ReapOrphans (b_now e) w) as [[kills [[]|x]] w1]; [|intros _; left; by exists x]; cbn [fst snd after deferring t_serving];
    destruct (seed w1) as [s|x]; [|intros _; right; split; [done|by exists x]]; cbn [after deferring t_serving]; unfold serve; by destruct (b_end e) as [[]| |]).
Qed.

Lemma process_life socket d d' : process socket d d' -> d' = d \/ lifetime (G := G) c d d'.
Proof.
  destruct 1 as [e w Hst _|e w Hst Ho Hs|e w s v Hst Hs Hv]; [by left|right..].
  - pose proof (opened_store socket e w Hst Ho Hs) as Hf. destruct (ReapOrphans (b_now e) w) as [[kills r] w1] eqn:Er. cbn [fst snd] in Hf.
    destruct Hf as [[x ->]|[-> [x Hx]]]; [by eapply T_reap_fails|by eapply T_seed_fails].
  - destruct (Run_serving socket e s Hs) as (w' & kills & w1 & Hst' & Hr & Hseed). rewrite Hst in Hst'. injection Hst' as <-.
    apply serving_life in Hv. change (v_db v) with (y_db (sys_of v)). eapply T_run; [exact Hr|exact Hseed|exact Hv].
Qed.

(** C10. What a process of the daemon does to the database is a life: recovery,
    seeding, and then steps of the loop, the handlers and the workers, cut short
    anywhere; a process that does not get the store leaves the database as it
    was. *)
Theorem process_lifetime socket d d' : process socket d d' -> d' = d \/ lifetime (G := G) c d d'.
Proof. exact (process_life socket d d'). Qed.

(** So any number of processes emits the outputs of a delivery once, and loses none. *)
Lemma outputs_once_processes socket d d' : emitted_once d -> rtc (process socket) d d' -> later d d'.
Proof.
  intros Ho Hp. apply (lifetimes_later c d d' Ho). clear Ho. induction Hp as [d|d1 d2 d3 Hp _ IH]; [apply rtc_refl|].
  destruct (process_life socket _ _ Hp) as [->|Hl]; [exact IH|by eapply rtc_l].
Qed.
End Lives.

(** *** A start after a crash, up to its first request *)

Lemma process_lifetime_witness :
  exists d', process (H0 := toy_cel) default_config "s.sock" (w_db (s_world demo_dispatched)) d' /\
    (d' = w_db (s_world demo_dispatched) \/ lifetime (H0 := toy_cel) default_config (w_db (s_world demo_dispatched)) d').
Proof.
  destruct demo_serving as [s Hs]. pose (v := started (H0 := toy_cel) probes s). exists (v_db v).
  pose proof (P_serves (H0 := toy_cel) default_config "s.sock" demo_boot (s_world demo_dispatched) s v eq_refl Hs (rtc_refl _ _)) as Hp.
  split; [exact Hp|exact (process_lifetime default_config "s.sock" _ _ Hp)].
Defined.
