(* ===== verification/Ensure.v ===== *)
(** Finding or starting a daemon: internal/daemon (ensure.go, spawn.go) and the
    flags that carry its idle timeout (internal/cli: up.go, daemon.go).

    EnsureRunning is what its calls answer, in order; Spawn, the command line and
    the environment of the child, and what the child makes of them.  The
    interleaving of many callers is in Daemon. *)
From S2P Require Import Prelude GoTime Json JsonText RawText Action DurationText Settings Daemon Lifecycle Boot.

(** ** Spawn *)

Definition defaultReadyTimeout : Z := 10 * Second.
Definition defaultStartLockWait : Z := 10 * Second.

(** The arguments of the child. *)
Definition spawn_args (idleTimeout : Z) : list string :=
  ["daemon"] ++ if 0 <? idleTimeout then ["--idle-timeout"; Duration_String idleTimeout] else [].

(** Its environment: the parent's, then the settings it must resolve. *)
Definition spawn_env (environ : list string) (cfg : Config) : list string := environ ++ Env cfg.

(** What os.Executable, OpenFile, Start and Release answer. *)
Record spawn_calls := mkSpawn { p_exe : result string; p_log : option err; p_start : result Z; p_release : option err }.

(** Spawn: the pid, 0 when nothing was started, and an error. *)
Definition Spawn (p : spawn_calls) : Z * option err :=
  match p_exe p with
  | Err e => (0, Some (wrapf "locate own binary" e))
  | Ok _ =>
      match p_log p, p_start p, p_release p with
      | Some e, _, _ => (0, Some (wrapf "open daemon log" e))
      | None, Err e, _ => (0, Some (wrapf "start daemon" e))
      | None, Ok pid, Some e => (pid, Some (wrapf "release daemon process" e))
      | None, Ok pid, None => (pid, None)
      end
  end.

(** The flag of the daemon command, by pflag: its value when it is given. *)
Definition daemon_flag (args : list string) : option (option Z) :=
  match args with
  | ["daemon"] => Some None
  | ["daemon"; "--idle-timeout"; d] => match ParseDuration d with Some d => Some (Some d) | None => None end
  | _ => None
  end.

(** up and daemon: the flag when it was changed, else the configuration. *)
Definition idle_timeout (flag : option Z) (cfg : Config) : Z := match flag with Some d => d | None => IdleTimeout cfg end.

(** The idle timeout of a daemon spawned with [idleTimeout] that resolves [cfg]. *)
Definition spawned_idle (idleTimeout : Z) (cfg : Config) : option Z :=
  flag ← daemon_flag (spawn_args idleTimeout); Some (idle_timeout flag cfg).

(** ** Waiting *)

(** WaitReady, by what Health answers in each round and whether the context is
    done after it; [None] while it has not returned. *)
Fixpoint WaitReady (timeout : Z) (rounds : list (health * bool)) : option (Z + err) :=
  match rounds with
  | [] => None
  | (Healthy pid, _) :: _ => Some (inl pid)
  | (h, true) :: _ =>
      let text := "daemon did not become ready within " +:+ Duration_String timeout in
      Some (inr (match h with HealthFails e => wrapf text e | _ => errorf text end))
  | (_, false) :: rounds => WaitReady timeout rounds
  end.

(** LogTail: the last [n] bytes of the log, by its content. *)
Definition LogTail (log : option string) (n : Z) : string :=
  match log with
  | None => ""
  | Some s =>
      let size := Z.of_nat (String.length s) in
      let off := if size - n <? 0 then 0 else size - n in
      String.substring (Z.to_nat off) (Z.to_nat (size - off)) s
  end.

(** ** EnsureRunning *)

Record ensure_calls := mkCalls {
  n_mkdir : option err;
  n_lock : attempt;                      (** AcquireWait of the start lock *)
  n_probe : health;                      (** the first health request *)
  n_stale : removal;
  n_spawn : spawn_calls;
  n_ready : list (health * bool);
  n_log : option string                  (** the log after a failed start *)
}.

(** The calls it makes on shared things. *)
Inductive ensure_act := NLock | NProbe | NRemoveStale | NSpawn (pid : Z) | NStop (pid : Z) | NRelease.

(** *StartError carries the tail of the log. *)
Inductive ensure_error := Plain (e : err) | StartError (e : err) (tail : string).

(** The health it found or waited for, and whether it started the daemon. *)
Definition ensured : Type := (Z * bool) + ensure_error.

(** Under the start lock. *)
Definition ensure_locked (socket : string) (readyTimeout : Z) (n : ensure_calls) : option (list ensure_act * ensured) :=
  match n_probe n with
  | Healthy pid => Some ([NProbe], inl (pid, false))
  | HealthFails e => Some ([NProbe], inr (Plain (wrapf "probe daemon" e)))
  | NoDaemon =>
      match n_stale n with
      | RemoveFails e => Some ([NProbe; NRemoveStale], inr (Plain (wrapf "remove stale socket" e)))
      | _ =>
          let '(pid, e) := Spawn (n_spawn n) in
          let acts := [NProbe; NRemoveStale] ++ if pid =? 0 then [] else [NSpawn pid] in
          match e with
          | Some e => Some (acts, inr (Plain e))
          | None =>
              match WaitReady readyTimeout (n_ready n) with
              | None => None
              | Some (inr e) => Some (acts ++ [NStop pid], inr (StartError e (trim_space (LogTail (n_log n) 4096))))
              | Some (inl h) =>
                  if h =? pid then Some (acts, inl (h, true))
                  else Some (acts, inr (Plain (errorf ("daemon at " +:+ socket +:+ " reports pid " +:+ Prelude.dec h +:+ ", but we spawned pid " +:+ Prelude.dec pid))))
              end
          end
      end
  end.

Definition EnsureRunning (socket lockPath : string) (readyTimeout startLockWait : Z) (n : ensure_calls) : option (list ensure_act * ensured) :=
  let readyTimeout := if readyTimeout <=? 0 then defaultReadyTimeout else readyTimeout in
  let startLockWait := if startLockWait <=? 0 then defaultStartLockWait else startLockWait in
  match n_mkdir n with
  | Some e => Some ([], inr (Plain (wrapf "create state dir" e)))
  | None =>
      match n_lock n with
      | Acquired => '(acts, r) ← ensure_locked socket readyTimeout n; Some (NLock :: acts ++ [NRelease], r)
      | Locked => Some ([], inr (Plain (errorf ("acquire start lock: timed out after " +:+ Duration_String startLockWait +:+ " waiting for " +:+ lockPath +:+ ": lock held by another process"))))
      | AcquireFails e => Some ([], inr (Plain (wrapf "acquire start lock" e)))
      end
  end.

(** ** The idle timeout of a spawned daemon *)

Lemma spawned_idle_value d cfg : d < 2 ^ 63 -> spawned_idle d cfg = Some (if 0 <? d then d else IdleTimeout cfg).
Proof.
  intros Hd. unfold spawned_idle, spawn_args. destruct (Z.ltb_spec 0 d) as [Hp|Hp]; [|done]. cbn [app daemon_flag].
  by rewrite ParseDuration_String by lia.
Qed.

(** An explicit --idle-timeout 0 does not reach the daemon that up spawns: it
    takes the configured timeout, which Env carries. *)
Example zero_does_not_disable cfg : spawned_idle (idle_timeout (Some 0) cfg) cfg = Some (IdleTimeout cfg).
Proof. reflexivity. Qed.

(** ** What EnsureRunning does *)

Lemma WaitReady_answer timeout rounds r : WaitReady timeout rounds = Some r ->
  match r with
  | inl pid => exists pre d post, rounds = pre ++ (Healthy pid, d) :: post /\ forall x, In x pre -> snd x = false /\ forall q, fst x <> Healthy q
  | inr _ => exists pre h post, rounds = pre ++ (h, true) :: post /\ forall x, In x (pre ++ [(h, true)]) -> forall q, fst x <> Healthy q
  end.
Proof.
  induction rounds as [|[h d] rounds IH]; cbn [WaitReady]; [done|]. destruct h as [pid| |e].
  - intros [= <-]. exists [], d, rounds. by split; [|intros x []].
  - destruct d; [intros [= <-]; exists [], NoDaemon, rounds; split; [done|]; by intros x [<-|[]]|]. intros Hw. specialize (IH Hw).
    destruct r as [pid|x]; destruct IH as (pre & y & post & -> & Hpre); exists ((NoDaemon, false) :: pre), y, post; (split; [done|]); intros z [<-|Hz]; auto.
  - destruct d; [intros [= <-]; exists [], (HealthFails e), rounds; split; [done|]; by intros x [<-|[]]|]. intros Hw. specialize (IH Hw).
    destruct r as [pid|x]; destruct IH as (pre & y & post & -> & Hpre); exists ((HealthFails e, false) :: pre), y, post; (split; [done|]); intros z [<-|Hz]; auto.
Qed.

Lemma substring_whole s : String.substring 0 (String.length s) s = s.
Proof. rewrite <- (str_app_nil_r s) at 2. apply substring_prefix. Qed.

Lemma substring_split k s : (k <= String.length s)%nat ->
  s = String.substring 0 k s +:+ String.substring k (String.length s - k) s /\ String.length (String.substring k (String.length s - k) s) = (String.length s - k)%nat.
Proof.
  revert s. induction k as [|k IH]; intros s Hk; [rewrite Nat.sub_0_r, substring_whole; by destruct s|]. destruct s as [|c s]; [cbn in Hk; lia|].
  cbn [String.length String.substring Nat.sub] in *. destruct (IH s ltac:(lia)) as [H1 H2]. split; [|exact H2]. rewrite str_app_cons. by f_equal.
Qed.

(** LogTail is the last [n] bytes of the log, or all of it. *)
Lemma LogTail_suffix s n : 0 <= n ->
  exists pre, s = pre +:+ LogTail (Some s) n /\ Z.of_nat (String.length (LogTail (Some s) n)) = Z.min n (Z.of_nat (String.length s)).
Proof.
  intros Hn. unfold LogTail. set (size := Z.of_nat (String.length s)). set (off := if size - n <? 0 then 0 else size - n).
  assert (0 <= off <= size /\ size - off = Z.min n size) as [Ho He] by (unfold off; destruct (Z.ltb_spec (size - n) 0); lia). clearbody off.
  replace (Z.to_nat (size - off)) with (String.length s - Z.to_nat off)%nat by lia.
  destruct (substring_split (Z.to_nat off) s ltac:(lia)) as [H1 H2]. eexists. split; [exact H1|]. rewrite H2. lia.
Qed.

(** ** The outcome *)

(** The calls up to a spawn that answered [pid]. *)
Definition spawned (pid : Z) : list ensure_act := [NLock; NProbe; NRemoveStale] ++ if pid =? 0 then [] else [NSpawn pid].

(** The start lock is held and the probe found nobody. *)
Definition nobody (n : ensure_calls) : Prop := n_mkdir n = None /\ n_lock n = Acquired /\ n_probe n = NoDaemon.

(** A daemon was spawned, as [pid]. *)
Definition starts (n : ensure_calls) (pid : Z) : Prop :=
  nobody n /\ (forall e, n_stale n <> RemoveFails e) /\ Spawn (n_spawn n) = (pid, None).

(** What EnsureRunning is bound to answer and do, [t] being the time it gives a
    daemon to become ready. *)
Record ensure_spec (t : Z) (n : ensure_calls) (acts : list ensure_act) (r : ensured) : Prop := {
  es_found pid : r = inl (pid, false) <-> n_mkdir n = None /\ n_lock n = Acquired /\ n_probe n = Healthy pid;
  es_started pid : r = inl (pid, true) <-> starts n pid /\ WaitReady t (n_ready n) = Some (inl pid);
  es_failed e tail : r = inr (StartError e tail) <->
    exists pid, starts n pid /\ WaitReady t (n_ready n) = Some (inr e) /\ tail = trim_space (LogTail (n_log n) 4096);
  es_stop pid : In (NStop pid) acts <-> starts n pid /\ exists e, WaitReady t (n_ready n) = Some (inr e);
  es_clears : In NRemoveStale acts <-> nobody n;
  es_spawns pid : In (NSpawn pid) acts <-> pid <> 0 /\ nobody n /\ (forall e, n_stale n <> RemoveFails e) /\ fst (Spawn (n_spawn n)) = pid;
  es_order pid : starts n pid -> acts = spawned pid ++ [NRelease] \/ acts = spawned pid ++ [NStop pid; NRelease];
  es_tail e tail log : r = inr (StartError e tail) -> n_log n = Some log ->
    exists pre last, log = pre +:+ last /\ Z.of_nat (String.length last) = Z.min 4096 (Z.of_nat (String.length log)) /\ tail = trim_space last;
  es_locked : acts = [] /\ (n_mkdir n <> None \/ n_lock n <> Acquired) \/ exists mid, acts = NLock :: mid ++ [NRelease] /\ ~ In NRelease mid
}.

(** The fields of the specification in a case where the calls are known. *)
Ltac ensure_case :=
  split; unfold starts, nobody; cbn [n_mkdir n_lock n_probe n_stale n_spawn n_ready n_log];
  repeat match goal with H : Spawn _ = _ |- _ => rewrite H; clear H end; repeat match goal with H : WaitReady _ _ = _ |- _ => rewrite H; clear H end;
  cbn; try match goal with |- _ \/ exists mid, NLock :: ?l = _ /\ _ => right; exists (removelast l) end; try naive_solver.

(** C24. EnsureRunning in every case of its calls.  It answers a daemon that
    it did not start exactly when the first probe found one, and one that it
    started exactly when it spawned one and the pid it spawned is the one that
    answered.  Exactly when what it spawned did not become ready it stops that
    process, and answers a StartError with the end of the log.  It removes the
    socket exactly after a probe that found nobody and spawns after that, all
    under the start lock, which it releases last; it does not return as long as
    it waits for what it spawned. *)
Theorem EnsureRunning_outcome socket lockPath readyTimeout startLockWait n :
  let t := if readyTimeout <=? 0 then defaultReadyTimeout else readyTimeout in
  match EnsureRunning socket lockPath readyTimeout startLockWait n with
  | Some (acts, r) => ensure_spec t n acts r
  | None => exists pid, starts n pid /\ WaitReady t (n_ready n) = None
  end.
Proof.
  intros t. destruct n as [mk lock probe stale sp ready log]. unfold EnsureRunning, ensure_locked. cbn [n_mkdir n_lock n_probe n_stale n_spawn n_ready n_log].
  fold t. clearbody t. destruct mk as [x|]; [ensure_case|]. destruct lock as [| |x]; [|ensure_case|ensure_case].
  destruct probe as [q| |x]; [ensure_case| |ensure_case].
  destruct stale as [| |x]; [| |ensure_case].
  all: destruct (Spawn sp) as [pid [x|]] eqn:Es.
  all: try (destruct (WaitReady t ready) as [[h|e]|] eqn:Ew; [destruct (Z.eqb_spec h pid) as [Hh|Hh]; [subst h|]| |cbn; exists pid; unfold starts, nobody; naive_solver]).
  all: cbn; destruct (Z.eqb_spec pid 0) as [H0|H0]; [subst pid|]; cbn; ensure_case.
  all: try (intros ? ? s [= _ <-] ->; destruct (LogTail_suffix s 4096 ltac:(lia)) as (pre & Hs & Hl); by exists pre, (LogTail (Some s) 4096)).
  all: intros ? (_ & _ & [= <-]); rewrite (proj2 (Z.eqb_neq pid 0) H0); auto.
Qed.

(** ** Witness: a start that answers in the second round, and one that never does *)

Definition demo_calls : ensure_calls :=
  mkCalls None Acquired NoDaemon NotExist (mkSpawn (Ok "/usr/bin/sonata") None (Ok 42) None) [(NoDaemon, false); (Healthy 42, false)] None.

Definition demo_silent : ensure_calls :=
  mkCalls None Acquired NoDaemon NotExist (mkSpawn (Ok "/usr/bin/sonata") None (Ok 42) None) [(NoDaemon, false); (NoDaemon, true)] (Some "panic ").

Lemma EnsureRunning_outcome_witness :
  (EnsureRunning "s.sock" "start.lock" 0 0 demo_calls = Some ([NLock; NProbe; NRemoveStale; NSpawn 42; NRelease], inl (42, true)) /\
   starts demo_calls 42 /\ WaitReady defaultReadyTimeout (n_ready demo_calls) = Some (inl 42)) /\
  (EnsureRunning "s.sock" "start.lock" 0 0 demo_silent =
     Some ([NLock; NProbe; NRemoveStale; NSpawn 42; NStop 42; NRelease], inr (StartError (errorf "daemon did not become ready within 10s") "panic")) /\
   starts demo_silent 42).
Proof.
  split; (split; [reflexivity|]).
  - pose proof (EnsureRunning_outcome "s.sock" "start.lock" 0 0 demo_calls) as H. exact (proj1 (es_started _ _ _ _ H 42) eq_refl).
  - pose proof (EnsureRunning_outcome "s.sock" "start.lock" 0 0 demo_silent) as H. refine (proj1 (proj1 (es_stop _ _ _ _ H 42) _)). do 4 right. by left.
Defined.
