(* ===== verification/Commands.v ===== *)
(** The command tree: internal/cli (root.go and the new...Cmd of the other
    files), from the command line to the exit code.

    cobra and pflag are what they hand over: the command that was found, the
    flags that were set, with their values, and the arguments; or the error they
    stopped at.  The machine the commands run on - files, daemon, clock - is a
    record of what it answers.  [exit_contract] is what a script can rely on. *)
From S2P Require Import Prelude GoTime Float64 Json JsonText RawText Action DurationText Cel Validate Canon Ids Db Registry Deliveries Messages Wire Executor Scheduler System Api Client Tabwriter Cli Settings Daemon Lifecycle Ensure.

(** ** Flags *)

(** The type of a flag, with its default. *)
Inductive flag_type := TString (d : string) | TInt (d : Z) | TDuration (d : Z) | TBool (d : bool) | TStringArray.
Record flag := mkFlag { fl_name : string; fl_short : string; fl_type : flag_type }.

Definition persistent_flags : list flag := [
  mkFlag "config" "" (TString ""); mkFlag "state-dir" "" (TString ""); mkFlag "socket" "" (TString ""); mkFlag "database" "" (TString "");
  mkFlag "log-level" "" (TString ""); mkFlag "output" "" (TString "table"); mkFlag "verbose" "" (TBool false) ].

Inductive value := VString (s : string) | VInt (n : Z) | VBool (b : bool) | VStrings (l : list string).

(** The flags that were set; and what the variable of a flag holds: the value it
    was set to, else the default of its declaration. *)
Definition flag_set : Type := list (string * value).
Definition set_value (name : string) (fs : flag_set) : option value := snd <$> List.find (fun f => String.eqb (fst f) name) fs.
Definition Changed (name : string) (fs : flag_set) : bool := bool_decide (is_Some (set_value name fs)).

Definition default_of (name : string) (decls : list flag) : option flag_type :=
  fl_type <$> List.find (fun f => String.eqb (fl_name f) name) decls.

Definition string_var (decls : list flag) (name : string) (fs : flag_set) : string :=
  match set_value name fs, default_of name decls with Some (VString s), _ => s | _, Some (TString d) => d | _, _ => "" end.
Definition int_var (decls : list flag) (name : string) (fs : flag_set) : Z :=
  match set_value name fs, default_of name decls with Some (VInt n), _ => n | _, Some (TInt d | TDuration d) => d | _, _ => 0 end.
Definition strings_var (name : string) (fs : flag_set) : list string := match set_value name fs with Some (VStrings l) => l | _ => [] end.

(** The flags Bind connects to settings. *)
Definition bound_flags : list (string * string) := [("state_dir", "state-dir"); ("socket", "socket"); ("database", "database"); ("log_level", "log-level")].

(** Bind, over the flags in the order the map is walked in: [lookup] is
    fs.Lookup, [BindPFlag] what viper answers. *)
Fixpoint Bind (lookup : string -> bool) (BindPFlag : string -> string -> option err) (pairs : list (string * string)) : result unit :=
  match pairs with
  | [] => Ok tt
  | (key, flag) :: pairs =>
      if negb (lookup flag) then Bind lookup BindPFlag pairs
      else match BindPFlag key flag with
      | Some e => Err (wrapf ("bind " +:+ flag) e)
      | None => Bind lookup BindPFlag pairs
      end
  end.

(** ** Running a command *)

(** The commands' own errors that Cli does not have. *)
Inductive command_error := ECli (e : cli_error) | EDown (e : err) | EKilled | ERun (e : err).
Record outcome_of := mkOutcome { o_code : Z; o_text : string; o_failure : option command_error }.
Definition lifted (r : ran) : outcome_of := mkOutcome (r_code r) (r_out r) (ECli <$> r_err r).

(** down: [stop] is Stop on a pid, [None] while it polls on. *)
Definition app_down (path : string) (h : health) (lock : attempt) (file : result string) (stop : Z -> option (bool * option err)) (timeout : Z) : option outcome_of :=
  match resolveDaemonPID path h lock file with
  | Err e => Some (mkOutcome ExitOperational "" (Some (EDown e)))
  | Ok None => Some (mkOutcome ExitOK ("no daemon running" +:+ newline) None)
  | Ok (Some pid) =>
      match stop pid with
      | None => None
      | Some (_, Some e) => Some (mkOutcome ExitOperational "" (Some (EDown e)))
      | Some (true, None) =>
          Some (mkOutcome ExitOperational ("daemon killed (pid " +:+ Prelude.dec pid +:+ ") after " +:+ Duration_String timeout +:+ newline) (Some EKilled))
      | Some (false, None) => Some (mkOutcome ExitOK ("daemon stopped (pid " +:+ Prelude.dec pid +:+ ")" +:+ newline) None)
      end
  end.

(** It exits with the code of [Lifecycle.down]. *)
Lemma app_down_code path h lock file stop timeout :
  o_code <$> app_down path h lock file stop timeout = fst <$> Lifecycle.down path h lock file stop.
Proof.
  unfold app_down, Lifecycle.down. destruct (resolveDaemonPID path h lock file) as [[pid|]|e]; [|done..]. by destruct (stop pid) as [[[] [x|]]|].
Qed.

(** What the machine answers a command, apart from the requests it makes. *)
Record machine := mkMachine {
  k_bind : result unit;                                   (** config.Bind *)
  k_load : string -> result Settings.Config;              (** config.Load of the --config file *)
  k_stdin : result string;
  k_readFile : string -> result string;
  k_ensure : Z -> Z -> result (Z * bool);                 (** EnsureRunning, by its ready and idle timeouts *)
  k_health : outcome HealthResponse;
  k_now : time;
  k_local : time -> Z;
  k_probe : health; k_lock : attempt; k_pidfile : result string;
  k_stop : Z -> Z -> option (bool * option err);          (** Stop of a pid, by its timeout *)
  k_run : Z -> option err                                 (** daemon.Run, by its idle timeout *)
}.

(** ensureClient, but for the client it makes: the daemon was started, or found. *)
Definition ensureClient (m : machine) (cfg : Settings.Config) : result bool :=
  match k_ensure m 0 (Settings.IdleTimeout cfg) with Ok (_, started) => Ok started | Err e => Err e end.

Section Run.
Context `{CelLib} (yaml : string -> yaml_doc) {W : Type}.

(** A command: Use, the number of arguments (NoArgs or ExactArgs), its flags, and
    RunE, [None] when it does not return. *)
Record cobra := mkCobra {
  c_use : string; c_args : nat; c_flags : list flag;
  RunE : machine -> Settings.Config -> flag_set -> list string -> (string -> string -> W -> exchange * W) -> W -> option (outcome_of * W)
}.

Definition jsonOutput (fs : flag_set) : bool := String.eqb (string_var persistent_flags "output" fs) "json".
Definition data (cmd : command) (w : W) : option (outcome_of * W) := let '(r, w') := cmd w in Some (lifted r, w').
Definition arg (args : list string) : string := nth 0 args "".

Definition newUpCmd : cobra :=
  let flags := [mkFlag "timeout" "" (TDuration (10 * Second)); mkFlag "idle-timeout" "" (TDuration 0)] in
  mkCobra "up" 0 flags (fun m cfg fs args Do w =>
    let idleTimeout := if Changed "idle-timeout" fs then int_var flags "idle-timeout" fs else Settings.IdleTimeout cfg in
    Some (lifted (up (k_ensure m (int_var flags "timeout" fs) idleTimeout)), w)).

Definition newDownCmd : cobra :=
  let flags := [mkFlag "timeout" "" (TDuration (10 * Second))] in
  mkCobra "down" 0 flags (fun m cfg fs args Do w =>
    let timeout := int_var flags "timeout" fs in
    (fun o => (o, w)) <$> app_down (LockPath cfg) (k_probe m) (k_lock m) (k_pidfile m) (fun pid => k_stop m pid timeout) timeout).

Definition newStatusCmd : cobra :=
  mkCobra "status" 0 [] (fun m cfg fs args Do w => Some (lifted (status (jsonOutput fs) (Settings.Socket cfg) (k_health m) (k_now m)), w)).

Definition newDaemonCmd : cobra :=
  let flags := [mkFlag "idle-timeout" "" (TDuration 0)] in
  mkCobra "daemon" 0 flags (fun m cfg fs args Do w =>
    let idleTimeout := if Changed "idle-timeout" fs then int_var flags "idle-timeout" fs else Settings.IdleTimeout cfg in
    Some (match k_run m idleTimeout with
          | Some e => mkOutcome ExitOperational "" (Some (ERun e))
          | None => mkOutcome ExitOK "" None
          end, w)).

Definition newSendCmd : cobra :=
  mkCobra "send" 1 [mkFlag "header" "" TStringArray] (fun m cfg fs args Do =>
    data (app_send (jsonOutput fs) (Settings.Socket cfg) (ensureClient m cfg) Do (arg args) (strings_var "header" fs) (k_stdin m))).

Definition newMessageListCmd : cobra :=
  let flags := [mkFlag "queue" "" (TString ""); mkFlag "trace" "" (TString ""); mkFlag "limit" "" (TInt 0); mkFlag "before" "" (TString "")] in
  mkCobra "list" 0 flags (fun m cfg fs args Do =>
    let req := mkListMsgs (string_var flags "queue" fs) (string_var flags "trace" fs) (int_var flags "limit" fs) (string_var flags "before" fs) in
    data (app_messageList (jsonOutput fs) (Settings.Socket cfg) (ensureClient m cfg) Do (k_local m) req)).

Definition newMessageShowCmd : cobra :=
  mkCobra "show" 1 [] (fun m cfg fs args Do => data (app_messageShow (Settings.Socket cfg) (ensureClient m cfg) Do (arg args))).

Definition newQueueListCmd : cobra :=
  mkCobra "list" 0 [] (fun m cfg fs args Do => data (app_queueList (jsonOutput fs) (Settings.Socket cfg) (ensureClient m cfg) Do)).

Definition newActionApplyCmd : cobra :=
  let flags := [mkFlag "file" "f" (TString "")] in
  mkCobra "apply" 0 flags (fun m cfg fs args Do =>
    data (app_actionApply yaml (jsonOutput fs) (Settings.Socket cfg) (ensureClient m cfg) Do (string_var flags "file" fs) (k_stdin m) (k_readFile m))).

Definition newActionListCmd : cobra :=
  mkCobra "list" 0 [] (fun m cfg fs args Do => data (app_actionList (jsonOutput fs) (Settings.Socket cfg) (ensureClient m cfg) Do (k_local m))).

Definition newActionShowCmd : cobra :=
  let flags := [mkFlag "version" "" (TInt 0)] in
  mkCobra "show" 1 flags (fun m cfg fs args Do =>
    data (app_actionShow (Settings.Socket cfg) (ensureClient m cfg) Do (arg args) (int_var flags "version" fs))).

Definition newActionEnableCmd (enable : bool) : cobra :=
  mkCobra (if enable then "enable" else "disable") 1 [] (fun m cfg fs args Do =>
    data (app_actionSetEnabled (jsonOutput fs) (Settings.Socket cfg) (ensureClient m cfg) Do (arg args) enable)).

Definition newDeliveryListCmd : cobra :=
  let flags := [mkFlag "action" "" (TString ""); mkFlag "state" "" (TString ""); mkFlag "message" "" (TString ""); mkFlag "limit" "" (TInt 0); mkFlag "before" "" (TString "")] in
  mkCobra "list" 0 flags (fun m cfg fs args Do =>
    let req := mkListDlvs (string_var flags "action" fs) (string_var flags "state" fs) (string_var flags "message" fs) (int_var flags "limit" fs) (string_var flags "before" fs) in
    data (app_deliveryList (jsonOutput fs) (Settings.Socket cfg) (ensureClient m cfg) Do req)).

Definition newDeliveryShowCmd : cobra :=
  mkCobra "show" 1 [] (fun m cfg fs args Do => data (app_deliveryShow (Settings.Socket cfg) (ensureClient m cfg) Do (arg args))).

Definition newDeliveryReplayCmd : cobra :=
  mkCobra "replay" 1 [] (fun m cfg fs args Do => data (app_deliveryReplay (jsonOutput fs) (Settings.Socket cfg) (ensureClient m cfg) Do (arg args))).

(** ** The tree *)

Definition newMessageCmd : string * list cobra := ("message", [newMessageListCmd; newMessageShowCmd]).
Definition newQueueCmd : string * list cobra := ("queue", [newQueueListCmd]).
Definition newActionCmd : string * list cobra :=
  ("action", [newActionApplyCmd; newActionListCmd; newActionShowCmd; newActionEnableCmd true; newActionEnableCmd false]).
Definition newDeliveryCmd : string * list cobra := ("delivery", [newDeliveryListCmd; newDeliveryShowCmd; newDeliveryReplayCmd]).

(** The commands by their words. *)
Definition under (group : string * list cobra) : list (list string * cobra) := map (fun c => ([fst group; c_use c], c)) (snd group).
Definition newRootCmd : list (list string * cobra) :=
  map (fun c => ([c_use c], c)) [newUpCmd; newDownCmd; newStatusCmd; newDaemonCmd; newSendCmd] ++
  under newMessageCmd ++ under newQueueCmd ++ under newActionCmd ++ under newDeliveryCmd.

(** No words name two commands, and no command declares a flag twice, which
    pflag does not survive; the flags that are bound are declared. *)
Lemma tree_well_formed :
  NoDup (map fst newRootCmd) /\
  List.Forall (fun '(_, c) => NoDup (map fl_name (persistent_flags ++ c_flags c))) newRootCmd /\
  (forall key flag, In (key, flag) bound_flags -> exists d, default_of flag persistent_flags = Some (TString d)).
Proof.
  split_and!.
  - apply (bool_decide_unpack _). vm_compute. done.
  - repeat (apply List.Forall_cons; [apply (bool_decide_unpack _); vm_compute; done|]). apply List.Forall_nil.
  - intros key flag Hin. repeat (destruct Hin as [[= <- <-]|Hin]; [by eexists|]). done.
Qed.

(** ** The program *)

(** What cobra finds on the command line. *)
Inductive parsed :=
| BadFlag                    (** a flag that does not parse *)
| BadCommand                 (** any other error of its own *)
| Shown                      (** help, version, or a group of commands *)
| Found (c : list string) (fs : flag_set) (args : list string).

Definition command_at (words : list string) : option cobra := snd <$> List.find (fun x => bool_decide (fst x = words)) newRootCmd.

(** Execute, and main: the exit code and what a command printed. *)
Definition sonata (m : machine) (p : parsed) (Do : string -> string -> W -> exchange * W) (w : W) : option ((Z * string) * W) :=
  let exit e w := Some ((Cli.Execute e, ""), w) in
  match p with
  | BadFlag => exit (Some (ExitError ExitUsage)) w
  | BadCommand => exit (Some PlainError) w
  | Shown => exit None w
  | Found words fs args =>
      c ← command_at words;
      if negb (Nat.eqb (length args) (c_args c)) then exit (Some PlainError) w
      else
        let load := k_load m (string_var persistent_flags "config" fs) in
        match PersistentPreRun (k_bind m) load (string_var persistent_flags "output" fs), load with
        | Some r, _ => exit (Some (ExitError (r_code r))) w
        | None, Err _ => None
        | None, Ok cfg =>
            '(o, w) ← RunE c m cfg fs args Do w;
            Some ((Cli.Execute (match o_failure o with Some _ => Some (ExitError (o_code o)) | None => None end), o_text o), w)
        end
  end.
End Run.

(** ** What a script can rely on *)

(** The commands on data, which find or start a daemon; the others make no request. *)
Definition on_data (words : list string) : bool := negb (existsb (fun x => bool_decide (x = words)) [["up"]; ["down"]; ["status"]; ["daemon"]]).

(** The machines that answer the same, daemons apart. *)
Definition same_input (m m' : machine) : Prop :=
  k_bind m' = k_bind m /\ k_load m' = k_load m /\ k_stdin m' = k_stdin m /\ k_readFile m' = k_readFile m /\ k_local m' = k_local m.

Section Contract.
Context `{CelLib} (yaml : string -> yaml_doc) {W : Type}.

(** An answer is shown, or does not encode. *)
Definition shows (show : reply -> ran) : Prop :=
  forall a, r_code (show a) = ExitOK /\ r_err (show a) = None \/ r_code (show a) = ExitOperational /\ r_err (show a) <> None.

(** A command that is refused before a daemon is looked for, or makes one call. *)
Definition refuses_or_calls (cmd : result bool -> (string -> string -> W -> exchange * W) -> command) (socket : string) : Prop :=
  (exists code e, (code = ExitUsage \/ code = ExitOperational) /\ forall ensured Do, cmd ensured Do = refuse code e) \/
  (exists r show, shows show /\ forall ensured Do, cmd ensured Do = calling socket ensured Do r show).

Lemma shows_printed f : shows (fun a => printed (f a)).
Proof. intros a. by left. Qed.
Lemma shows_json t : shows (fun a => writeJSON (t a)).
Proof. intros a. unfold writeJSON. destruct (t a); [by left|by right]. Qed.
Lemma shows_either json_out human : shows human -> shows (either json_out human).
Proof. intros Hs a. unfold either. destruct json_out; [apply (shows_json reply_text)|apply Hs]. Qed.

Lemma calls (cmd : result bool -> (string -> string -> W -> exchange * W) -> command) socket r show :
  shows show -> (forall ensured Do, cmd ensured Do = calling socket ensured Do r show) -> refuses_or_calls cmd socket.
Proof. intros Hs Hc. right. by exists r, show. Qed.
Lemma refused (cmd : result bool -> (string -> string -> W -> exchange * W) -> command) socket code e :
  code = ExitUsage \/ code = ExitOperational -> (forall ensured Do, cmd ensured Do = refuse code e) -> refuses_or_calls cmd socket.
Proof. intros Hs Hc. left. by exists code, e. Qed.

Ltac shown := first [apply shows_json | apply shows_either; let a := fresh in intros a; repeat case_match; by left].
Ltac call := eapply calls; [|reflexivity]; shown.
Ltac usage := eapply refused; [by left|reflexivity].
Ltac operational := eapply refused; [by right|reflexivity].

Lemma app_send_calls json_out socket queue flags stdin :
  refuses_or_calls (fun ensured Do => app_send json_out socket ensured Do queue flags stdin) socket.
Proof.
  unfold app_send. destruct stdin as [payload|e]; [|operational]. destruct (String.eqb (trim_space payload) ""); [usage|].
  destruct (valid payload); [|usage]. destruct (header_map [] flags); [call|usage].
Qed.

Lemma app_actionApply_calls json_out socket file stdin readFile :
  refuses_or_calls (fun ensured Do => app_actionApply yaml json_out socket ensured Do file stdin readFile) socket.
Proof.
  unfold app_actionApply. destruct (String.eqb file ""); [usage|]. cbn zeta. destruct (String.eqb file "-").
  - destruct stdin as [data|e]; [|operational]. destruct (String.eqb (trim_space data) ""); [usage|].
    destruct (ParseJSON data) as [def|e]; [|usage]. destruct (Canonical def); [call|operational].
  - destruct (readFile file) as [data|e]; [|operational].
    destruct (ParseYAML yaml data) as [def|e]; [|usage]. destruct (Canonical def); [call|operational].
Qed.

Lemma app_actionShow_calls socket name version :
  refuses_or_calls (fun ensured Do => app_actionShow socket ensured Do name version) socket.
Proof. unfold app_actionShow. destruct (version <? 0); [usage|call]. Qed.

(** Abstract over what the machine adds, to find the command. *)
Ltac pick :=
  eexists; split; [|intros m' Do w (_ & _ & Hi & Hf & Hl);
    cbv [RunE data newSendCmd newMessageListCmd newMessageShowCmd newQueueListCmd newActionApplyCmd newActionListCmd newActionShowCmd newActionEnableCmd
         newDeliveryListCmd newDeliveryShowCmd newDeliveryReplayCmd]; cbv beta zeta; rewrite ?Hi, ?Hf, ?Hl;
    match goal with |- context [ensureClient ?a ?b] => generalize (ensureClient a b) end; intros ensured; reflexivity].

(** A command on data is one of those, the same on every machine of the same input. *)
Definition data_like (c : cobra (W := W)) : Prop := forall m cfg fs args,
  exists cmd, refuses_or_calls cmd (Settings.Socket cfg) /\
    forall m' Do w, same_input m m' -> RunE c m' cfg fs args Do w = let '(r, w') := cmd (ensureClient m' cfg) Do w in Some (lifted r, w').

(** The others make no request; only status exits 1, and none exits 2. *)
Definition control_like (words : list string) (c : cobra (W := W)) : Prop := forall m cfg fs args Do w o w',
  RunE c m cfg fs args Do w = Some (o, w') -> w' = w /\
    (o_code o = ExitOK /\ o_failure o = None \/ o_code o = ExitOperational /\ o_failure o <> None \/
     o_code o = ExitNotRunning /\ o_failure o <> None /\ words = ["status"] /\ exists msg, k_health m = Refused (Client.NoDaemon msg)).

Lemma status_coherent json_out socket h now : coherent (status json_out socket h now).
Proof.
  unfold status. destruct h as [h|[msg|st msg|msg]]; [| |by apply failf_coherent..].
  - destruct json_out; [apply writeJSON_coherent|apply printed_coherent].
  - destruct json_out; [|by apply failf_coherent]. cbn zeta. pose proof (writeJSON_coherent (c_text c_statusJSON (mkStatus false 0 0 "" socket))) as Hw.
    by destruct (r_err (writeJSON _)).
Qed.

Lemma up_control : control_like ["up"] newUpCmd.
Proof. intros m cfg fs args Do w o w' [= <- <-]. split; [done|]. unfold up. destruct (k_ensure m _ _) as [[pid started]|e]; [by left|by right; left]. Qed.

Lemma down_control : control_like ["down"] newDownCmd.
Proof.
  intros m cfg fs args Do w o w' Hd. apply fmap_Some in Hd as (o' & Hd & [= -> ->]). split; [done|]. unfold app_down in Hd.
  destruct (resolveDaemonPID _ _ _ _) as [[pid|]|e]; [|simplify_eq; by left|simplify_eq; by right; left].
  destruct (k_stop m pid _) as [[[] [x|]]|]; simplify_eq; first [by left|by right; left].
Qed.

Lemma status_control : control_like ["status"] newStatusCmd.
Proof.
  intros m cfg fs args Do w o w' [= <- <-]. split; [done|]. pose proof (status_exit (jsonOutput fs) (Settings.Socket cfg) (k_health m) (k_now m)) as Hs.
  pose proof (status_coherent (jsonOutput fs) (Settings.Socket cfg) (k_health m) (k_now m)) as Hc.
  destruct (status _ _ _ _) as [code out e]. unfold coherent in Hc. cbn [lifted o_code o_failure r_code r_err] in *. subst code.
  destruct (k_health m) as [h|[msg|st msg|msg]]; [left|right; right|right; left|right; left].
  - by rewrite (proj1 Hc).
  - split; [done|]. split; [|split; [done|by exists msg]]. destruct e; [done|discriminate (proj2 Hc eq_refl)].
  - destruct e; [done|discriminate (proj2 Hc eq_refl)].
  - destruct e; [done|discriminate (proj2 Hc eq_refl)].
Qed.

Lemma daemon_control : control_like ["daemon"] newDaemonCmd.
Proof. intros m cfg fs args Do w o w' [= <- <-]. split; [done|]. destruct (k_run m _); [by right; left|by left]. Qed.

(** Every command of the tree is of one kind. *)
Lemma tree_kinds : List.Forall (fun '(words, c) => if on_data words then data_like c else control_like words c) (newRootCmd yaml).
Proof.
  repeat (apply List.Forall_cons; [first [apply up_control|apply down_control|apply status_control|apply daemon_control
    |refine (_ : data_like _); intros m cfg fs args; pick; first [apply app_send_calls | apply app_actionApply_calls | apply app_actionShow_calls | call]]|]).
  apply List.Forall_nil.
Qed.

Lemma command_kind words c : command_at yaml words = Some c -> if on_data words then data_like c else control_like words c.
Proof.
  intros Hc. apply fmap_Some in Hc as ([words' c'] & Hf & ->). apply find_some in Hf as [Hin Hw]. apply bool_decide_eq_true in Hw. cbn [fst] in Hw. subst words'.
  pose proof tree_kinds as Hk. rewrite List.Forall_forall in Hk. exact (Hk _ Hin).
Qed.

(** What is behind the end of a data command. *)
Lemma data_outcome (cmd : result bool -> (string -> string -> W -> exchange * W) -> command) socket ensured Do w r w' :
  refuses_or_calls cmd socket -> cmd ensured Do w = (r, w') ->
  r_code r = ExitUsage /\ r_err r <> None /\ (forall ensured' Do' w0, cmd ensured' Do' w0 = (r, w0)) \/
  (r_code r = ExitOperational /\ r_err r <> None /\ (w' = w \/ exists q, w' = snd (invoke socket Do q w))) \/
  r_code r = ExitOK /\ r_err r = None /\ is_ok ensured = true /\ exists q a, invoke socket Do q w = (Got a, w').
Proof.
  intros [(code & e & Hcode & Hc)|(q & show & Hs & Hc)] Hrun; rewrite Hc in Hrun.
  - injection Hrun as <- <-. destruct Hcode as [->| ->].
    + left. split_and!; [done..|]. intros ensured' Do' w0. by rewrite Hc.
    + right; left. split_and!; [done..|by left].
  - right. unfold calling in Hrun. destruct ensured as [b|e]; [|injection Hrun as <- <-; left; split_and!; [done..|by left]].
    destruct (invoke socket Do q w) as [[a|e] w1] eqn:Ei; injection Hrun as <- <-.
    + destruct (Hs a) as [[H1 H2]|[H1 H2]]; [right|left; split_and!; [done..|]; right; exists q; by rewrite Ei]. split_and!; [done..|]. by exists q, a.
    + left. split_and!; [done..|]. right. exists q. by rewrite Ei.
Qed.

(** C22. The exit code of any run that returns is 0, 1, 2 or 3, and says what
    happened.  1: status found no daemon.  2: the command line, the settings or
    the input are at fault, whatever the daemon does, and no request was made.
    0, for a command on data: a daemon was found or started, and it answered the
    one request.  Only commands on data make a request, and never two. *)
Theorem exit_contract m (p : parsed) Do (w : W) code text w' :
  sonata yaml m p Do w = Some ((code, text), w') ->
  In code [ExitOK; ExitNotRunning; ExitUsage; ExitOperational] /\
  (code = ExitNotRunning -> exists fs args msg, p = Found ["status"] fs args /\ k_health m = Refused (Client.NoDaemon msg)) /\
  (code = ExitUsage -> forall m' (Do' : string -> string -> W -> exchange * W) w0, same_input m m' -> sonata yaml m' p Do' w0 = Some ((ExitUsage, text), w0)) /\
  (w' = w \/ exists words fs args cfg q, p = Found words fs args /\ on_data words = true /\ k_load m (string_var persistent_flags "config" fs) = Ok cfg /\
     w' = snd (invoke (Settings.Socket cfg) Do q w)) /\
  (forall words fs args, p = Found words fs args -> on_data words = true -> code = ExitOK ->
     exists cfg q a, k_load m (string_var persistent_flags "config" fs) = Ok cfg /\ is_ok (ensureClient m cfg) = true /\
       invoke (Settings.Socket cfg) Do q w = (Got a, w')).
Proof.
  unfold sonata. destruct p as [| | |words fs args]; [intros [= <- <- <-]; split_and!; try done; cbn; tauto..|].
  intros Hc. apply bind_Some in Hc as (c & Hc & Hrest). revert Hrest. pose proof (command_kind words c Hc) as Hkind.
  destruct (Nat.eqb (length args) (c_args c)) eqn:Ea; [|intros [= <- <- <-]; split_and!; try done; cbn; tauto]. cbn [negb].
  destruct (PersistentPreRun (k_bind m) (k_load m (string_var persistent_flags "config" fs)) (string_var persistent_flags "output" fs)) as [r|] eqn:Ep.
  { assert (r_code r = ExitUsage \/ r_code r = ExitOperational) as Hr.
    { unfold PersistentPreRun in Ep. destruct (k_bind m), (k_load m (string_var persistent_flags "config" fs)); [case_match; [done|]; injection Ep as <-; by left|injection Ep as <-; by right..]. }
    intros [= <- <- <-]. split_and!; try done; cbn [Cli.Execute].
    - destruct Hr as [-> | ->]; cbn; tauto.
    - by destruct Hr as [-> | ->].
    - intros Hu m' Do' w0 (-> & -> & _). rewrite Hc; cbn [mbind option_bind]; rewrite Ea, Ep. by rewrite Hu.
    - by left.
    - intros c' fs' args' _ _ Hx. destruct Hr as [Hr|Hr]; rewrite Hr in Hx; discriminate Hx. }
  destruct (k_load m (string_var persistent_flags "config" fs)) as [cfg|e] eqn:El; [|done].
  intros Hrun. apply bind_Some in Hrun as ([o w1] & Hl & [= <- <- <-]).
  destruct (on_data words) eqn:Ed.
  - destruct (Hkind m cfg fs args) as (cmd & Hcmd & Hrun). rewrite Hrun in Hl by done. destruct (cmd (ensureClient m cfg) Do w) as [r w2] eqn:Ec.
    injection Hl as <- <-. cbn [lifted o_failure o_code o_text].
    destruct (data_outcome _ _ _ _ _ _ _ Hcmd Ec) as [(Hu & He & Hall)|[(Ho & He & Hw)|(Ho & He & Hen & q & a & Hq)]];
      [destruct (r_err r) as [e|] eqn:Er; [|done]..|rewrite He]; cbn [fmap option_fmap option_map Cli.Execute]; rewrite ?Hu, ?Ho.
    + split_and!; try done; [cbn; tauto| |].
      * intros _ m' Do' w0 Hsame. destruct Hsame as (Hb & Hlo & Hrest). rewrite Hc; cbn [mbind option_bind]; rewrite Ea, Hb, Hlo, El, Ep. cbn [negb]. rewrite Hrun by done. rewrite Hall. cbn. by rewrite Er, Hu.
      * left. rewrite Hall in Ec. by injection Ec.
    + split_and!; try done; [cbn; tauto|]. destruct Hw as [->|[q ->]]; [by left|right]. by exists words, fs, args, cfg, q.
    + split_and!; try done; [cbn; tauto| |].
      * right. exists words, fs, args, cfg, q. by rewrite Hq.
      * intros c' fs' args' [= <- <- <-] _ _. by exists cfg, q, a.
  - destruct (Hkind _ _ _ _ _ _ _ _ Hl) as [-> Ho].
    destruct Ho as [[Ho He]|[[Ho He]|(Ho & He & -> & msg & Hh)]];
      [rewrite He|destruct (o_failure o) as [e|] eqn:Er; [|done]..]; cbn [Cli.Execute]; rewrite ?Ho.
    + split_and!; try done; [cbn; tauto|by left|]. intros c' fs' args' [= <- <- <-] Hx. by rewrite Ed in Hx.
    + split_and!; try done; [cbn; tauto|by left].
    + split_and!; try done; [cbn; tauto| |by left]. intros _. by exists fs, args, msg.
Qed.
End Contract.

(** *** [sonata queue list], and two runs that fail *)

Definition demo_config : Settings.Config := mkConfig "/s" "/s/sonata.sock" "/s/sonata.db" "info" 0 100 3 (300 * Second) Second (60 * Second) 4194304.
Definition demo_machine : machine :=
  mkMachine (Ok tt) (fun _ => Ok demo_config) (Ok "") (fun _ => Ok "") (fun _ _ => Ok (7, true)) (Refused (Client.NoDaemon "dial")) 0 (fun _ => 0)
    NoDaemon Locked (Ok "") (fun _ _ => None) (fun _ => None).
Definition demo_answers (_ _ : string) (n : nat) : exchange * nat := (Answers 200 demo_queues, S n).

Example exit_codes :
  let run c fs args := fst <$> (fst <$> sonata (H := toy_cel) (fun _ => YamlEmpty) demo_machine (Found (split_on " " c) fs args) demo_answers 0%nat) in
  run "queue list" [] [] = Some ExitOK /\
  run "status" [] [] = Some ExitNotRunning /\
  run "queue list" [("output", VString "xml")] [] = Some ExitUsage /\
  run "action show" [("version", VInt (-1))] ["a"] = Some ExitUsage /\
  run "send" [] ["raw"] = Some ExitUsage /\
  run "send" [] [] = Some ExitOperational.
Proof. vm_compute. repeat split. Qed.

Lemma exit_contract_witness :
  exists cfg q a, k_load demo_machine "" = Ok cfg /\ is_ok (ensureClient demo_machine cfg) = true /\
    invoke (Settings.Socket cfg) demo_answers q 0%nat = (Got a, 1%nat).
Proof.
  destruct (sonata (H := toy_cel) (fun _ => YamlEmpty) demo_machine (Found ["queue"; "list"] [] []) demo_answers 0%nat) as [[[code text] w']|] eqn:E.
  - assert ((fst <$> (fst <$> sonata (H := toy_cel) (fun _ => YamlEmpty) demo_machine (Found ["queue"; "list"] [] []) demo_answers 0%nat)) = Some ExitOK) as Hc by (vm_compute; reflexivity).
    assert ((snd <$> sonata (H := toy_cel) (fun _ => YamlEmpty) demo_machine (Found ["queue"; "list"] [] []) demo_answers 0%nat) = Some 1%nat) as Hw by (vm_compute; reflexivity).
    rewrite E in Hc, Hw. injection Hc as ->. injection Hw as ->.
    exact (proj2 (proj2 (proj2 (proj2 (exit_contract (H := toy_cel) _ _ _ _ _ _ _ _ E)))) ["queue"; "list"] [] [] eq_refl eq_refl eq_refl).
  - vm_compute in E. discriminate E.
Defined.
